(* ===== verification/_CoqProject ===== *)
-Q . S2P
Prelude.v
Text.v
Errors.v
Canonical.v
SigV4.v
Endpoint.v
Http.v
Retry.v
Quota.v
Types.v
Stream.v
Download.v
Xml.v
Records.v
Protocol.v
Response.v
Credentials.v
Config.v
Request.v
Execute.v
Crc.v
Multipart.v
Owned.v
Assembly.v
Headers.v
Calls.v
Objects.v
Parts.v
Listing.v
Operations.v
Delivery.v
Presign.v
Verify.v
Fetch.v
ToPath.v
Secrecy.v
Redaction.v
Fuzz.v
Standards.v
Testing.v
Serde.v
Wire.v
Sessions.v
Programs.v
Artifacts.v
Examples.v
Measure.v
SigningTests.v
ValueTests.v
ClientTests.v
StreamTests.v
ProtocolTests.v
PropertyTests.v
MockTests.v
