(* ===== verification/Prelude.v ===== *)
(** * s3-wire: a verification development

s3-wire ([src/src/]) is an asynchronous client for S3-compatible object stores:
typed operations over SigV4-signed HTTP requests, with bounded XML, verified
streaming bodies, retries under one deadline, presigned URLs and managed
multipart uploads. This development is a shallow embedding of it: a Rust
function is a Rocq function over the same data, an error is an [Err] of
[result], and what the code leaves to other crates, to the clock or to the
operating system is an argument. File names below are under [src/src/], those of
fuzz targets and examples under [src/].

** The parts of the program and their files

Shared: this file ([result] with its [let?], checked and saturating integers,
text as Rocq strings of bytes, lists, tactics and hints) and [Text] (byte order,
[BTreeMap] as a sorted association list, UTF-8, percent-decoding).

- [Errors]: error/mod.rs. The record [S3Error.t] and every constructor, update
  and [Display] of it.
- [Canonical], [SigV4]: signing/. Canonical URI, query and headers, the
  canonical request, the string to sign, header and query signatures.
- [Endpoint]: endpoint/mod.rs. [Endpoint_new], [object_url] in both addressing
  styles, changes of query and authority.
- [Http]: the interface [Http] of a header map with its laws [HttpLaws] and an
  instance, [assoc_http].
- [Retry], [Quota]: retry/mod.rs, client/request/retry.rs and the token bucket
  of client/mod.rs, whose atomic updates are the steps that interleave.
- [Types], [Records]: operation/. Validated values and the records of requests
  and responses with their constructors.
- [Crc]: operation/checksum.rs.
- [Stream], [Download]: stream/. The poll functions of upload and download
  bodies over the items of the underlying stream; file snapshots.
- [Xml], [Protocol]: protocol/. The guards of the XML reader, the bounded
  writer, and the conversion of every document.
- [Response]: client/request/response.rs. Collecting a bounded body, classifying
  and sanitising service errors.
- [Credentials], [Config]: credentials/mod.rs, config/mod.rs. The caching
  provider is a step relation of concurrent callers over its mutex.
- [Request]: client/request/headers.rs, signing.rs and transport/mod.rs.
- [Execute]: client/request/execute.rs, client/mod.rs, observer.rs. The attempt
  loop: its state is [Execution], the circumstances of each attempt (clock
  readings, the answer of the HTTP client, other users of the quota) one record
  [Attempt].
- [Calls]: the calls of [Execute] and [Response] as a state and error monad,
  [Service], over the [Session] that operations share: the quota, the events
  told to the observer and the requests sent ([wire]).
- [Headers], [Objects], [Parts], [Listing], [Presign], [ToPath]: client/object/,
  client/multipart/, client/presign.rs, client/download.rs. One definition per
  public method and one per helper; [Parts] is also the instance of the
  interface [MultipartApi].
- [Multipart], [Owned]: client/multipart_upload.rs. [Multipart] is the worker as
  a function of what happens to it, proved against [MultipartApi] and
  [MultipartApiLaws]; [Owned] is the worker cut at its awaits and interleaved
  with the caller's future and the runtime. [Assembly]: what its calls leave at
  a service with the documented behaviour ([MultipartStore],
  [MultipartStoreLaws]).
- [Operations]: all operations as one type, [op], and what they have in common;
  [Delivery]: what the uploads among them put on the wire.
- [Verify]: the service's side of a signature, the abstract specification that
  the signer and the attempt loop refine. It models no file of the program.
- [Standards]: SHA-256, HMAC, base64 and the calendar from their standards, as
  instances of the parameters, and the published test vectors run on the model.
- [Serde], [Wire]: the documents of protocol/ by their [serde] attributes over
  XML trees. Their reader and writer of XML stand in for quick-xml where the
  tests need one: they neither normalise line ends nor refuse control
  characters, and no numbered theorem rests on them. [request_bodies_round_trip]
  is about that reader and writer.
- [Testing] and the files of tests, run on those instances and on a standard
  parser of URIs and dates: [SigningTests] (signing/, endpoint/), [ValueTests]
  (retry/, operation/, error/, credentials/, config/), [ClientTests] (client/),
  [StreamTests] (stream/, transport/), [ProtocolTests] (protocol/),
  [PropertyTests] (tests/properties.rs) and [MockTests] (tests/mock_client.rs,
  whole operations against the mock server, with an MD5 of its own). A test is a
  boolean of the name it has in the source; the property tests are proved of
  every draw.
- [Sessions]: operations one after another over the shared state, where the
  theorems on one exchange are composed into theorems on all that a client
  sends.
- [Secrecy]: two runs compared, for what the secret access key reaches. It
  models no file either.
- [Redaction]: the [Debug] and [Display] implementations, as trees of calls on
  the formatter.
- [Fetch]: a download from the answer of the HTTP client to the caller's writer.
- [Fuzz]: fuzzing.rs and the fuzz targets. [Artifacts]:
  examples/artifact_store.rs, a store built on the client, [Examples]: the other
  examples, and [Measure]: tools/perf, the measurement tool, as programs over
  the client's operations ([Programs]).

An operation goes down these files as a call goes down the program: [Objects]
builds headers and query, [Calls] resolves the target ([Endpoint]) and runs
[Execute], which for each attempt signs ([Request], [SigV4], [Credentials],
[Config]), sends, and judges the answer ([Response], [Retry], [Quota]); the
accepted answer comes back through [Protocol] or as a [Download] stream.

** What is proved

- Signing: a canonical request has one reading (C10), encoders lose nothing and
  do not encode twice (C31, C23), a signature covers what is sent (C26), and a
  presigned URL does not outlive its credentials (C19). Against the service:
  what any operation sends, and what is sent for a presigned URL, passes the
  check of [Verify] (C1, C18), and the signatures are those that AWS publishes
  ([official_signing_vectors], computed on the published examples). The secret
  key shows in the digits of signatures and nowhere else (C7, C20), and no log
  holds a secret (C37).
- Requests: every request of every operation is its own (C12) and freshly signed
  for where it goes, with one redirect at most, inside AWS (C2, C27) and, for an
  HTTPS endpoint, over HTTPS (C28). An operation ends within its attempts (C13,
  C25), keeps the shared retry budget and the delays of its policy (C15, C40)
  and tells observer and caller what happened (C24).
- Bodies: what is uploaded is what was given (C5), whole and right or not at all
  (C8, C32); a download is whole and right or fails (C6), and replaces a file at
  once or not at all (C9).
- Multipart: parts partition the source (C22), each is uploaded once within the
  concurrency (C17), and the upload is completed or aborted, with the error that
  stopped it (C3), leaving the source as the object, or the object as it was,
  and never a part of the source (C4), however caller, worker and runtime
  interleave (C21); [record_parts_any_order] and C34 for lists of parts.
- Listings follow the token of each page to the end, within their bound and
  without repetition, and part listings in ascending order (C16, C33); an error
  is the one that is the case.
- What the service sends is checked before it is parsed (C35: the scanner of a
  completion's root alone reads without the check for declarations), and shown
  only when it passes a filter (C36); listed keys decode to what was encoded
  ([decode_url_field_roundtrip]), errors are classified for retry (C38), digests
  are checked exactly (C11), checksums are right (C30), configurations valid
  (C29) and the credential cache serves what it was last supplied, one refresh
  at a time (C14).

- A store built on the client collects what is not live, and nothing else (C39)
  and publishes manifests last; the examples leave no object
  ([examples_leave_nothing]), and a measurement leaves nothing behind
  ([measurement_cleans_up]).

Theorems that are not numbered are the lemmas of these, or plain facts of one
component.

** Bounds and fuel

Integers are [Z] with their width in the operation ([U64_MAX], [checked_mul],
[saturating_add]); [usize] is 64 bits. Recursion on a list of circumstances
takes the place of a loop that awaits: the result is [None] only when they run
out, and a theorem says how many are enough: [max_attempts] attempts (C13, C25),
[maximum_pages] exchanges (C16), 10,000 waits and 64 settlements of an upload
(C3), 10,070 steps of its worker (C21), as many polls as a body has items and
two (C32). [fill] has [concurrency] iterations, each of which adds a part. Times
and durations are nanoseconds.

** What is not modelled

- Crates that the source calls: parsing of URIs and authorities ([HttpUri],
  [HttpUriLaws]), header maps ([Http]) and HTTP dates ([HttpText]), SHA-256,
  HMAC and calendar formatting ([Primitives], [PrimitivesLaws]), MD5 and base64
  ([Md5], [Base64]), quick-xml, serde and RFC 3339 dates ([QuickXml],
  [Documents]): classes, with the documented behaviour relied on as laws;
  [Standards], [Testing] and [Serde] have instances that compute what the
  standards say, with which the tests run. [fmt_http_date] is total: a condition
  dated before 1970 or after 9999, on which httpdate panics, is not told apart.
- Hyper and Rustls: of the HTTP client there is what the code asks of it
  ([Connector]); the answer to a request is an argument. So are clock readings,
  random numbers, the environment ([World]) and the file system, whose
  operations may fail at any point.
- The AWS SDK's credential and region chains ([AwsSdk]). A snapshot of a file,
  once taken, can be opened again.
- Zeroing of memory, trivial accessors.
- lib.rs and module roots, the tests against live services, those of managed
  uploads against the mock server (their bodies of 5 MiB are too long to hash
  here), benches, unit tests of how often a task yields and of the size of a
  type, and the programs that compare binary sizes. *)

From stdpp Require Export base tactics option list strings sets sorting relations.
From Stdlib Require Export ZArith Lia Ascii String.
From stdpp Require Import options.

#[global] Open Scope Z_scope.
#[global] Arguments String.append : simpl nomatch.

(** ** Results *)

(** Rust's [Result<A, E>]. *)
Inductive result (E A : Type) : Type :=
| Ok (a : A)
| Err (e : E).
Arguments Ok {E A} a.
Arguments Err {E A} e.

Declare Scope s3_scope.
Delimit Scope s3_scope with s3.
#[global] Open Scope s3_scope.

(** The [?] operator: return early with the error. *)
Notation "'let?' x ':=' m 'in' k" :=
  (match m with Ok x => k | Err err_ => Err err_ end)
  (at level 10, x pattern, m at level 100, k at level 200) : s3_scope.

Definition ok_or {E A} (o : option A) (e : E) : result E A :=
  match o with Some a => Ok a | None => Err e end.

Definition map_err {E F A} (f : E -> F) (r : result E A) : result F A :=
  match r with Ok a => Ok a | Err e => Err (f e) end.

Definition result_map {E A B} (f : A -> B) (r : result E A) : result E B :=
  match r with Ok a => Ok (f a) | Err e => Err e end.

(** [Option<Result<A, E>>::transpose]. *)
Definition transpose {E A} (o : option (result E A)) : result E (option A) :=
  match o with
  | None => Ok None
  | Some (Ok a) => Ok (Some a)
  | Some (Err e) => Err e
  end.

(** [iter().map(f).collect::<Result<Vec<_>, _>>()]: stops at the first error. *)
Fixpoint try_map {E A B} (f : A -> result E B) (l : list A) : result E (list B) :=
  match l with
  | [] => Ok []
  | a :: l => let? b := f a in let? bs := try_map f l in Ok (b :: bs)
  end.

Definition is_ok {E A} (r : result E A) : bool :=
  match r with Ok _ => true | Err _ => false end.

(** ** Machine integers (values of [Z], bounds written out; [usize] is 64 bits) *)

Definition U8_MAX : Z := 2 ^ 8 - 1.
Definition U16_MAX : Z := 2 ^ 16 - 1.
Definition U32_MAX : Z := 2 ^ 32 - 1.
Definition U64_MAX : Z := 2 ^ 64 - 1.
Definition USIZE_MAX : Z := 2 ^ 64 - 1.

Definition checked_add (max a b : Z) : option Z :=
  if a + b <=? max then Some (a + b) else None.
Definition checked_sub (a b : Z) : option Z :=
  if b <=? a then Some (a - b) else None.
Definition checked_mul (max a b : Z) : option Z :=
  if a * b <=? max then Some (a * b) else None.
Definition saturating_add (max a b : Z) : Z := Z.min (a + b) max.
Definition saturating_sub (a b : Z) : Z := Z.max (a - b) 0.
Definition saturating_mul (max a b : Z) : Z := Z.min (a * b) max.
(** [a.div_ceil(b)] for unsigned [a] and non-zero [b]. *)
Definition div_ceil (a b : Z) : Z := (a + b - 1) / b.
(** [uN::try_from(a)]. *)
Definition try_from (max a : Z) : option Z := if a <=? max then Some a else None.

(** [std::time::Duration] as a number of nanoseconds. *)
Definition NANOS_PER_SEC : Z := 1000000000.
Definition DURATION_MAX : Z := U64_MAX * NANOS_PER_SEC + 999999999.
Definition from_secs (s : Z) : Z := s * NANOS_PER_SEC.
Definition from_millis (s : Z) : Z := s * 1000000.
Definition as_secs (d : Z) : Z := d / NANOS_PER_SEC.
Definition subsec_nanos (d : Z) : Z := d mod NANOS_PER_SEC.

(** ** Bytes and byte strings

A Rust [String], [&str], [Bytes], [Vec<u8>] or byte array is a Rocq [string]
whose characters are the bytes. *)

Definition byte (c : ascii) : Z := Z.of_N (N_of_ascii c).
Definition chr (z : Z) : ascii := ascii_of_N (Z.to_N z).

Definition in_range (lo hi : ascii) (c : ascii) : bool :=
  (byte lo <=? byte c) && (byte c <=? byte hi).
Definition is_ascii_digit (c : ascii) : bool := in_range "0" "9" c.
Definition is_ascii_lowercase (c : ascii) : bool := in_range "a" "z" c.
Definition is_ascii_uppercase (c : ascii) : bool := in_range "A" "Z" c.
Definition is_ascii_alphanumeric (c : ascii) : bool :=
  is_ascii_digit c || is_ascii_lowercase c || is_ascii_uppercase c.
Definition is_ascii_control (c : ascii) : bool := (byte c <? 32) || (byte c =? 127).
Definition is_ascii (c : ascii) : bool := byte c <? 128.

(** [matches!(byte, b'x' | b'y' | ...)] against the characters of a string. *)
Fixpoint one_of (set : string) (c : ascii) : bool :=
  match set with
  | EmptyString => false
  | String d set => Ascii.eqb c d || one_of set c
  end.

Definition ascii_lower (c : ascii) : ascii :=
  if is_ascii_uppercase c then chr (byte c + 32) else c.

Definition slen (s : string) : Z := Z.of_nat (String.length s).
Definition is_empty (s : string) : bool :=
  match s with EmptyString => true | String _ _ => false end.

(** [s.bytes().all(p)] and [s.bytes().any(p)]. *)
Fixpoint str_all (p : ascii -> bool) (s : string) : bool :=
  match s with EmptyString => true | String c s => p c && str_all p s end.
Fixpoint str_any (p : ascii -> bool) (s : string) : bool :=
  match s with EmptyString => false | String c s => p c || str_any p s end.
Fixpoint str_map (f : ascii -> ascii) (s : string) : string :=
  match s with EmptyString => EmptyString | String c s => String (f c) (str_map f s) end.
Fixpoint str_flat_map (f : ascii -> string) (s : string) : string :=
  match s with EmptyString => EmptyString | String c s => f c +:+ str_flat_map f s end.

Definition to_ascii_lowercase (s : string) : string := str_map ascii_lower s.
Definition eq_ignore_ascii_case (s t : string) : bool :=
  String.eqb (to_ascii_lowercase s) (to_ascii_lowercase t).
Definition contains_char (c : ascii) (s : string) : bool := str_any (Ascii.eqb c) s.

(** [s.strip_prefix(p)]. *)
Fixpoint strip_prefix (p s : string) : option string :=
  match p, s with
  | EmptyString, _ => Some s
  | String a p, String b s => if Ascii.eqb a b then strip_prefix p s else None
  | String _ _, EmptyString => None
  end.
Definition starts_with (p s : string) : bool :=
  match strip_prefix p s with Some _ => true | None => false end.

Fixpoint str_rev_app (s acc : string) : string :=
  match s with EmptyString => acc | String c s => str_rev_app s (String c acc) end.
Definition str_rev (s : string) : string := str_rev_app s EmptyString.

(** [s.strip_suffix(p)]. *)
Definition strip_suffix (p s : string) : option string :=
  match strip_prefix (str_rev p) (str_rev s) with
  | Some r => Some (str_rev r)
  | None => None
  end.
Definition ends_with (p s : string) : bool :=
  match strip_suffix p s with Some _ => true | None => false end.

(** [s.contains(needle)]. *)
Fixpoint contains_str (needle s : string) : bool :=
  starts_with needle s ||
  match s with EmptyString => false | String _ s => contains_str needle s end.

(** [s.split_once(c)]: the parts before and after the first [c]. *)
Fixpoint split_once (c : ascii) (s : string) : option (string * string) :=
  match s with
  | EmptyString => None
  | String d s =>
      if Ascii.eqb d c then Some (EmptyString, s)
      else match split_once c s with
           | Some (a, b) => Some (String d a, b)
           | None => None
           end
  end.

(** [v.join(sep)]. *)
Fixpoint join (sep : string) (l : list string) : string :=
  match l with
  | [] => EmptyString
  | [s] => s
  | s :: l => s +:+ sep +:+ join sep l
  end.

Definition LF : string := String (chr 10) EmptyString.

(** Decimal rendering of an unsigned integer ([to_string]); 20 digits hold
every [u64], and the fuel is that bound. *)
Definition digit_char (d : Z) : ascii := chr (48 + d).
Fixpoint dec_go (fuel : nat) (n : Z) (acc : string) : string :=
  match fuel with
  | O => acc
  | S fuel =>
      let acc := String (digit_char (n mod 10)) acc in
      if n / 10 =? 0 then acc else dec_go fuel (n / 10) acc
  end.
Definition to_string (n : Z) : string := dec_go 20 n EmptyString.

(** [value.parse::<u64>()] and friends: an optional [+], then one or more
digits, with overflow checked at every step. *)
Fixpoint parse_digits (max acc : Z) (s : string) : option Z :=
  match s with
  | EmptyString => Some acc
  | String c s =>
      if is_ascii_digit c then
        let acc := acc * 10 + (byte c - 48) in
        if acc <=? max then parse_digits max acc s else None
      else None
  end.
Definition parse_uint (max : Z) (s : string) : option Z :=
  match s with
  | EmptyString => None
  | String "+" EmptyString => None
  | String "+" s => parse_digits max 0 s
  | _ => parse_digits max 0 s
  end.

#[global] Arguments byte : simpl never.
#[global] Arguments chr : simpl never.
#[global] Arguments one_of : simpl never.
#[global] Arguments in_range : simpl never.
#[global] Arguments join : simpl never.

(** ** Tactics *)

(** Case analysis on all 256 bytes, the goal being closed by computation. *)
Ltac all_bytes c :=
  destruct c as [[] [] [] [] [] [] [] []]; vm_compute;
  try reflexivity; try discriminate; try (split; congruence).

(** Inverts equations between constructors of [result], [option] and pairs. *)
Ltac inv_ok :=
  repeat match goal with
  | H : Ok _ = Ok _ |- _ => inversion H; subst; clear H
  | H : Err _ = Err _ |- _ => inversion H; subst; clear H
  | H : Ok _ = Err _ |- _ => discriminate H
  | H : Err _ = Ok _ |- _ => discriminate H
  | H : Some _ = Some _ |- _ => inversion H; subst; clear H
  | H : Some _ = None |- _ => discriminate H
  | H : None = Some _ |- _ => discriminate H
  end.

(** Destructs the next [match] or [if] of a hypothesis about a computation. *)
Ltac step_in H :=
  match type of H with
  | context [match ?x with _ => _ end] =>
      lazymatch x with
      | context [match _ with _ => _ end] => fail
      | _ => destruct x eqn:?
      end
  end; inv_ok; try discriminate.
Ltac steps_in H := repeat step_in H.

(** Cases on the first condition of an [if] in the goal. *)
Ltac if_case E := match goal with |- context [if ?b then _ else _] => destruct b eqn:E end.

(** Turns boolean facts into arithmetic and logical ones. *)
Ltac bools :=
  repeat match goal with
  | H : _ && _ = true |- _ => apply andb_true_iff in H; destruct H
  | H : _ || _ = false |- _ => apply orb_false_iff in H; destruct H
  | H : negb _ = true |- _ => apply negb_true_iff in H
  | H : negb _ = false |- _ => apply negb_false_iff in H
  | H : (_ <=? _) = true |- _ => apply Z.leb_le in H
  | H : (_ <=? _) = false |- _ => apply Z.leb_gt in H
  | H : (_ <? _) = true |- _ => apply Z.ltb_lt in H
  | H : (_ <? _) = false |- _ => apply Z.ltb_ge in H
  | H : (_ =? _) = true |- _ => apply Z.eqb_eq in H
  | H : (_ =? _) = false |- _ => apply Z.eqb_neq in H
  | H : String.eqb _ _ = true |- _ => apply String.eqb_eq in H
  | H : String.eqb _ _ = false |- _ => apply String.eqb_neq in H
  | H : Ascii.eqb _ _ = true |- _ => apply Ascii.eqb_eq in H
  | H : Ascii.eqb _ _ = false |- _ => apply Ascii.eqb_neq in H
  end.

(** ** Lemmas on bytes and strings *)

Lemma byte_range c : 0 <= byte c < 256.
Proof. all_bytes c. Qed.

Lemma chr_byte c : chr (byte c) = c.
Proof. unfold chr, byte. rewrite N2Z.id. apply ascii_N_embedding. Qed.

Lemma byte_chr z : 0 <= z < 256 -> byte (chr z) = z.
Proof.
  intros H. unfold chr, byte. rewrite N_ascii_embedding by lia. lia.
Qed.

Lemma byte_inj c d : byte c = byte d -> c = d.
Proof. intros H. rewrite <- (chr_byte c), <- (chr_byte d), H. reflexivity. Qed.

Lemma app_nil_r_str (s : string) : s +:+ EmptyString = s.
Proof. induction s; simpl; congruence. Qed.

Lemma app_assoc_str (s t u : string) : (s +:+ t) +:+ u = s +:+ (t +:+ u).
Proof. induction s; simpl; congruence. Qed.

Lemma slen_app s t : slen (s +:+ t) = slen s + slen t.
Proof. unfold slen. induction s; simpl String.length in *; simpl; lia. Qed.

Lemma str_length_app s t : String.length (s +:+ t) = (String.length s + String.length t)%nat.
Proof. induction s; simpl; congruence. Qed.

Lemma slen_cons c s : slen (String c s) = 1 + slen s.
Proof. unfold slen. simpl String.length. lia. Qed.

Lemma slen_nonneg s : 0 <= slen s.
Proof. unfold slen. lia. Qed.

Lemma str_all_app p s t : str_all p (s +:+ t) = str_all p s && str_all p t.
Proof. induction s; simpl; [done|]. rewrite IHs. apply andb_assoc. Qed.

Lemma str_any_app p s t : str_any p (s +:+ t) = str_any p s || str_any p t.
Proof. induction s; simpl; [done|]. rewrite IHs. apply orb_assoc. Qed.

Lemma contains_char_app c s t :
  contains_char c (s +:+ t) = contains_char c s || contains_char c t.
Proof. apply str_any_app. Qed.

Lemma contains_char_cons c d s : contains_char c (String d s) = false ->
  Ascii.eqb d c = false /\ contains_char c s = false.
Proof. rewrite Ascii.eqb_sym. unfold contains_char. cbn [str_any]. apply orb_false_iff. Qed.

Lemma str_all_impl (p q : ascii -> bool) s :
  (forall c, p c = true -> q c = true) -> str_all p s = true -> str_all q s = true.
Proof.
  intros Hpq. induction s; simpl; [done|]. intros H. bools.
  rewrite Hpq, IHs by done. done.
Qed.

Lemma digit_char_is_digit d : 0 <= d < 10 -> is_ascii_digit (digit_char d) = true.
Proof.
  intros H. assert (E : d = 0 \/ d = 1 \/ d = 2 \/ d = 3 \/ d = 4 \/ d = 5 \/ d = 6 \/ d = 7
    \/ d = 8 \/ d = 9) by lia. by destruct_or! E; subst.
Qed.

Lemma to_string_digits n : str_all is_ascii_digit (to_string n) = true.
Proof.
  unfold to_string. assert (H : forall f m acc, str_all is_ascii_digit acc = true ->
    str_all is_ascii_digit (dec_go f m acc) = true).
  { induction f as [|f IH]; intros m acc Ha; cbn [dec_go]; [done|].
    assert (D : is_ascii_digit (digit_char (m mod 10)) = true)
      by (apply digit_char_is_digit; apply Z.mod_pos_bound; lia).
    destruct (m / 10 =? 0); [|apply IH]; cbn [str_all]; by rewrite D, Ha. }
  by apply H.
Qed.

Lemma parse_uint_nonneg max s n : parse_uint max s = Some n -> 0 <= n.
Proof.
  assert (H : forall t acc m, 0 <= acc -> parse_digits max acc t = Some m -> 0 <= m).
  { induction t as [|c t IH]; cbn [parse_digits]; intros acc m Ha E; [by injection E as <-|].
    destruct (is_ascii_digit c) eqn:D; [|done]. unfold is_ascii_digit, in_range in D.
    apply andb_true_iff in D as [D%Z.leb_le _]. change (byte "0") with 48 in D.
    destruct (_ <=? max); [|done]. eapply IH; [|exact E]. lia. }
  unfold parse_uint. intros E. repeat case_match; try done; eapply H; try exact E; lia.
Qed.

(** Decimal digits are read back. *)
Lemma dec_go_parse max fuel n acc : 0 <= n < 10 ^ Z.of_nat fuel -> n <= max -> fuel <> O ->
  parse_digits max 0 (dec_go fuel n acc) = parse_digits max n acc.
Proof.
  assert (D : forall d t a, 0 <= d < 10 -> a * 10 + d <= max ->
    parse_digits max a (String (digit_char d) t) = parse_digits max (a * 10 + d) t).
  { intros d t a Hd Ha. cbn [parse_digits]. rewrite digit_char_is_digit by done.
    unfold digit_char. rewrite byte_chr by lia. replace (a * 10 + (48 + d - 48)) with (a * 10 + d) by lia.
    by destruct (Z.leb_spec (a * 10 + d) max); [|lia]. }
  revert n acc. induction fuel as [|fuel IH]; intros n acc Hn Hm Hf; [done|].
  pose proof (Z.div_mod n 10). pose proof (Z.mod_pos_bound n 10). pose proof (Z.div_pos n 10).
  cbn [dec_go]. destruct (Z.eqb_spec (n / 10) 0) as [E|E].
  - rewrite D by lia. f_equal. lia.
  - assert (fuel <> O). { intros ->. apply E, Z.div_small. cbn in Hn. lia. }
    rewrite IH.
    + rewrite D by lia. f_equal. lia.
    + rewrite Nat2Z.inj_succ, Z.pow_succ_r in Hn by lia.
      split; [lia|]. apply Z.div_lt_upper_bound; lia.
    + lia.
    + done.
Qed.

Lemma parse_uint_digits max s : is_empty s = false -> str_all is_ascii_digit s = true ->
  parse_uint max s = parse_digits max 0 s.
Proof. destruct s as [|c s]; [done|]. intros _. cbn. intros Hs. bools. revert H. clear. all_bytes c. Qed.

Lemma to_string_nonempty n : is_empty (to_string n) = false.
Proof.
  unfold to_string.
  assert (G : forall f n acc, is_empty acc = false -> is_empty (dec_go f n acc) = false).
  { clear. induction f as [|f IH]; intros n acc Ha; [done|]. cbn. destruct (_ =? 0); [done|by apply IH]. }
  change (dec_go 20 n "") with
    (let acc := String (digit_char (n mod 10)) "" in
     if n / 10 =? 0 then acc else dec_go 19 (n / 10) acc).
  cbv zeta. destruct (n / 10 =? 0); [done|]. by apply G.
Qed.

Lemma parse_uint_to_string max n : 0 <= n <= max -> max <= U64_MAX ->
  parse_uint max (to_string n) = Some n.
Proof.
  intros Hn Hm. rewrite parse_uint_digits by (apply to_string_nonempty || apply to_string_digits).
  unfold to_string. rewrite dec_go_parse; [done| |lia|done].
  split; [lia|]. unfold U64_MAX in Hm. change (10 ^ Z.of_nat 20) with 100000000000000000000. lia.
Qed.

Lemma str_all_flat_map p f s :
  (forall c, str_all p (f c) = true) -> str_all p (str_flat_map f s) = true.
Proof. intros H. induction s; simpl; [done|]. rewrite str_all_app, H, IHs. done. Qed.

Lemma str_any_none p q s :
  (forall c, p c = true -> q c = false) -> str_all p s = true -> str_any q s = false.
Proof.
  intros Hpq. induction s; simpl; [done|]. intros H. bools.
  rewrite Hpq, IHs by done. done.
Qed.

Lemma str_any_false p s : str_any p s = false <-> str_all (fun c => negb (p c)) s = true.
Proof.
  induction s as [|c s IH]; simpl; [done|].
  rewrite orb_false_iff, andb_true_iff, negb_true_iff, IH. done.
Qed.

Lemma str_any_ext p q s : (forall c, p c = q c) -> str_any p s = str_any q s.
Proof. intros H. induction s; simpl; congruence. Qed.

Lemma str_flat_map_app f s t :
  str_flat_map f (s +:+ t) = str_flat_map f s +:+ str_flat_map f t.
Proof. induction s; simpl; [done|]. by rewrite IHs, app_assoc_str. Qed.

Lemma str_flat_map_ext f g s : (forall c, f c = g c) -> str_flat_map f s = str_flat_map g s.
Proof. intros H. induction s; simpl; congruence. Qed.

Lemma app_inj_l s t u : s +:+ t = s +:+ u -> t = u.
Proof. induction s; simpl; [done|]. intros [=]. auto. Qed.

Lemma strip_prefix_app p s : strip_prefix p (p +:+ s) = Some s.
Proof. induction p; simpl; [done|]. by rewrite Ascii.eqb_refl. Qed.

Lemma strip_prefix_Some p s r : strip_prefix p s = Some r -> s = p +:+ r.
Proof.
  revert s; induction p as [|a p IH]; intros [|b s]; simpl; intros H; try congruence.
  destruct (Ascii.eqb a b) eqn:E; [|discriminate]. bools. subst.
  f_equal; by apply IH.
Qed.

Lemma starts_with_app p s : starts_with p (p +:+ s) = true.
Proof. unfold starts_with. by rewrite strip_prefix_app. Qed.

Lemma str_rev_app_spec s acc : str_rev_app s acc = str_rev s +:+ acc.
Proof.
  unfold str_rev. revert acc. induction s as [|c s IH]; intros acc; simpl; [done|].
  rewrite IH, (IH (String c EmptyString)), app_assoc_str. done.
Qed.

Lemma str_rev_cons c s : str_rev (String c s) = str_rev s +:+ String c EmptyString.
Proof. unfold str_rev at 1. simpl. apply str_rev_app_spec. Qed.

Lemma str_rev_append s t : str_rev (s +:+ t) = str_rev t +:+ str_rev s.
Proof.
  induction s as [|c s IH]; simpl; [by rewrite app_nil_r_str|].
  rewrite !str_rev_cons, IH, app_assoc_str. done.
Qed.

Lemma str_rev_involutive s : str_rev (str_rev s) = s.
Proof.
  induction s as [|c s IH]; [done|].
  rewrite str_rev_cons, str_rev_append, IH. done.
Qed.

Lemma str_all_rev p s : str_all p (str_rev s) = str_all p s.
Proof.
  induction s as [|c s IH]; [done|]. rewrite str_rev_cons, str_all_app, IH. simpl.
  rewrite andb_true_r. apply andb_comm.
Qed.

Lemma app_inj_r s t u : s +:+ u = t +:+ u -> s = t.
Proof.
  intros E. apply (f_equal str_rev) in E. rewrite !str_rev_append in E. apply app_inj_l in E.
  apply (f_equal str_rev) in E. by rewrite !str_rev_involutive in E.
Qed.

Lemma strip_suffix_app p s : strip_suffix p (s +:+ p) = Some s.
Proof.
  unfold strip_suffix. by rewrite str_rev_append, strip_prefix_app, str_rev_involutive.
Qed.

Lemma strip_suffix_Some p s r : strip_suffix p s = Some r -> s = r +:+ p.
Proof.
  unfold strip_suffix. destruct (strip_prefix _ _) as [q|] eqn:E; intros; inv_ok.
  apply strip_prefix_Some in E.
  rewrite <- (str_rev_involutive s), E, str_rev_append, str_rev_involutive. done.
Qed.

Lemma ends_with_app p s : ends_with p (s +:+ p) = true.
Proof. unfold ends_with. by rewrite strip_suffix_app. Qed.

Lemma ends_with_Some p s : ends_with p s = true -> exists r, s = r +:+ p.
Proof.
  unfold ends_with. destruct (strip_suffix p s) eqn:E; [|done]. intros _.
  apply strip_suffix_Some in E. eauto.
Qed.

Lemma split_once_app c s t :
  contains_char c s = false -> split_once c (s +:+ String c t) = Some (s, t).
Proof.
  unfold contains_char. induction s as [|d s IH]; simpl; intros H.
  - by rewrite Ascii.eqb_refl.
  - bools. rewrite Ascii.eqb_sym. destruct (Ascii.eqb c d) eqn:E; [bools; congruence|].
    by rewrite IH.
Qed.

Lemma split_once_Some c s a b :
  split_once c s = Some (a, b) -> s = a +:+ String c b /\ contains_char c a = false.
Proof.
  revert a; induction s as [|d s IH]; simpl; intros a H; [discriminate|].
  destruct (Ascii.eqb d c) eqn:E; bools; subst; inv_ok; [done|].
  destruct (split_once c s) as [[x y]|] eqn:E2; inv_ok.
  destruct (IH x) as [-> Hx]; [done|]. unfold contains_char in *. split; [done|]. simpl.
  rewrite Hx, orb_false_r. apply Ascii.eqb_neq. congruence.
Qed.

Lemma split_once_None c s : contains_char c s = false -> split_once c s = None.
Proof.
  unfold contains_char. induction s as [|d s IH]; simpl; [done|]. intros H. bools.
  rewrite Ascii.eqb_sym. destruct (Ascii.eqb c d) eqn:E; [bools; congruence|].
  by rewrite IH.
Qed.

Lemma split_once_absent c s : split_once c s = None -> contains_char c s = false.
Proof.
  unfold contains_char. induction s as [|d s IH]; [done|]. simpl.
  rewrite (Ascii.eqb_sym c d). destruct (Ascii.eqb d c); [done|].
  destruct (split_once c s) as [[? ?]|]; [done|]. auto.
Qed.

Lemma to_ascii_lowercase_idemp s : to_ascii_lowercase (to_ascii_lowercase s) = to_ascii_lowercase s.
Proof.
  unfold to_ascii_lowercase. induction s as [|c s IH]; simpl; [done|].
  rewrite IH. f_equal. all_bytes c.
Qed.

(** ** Lemmas on lists *)

Lemma filter_none {A} (P : A -> Prop) `{!forall x, Decision (P x)} l :
  Forall (fun x => ~ P x) l -> filter P l = [].
Proof. induction 1; [done|]. rewrite filter_cons. by case_decide. Qed.

(** ** Lemmas on the result monad *)

Lemma try_map_ok {E A B} (f : A -> result E B) l bs :
  try_map f l = Ok bs <-> Forall2 (fun a b => f a = Ok b) l bs.
Proof.
  revert bs; induction l as [|a l IH]; simpl; intros bs.
  - split; intros H; [inv_ok; constructor | inversion H; done].
  - split; intros H.
    + steps_in H. constructor; [done|]. by apply IH.
    + inversion H as [|? b ? bs' Hb Hbs]; subst. rewrite Hb.
      apply IH in Hbs. by rewrite Hbs.
Qed.

(** ** Hints *)

Create HintDb s3.
#[export] Hint Rewrite slen_app slen_cons app_nil_r_str app_assoc_str
  str_all_app str_any_app : s3.
#[export] Hint Resolve slen_nonneg byte_range : s3.

(** How many groups of [d] hold [l]. *)
Lemma div_ceil_bounds l d : 0 < d -> 0 < l ->
  (div_ceil l d - 1) * d < l /\ l <= div_ceil l d * d /\ 1 <= div_ceil l d.
Proof.
  intros Hd Hl. unfold div_ceil. pose proof (Z.div_mod (l + d - 1) d ltac:(lia)).
  pose proof (Z.mod_pos_bound (l + d - 1) d Hd).
  assert (0 < (l + d - 1) / d) by (apply Z.div_str_pos; lia). nia.
Qed.
