(* ===== verification/Text.v ===== *)
(** Text the components share: the byte-lexicographic order Rust's [Ord] gives
strings and pairs of strings, a [BTreeMap] as a strictly sorted association
list, UTF-8 validity, hexadecimal digits, and percent-decoding as the reference
against which the encoders are proved. *)

From S2P Require Import Prelude.
From stdpp Require Import sorting sets.
From stdpp Require Import options.
Local Open Scope Z_scope.

(** ** Order *)

Fixpoint str_leb (s t : string) : bool :=
  match s, t with
  | EmptyString, _ => true
  | String _ _, EmptyString => false
  | String a s, String b t =>
      if byte a <? byte b then true
      else if byte a =? byte b then str_leb s t else false
  end.
Definition str_le (s t : string) : Prop := str_leb s t = true.
Definition str_lt (s t : string) : Prop := str_le s t /\ s <> t.

(** [Ord] of a tuple: by the first component, then by the second. *)
Definition pair_le (p q : string * string) : Prop :=
  if decide (p.1 = q.1) then str_le p.2 q.2 else str_le p.1 q.1.

#[export] Instance str_le_dec : RelDecision str_le.
Proof. intros s t. unfold str_le. apply _. Defined.
#[export] Instance pair_le_dec : RelDecision pair_le.
Proof. intros p q. unfold pair_le. destruct (decide (p.1 = q.1)); apply _. Defined.

(** ** [BTreeMap<String, V>]: bindings in ascending key order *)

Section btree.
Context {V : Type}.

Fixpoint btree_get (k : string) (m : list (string * V)) : option V :=
  match m with
  | [] => None
  | (k', v) :: m => if String.eqb k k' then Some v else btree_get k m
  end.

(** [*map.entry(k).or_insert(d) = f(..)]: update or insert at the sorted place. *)
Fixpoint btree_upsert (d : V) (f : V -> V) (k : string) (m : list (string * V))
  : list (string * V) :=
  match m with
  | [] => [(k, f d)]
  | (k', v) :: m' =>
      if String.eqb k k' then (k', f v) :: m'
      else if str_leb k k' then (k, f d) :: m
      else (k', v) :: btree_upsert d f k m'
  end.

Definition btree_sorted (m : list (string * V)) : Prop :=
  StronglySorted str_lt (m.*1).
End btree.

(** [map.insert(k, v)]. *)
Definition btree_insert {V} (k : string) (v : V) (m : list (string * V)) :=
  btree_upsert v (fun _ => v) k m.

(** ** UTF-8 *)

(** Length of the character a leading byte announces ([char::len_utf8] of the
character that starts there). *)
Definition utf8_len (c : ascii) : nat :=
  if byte c <? 192 then 1 else if byte c <? 224 then 2
  else if byte c <? 240 then 3 else 4.

Definition is_cont (c : ascii) : bool := (128 <=? byte c) && (byte c <=? 191).
Definition between (lo hi : Z) (c : ascii) : bool := (lo <=? byte c) && (byte c <=? hi).

(** [std::str::from_utf8] accepts exactly these byte strings. *)
Fixpoint utf8_valid (s : string) : bool :=
  match s with
  | EmptyString => true
  | String c s =>
      if byte c <? 128 then utf8_valid s
      else match s with
      | EmptyString => false
      | String c1 s =>
          if between 194 223 c then is_cont c1 && utf8_valid s
          else match s with
          | EmptyString => false
          | String c2 s =>
              if between 224 239 c then
                (if byte c =? 224 then between 160 191 c1
                 else if byte c =? 237 then between 128 159 c1 else is_cont c1)
                && is_cont c2 && utf8_valid s
              else match s with
              | EmptyString => false
              | String c3 s =>
                  between 240 244 c &&
                  (if byte c =? 240 then between 144 191 c1
                   else if byte c =? 244 then between 128 143 c1 else is_cont c1)
                  && is_cont c2 && is_cont c3 && utf8_valid s
              end
          end
      end
  end.

(** [char::is_whitespace] on UTF-8 text: the code points of [White_Space].
[trim_is_empty s] is [s.trim().is_empty()], every character being one. *)
Fixpoint trim_is_empty (s : string) : bool :=
  match s with
  | EmptyString => true
  | String a s1 =>
      if between 9 13 a || (byte a =? 32) then trim_is_empty s1
      else
        match s1 with
        | String b s2 =>
            if (byte a =? 194) && ((byte b =? 133) || (byte b =? 160)) then trim_is_empty s2
            else
              match s2 with
              | String c s3 =>
                  if ((byte a =? 225) && (byte b =? 154) && (byte c =? 128))
                     || ((byte a =? 226) && (byte b =? 128)
                         && (between 128 138 c || between 168 169 c || (byte c =? 175)))
                     || ((byte a =? 226) && (byte b =? 129) && (byte c =? 159))
                     || ((byte a =? 227) && (byte b =? 128) && (byte c =? 128))
                  then trim_is_empty s3 else false
              | EmptyString => false
              end
        | EmptyString => false
        end
  end.

(** ** Slices *)

(** The first [n] bytes and the rest ([&s[..n]], [&s[n..]], clipped). *)
Fixpoint str_take (n : Z) (s : string) : string :=
  match s with
  | EmptyString => EmptyString
  | String c t => if n <=? 0 then EmptyString else String c (str_take (n - 1) t)
  end.
Fixpoint str_drop (n : Z) (s : string) : string :=
  match s with
  | EmptyString => EmptyString
  | String c t => if n <=? 0 then s else str_drop (n - 1) t
  end.

Fixpoint str_concat (l : list string) : string :=
  match l with [] => EmptyString | s :: l => s +:+ str_concat l end.

(** [s.chunks(size)]. *)
Fixpoint chunks_go (size room : Z) (s cur : string) : list string :=
  match s with
  | EmptyString => if is_empty cur then [] else [cur]
  | String c s =>
      if room <=? 1 then (cur +:+ String c "") :: chunks_go size size s ""
      else chunks_go size (room - 1) s (cur +:+ String c "")
  end.
Definition chunks (size : Z) (s : string) : list string := chunks_go size size s "".

(** ** Hexadecimal *)

Definition HEX_UPPER : string := "0123456789ABCDEF".
Definition HEX_LOWER : string := "0123456789abcdef".

(** [HEX[usize::from(d)]]; every index the code uses is below 16. *)
Definition hex_at (table : string) (d : Z) : ascii :=
  match String.get (Z.to_nat d) table with Some c => c | None => "0"%char end.

Definition hi4 (c : ascii) : Z := Z.shiftr (byte c) 4.
Definition lo4 (c : ascii) : Z := Z.land (byte c) 15.

(** [%XX] for one byte. *)
Definition percent (c : ascii) : string :=
  String "%" (String (hex_at HEX_UPPER (hi4 c)) (String (hex_at HEX_UPPER (lo4 c)) "")).

(** [const fn hex_value]: the value of a hexadecimal digit. *)
Definition hex_digit_value (c : ascii) : option Z :=
  if in_range "0" "9" c then Some (byte c - byte "0")
  else if in_range "a" "f" c then Some (byte c - byte "a" + 10)
  else if in_range "A" "F" c then Some (byte c - byte "A" + 10)
  else None.

(** Reference percent-decoder. *)
Fixpoint pct_decode (s : string) : option string :=
  match s with
  | EmptyString => Some EmptyString
  | String c s =>
      if Ascii.eqb c "%" then
        match s with
        | String h (String l s) =>
            match hex_digit_value h, hex_digit_value l, pct_decode s with
            | Some a, Some b, Some r => Some (String (chr (a * 16 + b)) r)
            | _, _, _ => None
            end
        | _ => None
        end
      else match pct_decode s with Some r => Some (String c r) | None => None end
  end.

(** ** Lemmas: order *)

#[export] Instance str_le_refl : Reflexive str_le.
Proof.
  intros s. unfold str_le. induction s as [|c s IH]; simpl; [done|].
  rewrite Z.ltb_irrefl, Z.eqb_refl. done.
Qed.

#[export] Instance str_le_trans : Transitive str_le.
Proof.
  unfold str_le. intros s; induction s as [|a s IH]; intros [|b t] [|c u]; simpl;
    intros H1 H2; try done.
  repeat case_match; bools; try done; try lia. by apply (IH t).
Qed.

#[export] Instance str_le_antisymm : AntiSymm (=) str_le.
Proof.
  unfold str_le. intros s; induction s as [|a s IH]; intros [|b t]; simpl;
    intros H1 H2; try done.
  repeat case_match; bools; try done; try lia.
  f_equal; [by apply byte_inj | by apply IH].
Qed.

#[export] Instance str_le_total : Total str_le.
Proof.
  unfold str_le. intros s; induction s as [|a s IH]; intros [|b t]; simpl; auto.
  repeat case_match; bools; auto; try lia.
Qed.

#[export] Instance str_lt_trans : Transitive str_lt.
Proof.
  intros s t u [H1 N1] [H2 N2]. split; [by transitivity t|].
  intros ->. apply N1. by apply (anti_symm str_le).
Qed.

Lemma str_lt_irrefl s : ~ str_lt s s.
Proof. by intros [_ []]. Qed.

Lemma str_leb_false s t : str_leb s t = false -> str_lt t s.
Proof.
  intros H. destruct (total str_le s t) as [H'|H']; unfold str_le in *; [congruence|].
  split; [done|]. intros ->. assert (str_le s s) as E by reflexivity.
  unfold str_le in E. congruence.
Qed.

#[export] Instance pair_le_trans : Transitive pair_le.
Proof.
  intros [a b] [c d] [e f]; unfold pair_le; simpl.
  repeat case_decide; subst; try congruence; intros L1 L2; try done.
  - by transitivity d.
  - pose proof (anti_symm str_le _ _ L1 L2). congruence.
  - by transitivity c.
Qed.

#[export] Instance pair_le_antisymm : AntiSymm (=) pair_le.
Proof.
  intros [a b] [c d]; unfold pair_le; simpl.
  repeat case_decide; subst; try congruence; intros L1 L2.
  - f_equal. by apply (anti_symm str_le).
  - pose proof (anti_symm str_le _ _ L1 L2). congruence.
Qed.

#[export] Instance pair_le_total : Total pair_le.
Proof.
  intros [a b] [c d]; unfold pair_le; simpl.
  repeat case_decide; subst; try congruence; apply (total str_le).
Qed.

(** ** Lemmas: [BTreeMap] *)

Section btree_lemmas.
Context {V : Type}.
Implicit Types m : list (string * V).

Lemma btree_upsert_keys d f k m x :
  x ∈ (btree_upsert d f k m).*1 <-> x = k \/ x ∈ m.*1.
Proof.
  induction m as [|[k' v] m IH]; simpl.
  - rewrite elem_of_cons. set_solver.
  - destruct (String.eqb k k') eqn:E; bools; simpl.
    + subst. set_solver.
    + destruct (str_leb k k'); simpl; set_solver.
Qed.

Lemma btree_upsert_sorted d f k m :
  btree_sorted m -> btree_sorted (btree_upsert d f k m).
Proof.
  unfold btree_sorted. induction m as [|[k' v] m IH]; simpl; intros Hs.
  - repeat constructor.
  - apply StronglySorted_inv in Hs as [Hs Hall].
    destruct (String.eqb k k') eqn:E; bools; simpl; [by constructor|].
    destruct (str_leb k k') eqn:L; simpl.
    + assert (str_lt k k') by by split. constructor; [by constructor|].
      constructor; [done|]. eapply Forall_impl; [exact Hall|].
      intros x Hx. by transitivity k'.
    + constructor; [by apply IH|]. apply Forall_forall. intros x Hx.
      apply btree_upsert_keys in Hx as [->|Hx]; [by apply str_leb_false|].
      rewrite Forall_forall in Hall. by apply Hall.
Qed.

Lemma btree_get_upsert_eq d f k m :
  btree_sorted m ->
  btree_get k (btree_upsert d f k m) =
  Some (f (match btree_get k m with Some v => v | None => d end)).
Proof.
  unfold btree_sorted. induction m as [|[k' v] m IH]; simpl; intros Hs.
  - by rewrite String.eqb_refl.
  - apply StronglySorted_inv in Hs as [Hs Hall].
    destruct (String.eqb k k') eqn:E; simpl; rewrite ?E; [done|].
    destruct (str_leb k k') eqn:L; simpl; rewrite ?E, ?String.eqb_refl; [|by apply IH].
    bools. assert (btree_get k m = None) as ->; [|done].
    assert (k ∉ m.*1) as Hn.
    { intros Hin. rewrite Forall_forall in Hall. specialize (Hall _ Hin) as [Hle _].
      apply E, (anti_symm str_le); done. }
    clear -Hn. induction m as [|[k2 v2] m IH]; simpl; [done|].
    destruct (String.eqb k k2) eqn:E; bools; subst; set_solver.
Qed.

Lemma btree_get_upsert_ne d f k k' m :
  k <> k' -> btree_get k' (btree_upsert d f k m) = btree_get k' m.
Proof.
  intros Hne. induction m as [|[k2 v] m IH]; simpl.
  - destruct (String.eqb k' k) eqn:E; bools; congruence.
  - destruct (String.eqb k k2) eqn:E; bools; subst; simpl.
    + destruct (String.eqb k' k2) eqn:E2; bools; congruence.
    + destruct (str_leb k k2); simpl; [|by rewrite IH].
      destruct (String.eqb k' k) eqn:E2; bools; congruence.
Qed.

Lemma btree_get_Some k m v : btree_get k m = Some v -> (k, v) ∈ m.
Proof.
  induction m as [|[k2 v2] m IH]; simpl; [done|].
  destruct (String.eqb k k2) eqn:E; bools; intros; inv_ok; subst; set_solver.
Qed.

Lemma btree_get_None k m : btree_get k m = None <-> k ∉ m.*1.
Proof.
  induction m as [|[k2 v2] m IH]; simpl; [set_solver|].
  destruct (String.eqb k k2) eqn:E; bools; subst; set_solver.
Qed.
End btree_lemmas.

(** Two sorted maps with the same lookups are equal. *)
Lemma btree_ext {V} (m1 m2 : list (string * V)) :
  btree_sorted m1 -> btree_sorted m2 ->
  (forall k, btree_get k m1 = btree_get k m2) -> m1 = m2.
Proof.
  unfold btree_sorted. revert m2. induction m1 as [|[k v] m1 IH]; intros m2 H1 H2 Hk.
  - destruct m2 as [|[k2 v2] m2]; [done|]. specialize (Hk k2). simpl in Hk.
    by rewrite String.eqb_refl in Hk.
  - destruct m2 as [|[k2 v2] m2].
    { specialize (Hk k). simpl in Hk. by rewrite String.eqb_refl in Hk. }
    simpl in *. apply StronglySorted_inv in H1 as [S1 A1], H2 as [S2 A2].
    rewrite Forall_forall in A1, A2.
    assert (k = k2) as <-.
    { pose proof (Hk k) as Hk1. pose proof (Hk k2) as Hk2. simpl in Hk1, Hk2.
      rewrite String.eqb_refl in Hk1, Hk2.
      destruct (String.eqb k k2) eqn:E; bools; [done|].
      rewrite (proj2 (String.eqb_neq k2 k)) in Hk2 by congruence.
      symmetry in Hk1. apply btree_get_Some in Hk1, Hk2.
      destruct (A1 k2) as [L1 _]; [by apply (list_elem_of_fmap_2 fst) in Hk2|].
      destruct (A2 k) as [L2 _]; [by apply (list_elem_of_fmap_2 fst) in Hk1|].
      exfalso. apply E, (anti_symm str_le); done. }
    assert (v2 = v) as ->.
    { pose proof (Hk k) as Hk1. simpl in Hk1. rewrite String.eqb_refl in Hk1. congruence. }
    f_equal. apply IH; [done..|]. intros k'. specialize (Hk k'). simpl in Hk.
    destruct (String.eqb k' k) eqn:E; bools; [|done]. subst.
    transitivity (@None V); [|symmetry]; apply btree_get_None; intros Hin.
    + by apply (str_lt_irrefl k), A1.
    + by apply (str_lt_irrefl k), A2.
Qed.

(** ** Lemmas: UTF-8 and hexadecimal *)

Lemma utf8_valid_ascii s : str_all is_ascii s = true -> utf8_valid s = true.
Proof.
  induction s as [|c s IH]; [done|]. cbn [str_all utf8_valid]. unfold is_ascii at 1.
  intros [-> Hs]%andb_true_iff. by apply IH.
Qed.

Lemma is_cont_not_ascii c : is_cont c = true -> is_ascii c = false.
Proof. unfold is_cont, is_ascii. intros. bools. apply Z.ltb_ge. lia. Qed.

Lemma percent_decode_byte c s :
  pct_decode (percent c +:+ s) =
  match pct_decode s with Some r => Some (String c r) | None => None end.
Proof.
  assert (hex_digit_value (hex_at HEX_UPPER (hi4 c)) = Some (hi4 c)
    /\ hex_digit_value (hex_at HEX_UPPER (lo4 c)) = Some (lo4 c)
    /\ chr (hi4 c * 16 + lo4 c) = c) as (H1 & H2 & H3).
  { destruct c as [[] [] [] [] [] [] [] []]; vm_compute; auto. }
  unfold percent. simpl. by rewrite H1, H2, H3.
Qed.

Lemma pct_decode_char c s :
  Ascii.eqb c "%" = false ->
  pct_decode (String c s) =
  match pct_decode s with Some r => Some (String c r) | None => None end.
Proof. simpl. by intros ->. Qed.

Lemma pct_decode_plain s : contains_char "%" s = false -> pct_decode s = Some s.
Proof.
  unfold contains_char. induction s as [|c s IH]; [done|]. intros H. simpl in H. bools.
  rewrite pct_decode_char by by rewrite Ascii.eqb_sym. by rewrite IH.
Qed.

Lemma pct_decode_app s t u :
  pct_decode s = Some u ->
  pct_decode (s +:+ t) = match pct_decode t with Some r => Some (u +:+ r) | None => None end.
Proof.
  revert u. induction s as [s IH] using (induction_ltof1 _ String.length); unfold ltof in IH.
  intros u. destruct s as [|c s]; simpl; [intros; inv_ok; by destruct (pct_decode t)|].
  destruct (Ascii.eqb c "%") eqn:E.
  - destruct s as [|h [|l s]]; try done. simpl.
    destruct (hex_digit_value h); [|done]. destruct (hex_digit_value l); [|done].
    destruct (pct_decode s) as [r|] eqn:Er; intros; inv_ok.
    rewrite (IH s) with (u := r) by (simpl; lia || done). by destruct (pct_decode t).
  - destruct (pct_decode s) as [r|] eqn:Er; intros; inv_ok.
    rewrite (IH s) with (u := r) by (simpl; lia || done). by destruct (pct_decode t).
Qed.

(** ** Lemmas: slices *)

Lemma str_take_drop n s : str_take n s +:+ str_drop n s = s.
Proof.
  revert n. induction s as [|c s IH]; intros n; simpl; [done|].
  destruct (n <=? 0); [done|]. simpl. by rewrite IH.
Qed.

Lemma str_take_length n s : 0 <= n -> slen (str_take n s) = Z.min n (slen s).
Proof.
  revert n. induction s as [|c s IH]; intros n Hn; simpl.
  - change (slen "") with 0. lia.
  - pose proof (slen_nonneg s). destruct (n <=? 0) eqn:E; bools;
      rewrite ?slen_cons, ?IH by lia; change (slen "") with 0; lia.
Qed.

Lemma str_drop_length n s : 0 <= n -> slen (str_drop n s) = slen s - Z.min n (slen s).
Proof.
  intros Hn. pose proof (str_take_length n s Hn). pose proof (f_equal slen (str_take_drop n s)) as E.
  rewrite slen_app in E. lia.
Qed.

Lemma str_take_all n s : slen s <= n -> str_take n s = s.
Proof.
  revert n. induction s as [|c s IH]; intros n Hn; simpl; [done|].
  rewrite slen_cons in Hn. pose proof (slen_nonneg s).
  rewrite (proj2 (Z.leb_gt _ _)) by lia. rewrite IH; [done|lia].
Qed.

Lemma str_drop_drop a b s : 0 <= a -> 0 <= b -> str_drop a (str_drop b s) = str_drop (a + b) s.
Proof.
  intros Ha. revert b. induction s as [|c s IH]; intros b Hb; [done|]. simpl.
  destruct (b <=? 0) eqn:E; bools.
  - replace (a + b) with a by lia. done.
  - rewrite (proj2 (Z.leb_gt (a + b) _)) by lia. rewrite IH by lia. f_equal. lia.
Qed.

Lemma str_concat_app l k : str_concat (l ++ k) = str_concat l +:+ str_concat k.
Proof. induction l; simpl; [done|]. by rewrite IHl, app_assoc_str. Qed.

Lemma slen_zero s : slen s = 0 -> s = "".
Proof. destruct s; [done|]. rewrite slen_cons. pose proof (slen_nonneg s). lia. Qed.

Lemma is_empty_slen s : is_empty s = (slen s =? 0).
Proof.
  destruct s; [done|]. rewrite slen_cons. pose proof (slen_nonneg s). symmetry. apply Z.eqb_neq. lia.
Qed.

(** Cutting a text into chunks loses nothing. *)
Lemma chunks_go_concat size s room cur : str_concat (chunks_go size room s cur) = cur +:+ s.
Proof.
  revert room cur. induction s as [|c s IH]; intros room cur; simpl.
  - destruct cur; [done|]. simpl. by rewrite !app_nil_r_str.
  - destruct (room <=? 1); simpl; rewrite IH; simpl; by rewrite app_assoc_str.
Qed.

Lemma chunks_concat size s : str_concat (chunks size s) = s.
Proof. apply chunks_go_concat. Qed.

(** Feeding a hasher piece by piece. *)
Lemma fold_left_append l acc : fold_left String.append l acc = acc +:+ str_concat l.
Proof.
  revert acc. induction l as [|s l IH]; intros acc; simpl; [by rewrite app_nil_r_str|].
  by rewrite IH, app_assoc_str.
Qed.
