(* ===== verification/Errors.v ===== *)
(** Structured client errors ([src/error/mod.rs]): the categories, retry
classifications, timeout phases and stop reasons, the error record with its
constructors and updates, and its [Display] text. Formatting never reaches the
underlying source, of which only a type name is kept. *)

From S2P Require Import Prelude.
From stdpp Require Import options.
Local Open Scope Z_scope.

Module ErrorCategory.
Inductive t : Type :=
| Configuration | Authentication | Authorization | NotFound | Conflict
| Precondition | Throttling | Server | Transport | Tls | Timeout | Cancellation
| InvalidResponse | OversizedResponse | UnsupportedOperation | Integrity.

#[global] Instance eq_dec : EqDecision t.
Proof. solve_decision. Defined.

(** The derived [Debug] name of a category. *)
Definition name (c : t) : string :=
  match c with
  | Configuration => "Configuration" | Authentication => "Authentication"
  | Authorization => "Authorization" | NotFound => "NotFound"
  | Conflict => "Conflict" | Precondition => "Precondition"
  | Throttling => "Throttling" | Server => "Server" | Transport => "Transport"
  | Tls => "Tls" | Timeout => "Timeout" | Cancellation => "Cancellation"
  | InvalidResponse => "InvalidResponse"
  | OversizedResponse => "OversizedResponse"
  | UnsupportedOperation => "UnsupportedOperation" | Integrity => "Integrity"
  end.
End ErrorCategory.

Module RetryClassification.
Inductive t : Type := Never | Retryable | Throttled.

#[global] Instance eq_dec : EqDecision t.
Proof. solve_decision. Defined.
End RetryClassification.

Module TimeoutPhase.
Inductive t : Type := Connect | Request | ResponseBody | Operation.

#[global] Instance eq_dec : EqDecision t.
Proof. solve_decision. Defined.
End TimeoutPhase.

Module RetryStopReason.
Inductive t : Type :=
| NonRetryable | NonReplayable | AttemptsExhausted | ElapsedLimit | Deadline
| RetryQuota.

#[global] Instance eq_dec : EqDecision t.
Proof. solve_decision. Defined.
End RetryStopReason.

Module S3Error.
Import ErrorCategory RetryClassification.

(** What is kept of an underlying error: the name of its type. *)
Record RedactedSource : Type := { error_type : string }.

(** [S3Error] with its boxed details. A status is a [u16]; times and offsets
are nanoseconds; [cleanup_failure] nests a second error. *)
Inductive t : Type := S3ErrorDetails {
  category : ErrorCategory.t;
  code : option string;
  status : option Z;
  message : string;
  request_id : option string;
  host_id : option string;
  retry_classification : RetryClassification.t;
  timeout_phase : option TimeoutPhase.t;
  server_time : option Z;
  clock_skew : option Z;
  source : option RedactedSource;
  cleanup_failure : option t;
  attempts : Z;
  retry_stop_reason : option RetryStopReason.t
}.

Definition new (c : ErrorCategory.t) (m : string) (r : RetryClassification.t) : t :=
  {| category := c; code := None; status := None; message := m;
     request_id := None; host_id := None; retry_classification := r;
     timeout_phase := None; server_time := None; clock_skew := None;
     source := None; cleanup_failure := None; attempts := 0;
     retry_stop_reason := None |}.

Definition configuration (m : string) : t := new Configuration m Never.
Definition unsupported (m : string) : t := new UnsupportedOperation m Never.
Definition invalid_response (m : string) : t := new InvalidResponse m Never.
Definition integrity (m : string) : t := new Integrity m Never.
Definition cancellation (m : string) : t := new Cancellation m Never.

(** [with_source]: the text of the source is discarded, its type name kept. *)
Definition with_source (e : t) (type_name : string) : t :=
  {| category := category e; code := code e; status := status e;
     message := message e; request_id := request_id e; host_id := host_id e;
     retry_classification := retry_classification e;
     timeout_phase := timeout_phase e; server_time := server_time e;
     clock_skew := clock_skew e; source := Some {| error_type := type_name |};
     cleanup_failure := cleanup_failure e; attempts := attempts e;
     retry_stop_reason := retry_stop_reason e |}.

Definition transport (type_name : string) : t :=
  with_source (new Transport "HTTP transport failed" Retryable) type_name.

Definition timeout (phase : TimeoutPhase.t) (m : string) : t :=
  let e := new Timeout m Retryable in
  {| category := category e; code := code e; status := status e;
     message := message e; request_id := request_id e; host_id := host_id e;
     retry_classification := retry_classification e;
     timeout_phase := Some phase; server_time := server_time e;
     clock_skew := clock_skew e; source := source e;
     cleanup_failure := cleanup_failure e; attempts := attempts e;
     retry_stop_reason := retry_stop_reason e |}.

Definition with_service_details (e : t) (c : option string) (st : Z)
    (rid hid : option string) : t :=
  {| category := category e; code := c; status := Some st;
     message := message e; request_id := rid; host_id := hid;
     retry_classification := retry_classification e;
     timeout_phase := timeout_phase e; server_time := server_time e;
     clock_skew := clock_skew e; source := source e;
     cleanup_failure := cleanup_failure e; attempts := attempts e;
     retry_stop_reason := retry_stop_reason e |}.

Definition with_cleanup_failure (e cleanup : t) : t :=
  {| category := category e; code := code e; status := status e;
     message := message e; request_id := request_id e; host_id := host_id e;
     retry_classification := retry_classification e;
     timeout_phase := timeout_phase e; server_time := server_time e;
     clock_skew := clock_skew e; source := source e;
     cleanup_failure := Some cleanup; attempts := attempts e;
     retry_stop_reason := retry_stop_reason e |}.

Definition with_clock_skew (e : t) (server local : Z) : t :=
  {| category := category e; code := code e; status := status e;
     message := message e; request_id := request_id e; host_id := host_id e;
     retry_classification := retry_classification e;
     timeout_phase := timeout_phase e; server_time := Some server;
     clock_skew := Some (server - local); source := source e;
     cleanup_failure := cleanup_failure e; attempts := attempts e;
     retry_stop_reason := retry_stop_reason e |}.

Definition with_retry_context (e : t) (n : Z) (r : RetryStopReason.t) : t :=
  {| category := category e; code := code e; status := status e;
     message := message e; request_id := request_id e; host_id := host_id e;
     retry_classification := retry_classification e;
     timeout_phase := timeout_phase e; server_time := server_time e;
     clock_skew := clock_skew e; source := source e;
     cleanup_failure := cleanup_failure e; attempts := n;
     retry_stop_reason := Some r |}.

(** [impl Display for S3Error]. *)
Definition display (e : t) : string :=
  ErrorCategory.name (category e) +:+ ": " +:+ message e +:+
  match cleanup_failure e with
  | Some _ => " (cleanup also failed)"
  | None => ""
  end.

(** [impl Display for RedactedSource]. *)
Definition source_display (s : RedactedSource) : string :=
  "underlying " +:+ error_type s +:+ " error (details redacted)".
End S3Error.

(** The result type of every client operation. *)
Abbreviation outcome := (result S3Error.t).
