(* ===== verification/Canonical.v ===== *)
(** SigV4 canonical forms ([src/signing/canonical.rs], the error type from
[src/signing/request/types.rs]): URI encoding, canonical URI, canonical query
and canonical headers. The canonical query is proved to determine the multiset
of parameters, and the canonical URI of an already encoded path to be the
identity on normal wire paths. *)

From S2P Require Import Prelude Text.
From stdpp Require Import options.
Local Open Scope Z_scope.

Module SigningError.
Inductive t : Type :=
| InvalidCredentials | InvalidScope | InvalidMethod | InvalidHeaderName
| InvalidHeaderValue | MissingHostHeader | InvalidHostHeader
| InvalidPayloadHash | InvalidEncodedUri | ReservedHeader
| ReservedQueryParameter | InvalidExpiry | UnsupportedPresignMethod
| Cryptographic | Timestamp.

(** [impl Display for SigningError]. *)
Definition display (e : t) : string :=
  match e with
  | InvalidCredentials => "invalid signing credentials"
  | InvalidScope => "invalid signing scope"
  | InvalidMethod => "invalid HTTP method for signing"
  | InvalidHeaderName => "invalid signed header name"
  | InvalidHeaderValue => "invalid signed header value"
  | MissingHostHeader => "a host header is required for signing"
  | InvalidHostHeader => "the host header is empty or ambiguous"
  | InvalidPayloadHash => "invalid SigV4 payload hash"
  | InvalidEncodedUri => "URL path contains invalid percent encoding"
  | ReservedHeader => "a signing-owned header was supplied"
  | ReservedQueryParameter => "a signing-owned query parameter was supplied"
  | InvalidExpiry => "presigning expiry must be between 1 second and 7 days"
  | UnsupportedPresignMethod => "unsupported HTTP method for S3 presigning"
  | Cryptographic => "signature calculation failed"
  | Timestamp => "signing timestamp could not be represented"
  end.
End SigningError.

(** ** Data *)

(** [QueryParam] and [Header]: a name and a value, both before encoding. *)
Record QueryParam : Type := { qp_name : string; qp_value : string }.
Record Header : Type := { h_name : string; h_value : string }.
Definition qp (n v : string) : QueryParam := {| qp_name := n; qp_value := v |}.
Definition hdr (n v : string) : Header := {| h_name := n; h_value := v |}.

Record CanonicalHeaders : Type := { canonical : string; signed : string }.

(** ** URI encoding *)

Definition aws_uri_encode_byte (encode_slash : bool) (c : ascii) : string :=
  if is_ascii_alphanumeric c || one_of "-._~" c
     || (Ascii.eqb c "/" && negb encode_slash)
  then String c ""
  else percent c.

Definition aws_uri_encode (input : string) (encode_slash : bool) : string :=
  str_flat_map (aws_uri_encode_byte encode_slash) input.

Definition canonical_uri (path : string) : string :=
  if is_empty path then "/"
  else
    let encoded := aws_uri_encode path false in
    if starts_with "/" encoded then encoded else "/" +:+ encoded.

Definition hex_value (c : ascii) : option Z :=
  if in_range "0" "9" c then Some (byte c - byte "0")
  else if in_range "a" "f" c then Some (byte c - byte "a" + 10)
  else if in_range "A" "F" c then Some (byte c - byte "A" + 10)
  else None.

(** The loop of [canonical_uri_from_encoded]: a valid triplet is kept with
upper-case digits, an unreserved byte or slash is kept, and one whole UTF-8
character of anything else is encoded. *)
Fixpoint canonical_uri_loop (s : string) : result SigningError.t string :=
  match s with
  | EmptyString => Ok ""
  | String c s1 =>
      if Ascii.eqb c "%" then
        match s1 with
        | String h (String l s3) =>
            match hex_value h, hex_value l with
            | Some high, Some low =>
                let? rest := canonical_uri_loop s3 in
                Ok (String "%" (String (hex_at HEX_UPPER high)
                     (String (hex_at HEX_UPPER low) rest)))
            | _, _ => Err SigningError.InvalidEncodedUri
            end
        | _ => Err SigningError.InvalidEncodedUri
        end
      else if is_ascii_alphanumeric c || one_of "-._~/" c then
        let? rest := canonical_uri_loop s1 in Ok (String c rest)
      else
        match utf8_len c, s1 with
        | 2%nat, String c1 s2 =>
            let? rest := canonical_uri_loop s2 in
            Ok (aws_uri_encode (String c (String c1 "")) true +:+ rest)
        | 3%nat, String c1 (String c2 s3) =>
            let? rest := canonical_uri_loop s3 in
            Ok (aws_uri_encode (String c (String c1 (String c2 ""))) true +:+ rest)
        | 4%nat, String c1 (String c2 (String c3 s4)) =>
            let? rest := canonical_uri_loop s4 in
            Ok (aws_uri_encode (String c (String c1 (String c2 (String c3 "")))) true
                  +:+ rest)
        | _, _ =>
            let? rest := canonical_uri_loop s1 in
            Ok (aws_uri_encode (String c "") true +:+ rest)
        end
  end.

Definition canonical_uri_from_encoded (path : string) : result SigningError.t string :=
  let? tail := canonical_uri_loop path in
  let out := if starts_with "/" path then tail else "/" +:+ tail in
  Ok (if is_empty out then "/" else out).

(** ** Canonical query *)

Definition encode_param (p : QueryParam) : string * string :=
  (aws_uri_encode (qp_name p) true, aws_uri_encode (qp_value p) true).

(** The rendering loop: [name=value] joined with [&]. *)
Fixpoint render_query (l : list (string * string)) : string :=
  match l with
  | [] => ""
  | [(n, v)] => n +:+ "=" +:+ v
  | (n, v) :: l => n +:+ "=" +:+ v +:+ "&" +:+ render_query l
  end.

Definition canonical_query (parameters : list QueryParam) : string :=
  render_query (merge_sort pair_le (encode_param <$> parameters)).

(** ** Canonical headers *)

Definition valid_header_name (name : string) : bool :=
  negb (is_empty name) &&
  str_all (fun c => is_ascii_alphanumeric c || one_of "!#$%&'*+-.^_`|~" c) name.

Definition is_blank (c : ascii) : bool := one_of (String " " (String (chr 9) "")) c.

(** The collapsing loop; [pending] is [pending_space]. *)
Fixpoint normalize_loop (value normalized : string) (pending : bool) : string :=
  match value with
  | EmptyString => normalized
  | String c value =>
      if is_blank c then normalize_loop value normalized (negb (is_empty normalized))
      else
        let normalized := if pending then normalized +:+ " " else normalized in
        normalize_loop value (normalized +:+ String c "") false
  end.

Definition normalize_header_value (value : string) : result SigningError.t string :=
  if str_any (fun c => is_ascii_control c && negb (Ascii.eqb c (chr 9))) value
  then Err SigningError.InvalidHeaderValue
  else Ok (normalize_loop value "" false).

(** The first loop of [canonical_headers]: values grouped by lower-case name. *)
Fixpoint collect_headers (headers : list Header) (ordered : list (string * list string))
  : result SigningError.t (list (string * list string)) :=
  match headers with
  | [] => Ok ordered
  | h :: headers =>
      if negb (valid_header_name (h_name h)) then Err SigningError.InvalidHeaderName
      else
        let? value := normalize_header_value (h_value h) in
        collect_headers headers
          (btree_upsert [] (fun vs => vs ++ [value]) (to_ascii_lowercase (h_name h)) ordered)
  end.

Definition render_canonical (ordered : list (string * list string)) : string :=
  fold_right (fun b acc => b.1 +:+ ":" +:+ join "," b.2 +:+ LF +:+ acc) "" ordered.

Definition canonical_headers (headers : list Header)
  : result SigningError.t CanonicalHeaders :=
  let? ordered := collect_headers headers [] in
  match ordered with
  | [] => Err SigningError.MissingHostHeader
  | _ :: _ =>
      match btree_get "host" ordered with
      | None => Err SigningError.MissingHostHeader
      | Some [v] =>
          if is_empty v then Err SigningError.InvalidHostHeader
          else Ok {| canonical := render_canonical ordered;
                     signed := join ";" (ordered.*1) |}
      | Some _ => Err SigningError.InvalidHostHeader
      end
  end.

(** ** Lemmas: URI encoding *)

(** Bytes an encoded component may contain. *)
Definition is_unreserved_byte (c : ascii) : bool := is_ascii_alphanumeric c || one_of "-._~" c.
Definition is_encoded_byte (slash : bool) (c : ascii) : bool :=
  is_unreserved_byte c || Ascii.eqb c "%" || (slash && Ascii.eqb c "/").

Lemma encode_byte_cases slash c :
  (aws_uri_encode_byte slash c = String c "" /\ Ascii.eqb c "%" = false)
  \/ aws_uri_encode_byte slash c = percent c.
Proof.
  unfold aws_uri_encode_byte.
  destruct (_ || _) eqn:E; [left; split; [done|] | by right].
  destruct (Ascii.eqb c "%") eqn:P; [|done]. bools. subst. destruct slash; vm_compute in E; done.
Qed.

Lemma aws_uri_encode_app s t b :
  aws_uri_encode (s +:+ t) b = aws_uri_encode s b +:+ aws_uri_encode t b.
Proof. apply str_flat_map_app. Qed.

Lemma aws_uri_decode s b : pct_decode (aws_uri_encode s b) = Some s.
Proof.
  unfold aws_uri_encode. induction s as [|c s IH]; [done|]. simpl.
  destruct (encode_byte_cases b c) as [[-> E]| ->].
  - simpl String.append. by rewrite pct_decode_char, IH.
  - by rewrite percent_decode_byte, IH.
Qed.

Lemma aws_uri_encode_inj s t b : aws_uri_encode s b = aws_uri_encode t b -> s = t.
Proof.
  intros H. pose proof (aws_uri_decode s b) as Hs. rewrite H, aws_uri_decode in Hs. congruence.
Qed.

Lemma percent_bytes c : str_all (fun d => is_ascii_alphanumeric d || Ascii.eqb d "%") (percent c) = true.
Proof. all_bytes c. Qed.

Lemma aws_uri_encode_bytes s b :
  str_all (is_encoded_byte (negb b)) (aws_uri_encode s b) = true.
Proof.
  apply str_all_flat_map. intros c. destruct b; all_bytes c.
Qed.

(** An encoded component contains none of the separators of a query. *)
Lemma encoded_byte_not_separator c d :
  is_encoded_byte false c = true -> one_of "&=?#/+ " d = true -> Ascii.eqb d c = false.
Proof.
  intros Hc Hd. destruct (Ascii.eqb d c) eqn:E; [|done]. bools. subst.
  revert Hc Hd. all_bytes c.
Qed.

Lemma encoded_no_separator s d :
  one_of "&=?#/+ " d = true -> contains_char d (aws_uri_encode s true) = false.
Proof.
  intros Hd. unfold contains_char.
  apply (str_any_none (is_encoded_byte false)); [|apply (aws_uri_encode_bytes s true)].
  intros c Hc. by apply encoded_byte_not_separator.
Qed.

(** ** Lemmas: canonical URI *)

(** [canonical_uri_loop] leaves a normal path alone: one made of bytes it keeps
and upper-case triplets, as the encoders produce it. *)
Lemma canonical_uri_loop_percent c s r :
  canonical_uri_loop s = Ok r ->
  canonical_uri_loop (percent c +:+ s) = Ok (percent c +:+ r).
Proof.
  assert (hex_value (hex_at HEX_UPPER (hi4 c)) = Some (hi4 c)
    /\ hex_value (hex_at HEX_UPPER (lo4 c)) = Some (lo4 c)) as [H1 H2]
    by (destruct c as [[] [] [] [] [] [] [] []]; vm_compute; auto).
  intros Hs. unfold percent. simpl. by rewrite H1, H2, Hs.
Qed.

Lemma canonical_uri_loop_safe c s :
  is_ascii_alphanumeric c || one_of "-._~/" c = true ->
  canonical_uri_loop (String c s) = result_map (String c) (canonical_uri_loop s).
Proof.
  intros Hc. assert (Ascii.eqb c "%" = false) as HP.
  { destruct (Ascii.eqb c "%") eqn:E; [|done]. bools. subst. by vm_compute in Hc. }
  cbn [canonical_uri_loop]. rewrite HP, Hc. by destruct (canonical_uri_loop s).
Qed.

Lemma canonical_uri_loop_encoded s b t r :
  canonical_uri_loop t = Ok r ->
  canonical_uri_loop (aws_uri_encode s b +:+ t) = Ok (aws_uri_encode s b +:+ r).
Proof.
  intros Ht. unfold aws_uri_encode. induction s as [|c s IH]; [done|]. simpl.
  rewrite !app_assoc_str. unfold aws_uri_encode_byte at 1 3.
  destruct (_ || _) eqn:E.
  - simpl String.append. rewrite canonical_uri_loop_safe, IH; [done|].
    revert E. destruct b; all_bytes c.
  - by apply canonical_uri_loop_percent.
Qed.

(** The output of the loop is normal, so the loop is idempotent. *)
Lemma hex_value_upper h v :
  hex_value h = Some v ->
  exists c, hi4 c = v /\ hex_at HEX_UPPER v = hex_at HEX_UPPER (hi4 c)
            /\ hex_value (hex_at HEX_UPPER v) = Some v.
Proof.
  intros H. assert (0 <= v < 16) as R.
  { revert H. unfold hex_value. repeat case_match; intros; inv_ok; unfold in_range in *;
      bools; vm_compute (byte "0") in *; vm_compute (byte "9") in *;
      vm_compute (byte "a") in *; vm_compute (byte "f") in *;
      vm_compute (byte "A") in *; vm_compute (byte "F") in *; lia. }
  exists (chr (v * 16)). unfold hi4. rewrite byte_chr by lia.
  rewrite Z.shiftr_div_pow2 by lia. change (2 ^ 4) with 16. rewrite Z.div_mul by lia.
  split_and!; [done..|].
  assert (v = 0 \/ v = 1 \/ v = 2 \/ v = 3 \/ v = 4 \/ v = 5 \/ v = 6 \/ v = 7 \/ v = 8
    \/ v = 9 \/ v = 10 \/ v = 11 \/ v = 12 \/ v = 13 \/ v = 14 \/ v = 15) as C by lia.
  repeat destruct C as [-> | C]; [reflexivity..|]. by subst.
Qed.

Lemma canonical_uri_loop_idemp s r :
  canonical_uri_loop s = Ok r -> canonical_uri_loop r = Ok r.
Proof.
  revert r. induction s as [s IH] using (induction_ltof1 _ String.length); unfold ltof in IH.
  intros r. destruct s as [|c s]; simpl; [intros; inv_ok; done|].
  destruct (Ascii.eqb c "%") eqn:P.
  { destruct s as [|h [|l s]]; try done.
    destruct (hex_value h) as [a|] eqn:Ha; [|done]. destruct (hex_value l) as [b|] eqn:Hb; [|done].
    destruct (canonical_uri_loop s) as [t|] eqn:Hs; intros; inv_ok.
    assert (canonical_uri_loop t = Ok t) as Ht by (apply (IH s); simpl; lia || done).
    destruct (hex_value_upper h a) as (? & ? & ? & Ha'); [done|].
    destruct (hex_value_upper l b) as (? & ? & ? & Hb'); [done|].
    simpl. by rewrite Ha', Hb', Ht. }
  destruct (is_ascii_alphanumeric c || one_of "-._~/" c) eqn:S.
  { destruct (canonical_uri_loop s) as [t|] eqn:Hs; intros; inv_ok.
    rewrite canonical_uri_loop_safe by done. by rewrite (IH s ltac:(simpl; lia) t) by done. }
  intros H. repeat case_match; inv_ok; apply canonical_uri_loop_encoded;
    match goal with E : canonical_uri_loop ?x = Ok ?y |- canonical_uri_loop ?y = _ =>
      apply (IH x); [simpl; lia | done] end.
Qed.

(** One character that is encoded as a whole decodes to itself. *)
Lemma pct_decode_encoded x t u :
  pct_decode t = u ->
  pct_decode (aws_uri_encode x true +:+ t)
  = match u with Some r => Some (x +:+ r) | None => None end.
Proof. intros <-. by rewrite (pct_decode_app _ _ _ (aws_uri_decode x true)). Qed.

Lemma high_byte_not_percent c : 128 <= byte c -> Ascii.eqb c "%" = false.
Proof. intros H. destruct (Ascii.eqb c "%") eqn:E; [|done]. bools. by subst. Qed.

Lemma hex_value_ascii h v : hex_value h = Some v -> byte h <? 128 = true.
Proof. all_bytes h. Qed.

Lemma safe_ascii c : is_ascii_alphanumeric c || one_of "-._~/" c = true ->
  byte c <? 128 = true /\ Ascii.eqb c "%" = false.
Proof. all_bytes c. Qed.

(** A multi-byte character, taken whole by the loop. *)
Lemma utf8_valid_cons c s :
  utf8_valid (String c s) = true -> byte c <? 128 = false ->
  exists x r, s = x +:+ r /\ utf8_valid r = true /\ str_all is_cont x = true
    /\ utf8_len c = S (String.length x)
    /\ (String.length x = 1 \/ String.length x = 2 \/ String.length x = 3)%nat.
Proof.
  intros H Hc. cbn [utf8_valid] in H. rewrite Hc in H. bools.
  assert (forall lo hi d, 128 <= lo -> hi <= 191 -> between lo hi d = true -> is_cont d = true) as Hb.
  { unfold between, is_cont. intros. bools. apply andb_true_iff. split; apply Z.leb_le; lia. }
  assert (forall lo hi d, between lo hi d = true -> lo <= byte d <= hi) as Hr
    by (unfold between; intros; bools; lia).
  destruct s as [|c1 s]; [done|].
  destruct (between 194 223 c) eqn:B2; bools.
  { exists (String c1 ""), s. apply Hr in B2. simpl. rewrite H. split_and!; try done; [|lia].
    unfold utf8_len. repeat (case_match; bools; try lia). }
  destruct s as [|c2 s]; [done|].
  destruct (between 224 239 c) eqn:B3; bools.
  { exists (String c1 (String c2 "")), s. apply Hr in B3. simpl.
    assert (is_cont c1 = true) as -> by (repeat case_match; first [done | eapply Hb; [..|eassumption]; lia]).
    rewrite H1. split_and!; try done; [|lia].
    unfold utf8_len. repeat (case_match; bools; try lia). }
  destruct s as [|c3 s]; [done|]. bools.
  exists (String c1 (String c2 (String c3 ""))), s. apply Hr in H. simpl.
  assert (is_cont c1 = true) as -> by (repeat case_match; first [done | eapply Hb; [..|eassumption]; lia]).
  rewrite H2, H1. split_and!; try done; [|lia].
  unfold utf8_len. repeat (case_match; bools; try lia).
Qed.

Lemma pct_decode_conts x r :
  str_all is_cont x = true ->
  pct_decode (x +:+ r) = match pct_decode r with Some u => Some (x +:+ u) | None => None end.
Proof.
  induction x as [|c x IH]; intros H; [simpl; by destruct (pct_decode r)|]. simpl in H. bools.
  simpl String.append. rewrite pct_decode_char.
  - rewrite IH by done. by destruct (pct_decode r).
  - apply high_byte_not_percent. unfold is_cont in *. bools. lia.
Qed.

(** The loop preserves what the path denotes. *)
Lemma canonical_uri_loop_decode s r :
  utf8_valid s = true -> canonical_uri_loop s = Ok r -> pct_decode r = pct_decode s.
Proof.
  revert r. induction s as [s IH] using (induction_ltof1 _ String.length); unfold ltof in IH.
  intros r HU HL. destruct s as [|c s]; [simpl in *; inv_ok; done|].
  destruct (byte c <? 128) eqn:A.
  - assert (utf8_valid s = true) as HU' by (cbn [utf8_valid] in HU; by rewrite A in HU).
    cbn [canonical_uri_loop] in HL. destruct (Ascii.eqb c "%") eqn:P.
    + bools. subst. destruct s as [|h [|l s]]; try done.
      destruct (hex_value h) as [a|] eqn:Ha; [|done].
      destruct (hex_value l) as [b|] eqn:Hb; [|done].
      destruct (canonical_uri_loop s) as [t|] eqn:Hs; inv_ok.
      cbn [utf8_valid] in HU'. rewrite (hex_value_ascii h a), (hex_value_ascii l b) in HU' by done.
      assert (pct_decode t = pct_decode s) as Ht by (apply (IH s); simpl; lia || done).
      destruct (hex_value_upper h a) as (? & ? & ? & Ha'); [done|].
      destruct (hex_value_upper l b) as (? & ? & ? & Hb'); [done|].
      simpl. unfold hex_value, hex_digit_value in *.
      by rewrite Ha', Hb', Ht, Ha, Hb.
    + destruct (is_ascii_alphanumeric c || one_of "-._~/" c) eqn:S.
      * destruct (canonical_uri_loop s) as [t|] eqn:Hs; inv_ok.
        rewrite !pct_decode_char by done. by rewrite (IH s ltac:(simpl; lia) t) by done.
      * assert (utf8_len c = 1%nat) as E by (unfold utf8_len; bools; by rewrite (proj2 (Z.ltb_lt (byte c) 192)) by lia).
        rewrite E in HL. destruct (canonical_uri_loop s) as [t|] eqn:Hs; inv_ok.
        rewrite (pct_decode_encoded _ _ _ eq_refl), pct_decode_char by done.
        by rewrite (IH s ltac:(simpl; lia) t) by done.
  - destruct (utf8_valid_cons c s HU A) as (x & u & -> & HU' & Hx & Hl & Hn).
    assert (canonical_uri_loop (String c (x +:+ u)) =
            let? rest := canonical_uri_loop u in
            Ok (aws_uri_encode (String c x) true +:+ rest)) as E.
    { cbn [canonical_uri_loop]. bools. rewrite high_byte_not_percent by done.
      destruct (is_ascii_alphanumeric c || one_of "-._~/" c) eqn:S;
        [apply safe_ascii in S as [S _]; bools; lia|].
      rewrite Hl.
      destruct x as [|x1 [|x2 [|x3 [|]]]]; simpl in Hn; try lia; reflexivity. }
    rewrite E in HL. destruct (canonical_uri_loop u) as [t|] eqn:Hs; inv_ok.
    rewrite (pct_decode_encoded _ _ _ eq_refl), pct_decode_char
      by (apply high_byte_not_percent; bools; lia).
    rewrite pct_decode_conts by done.
    rewrite (IH u ltac:(simpl; rewrite ?str_length_app; lia) t) by done.
    by destruct (pct_decode u).
Qed.

Lemma canonical_uri_loop_bytes s r :
  canonical_uri_loop s = Ok r -> str_all (is_encoded_byte true) r = true.
Proof.
  assert (forall v h, hex_value h = Some v -> is_encoded_byte true (hex_at HEX_UPPER v) = true) as HX.
  { intros v h Hh. apply hex_value_upper in Hh as (c & _ & -> & _). all_bytes c. }
  assert (forall x, str_all (is_encoded_byte true) (aws_uri_encode x true) = true) as HE.
  { intros x. eapply str_all_impl; [|apply aws_uri_encode_bytes]. intros c. all_bytes c. }
  revert r. induction s as [s IH] using (induction_ltof1 _ String.length); unfold ltof in IH.
  intros r. destruct s as [|c s]; simpl; [intros; inv_ok; done|].
  intros Hr. destruct (Ascii.eqb c "%") eqn:P.
  - steps_in Hr. simpl. erewrite !HX by done. simpl. eapply IH; [|done]. simpl. lia.
  - destruct (is_ascii_alphanumeric c || one_of "-._~/" c) eqn:S.
    + steps_in Hr. simpl. match goal with E : canonical_uri_loop s = Ok ?a |- _ =>
        rewrite (IH s ltac:(simpl; lia) a E) end. rewrite andb_true_r.
      revert S. all_bytes c.
    + steps_in Hr; rewrite str_all_app, HE; (eapply IH; [|eassumption]); simpl; lia.
Qed.

(** Canonical paths: kept bytes and upper-case triplets. They are the fixed
points of the loop. *)
Definition upper_hex (c : ascii) : bool := is_ascii_digit c || in_range "A" "F" c.
Fixpoint canonical_path (s : string) : bool :=
  match s with
  | EmptyString => true
  | String c s1 =>
      if Ascii.eqb c "%" then
        match s1 with
        | String h (String l s3) => upper_hex h && upper_hex l && canonical_path s3
        | _ => false
        end
      else (is_ascii_alphanumeric c || one_of "-._~/" c) && canonical_path s1
  end.

Lemma upper_hex_spec h :
  upper_hex h = true <-> exists v, hex_value h = Some v /\ hex_at HEX_UPPER v = h.
Proof.
  split.
  - intros H. assert (match hex_value h with
                      | Some v => Ascii.eqb (hex_at HEX_UPPER v) h
                      | None => false
                      end = true) as E by (revert H; all_bytes h).
    destruct (hex_value h) as [v|]; [|done]. bools. eauto.
  - intros (v & E & F). rewrite <- F. apply hex_value_upper in E as (c & <- & _ & _). all_bytes c.
Qed.

Lemma encode_unsafe_head c x y s :
  Ascii.eqb c "%" = false -> is_ascii_alphanumeric c || one_of "-._~/" c = false ->
  aws_uri_encode (String c x) true +:+ y <> String c s.
Proof.
  intros P S E. unfold aws_uri_encode in E. simpl in E. unfold aws_uri_encode_byte at 1 in E.
  assert (is_ascii_alphanumeric c || one_of "-._~" c || Ascii.eqb c "/" && negb true = false)
    as EQ by (revert S; all_bytes c). rewrite EQ in E. simpl in E.
  injection E as E _. by subst.
Qed.

Lemma canonical_path_fixed s : canonical_path s = true <-> canonical_uri_loop s = Ok s.
Proof.
  induction s as [s IH] using (induction_ltof1 _ String.length); unfold ltof in IH.
  destruct s as [|c s]; [done|]. cbn [canonical_path canonical_uri_loop].
  destruct (Ascii.eqb c "%") eqn:P.
  - destruct s as [|h [|l s]]; [done..|]. bools. subst. split; intros H.
    + bools. apply upper_hex_spec in H as (v & Hv & Ev).
      match goal with U : upper_hex l = true |- _ => apply upper_hex_spec in U as (w & Hw & Ew) end.
      rewrite Hv, Hw, Ev, Ew. by rewrite (proj1 (IH s ltac:(simpl; lia))).
    + destruct (hex_value h) as [v|] eqn:Hv; [|done]. destruct (hex_value l) as [w|] eqn:Hw; [|done].
      destruct (canonical_uri_loop s) as [t|] eqn:L; [|done]. injection H as E1 E2 ->.
      rewrite (proj2 (upper_hex_spec h)), (proj2 (upper_hex_spec l)) by eauto.
      by apply IH; [simpl; lia|].
  - destruct (_ || _) eqn:S; simpl.
    + rewrite (IH s ltac:(simpl; lia)). destruct (canonical_uri_loop s); split; congruence.
    + split; [done|]. intros H.
      repeat case_match; inv_ok; exfalso; by eapply encode_unsafe_head.
Qed.

Lemma canonical_path_app s t :
  canonical_path s = true -> canonical_path t = true -> canonical_path (s +:+ t) = true.
Proof.
  induction s as [s IH] using (induction_ltof1 _ String.length); unfold ltof in IH.
  destruct s as [|c s]; [done|]. simpl. destruct (Ascii.eqb c "%").
  - destruct s as [|h [|l s]]; [done..|]. simpl. intros. bools. rewrite H, H2. simpl.
    apply IH; [simpl; lia|done..].
  - intros. bools. rewrite H. apply IH; [simpl; lia|done..].
Qed.

Lemma canonical_path_snoc_slash s :
  canonical_path (s +:+ "/") = true -> canonical_path s = true.
Proof.
  induction s as [s IH] using (induction_ltof1 _ String.length); unfold ltof in IH.
  destruct s as [|c s]; [done|]. simpl. destruct (Ascii.eqb c "%").
  - destruct s as [|h [|l s]]; simpl; [done|by rewrite andb_false_r|]. intros. bools.
    rewrite H, H1. simpl. apply IH; [simpl; lia|done].
  - intros. bools. rewrite H. apply IH; [simpl; lia|done].
Qed.

Lemma canonical_path_encoded s b : canonical_path (aws_uri_encode s b) = true.
Proof.
  apply canonical_path_fixed. pose proof (canonical_uri_loop_encoded s b "" "" eq_refl) as H.
  by rewrite !app_nil_r_str in H.
Qed.

Lemma canonical_path_rooted s :
  canonical_path ("/" +:+ s) = true -> canonical_uri_from_encoded ("/" +:+ s) = Ok ("/" +:+ s).
Proof.
  intros H. unfold canonical_uri_from_encoded. apply canonical_path_fixed in H. by rewrite H.
Qed.

Lemma is_empty_app_slash s : is_empty ("/" +:+ s) = false.
Proof. done. Qed.

Lemma starts_with_slash s : starts_with "/" s = true -> exists t, s = "/" +:+ t.
Proof.
  unfold starts_with. destruct (strip_prefix "/" s) eqn:E; [|done]. intros _.
  apply strip_prefix_Some in E. eauto.
Qed.

(** The loop maps a leading slash to a leading slash. *)
Lemma canonical_uri_loop_slash s :
  canonical_uri_loop ("/" +:+ s) = result_map (String "/") (canonical_uri_loop s).
Proof. by apply canonical_uri_loop_safe. Qed.

Lemma canonical_uri_from_encoded_slash s :
  canonical_uri_from_encoded ("/" +:+ s) = result_map (String "/") (canonical_uri_loop s).
Proof.
  unfold canonical_uri_from_encoded. rewrite canonical_uri_loop_slash, starts_with_app.
  by destruct (canonical_uri_loop s).
Qed.

Lemma canonical_uri_from_encoded_rooted p :
  starts_with "/" p = false ->
  canonical_uri_from_encoded p = canonical_uri_from_encoded ("/" +:+ p).
Proof.
  intros H. rewrite canonical_uri_from_encoded_slash. unfold canonical_uri_from_encoded.
  rewrite H. by destruct (canonical_uri_loop p).
Qed.

(** ** Lemmas: canonical query *)

Definition clean (s : string) : Prop :=
  contains_char "&" s = false /\ contains_char "=" s = false.

Lemma encode_param_clean p : clean (encode_param p).1 /\ clean (encode_param p).2.
Proof. split; split; simpl; by apply encoded_no_separator. Qed.

Lemma encode_param_inj p q : encode_param p = encode_param q -> p = q.
Proof.
  destruct p as [n v], q as [n' v']. unfold encode_param. simpl. intros [= H1 H2].
  apply aws_uri_encode_inj in H1, H2. by subst.
Qed.
#[export] Instance encode_param_Inj : Inj (=) (=) encode_param.
Proof. intros p q. apply encode_param_inj. Qed.

Lemma split_once_inj c a b a' b' :
  contains_char c a = false -> contains_char c a' = false ->
  a +:+ String c b = a' +:+ String c b' -> a = a' /\ b = b'.
Proof.
  intros Ha Ha' H. pose proof (split_once_app c a b Ha) as E.
  rewrite H, split_once_app in E by done. by inversion E.
Qed.

Lemma clean_amp_absurd v v' r : clean v -> v = v' +:+ String "&" r -> False.
Proof.
  intros [H _] ->. unfold contains_char in H. rewrite str_any_app in H. simpl in H.
  by rewrite orb_true_r in H.
Qed.

Lemma render_query_cons n v l :
  render_query ((n, v) :: l) =
  n +:+ String "=" (v +:+ match l with [] => "" | _ => String "&" (render_query l) end).
Proof. destruct l as [|[]]; simpl; [by rewrite app_nil_r_str | done]. Qed.

Lemma render_query_inj l l' :
  Forall (fun p => clean p.1 /\ clean p.2) l -> Forall (fun p => clean p.1 /\ clean p.2) l' ->
  render_query l = render_query l' -> l = l'.
Proof.
  revert l'. induction l as [|[n v] l IH]; intros [|[n' v'] l'] F F'; [done|..].
  - rewrite render_query_cons. intros H. exfalso. by destruct n'.
  - rewrite render_query_cons. intros H. exfalso. by destruct n.
  - rewrite !render_query_cons. intros H.
    apply Forall_cons in F as [[[_ Cn] Cv] F], F' as [[[_ Cn'] Cv'] F']. simpl in *.
    apply split_once_inj in H as [-> H]; [|done..].
    destruct l as [|b l], l' as [|b' l'].
    + rewrite !app_nil_r_str in H. by subst.
    + rewrite app_nil_r_str in H. by apply clean_amp_absurd in H.
    + rewrite app_nil_r_str in H. symmetry in H. by apply clean_amp_absurd in H.
    + apply split_once_inj in H as [-> H]; [|by destruct Cv, Cv'..].
      f_equal. by apply IH.
Qed.

Lemma sorted_params_clean ps :
  Forall (fun p => clean p.1 /\ clean p.2) (merge_sort pair_le (encode_param <$> ps)).
Proof.
  rewrite (merge_sort_Permutation pair_le). apply Forall_fmap, Forall_true.
  intros p. apply encode_param_clean.
Qed.

(** ** Lemmas: header values *)

(** Reference: the maximal runs of non-blank bytes. *)
Fixpoint blank_words (s current : string) : list string :=
  match s with
  | EmptyString => if is_empty current then [] else [current]
  | String c s =>
      if is_blank c then
        (if is_empty current then [] else [current]) ++ blank_words s ""
      else blank_words s (current +:+ String c "")
  end.

Lemma blank_words_nonempty s cur w : w ∈ blank_words s cur -> is_empty w = false.
Proof.
  revert cur. induction s as [|c s IH]; intros cur; simpl.
  - destruct (is_empty cur) eqn:E; [set_solver|]. intros ->%list_elem_of_singleton. done.
  - destruct (is_blank c); [|apply IH]. rewrite elem_of_app. intros [H|H]; [|by eapply IH].
    destruct (is_empty cur) eqn:E; [set_solver|]. apply list_elem_of_singleton in H. by subst.
Qed.

Lemma join_cons sep w l :
  join sep (w :: l) = match l with [] => w | _ => w +:+ sep +:+ join sep l end.
Proof. by destruct l. Qed.

Lemma is_empty_snoc s c : is_empty (s +:+ String c "") = false.
Proof. by destruct s. Qed.

Lemma blank_words_current s cur :
  is_empty cur = false -> exists w ws, blank_words s cur = w :: ws.
Proof.
  revert cur. induction s as [|c s IH]; intros cur H; simpl; rewrite ?H; [eauto|].
  destruct (is_blank c); [simpl; eauto|]. apply IH, is_empty_snoc.
Qed.

(** What [normalize_loop] appends to the text gathered so far: inside a word,
after a word with a pending space, and before the first word. *)
Lemma normalize_loop_spec s :
  (forall pre cur, is_empty cur = false ->
     normalize_loop s (pre +:+ cur) false = pre +:+ join " " (blank_words s cur))
  /\ (forall n, is_empty n = false ->
     normalize_loop s n true
     = n +:+ match blank_words s "" with [] => "" | _ => " " +:+ join " " (blank_words s "") end)
  /\ normalize_loop s "" false = join " " (blank_words s "").
Proof.
  induction s as [|c s (IHA & IHB & IHC)]; simpl.
  { split_and!; [intros pre cur ->; done | intros; by rewrite app_nil_r_str | done]. }
  destruct (is_blank c); simpl; split_and!.
  - intros pre cur E. rewrite E.
    assert (is_empty (pre +:+ cur) = false) as -> by (by destruct pre).
    rewrite IHB by (by destruct pre). simpl. rewrite join_cons.
    destruct (blank_words s ""); by rewrite ?app_nil_r_str, ?app_assoc_str.
  - intros n E. rewrite E. by apply IHB.
  - apply IHC.
  - intros pre cur E. rewrite app_assoc_str. apply IHA, is_empty_snoc.
  - intros n E. rewrite IHA by done.
    destruct (blank_words_current s (String c "")) as (w & ws & ->); [done|].
    by rewrite app_assoc_str.
  - by apply (IHA "").
Qed.

Lemma normalize_header_value_ok v w :
  normalize_header_value v = Ok w -> w = join " " (blank_words v "").
Proof.
  unfold normalize_header_value. case_match; intros; inv_ok. apply normalize_loop_spec.
Qed.

(** ** Lemmas: grouping of headers *)

(** Reference: the normalized values of the headers with a given lower-case
name, in order; [None] when there is none. *)
Definition values_of (k : string) (hs : list Header) : list string :=
  (fun h => normalize_loop (h_value h) "" false) <$>
  filter (fun h => to_ascii_lowercase (h_name h) = k) hs.

Definition header_ok (h : Header) : Prop :=
  valid_header_name (h_name h) = true /\ is_ok (normalize_header_value (h_value h)) = true.

Lemma normalize_ok_value v w :
  normalize_header_value v = Ok w -> w = normalize_loop v "" false.
Proof. unfold normalize_header_value. case_match; intros; inv_ok. done. Qed.

Definition btree_values (k : string) (m : list (string * list string)) : list string :=
  match btree_get k m with Some vs => vs | None => [] end.

Lemma collect_headers_spec hs m m' :
  btree_sorted m -> collect_headers hs m = Ok m' ->
  Forall header_ok hs /\ btree_sorted m' /\
  (forall k, btree_values k m' = btree_values k m ++ values_of k hs) /\
  (forall k, k ∈ m'.*1 <-> k ∈ m.*1 \/ k ∈ ((fun h => to_ascii_lowercase (h_name h)) <$> hs)).
Proof.
  revert m. induction hs as [|h hs IH]; simpl; intros m Hm H; inv_ok.
  { split_and!; [done..| |]; intros k; [by rewrite app_nil_r | set_solver]. }
  destruct (valid_header_name (h_name h)) eqn:V; simpl in H; [|done].
  destruct (normalize_header_value (h_value h)) as [v|] eqn:N; inv_ok.
  apply IH in H as (F & S & L & K); [|by apply btree_upsert_sorted].
  split_and!; [|done| |].
  - constructor; [|done]. split; [done|]. by rewrite N.
  - intros k. rewrite L. unfold values_of. rewrite filter_cons. unfold btree_values.
    case_decide as D.
    + subst k. rewrite btree_get_upsert_eq by done. apply normalize_ok_value in N as ->.
      simpl. destruct (btree_get _ m); simpl; [|done]. by rewrite <- app_assoc.
    + by rewrite btree_get_upsert_ne.
  - intros k. rewrite K, btree_upsert_keys. csimpl. set_solver.
Qed.

Lemma collect_headers_complete hs m :
  Forall header_ok hs -> exists m', collect_headers hs m = Ok m'.
Proof.
  revert m. induction hs as [|h hs IH]; intros m F; simpl; [eauto|].
  apply Forall_cons in F as [[V N] F]. rewrite V. simpl.
  destruct (normalize_header_value _); [|done]. by apply IH.
Qed.

(** The grouped map of a list of valid headers, described by its lookups. *)
Definition groups (hs : list Header) (m : list (string * list string)) : Prop :=
  btree_sorted m /\
  (forall k, btree_values k m = values_of k hs) /\
  (forall k, k ∈ m.*1 <-> k ∈ ((fun h => to_ascii_lowercase (h_name h)) <$> hs)).

Lemma collect_headers_groups hs m :
  collect_headers hs [] = Ok m <-> Forall header_ok hs /\ groups hs m.
Proof.
  split.
  - intros H. apply collect_headers_spec in H as (F & S & L & K); [|constructor].
    split; [done|]. split; [done|]. split; intros k; [apply L|]. rewrite K. set_solver.
  - intros (F & S & L & K). destruct (collect_headers_complete hs [] F) as [m' H].
    rewrite H. f_equal. apply collect_headers_spec in H as (_ & S' & L' & K'); [|constructor].
    apply btree_ext; [done..|]. intros k. specialize (L k). specialize (L' k). simpl in L'.
    unfold btree_values in *. destruct (btree_get k m) as [x|] eqn:E, (btree_get k m') as [y|] eqn:E'.
    + simpl in L'. congruence.
    + exfalso. apply btree_get_None in E'. apply E', K'. right. apply K.
      apply btree_get_Some in E. by apply (list_elem_of_fmap_2 fst) in E.
    + exfalso. apply btree_get_None in E. apply E, K.
      apply btree_get_Some in E'. apply (list_elem_of_fmap_2 fst) in E'. apply K' in E'. set_solver.
    + done.
Qed.

Lemma values_of_perm k hs hs' :
  NoDup ((fun h => to_ascii_lowercase (h_name h)) <$> hs) -> hs ≡ₚ hs' ->
  values_of k hs = values_of k hs'.
Proof.
  intros ND P. unfold values_of.
  assert (filter (fun h => to_ascii_lowercase (h_name h) = k) hs
          ≡ₚ filter (fun h => to_ascii_lowercase (h_name h) = k) hs') as PF by by rewrite P.
  assert (List.length (filter (fun h => to_ascii_lowercase (h_name h) = k) hs) <= 1)%nat as L.
  { clear P PF hs'. induction hs as [|h hs IH]; [simpl; lia|].
    rewrite fmap_cons in ND. apply NoDup_cons in ND as [NI ND]. rewrite filter_cons.
    case_decide as D; [|by apply IH]. simpl.
    replace (filter _ hs) with (@nil Header); [simpl; lia|]. symmetry.
    apply filter_none, Forall_forall. intros x Hx Ex. apply NI. rewrite D, <- Ex.
    by apply (list_elem_of_fmap_2 (fun h => to_ascii_lowercase (h_name h))). }
  destruct (filter _ hs) as [|a [|? ?]]; simpl in L; [|..|lia].
  - apply Permutation_nil in PF. by rewrite PF.
  - apply Permutation_singleton_l in PF. by rewrite PF.
Qed.

Lemma canonical_headers_inv hs ch :
  canonical_headers hs = Ok ch ->
  exists m v, Forall header_ok hs /\ groups hs m
    /\ values_of "host" hs = [v] /\ v <> ""
    /\ ch = {| canonical := render_canonical m; signed := join ";" (m.*1) |}.
Proof.
  unfold canonical_headers. destruct (collect_headers hs []) as [m|] eqn:C; [|done].
  apply collect_headers_groups in C as [F G]. destruct m as [|b m]; [done|].
  destruct (btree_get "host" (b :: m)) as [[|v [|? ?]]|] eqn:E; try done.
  destruct (is_empty v) eqn:V; intros; inv_ok. exists (b :: m), v.
  split_and!; [done..| | |done].
  - destruct G as (_ & L & _). rewrite <- L. unfold btree_values. by rewrite E.
  - intros ->. done.
Qed.

Lemma canonical_headers_intro hs m v :
  Forall header_ok hs -> groups hs m -> values_of "host" hs = [v] -> v <> "" ->
  canonical_headers hs
  = Ok {| canonical := render_canonical m; signed := join ";" (m.*1) |}.
Proof.
  intros F G V NE. unfold canonical_headers.
  rewrite (proj2 (collect_headers_groups hs m)) by done.
  destruct G as (_ & L & _). specialize (L "host"). rewrite V in L.
  unfold btree_values in L. destruct m as [|b m]; [done|].
  destruct (btree_get "host" (b :: m)); [subst|done]. by destruct v.
Qed.

Lemma canonical_query_inj ps qs : canonical_query ps = canonical_query qs -> ps ≡ₚ qs.
Proof.
  unfold canonical_query. intros H. apply render_query_inj in H; [|apply sorted_params_clean..].
  assert (encode_param <$> ps ≡ₚ encode_param <$> qs) as P.
  { by rewrite <- (merge_sort_Permutation pair_le (encode_param <$> ps)), H,
      (merge_sort_Permutation pair_le). }
  apply Permutation_map_inv in P as (ps' & E & P).
  apply (inj (fmap encode_param)) in E. by subst.
Qed.

Lemma canonical_query_perm ps qs : ps ≡ₚ qs -> canonical_query ps = canonical_query qs.
Proof.
  intros P. unfold canonical_query. f_equal.
  apply (StronglySorted_unique pair_le); [apply (StronglySorted_merge_sort pair_le)..|].
  rewrite !(merge_sort_Permutation pair_le). by rewrite P.
Qed.

(** ** Properties *)

(** C31. The canonical query determines the parameters: two parameter lists have
the same canonical query exactly when they are permutations of each other, so
the signature is independent of the order of parameters and binds every name,
value and repetition. *)
Theorem canonical_query_determines_parameters (ps qs : list QueryParam) :
  canonical_query ps = canonical_query qs <-> ps ≡ₚ qs.
Proof.
  split; [apply canonical_query_inj | apply canonical_query_perm].
Qed.

(** Encoding is lossless and clean: percent-decoding inverts it, and with
slashes encoded the result holds no separator of a URL or query. *)
Theorem aws_uri_encode_lossless (s : string) (encode_slash : bool) :
  pct_decode (aws_uri_encode s encode_slash) = Some s
  /\ str_all (is_encoded_byte (negb encode_slash)) (aws_uri_encode s encode_slash) = true
  /\ str_any (one_of "&=?#+ ") (aws_uri_encode s encode_slash) = false.
Proof.
  split_and!; [apply aws_uri_decode | apply aws_uri_encode_bytes |].
  eapply str_any_none; [|apply aws_uri_encode_bytes].
  intros c. destruct encode_slash; all_bytes c.
Qed.

(** A raw path and its encoded form have one canonical URI: an already
encoded wire path is not encoded a second time. *)
Theorem canonical_uri_not_double_encoded (path : string) :
  canonical_uri_from_encoded (aws_uri_encode path false) = Ok (canonical_uri path).
Proof.
  unfold canonical_uri_from_encoded, canonical_uri.
  assert (canonical_uri_loop (aws_uri_encode path false) = Ok (aws_uri_encode path false)) as ->.
  { pose proof (canonical_uri_loop_encoded path false "" "" eq_refl) as H.
    by rewrite !app_nil_r_str in H. }
  destruct path as [|c path]; [done|]. simpl is_empty. cbv iota.
  destruct (starts_with "/" (aws_uri_encode (String c path) false)) eqn:E; [|done].
  apply starts_with_slash in E as [t ->]. done.
Qed.

(** On any UTF-8 path the canonical URI is rooted, is a fixed point of
canonicalisation and denotes the same bytes as the (rooted) path. *)
Theorem canonical_uri_from_encoded_sound (path out : string)
  (Hutf8 : utf8_valid path = true)
  (Hok : canonical_uri_from_encoded path = Ok out) :
  starts_with "/" out = true /\ canonical_uri_from_encoded out = Ok out
  /\ pct_decode out = pct_decode (if starts_with "/" path then path else "/" +:+ path).
Proof.
  assert (exists p, (if starts_with "/" path then path else "/" +:+ path) = "/" +:+ p
    /\ utf8_valid p = true /\ canonical_uri_from_encoded ("/" +:+ p) = Ok out)
    as (p & Ep & HU & H).
  { destruct (starts_with "/" path) eqn:E.
    - apply starts_with_slash in E as [p ->]. by exists p.
    - exists path. by rewrite <- canonical_uri_from_encoded_rooted. }
  rewrite Ep. clear Ep. rewrite canonical_uri_from_encoded_slash in H.
  destruct (canonical_uri_loop p) as [t|] eqn:L; simpl in H; inv_ok.
  change (String "/" t) with ("/" +:+ t).
  split_and!; [apply starts_with_app | |].
  - by rewrite canonical_uri_from_encoded_slash, (canonical_uri_loop_idemp _ _ L).
  - simpl. by rewrite (canonical_uri_loop_decode _ _ HU L).
Qed.

Lemma canonical_uri_from_encoded_sound_witness :
  canonical_uri_from_encoded "a%2fb c" = Ok "/a%2Fb%20c"
  /\ canonical_uri_from_encoded "/a%2Fb%20c" = Ok "/a%2Fb%20c".
Proof.
  split; [reflexivity|].
  apply (canonical_uri_from_encoded_sound "a%2fb c" "/a%2Fb%20c"); reflexivity.
Defined.

(** Header values are trimmed and inner blanks collapsed to one space:
the result is the blank-separated words joined by single spaces, and a control
byte other than tab is refused. *)
Theorem normalize_header_value_spec (v : string) :
  normalize_header_value v =
  if str_any (fun c => is_ascii_control c && negb (Ascii.eqb c (chr 9))) v
  then Err SigningError.InvalidHeaderValue
  else Ok (join " " (blank_words v "")).
Proof.
  unfold normalize_header_value. case_match; [done|]. f_equal. apply normalize_loop_spec.
Qed.

(** Canonical headers succeed exactly when every name and value is valid
and there is exactly one, non-empty, host value; the block then lists each
lower-case name once, in ascending order, with its values in request order. *)
Theorem canonical_headers_spec (hs : list Header) (ch : CanonicalHeaders) :
  canonical_headers hs = Ok ch <->
  exists m v, Forall header_ok hs /\ groups hs m
    /\ values_of "host" hs = [v] /\ v <> ""
    /\ ch = {| canonical := render_canonical m; signed := join ";" (m.*1) |}.
Proof.
  split; [apply canonical_headers_inv|].
  intros (m & v & F & G & V & NE & ->). by apply (canonical_headers_intro hs m v).
Qed.

(** The order of differently named headers does not matter. *)
Theorem canonical_headers_order_irrelevant (hs hs' : list Header) (ch : CanonicalHeaders)
  (Hnames : NoDup ((fun h => to_ascii_lowercase (h_name h)) <$> hs))
  (Hperm : hs ≡ₚ hs') (Hok : canonical_headers hs = Ok ch) :
  canonical_headers hs' = Ok ch.
Proof.
  unfold canonical_headers in *. destruct (collect_headers hs []) as [m|] eqn:C; [|done].
  apply collect_headers_groups in C as (F & S & L & K).
  rewrite (proj2 (collect_headers_groups hs' m)); [done|].
  split; [by rewrite <- Hperm|]. split; [done|]. split; intros k.
  - rewrite L. by apply values_of_perm.
  - by rewrite K, Hperm.
Qed.

Lemma canonical_headers_order_irrelevant_witness :
  exists ch, canonical_headers [hdr "X-A" "1"; hdr "Host" "h"] = Ok ch
    /\ canonical_headers [hdr "Host" "h"; hdr "X-A" "1"] = Ok ch.
Proof.
  eexists. split; [reflexivity|].
  apply (canonical_headers_order_irrelevant [hdr "X-A" "1"; hdr "Host" "h"]).
  - vm_compute. repeat constructor; set_solver.
  - apply Permutation_swap.
  - reflexivity.
Defined.
