(* ===== verification/SigV4.v ===== *)
(** SigV4 signing ([src/signing/crypto.rs], [src/signing/request/*.rs]):
payload digests, key derivation, canonical request, string to sign, header
authorization and presigned query strings. SHA-256, HMAC and the calendar
formatting of a timestamp come from other crates and are the fields of
[Primitives]. *)

From S2P Require Import Prelude Text Canonical.
From stdpp Require Import options.
Local Open Scope Z_scope.

(** Third-party functions: [Sha256::digest], [Hmac::<Sha256>] ([None] when the
key is refused), and [OffsetDateTime::format] with the two layouts the code
uses. A timestamp is a number of nanoseconds. *)
Class Primitives : Type := {
  sha256 : string -> string;
  hmac : string -> string -> option string;
  format_amz_date : Z -> option string;
  format_date : Z -> option string
}.

(** What the code relies on: digests are 32 bytes, dates are alphanumeric. Of dates
that holds in the years 0 to 9999, which is what a clock reads; a year before them is
printed with a sign, and an instance of the laws answers [None] for it. *)
Class PrimitivesLaws `{Primitives} : Prop := {
  sha256_length : forall m, String.length (sha256 m) = 32%nat;
  hmac_length : forall k m t, hmac k m = Some t -> String.length t = 32%nat;
  amz_date_alphanumeric : forall t d, format_amz_date t = Some d ->
    str_all is_ascii_alphanumeric d = true;
  date_alphanumeric : forall t d, format_date t = Some d ->
    str_all is_ascii_alphanumeric d = true
}.

Section signing.
Context `{Primitives}.

(** ** [crypto.rs] *)

Definition hex_encode_byte (c : ascii) : string :=
  String (hex_at HEX_LOWER (hi4 c)) (String (hex_at HEX_LOWER (lo4 c)) "").
Definition hex_encode (bytes : string) : string := str_flat_map hex_encode_byte bytes.

Definition payload_sha256 (payload : string) : string := sha256 payload.
Definition payload_sha256_hex (payload : string) : string := hex_encode (payload_sha256 payload).

Definition hmac_sha256 (key message : string) : result SigningError.t string :=
  ok_or (hmac key message) SigningError.Cryptographic.

(** [constant_time_signature_eq]: both are copied into buffers of 64 zero bytes,
and all of the bytes are compared. *)
Definition fixed_buffer (s : string) : string :=
  str_take 64 s +:+ str_concat (replicate (64 - String.length s) (String (chr 0) "")).
Definition constant_time_signature_eq (expected candidate : string) : bool :=
  let same_length := slen expected =? slen candidate in
  same_length && String.eqb (fixed_buffer expected) (fixed_buffer candidate)
  && (slen expected =? 64).

(** [SigningKey] is the 32 key bytes. *)
Definition SigningKey_sign (key message : string) : result SigningError.t string :=
  hmac_sha256 key message.

Definition derive_signing_key (secret_access_key date region service : string)
  : result SigningError.t string :=
  let root := "AWS4" +:+ secret_access_key in
  let? date_key := hmac_sha256 root date in
  let? region_key := hmac_sha256 date_key region in
  let? service_key := hmac_sha256 region_key service in
  hmac_sha256 service_key "aws4_request".

(** ** [request/types.rs] *)

Record SigningCredentials : Type := {
  access_key_id : string;
  secret_access_key : string;
  session_token : option string
}.

Record SigningScope : Type := { region : string; service : string }.

Inductive SigningPath : Type := Raw (path : string) | Encoded (path : string).

Definition SigningPath_canonical (p : SigningPath) : result SigningError.t string :=
  match p with
  | Raw path => Ok (canonical_uri path)
  | Encoded path => canonical_uri_from_encoded path
  end.

Record HeaderSigningRequest : Type := {
  hs_method : string;
  hs_uri_path : SigningPath;
  hs_query : list QueryParam;
  hs_headers : list Header;
  hs_payload_hash : string
}.

Record HeaderSigningOutput : Type := {
  authorization : string;
  amz_date : string;
  security_token : option string
}.

Record PresigningRequest : Type := {
  ps_method : string;
  ps_uri_path : SigningPath;
  ps_query : list QueryParam;
  ps_headers : list Header;
  ps_expires : Z;
  ps_payload_hash : option string
}.

(** ** [request/common.rs] *)

Definition ALGORITHM : string := "AWS4-HMAC-SHA256".
Definition UNSIGNED_PAYLOAD : string := "UNSIGNED-PAYLOAD".
Definition REQUEST_TERMINATOR : string := "aws4_request".

Definition is_key_byte (c : ascii) : bool := is_ascii_alphanumeric c || one_of "-_" c.

Definition valid_scope_component (value : string) : bool :=
  negb (is_empty value) && str_all is_key_byte value.

Definition validate_common (credentials : SigningCredentials) (scope : SigningScope)
    (method : string) : result SigningError.t unit :=
  if is_empty (secret_access_key credentials) || is_empty (access_key_id credentials)
     || negb (str_all is_key_byte (access_key_id credentials))
  then Err SigningError.InvalidCredentials
  else if match session_token credentials with Some t => is_empty t | None => false end
  then Err SigningError.InvalidCredentials
  else if negb (valid_scope_component (region scope))
          || negb (valid_scope_component (service scope))
  then Err SigningError.InvalidScope
  else if is_empty method
          || negb (str_all (fun c => is_ascii_uppercase c || is_ascii_digit c
                                     || Ascii.eqb c "-") method)
  then Err SigningError.InvalidMethod
  else Ok tt.

Definition is_lower_hex (c : ascii) : bool := is_ascii_digit c || in_range "a" "f" c.

Definition validate_payload_hash (payload_hash : string) : result SigningError.t unit :=
  let is_sha256 := (slen payload_hash =? 64) && str_all is_lower_hex payload_hash in
  let is_supported_literal :=
    bool_decide (payload_hash ∈ [UNSIGNED_PAYLOAD;
      "STREAMING-AWS4-HMAC-SHA256-PAYLOAD";
      "STREAMING-AWS4-HMAC-SHA256-PAYLOAD-TRAILER";
      "STREAMING-UNSIGNED-PAYLOAD-TRAILER"]) in
  if is_sha256 || is_supported_literal then Ok tt else Err SigningError.InvalidPayloadHash.

Definition build_canonical_request (method : string) (uri_path : SigningPath)
    (query : list QueryParam) (headers : CanonicalHeaders) (payload_hash : string)
  : result SigningError.t string :=
  let? uri := SigningPath_canonical uri_path in
  Ok (method +:+ LF +:+ uri +:+ LF +:+ canonical_query query +:+ LF +:+
      canonical headers +:+ LF +:+ signed headers +:+ LF +:+ payload_hash).

Definition calculate_signature (credentials : SigningCredentials) (scope : SigningScope)
    (date amz_date credential_scope canonical_request : string)
  : result SigningError.t string :=
  let request_hash := payload_sha256_hex canonical_request in
  let string_to_sign :=
    ALGORITHM +:+ LF +:+ amz_date +:+ LF +:+ credential_scope +:+ LF +:+ request_hash in
  let? key := derive_signing_key (secret_access_key credentials) date
                (region scope) (service scope) in
  let? tag := SigningKey_sign key string_to_sign in
  Ok (hex_encode tag).

Definition credential_scope (date : string) (scope : SigningScope) : string :=
  date +:+ "/" +:+ region scope +:+ "/" +:+ service scope +:+ "/" +:+ REQUEST_TERMINATOR.

Definition format_timestamp (timestamp : Z) : result SigningError.t (string * string) :=
  let? amz := ok_or (format_amz_date timestamp) SigningError.Timestamp in
  let? date := ok_or (format_date timestamp) SigningError.Timestamp in
  Ok (amz, date).

(** ** [request/header.rs] *)

Definition reject_reserved_headers (headers : list Header) : result SigningError.t unit :=
  if existsb (fun h => eq_ignore_ascii_case (h_name h) "authorization"
                || eq_ignore_ascii_case (h_name h) "x-amz-date"
                || eq_ignore_ascii_case (h_name h) "x-amz-security-token") headers
  then Err SigningError.ReservedHeader else Ok tt.

(** The headers that are signed: the caller's, the date and the token. *)
Definition signing_headers (credentials : SigningCredentials) (headers : list Header)
    (amz : string) : list Header :=
  headers ++ [hdr "x-amz-date" amz] ++
  match session_token credentials with
  | Some token => [hdr "x-amz-security-token" token]
  | None => []
  end.

Definition sign_headers (credentials : SigningCredentials) (scope : SigningScope)
    (request : HeaderSigningRequest) (timestamp : Z)
  : result SigningError.t HeaderSigningOutput :=
  let? _ := validate_common credentials scope (hs_method request) in
  let? _ := validate_payload_hash (hs_payload_hash request) in
  let? _ := reject_reserved_headers (hs_headers request) in
  let? (amz, date) := format_timestamp timestamp in
  let headers := signing_headers credentials (hs_headers request) amz in
  let? canonical_hdrs := canonical_headers headers in
  let? canonical_request :=
    build_canonical_request (hs_method request) (hs_uri_path request) (hs_query request)
      canonical_hdrs (hs_payload_hash request) in
  let cred_scope := credential_scope date scope in
  let? signature :=
    calculate_signature credentials scope date amz cred_scope canonical_request in
  Ok {| authorization :=
          ALGORITHM +:+ " Credential=" +:+ access_key_id credentials +:+ "/" +:+ cred_scope
          +:+ ", SignedHeaders=" +:+ signed canonical_hdrs
          +:+ ", Signature=" +:+ signature;
        amz_date := amz;
        security_token := session_token credentials |}.

(** ** [request/presign.rs] *)

Definition MAX_PRESIGN_EXPIRY : Z := 7 * 24 * 60 * 60.

Definition reject_reserved_query (query : list QueryParam) : result SigningError.t unit :=
  if existsb (fun p => eq_ignore_ascii_case (qp_name p) "X-Amz-Signature") query
     || existsb (fun p => bool_decide (to_ascii_lowercase (qp_name p) ∈
          ["x-amz-algorithm"; "x-amz-credential"; "x-amz-date"; "x-amz-expires";
           "x-amz-security-token"; "x-amz-signedheaders"])) query
  then Err SigningError.ReservedQueryParameter else Ok tt.

(** The parameters a presigned request signs. *)
Definition presign_parameters (credentials : SigningCredentials) (query : list QueryParam)
    (credential amz expires signed_names : string) : list QueryParam :=
  query ++ [qp "X-Amz-Algorithm" ALGORITHM; qp "X-Amz-Credential" credential;
            qp "X-Amz-Date" amz; qp "X-Amz-Expires" expires;
            qp "X-Amz-SignedHeaders" signed_names] ++
  match session_token credentials with
  | Some token => [qp "X-Amz-Security-Token" token]
  | None => []
  end.

Definition sign_presigned (credentials : SigningCredentials) (scope : SigningScope)
    (request : PresigningRequest) (timestamp : Z) : result SigningError.t string :=
  let? _ := validate_common credentials scope (ps_method request) in
  if negb (bool_decide (ps_method request ∈ ["GET"; "PUT"; "HEAD"; "DELETE"; "POST"]))
  then Err SigningError.UnsupportedPresignMethod
  else
  let expires := as_secs (ps_expires request) in
  if (expires =? 0) || (MAX_PRESIGN_EXPIRY <? expires)
     || negb (subsec_nanos (ps_expires request) =? 0)
  then Err SigningError.InvalidExpiry
  else
  let? _ := reject_reserved_query (ps_query request) in
  let? _ := match ps_payload_hash request with
            | Some h => validate_payload_hash h
            | None => Ok tt
            end in
  let? canonical_hdrs := canonical_headers (ps_headers request) in
  let? (amz, date) := format_timestamp timestamp in
  let cred_scope := credential_scope date scope in
  let credential := access_key_id credentials +:+ "/" +:+ cred_scope in
  let parameters := presign_parameters credentials (ps_query request) credential amz
                      (to_string expires) (signed canonical_hdrs) in
  let? canonical_request :=
    build_canonical_request (ps_method request) (ps_uri_path request) parameters
      canonical_hdrs (default UNSIGNED_PAYLOAD (ps_payload_hash request)) in
  let? signature :=
    calculate_signature credentials scope date amz cred_scope canonical_request in
  Ok (canonical_query parameters +:+ "&X-Amz-Signature=" +:+ signature).
End signing.

(** ** Lemmas: the comparison of signatures *)

Lemma fixed_buffer_full s : slen s = 64 -> fixed_buffer s = s.
Proof.
  intros Hs. unfold fixed_buffer. rewrite str_take_all by lia.
  replace (64 - String.length s)%nat with 0%nat by (unfold slen in Hs; lia). apply app_nil_r_str.
Qed.

(** The comparison without an early exit accepts exactly the expected signature, and
only one of 64 characters. *)
Theorem constant_time_signature_eq_spec (expected candidate : string) :
  constant_time_signature_eq expected candidate = true <->
  expected = candidate /\ slen expected = 64.
Proof.
  unfold constant_time_signature_eq. split.
  - intros H. bools. split; [|done]. rewrite !fixed_buffer_full in * by congruence. done.
  - intros [<- Hl]. by rewrite Hl, !Z.eqb_refl, String.eqb_refl.
Qed.

(** ** Lemmas: which bytes the parts hold *)

Definition printable (c : ascii) : bool := (32 <=? byte c) && (byte c <=? 126).
Definition no_lf (s : string) : Prop := contains_char (chr 10) s = false.

Lemma printable_no_lf s : str_all printable s = true -> no_lf s.
Proof. apply str_any_none. intros c. all_bytes c. Qed.

Lemma key_bytes_printable s : str_all is_key_byte s = true -> str_all printable s = true.
Proof. apply str_all_impl. intros c. all_bytes c. Qed.

Lemma alphanumeric_printable s :
  str_all is_ascii_alphanumeric s = true -> str_all printable s = true.
Proof. apply str_all_impl. intros c. all_bytes c. Qed.

Lemma encoded_printable slash s :
  str_all (is_encoded_byte slash) s = true -> str_all printable s = true.
Proof. apply str_all_impl. intros c. destruct slash; all_bytes c. Qed.

Lemma hex_encode_lower s : str_all is_lower_hex (hex_encode s) = true.
Proof. apply str_all_flat_map. intros c. all_bytes c. Qed.

Lemma hex_encode_length s : slen (hex_encode s) = 2 * slen s.
Proof.
  unfold hex_encode. induction s as [|c s IH]; [done|]. cbn [str_flat_map].
  rewrite slen_app, IH, slen_cons. change (slen (hex_encode_byte c)) with 2. lia.
Qed.

Lemma lower_hex_printable s : str_all is_lower_hex s = true -> str_all printable s = true.
Proof. apply str_all_impl. intros c. all_bytes c. Qed.

Lemma join_all p sep l :
  str_all p sep = true -> Forall (fun s => str_all p s = true) l ->
  str_all p (join sep l) = true.
Proof.
  intros Hs. induction 1 as [|s l Hl F IH]; [done|]. rewrite join_cons.
  destruct l; [done|]. by rewrite !str_all_app, Hl, Hs, IH.
Qed.

Lemma lower_name_printable n :
  valid_header_name n = true -> str_all printable (to_ascii_lowercase n) = true.
Proof.
  unfold valid_header_name. intros. bools. revert H0. clear H.
  unfold to_ascii_lowercase. induction n as [|c n IH]; simpl; [done|]. intros. bools.
  rewrite IH, andb_true_r by done. revert H. all_bytes c.
Qed.

Lemma canonical_headers_signed_printable hs ch :
  canonical_headers hs = Ok ch -> str_all printable (signed ch) = true.
Proof.
  intros Hc. apply canonical_headers_inv in Hc as (m & v & F & (_ & _ & K) & _ & _ & ->).
  simpl. apply join_all; [done|]. apply Forall_forall. intros k Hk. apply K in Hk.
  apply list_elem_of_fmap in Hk as (h & -> & Hh). rewrite Forall_forall in F.
  by apply lower_name_printable, F.
Qed.

Lemma signing_path_bytes p u :
  SigningPath_canonical p = Ok u -> str_all (is_encoded_byte true) u = true.
Proof.
  destruct p as [p|p]; simpl; intros Hu; inv_ok.
  - unfold canonical_uri. repeat case_match; rewrite ?str_all_app; try done;
      apply (aws_uri_encode_bytes p false).
  - unfold canonical_uri_from_encoded in Hu.
    destruct (canonical_uri_loop p) as [t|] eqn:L; inv_ok. apply canonical_uri_loop_bytes in L.
    repeat case_match; rewrite ?str_all_app; done.
Qed.

Lemma canonical_query_printable ps : str_all printable (canonical_query ps) = true.
Proof.
  unfold canonical_query.
  assert (Forall (fun p => str_all printable p.1 = true /\ str_all printable p.2 = true)
    (merge_sort pair_le (encode_param <$> ps))) as F.
  { rewrite (merge_sort_Permutation pair_le). apply Forall_fmap, Forall_true.
    intros p. split; apply (encoded_printable false), (aws_uri_encode_bytes _ true). }
  induction F as [|[n v] l [Hn Hv] F IH]; [done|]. rewrite render_query_cons. simpl in *.
  rewrite str_all_app, Hn. simpl. rewrite str_all_app, Hv. simpl. by destruct l.
Qed.

Section lemmas.
Set Default Proof Using "Type*".
Context `{PrimitivesLaws}.

Lemma validate_common_ok cr sc m :
  validate_common cr sc m = Ok tt ->
  str_all is_key_byte (access_key_id cr) = true /\ str_all is_key_byte (region sc) = true
  /\ str_all is_key_byte (service sc) = true /\ no_lf m.
Proof.
  unfold validate_common, valid_scope_component. intros Hv. steps_in Hv; bools;
  split_and!; try done; (eapply str_any_none; [|eassumption]); intros c; all_bytes c.
Qed.

Lemma validate_payload_hash_no_lf p : validate_payload_hash p = Ok tt -> no_lf p.
Proof.
  unfold validate_payload_hash. case_match eqn:E; [|done]. intros _.
  apply orb_true_iff in E as [E|E]; bools.
  - by apply printable_no_lf, lower_hex_printable.
  - apply bool_decide_eq_true in E. repeat (apply elem_of_cons in E as [->|E]; [done|]).
    by apply elem_of_nil in E.
Qed.

Lemma credential_scope_printable date sc :
  str_all is_ascii_alphanumeric date = true -> str_all is_key_byte (region sc) = true ->
  str_all is_key_byte (service sc) = true -> str_all printable (credential_scope date sc) = true.
Proof.
  intros Hd Hr Hs. unfold credential_scope. rewrite !str_all_app.
  by rewrite (alphanumeric_printable date), (key_bytes_printable (region sc)),
    (key_bytes_printable (service sc)).
Qed.

Lemma calculate_signature_hex cr sc d a cs req s :
  calculate_signature cr sc d a cs req = Ok s ->
  slen s = 64 /\ str_all is_lower_hex s = true.
Proof.
  unfold calculate_signature. intros Hs. steps_in Hs. split; [|apply hex_encode_lower].
  rewrite hex_encode_length. unfold SigningKey_sign, hmac_sha256, ok_or in *. steps_in Heqr0.
  unfold slen. by erewrite hmac_length by done.
Qed.

Lemma format_timestamp_ok t a d :
  format_timestamp t = Ok (a, d) ->
  str_all is_ascii_alphanumeric a = true /\ str_all is_ascii_alphanumeric d = true.
Proof.
  unfold format_timestamp, ok_or. intros Hf. steps_in Hf.
  split; [by eapply amz_date_alphanumeric | by eapply date_alphanumeric].
Qed.
End lemmas.

(** Peeling the last line of a text whose final field has no line feed. *)
Lemma last_line_inj x y a b :
  no_lf a -> no_lf b -> x +:+ LF +:+ a = y +:+ LF +:+ b -> x = y /\ a = b.
Proof.
  assert (forall s, no_lf s -> no_lf (str_rev s)) as HR.
  { unfold no_lf, contains_char. induction s as [|c s IHs]; [done|]. simpl. intros. bools.
    rewrite str_rev_cons, str_any_app, IHs by done. simpl. by rewrite H. }
  intros Ha Hb E. apply (f_equal str_rev) in E. rewrite !str_rev_append in E.
  change (str_rev LF) with LF in E. rewrite !app_assoc_str in E.
  apply split_once_inj in E as [E1 E2]; [|by apply HR..].
  apply (f_equal str_rev) in E1, E2. by rewrite !str_rev_involutive in *.
Qed.

Lemma first_line_inj x y a b :
  no_lf a -> no_lf b -> a +:+ LF +:+ x = b +:+ LF +:+ y -> a = b /\ x = y.
Proof. apply split_once_inj. Qed.

Lemma build_canonical_request_parts m p qs ch h r :
  build_canonical_request m p qs ch h = Ok r ->
  exists u, SigningPath_canonical p = Ok u /\ no_lf u /\ no_lf (canonical_query qs)
    /\ r = m +:+ LF +:+ u +:+ LF +:+ canonical_query qs +:+ LF +:+
           canonical ch +:+ LF +:+ signed ch +:+ LF +:+ h.
Proof.
  unfold build_canonical_request. intros Hb. steps_in Hb. exists a. split_and!; [done| |..|done].
  - eapply printable_no_lf, (encoded_printable true), signing_path_bytes. done.
  - apply printable_no_lf, canonical_query_printable.
Qed.

Lemma canonical_headers_signed_no_lf hs ch : canonical_headers hs = Ok ch -> no_lf (signed ch).
Proof. intros. by eapply printable_no_lf, canonical_headers_signed_printable. Qed.

Lemma existsb_false_Forall {A} (f : A -> bool) l :
  existsb f l = false -> Forall (fun x => f x = false) l.
Proof. induction l; simpl; intros; bools; constructor; auto. Qed.

Lemma values_of_app k hs hs' : values_of k (hs ++ hs') = values_of k hs ++ values_of k hs'.
Proof. unfold values_of. by rewrite filter_app, fmap_app. Qed.

Lemma values_of_none k hs :
  Forall (fun h => eq_ignore_ascii_case (h_name h) k = false) hs ->
  to_ascii_lowercase k = k -> values_of k hs = [].
Proof.
  intros F Hk. unfold values_of. rewrite filter_none; [done|].
  eapply Forall_impl; [done|]. intros h Hh E. unfold eq_ignore_ascii_case in Hh. bools. congruence.
Qed.

Definition reserved_names : list string :=
  ["authorization"; "x-amz-date"; "x-amz-security-token"].

Lemma reject_reserved_headers_ok hs :
  reject_reserved_headers hs = Ok tt ->
  forall n, n ∈ reserved_names -> Forall (fun h => eq_ignore_ascii_case (h_name h) n = false) hs.
Proof.
  unfold reject_reserved_headers. case_match eqn:E; [done|]. intros _ n Hn.
  apply existsb_false_Forall in E. eapply Forall_impl; [done|]. intros h Hh. simpl in Hh. bools.
  unfold reserved_names in Hn. repeat (apply elem_of_cons in Hn as [->|Hn]; [done|]).
  by apply elem_of_nil in Hn.
Qed.

Lemma normalize_alphanumeric s pre :
  str_all is_ascii_alphanumeric s = true -> normalize_loop s pre false = pre +:+ s.
Proof.
  revert pre. induction s as [|c s IH]; intros pre; simpl; [by rewrite app_nil_r_str|].
  intros. bools. assert (is_blank c = false) as -> by (revert H; all_bytes c).
  by rewrite IH, app_assoc_str.
Qed.

Lemma signing_headers_values cr hs amz :
  reject_reserved_headers hs = Ok tt -> str_all is_ascii_alphanumeric amz = true ->
  values_of "authorization" (signing_headers cr hs amz) = []
  /\ values_of "x-amz-date" (signing_headers cr hs amz) = [amz]
  /\ values_of "x-amz-security-token" (signing_headers cr hs amz)
     = option_list ((fun t => normalize_loop t "" false) <$> session_token cr).
Proof.
  intros HR HA. pose proof (reject_reserved_headers_ok _ HR) as F.
  unfold signing_headers. rewrite !values_of_app.
  rewrite !(values_of_none _ hs) by (done || apply F; unfold reserved_names; set_solver).
  split_and!.
  - by destruct (session_token cr).
  - destruct (session_token cr); vm_compute (values_of _ [_]); simpl;
      by rewrite normalize_alphanumeric.
  - by destruct (session_token cr).
Qed.

Section output_lemmas.
Set Default Proof Using "Type*".
Context `{PrimitivesLaws}.

(** What a successful [sign_headers] computed. *)
Lemma sign_headers_inv cr sc rq t out :
  sign_headers cr sc rq t = Ok out ->
  exists date ch sig,
    validate_common cr sc (hs_method rq) = Ok tt
    /\ reject_reserved_headers (hs_headers rq) = Ok tt
    /\ str_all is_ascii_alphanumeric date = true
    /\ str_all is_ascii_alphanumeric (amz_date out) = true
    /\ canonical_headers (signing_headers cr (hs_headers rq) (amz_date out)) = Ok ch
    /\ security_token out = session_token cr
    /\ slen sig = 64 /\ str_all is_lower_hex sig = true
    /\ authorization out = ALGORITHM +:+ " Credential=" +:+ access_key_id cr +:+ "/"
         +:+ credential_scope date sc +:+ ", SignedHeaders=" +:+ signed ch
         +:+ ", Signature=" +:+ sig.
Proof.
  unfold sign_headers. intros Hs. steps_in Hs. destruct a, a1. simpl.
  apply format_timestamp_ok in Heqr2 as [Ha Hd]. apply calculate_signature_hex in Heqr5 as [Hl Hx].
  eexists _, _, _. split_and!; eauto.
Qed.

Lemma signing_authorization_printable cr sc m date hs ch sig :
  validate_common cr sc m = Ok tt -> str_all is_ascii_alphanumeric date = true ->
  canonical_headers hs = Ok ch -> str_all is_lower_hex sig = true ->
  str_all printable (ALGORITHM +:+ " Credential=" +:+ access_key_id cr +:+ "/"
         +:+ credential_scope date sc +:+ ", SignedHeaders=" +:+ signed ch
         +:+ ", Signature=" +:+ sig) = true.
Proof.
  intros Hv Hd Hc Hs. apply validate_common_ok in Hv as (Hk & Hr & Hse & _).
  rewrite !str_all_app.
  rewrite (key_bytes_printable (access_key_id cr)) by done.
  rewrite credential_scope_printable by done.
  rewrite (canonical_headers_signed_printable hs ch) by done.
  rewrite (lower_hex_printable sig) by done. done.
Qed.
End output_lemmas.

(** A stand-in for the parameters, used to evaluate concrete requests. *)
Definition sample_digest (s : string) : string :=
  str_map (fun c => ascii_lower c) (String.substring 0 32 (s +:+ "0123456789abcdef0123456789abcdef")).
#[local] Instance sample_primitives : Primitives := {
  sha256 m := sample_digest m;
  hmac k m := Some (sample_digest (str_rev k +:+ m));
  format_amz_date t := if t <? 0 then None else Some "20130524T000000Z";
  format_date t := if t <? 0 then None else Some "20130524"
}.


Lemma substring_length n s :
  (n <= String.length s)%nat -> String.length (String.substring 0 n s) = n.
Proof.
  revert s. induction n as [|n IH]; intros [|c s]; simpl; try lia. intros. rewrite IH; lia.
Qed.

Lemma str_map_length f s : String.length (str_map f s) = String.length s.
Proof. induction s; simpl; congruence. Qed.

Lemma sample_digest_length s : String.length (sample_digest s) = 32%nat.
Proof.
  unfold sample_digest. rewrite str_map_length. apply substring_length.
  rewrite str_length_app. simpl. lia.
Qed.

#[local] Instance sample_laws : PrimitivesLaws.
Proof.
  split; simpl; intros; try apply sample_digest_length; repeat case_match; inv_ok; try done.
  apply sample_digest_length.
Qed.

Definition sample_credentials : SigningCredentials :=
  {| access_key_id := "AKID"; secret_access_key := "secret"; session_token := Some "tok" |}.
Definition sample_scope : SigningScope := {| region := "us-east-1"; service := "s3" |}.

Lemma whole_seconds d : subsec_nanos d = 0 -> d = from_secs (as_secs d).
Proof.
  unfold subsec_nanos, from_secs, as_secs, NANOS_PER_SEC. intros H.
  pose proof (Z.div_mod d 1000000000). lia.
Qed.

Lemma presign_expiry_range d :
  0 <= d -> as_secs d <> 0 -> as_secs d <= MAX_PRESIGN_EXPIRY -> 1 <= as_secs d <= 604800.
Proof.
  unfold as_secs, MAX_PRESIGN_EXPIRY, NANOS_PER_SEC. intros.
  pose proof (Z.div_pos d 1000000000). lia.
Qed.

Lemma reject_reserved_query_ok qs u :
  reject_reserved_query qs = Ok u ->
  Forall (fun p => to_ascii_lowercase (qp_name p) ∉
       ["x-amz-signature"; "x-amz-algorithm"; "x-amz-credential"; "x-amz-date";
        "x-amz-expires"; "x-amz-security-token"; "x-amz-signedheaders"]) qs.
Proof.
  unfold reject_reserved_query. case_match eqn:E; [done|]. intros _. bools.
  apply existsb_false_Forall in H, H0. rewrite Forall_forall in *. intros p Hp.
  specialize (H p Hp). specialize (H0 p Hp). simpl in *. apply bool_decide_eq_false in H0.
  unfold eq_ignore_ascii_case in H. bools. change (to_ascii_lowercase "X-Amz-Signature")
    with "x-amz-signature" in H. rewrite elem_of_cons. tauto.
Qed.

(** What a presigned query is made of. *)
Lemma sign_presigned_ok `{PrimitivesLaws}
  (cr : SigningCredentials) (sc : SigningScope) (rq : PresigningRequest) (t : Z) (out : string)
  (Hnonneg : 0 <= ps_expires rq) (Hok : sign_presigned cr sc rq t = Ok out) :
  exists secs, ps_expires rq = from_secs secs /\ 1 <= secs <= 604800
  /\ ps_method rq ∈ ["GET"; "PUT"; "HEAD"; "DELETE"; "POST"]
  /\ Forall (fun p => to_ascii_lowercase (qp_name p) ∉
       ["x-amz-signature"; "x-amz-algorithm"; "x-amz-credential"; "x-amz-date";
        "x-amz-expires"; "x-amz-security-token"; "x-amz-signedheaders"]) (ps_query rq)
  /\ exists ch amz date sig, canonical_headers (ps_headers rq) = Ok ch
       /\ format_timestamp t = Ok (amz, date)
       /\ slen sig = 64 /\ str_all is_lower_hex sig = true
       /\ out = canonical_query (presign_parameters cr (ps_query rq)
                   (access_key_id cr +:+ "/" +:+ credential_scope date sc) amz
                   (to_string secs) (signed ch)) +:+ "&X-Amz-Signature=" +:+ sig.
Proof.
  unfold sign_presigned in Hok. steps_in Hok; bools;
    match goal with E : calculate_signature _ _ _ _ _ _ = Ok _ |- _ =>
      apply calculate_signature_hex in E as [Hl Hx] end;
    exists (as_secs (ps_expires rq));
    (split; [by apply whole_seconds|]); (split; [by apply presign_expiry_range|]);
    (split; [by eapply bool_decide_eq_true|]); (split; [by eapply reject_reserved_query_ok|]);
    eexists _, _, _, _; eauto.
Qed.

(** ** Properties *)

(** C10. The canonical request is unambiguous: two signable requests with the
same canonical request agree on method, canonical URI, query (up to order),
header block, signed names and payload hash, so nothing moves between parts. *)
Theorem canonical_request_unambiguous
  (cr : SigningCredentials) (sc : SigningScope) (m m' h h' : string) (p p' : SigningPath)
  (qs qs' : list QueryParam) (hs hs' : list Header) (ch ch' : CanonicalHeaders) (r : string)
  (Hm : validate_common cr sc m = Ok tt) (Hm' : validate_common cr sc m' = Ok tt)
  (Hh : validate_payload_hash h = Ok tt) (Hh' : validate_payload_hash h' = Ok tt)
  (Hc : canonical_headers hs = Ok ch) (Hc' : canonical_headers hs' = Ok ch')
  (Hr : build_canonical_request m p qs ch h = Ok r)
  (Hr' : build_canonical_request m' p' qs' ch' h' = Ok r) :
  m = m' /\ SigningPath_canonical p = SigningPath_canonical p' /\ qs ≡ₚ qs'
  /\ ch = ch' /\ h = h'.
Proof.
  apply validate_common_ok in Hm as (_ & _ & _ & Nm), Hm' as (_ & _ & _ & Nm').
  apply validate_payload_hash_no_lf in Hh, Hh'.
  apply canonical_headers_signed_no_lf in Hc, Hc'.
  apply build_canonical_request_parts in Hr as (u & Hu & Nu & Nq & ->).
  apply build_canonical_request_parts in Hr' as (u' & Hu' & Nu' & Nq' & E).
  apply first_line_inj in E as [-> E]; [|done..]. apply first_line_inj in E as [-> E]; [|done..].
  apply first_line_inj in E as [Eq E]; [|done..].
  assert (forall a b c : string, a +:+ LF +:+ b +:+ LF +:+ c = (a +:+ LF +:+ b) +:+ LF +:+ c)
    as A by (intros; by rewrite !app_assoc_str).
  rewrite (A _ _ h), (A _ _ h') in E. apply last_line_inj in E as [E ->]; [|done..].
  apply last_line_inj in E as [Ec Es]; [|done..]. destruct ch, ch'; simpl in *; subst.
  split_and!; [done|congruence|by apply canonical_query_inj|done..].
Qed.

Lemma canonical_request_unambiguous_witness :
  exists ch r, canonical_headers [hdr "Host" "h"] = Ok ch
  /\ build_canonical_request "GET" (Raw "/k") [qp "b" "1"; qp "a" "2"] ch UNSIGNED_PAYLOAD = Ok r
  /\ build_canonical_request "GET" (Encoded "k") [qp "a" "2"; qp "b" "1"] ch UNSIGNED_PAYLOAD = Ok r
  /\ SigningPath_canonical (Raw "/k") = SigningPath_canonical (Encoded "k").
Proof.
  eexists _, _. split; [reflexivity|]. split; [vm_compute; reflexivity|].
  split; [vm_compute; reflexivity|].
  eapply (canonical_request_unambiguous sample_credentials sample_scope "GET" "GET"
    UNSIGNED_PAYLOAD UNSIGNED_PAYLOAD _ _ [qp "b" "1"; qp "a" "2"] [qp "a" "2"; qp "b" "1"]
    [hdr "Host" "h"] [hdr "Host" "h"]); try (vm_compute; reflexivity).
Defined.

(** A successful header signature: the authorization value is printable
ASCII (so it is a valid header value) and ends in 64 lower-case hex digits; the
signed headers hold exactly the generated date and token, and no caller's
[authorization]. *)
Theorem sign_headers_output `{PrimitivesLaws}
  (cr : SigningCredentials) (sc : SigningScope) (rq : HeaderSigningRequest) (t : Z)
  (out : HeaderSigningOutput) (Hok : sign_headers cr sc rq t = Ok out) :
  let hs := signing_headers cr (hs_headers rq) (amz_date out) in
  str_all printable (authorization out) = true
  /\ security_token out = session_token cr
  /\ values_of "authorization" hs = [] /\ values_of "x-amz-date" hs = [amz_date out]
  /\ values_of "x-amz-security-token" hs
     = option_list ((fun t => normalize_loop t "" false) <$> session_token cr)
  /\ exists pre ch sig, canonical_headers hs = Ok ch /\ slen sig = 64
       /\ str_all is_lower_hex sig = true
       /\ authorization out
          = pre +:+ ", SignedHeaders=" +:+ signed ch +:+ ", Signature=" +:+ sig.
Proof.
  apply sign_headers_inv in Hok as (date & ch & sig & Hv & Hr & Hd & Ha & Hc & Ht & Hl & Hx & E).
  simpl. rewrite E.
  edestruct signing_headers_values as (V1 & V2 & V3); [exact Hr|exact Ha|].
  split_and!; [by eapply signing_authorization_printable|done..|].
  exists (ALGORITHM +:+ " Credential=" +:+ access_key_id cr +:+ "/" +:+ credential_scope date sc),
    ch, sig. split_and!; [done..|]. by rewrite !app_assoc_str.
Qed.

Lemma sign_headers_output_witness :
  exists out, sign_headers sample_credentials sample_scope
    {| hs_method := "GET"; hs_uri_path := Encoded "/a%2fb"; hs_query := [qp "x" "y"];
       hs_headers := [hdr "Host" "h"]; hs_payload_hash := UNSIGNED_PAYLOAD |} 0 = Ok out
  /\ str_all printable (authorization out) = true.
Proof.
  eexists. split; [vm_compute; reflexivity|].
  eapply (sign_headers_output sample_credentials sample_scope
    {| hs_method := "GET"; hs_uri_path := Encoded "/a%2fb"; hs_query := [qp "x" "y"];
       hs_headers := [hdr "Host" "h"]; hs_payload_hash := UNSIGNED_PAYLOAD |} 0).
  vm_compute. reflexivity.
Defined.
