(* ===== verification/Endpoint.v ===== *)
(** Endpoints and request targets ([src/endpoint/mod.rs]). Parsing a URI or an
authority is the [http] crate's, a field of [HttpUri]; parsing an IP address is
the standard library's and is modelled below. *)

From S2P Require Import Prelude Text Errors Canonical.
From stdpp Require Import options.
Local Open Scope Z_scope.

Inductive AddressingStyle : Type := Path | VirtualHosted.
Inductive AwsEndpointVariant : Type := Standard | DualStack | Fips | FipsDualStack.

#[global] Instance AddressingStyle_eq_dec : EqDecision AddressingStyle.
Proof. solve_decision. Defined.

(** ** The parts of a parsed URI *)

Inductive Scheme : Type := HTTPS | HTTP | OtherScheme (s : string).
Definition scheme_as_str (s : Scheme) : string :=
  match s with HTTPS => "https" | HTTP => "http" | OtherScheme s => s end.

Record Authority : Type := {
  auth_str : string;
  auth_host : string;
  auth_port : option Z
}.

Record Uri : Type := {
  uri_scheme : option Scheme;
  uri_authority : option Authority;
  uri_path : string;
  uri_query : option string
}.

(** [str::parse::<Uri>] and [Authority::from_str]. *)
Class HttpUri : Type := {
  parse_uri : string -> option Uri;
  parse_authority : string -> option Authority
}.

(** ** [IpAddr::from_str]

The parser of [core::net]: readers take the input and return the rest. *)
Module IpParser.

Definition read_char (c : ascii) (s : string) : option string :=
  match s with String d s => if Ascii.eqb c d then Some s else None | EmptyString => None end.

Definition digit (radix : Z) (c : ascii) : option Z :=
  match hex_digit_value c with
  | Some v => if v <? radix then Some v else None
  | None => None
  end.

(** [read_number]: at most [max_digits] digits, checked against [max]. *)
Fixpoint read_digits (radix max : Z) (max_digits count : nat) (acc : Z) (s : string)
  : option (nat * Z * string) :=
  match s with
  | EmptyString => Some (count, acc, s)
  | String c rest =>
      match digit radix c with
      | None => Some (count, acc, s)
      | Some d =>
          if max <? acc * radix + d then None
          else match max_digits with
               | O => None
               | S more => read_digits radix max more (S count) (acc * radix + d) rest
               end
      end
  end.

Definition read_number (radix max : Z) (max_digits : nat) (allow_zero_prefix : bool) (s : string)
  : option (Z * string) :=
  match read_digits radix max max_digits 0 0 s with
  | Some (count, v, rest) =>
      if (count =? 0)%nat then None
      else if negb allow_zero_prefix && starts_with "0" s && (1 <? count)%nat then None
      else Some (v, rest)
  | None => None
  end.

Definition read_octet (s : string) : option string :=
  match read_number 10 U8_MAX 3 false s with Some (_, r) => Some r | None => None end.

Definition read_ipv4 (s : string) : option string :=
  s ← read_octet s; s ← read_char "." s; s ← read_octet s; s ← read_char "." s;
  s ← read_octet s; s ← read_char "." s; read_octet s.

(** [read_separator(':', index, inner)]. *)
Definition read_separated (first : bool) (inner : string -> option string) (s : string)
  : option string :=
  if first then inner s else s ← read_char ":" s; inner s.

Definition read_group (s : string) : option string :=
  match read_number 16 U16_MAX 4 true s with Some (_, r) => Some r | None => None end.

(** [read_groups]: how many groups were read, whether they end in an IPv4
address, and the rest. [slots] counts the groups left. *)
Fixpoint read_groups (slots : nat) (first : bool) (count : nat) (s : string)
  : nat * bool * string :=
  match slots with
  | O => (count, false, s)
  | S more =>
      match (if (0 <? more)%nat then read_separated first read_ipv4 s else None) with
      | Some rest => ((count + 2)%nat, true, rest)
      | None =>
          match read_separated first read_group s with
          | Some rest => read_groups more false (S count) rest
          | None => (count, false, s)
          end
      end
  end.

Definition read_ipv6 (s : string) : option string :=
  match read_groups 8 true 0 s with
  | (head, ipv4, rest) =>
      if (head =? 8)%nat then Some rest
      else if ipv4 then None
      else
        rest ← read_char ":" rest; rest ← read_char ":" rest;
        match read_groups (8 - (head + 1)) true 0 rest with (_, _, rest) => Some rest end
  end.

(** [IpAddr::from_str(s).is_ok()]. *)
Definition is_ip (s : string) : bool :=
  match (match read_ipv4 s with Some r => Some r | None => read_ipv6 s end) with
  | Some rest => is_empty rest
  | None => false
  end.

Example is_ip_examples :
  map is_ip ["127.0.0.1"; "::1"; "1:2:3:4:5:6:7:8"; "::ffff:1.2.3.4"; "1.2.3.4::"; "256.0.0.1";
             "01.2.3.4"; "fe80::"; "1::2::3"; "bucket.name"]
  = [true; true; true; true; false; false; false; true; false; false].
Proof. reflexivity. Qed.
End IpParser.

(** [s.trim_matches(['[', ']'])]. *)
Fixpoint trim_start (set : string) (s : string) : string :=
  match s with
  | String c t => if one_of set c then trim_start set t else s
  | EmptyString => s
  end.
Definition trim_matches (set s : string) : string :=
  str_rev (trim_start set (str_rev (trim_start set s))).

Section endpoint.
Context `{HttpUri}.

(** ** [EndpointUrl] *)

Record EndpointUrl : Type := {
  serialized : string;
  scheme : string;
  authority : string;
  path_and_query : string
}.

Definition EndpointUrl_from_parts (scheme authority path_and_query : string)
  : outcome EndpointUrl :=
  let serialized := scheme +:+ "://" +:+ authority +:+ path_and_query in
  match parse_uri serialized with
  | None => Err (S3Error.configuration "endpoint does not form a valid HTTP URI")
  | Some _ => Ok {| serialized := serialized; scheme := scheme; authority := authority;
                    path_and_query := path_and_query |}
  end.

(** [None] is the panic of [expect]. *)
Definition request_uri (u : EndpointUrl) : option Uri := parse_uri (serialized u).

(** The part of a request target before the first [?]. *)
Definition target_path (path_and_query : string) : string :=
  match split_once "?" path_and_query with Some (path, _) => path | None => path_and_query end.

Definition with_query (u : EndpointUrl) (query : string) : outcome EndpointUrl :=
  if starts_with "?" query || contains_char "#" query
  then Err (S3Error.configuration "request query must not include '?' or a fragment")
  else
    let path := target_path (path_and_query u) in
    let path_and_query := if is_empty query then path else path +:+ "?" +:+ query in
    EndpointUrl_from_parts (scheme u) (authority u) path_and_query.

Definition with_authority (u : EndpointUrl) (authority : string) : outcome EndpointUrl :=
  match parse_authority authority with
  | None => Err (S3Error.configuration "redirect authority is invalid")
  | Some parsed =>
      if contains_char "@" (auth_str parsed) || is_empty (auth_host parsed)
      then Err (S3Error.configuration "redirect authority is invalid")
      else EndpointUrl_from_parts (scheme u) (auth_str parsed) (path_and_query u)
  end.

(** ** Key and bucket encoding *)

Definition is_unreserved (c : ascii) : bool := is_ascii_alphanumeric c || one_of "-._~" c.
Definition push_percent_encoded (c : ascii) (output : string) : string :=
  output +:+ "%" +:+ String (hex_at HEX_UPPER (hi4 c)) "" +:+ String (hex_at HEX_UPPER (lo4 c)) "".

Fixpoint encode_object_key (bytes output : string) : string :=
  match bytes with
  | EmptyString => output
  | String c bytes =>
      encode_object_key bytes
        (if Ascii.eqb c "/" || is_unreserved c then output +:+ String c ""
         else push_percent_encoded c output)
  end.

Fixpoint encode_path_component (bytes output : string) : string :=
  match bytes with
  | EmptyString => output
  | String c bytes =>
      encode_path_component bytes
        (if is_unreserved c then output +:+ String c "" else push_percent_encoded c output)
  end.

(** ** Validation *)

Definition validate_region (region : string) : outcome unit :=
  if is_empty region || (64 <? slen region)
     || negb (str_all (fun c => is_ascii_alphanumeric c || Ascii.eqb c "-") region)
  then Err (S3Error.configuration "AWS region is invalid") else Ok tt.

Definition validate_bucket_for_path (bucket : string) : outcome unit :=
  if is_empty bucket || (255 <? slen bucket)
     || str_any (fun c => Ascii.eqb c "/" || Ascii.eqb c "\" || is_ascii_control c) bucket
  then Err (S3Error.configuration "bucket name is invalid") else Ok tt.

Definition validate_virtual_host_bucket (bucket : string) : outcome unit :=
  if negb ((3 <=? slen bucket) && (slen bucket <=? 63))
     || (starts_with "-" bucket || starts_with "." bucket)
     || (ends_with "-" bucket || ends_with "." bucket)
     || contains_str ".." bucket
     || negb (str_all (fun c => is_ascii_lowercase c || is_ascii_digit c
                                || Ascii.eqb c "-" || Ascii.eqb c ".") bucket)
     || IpParser.is_ip bucket
  then Err (S3Error.configuration "bucket is not valid for virtual-hosted addressing")
  else Ok tt.

(** ** [Endpoint] *)

Record Endpoint : Type := { url : EndpointUrl; base_path : string }.

Definition Endpoint_new (input : string) : outcome Endpoint :=
  if contains_char "#" input
  then Err (S3Error.configuration "endpoint must not contain a query string or fragment")
  else
  let? uri := ok_or (parse_uri input)
                (S3Error.configuration "endpoint must be a valid absolute URL") in
  let? scheme := ok_or (uri_scheme uri)
                   (S3Error.configuration "endpoint must include a scheme") in
  match scheme with
  | OtherScheme _ =>
      Err (S3Error.configuration "endpoint scheme must be HTTPS or explicitly enabled HTTP")
  | _ =>
  let? authority := ok_or (uri_authority uri)
                      (S3Error.configuration "endpoint must include a host") in
  if contains_char "@" (auth_str authority)
  then Err (S3Error.configuration "endpoint must not contain user information")
  else if is_empty (auth_host authority)
  then Err (S3Error.configuration "endpoint must include a host")
  else if match uri_query uri with Some _ => true | None => false end
  then Err (S3Error.configuration "endpoint must not contain a query string or fragment")
  else
  let base_path := if is_empty (uri_path uri) then "/" else uri_path uri in
  if negb (starts_with "/" base_path)
  then Err (S3Error.configuration "endpoint path must be absolute")
  else
  let base_path := if ends_with "/" base_path then base_path else base_path +:+ "/" in
  let? url := EndpointUrl_from_parts (scheme_as_str scheme) (auth_str authority) base_path in
  Ok {| url := url; base_path := base_path |}
  end.

Definition for_aws_region_variant (region : string) (variant : AwsEndpointVariant)
  : outcome Endpoint :=
  let? _ := validate_region region in
  let suffix := if starts_with "cn-" region then "amazonaws.com.cn" else "amazonaws.com" in
  let service := match variant with
                 | Standard | DualStack => "s3"
                 | Fips | FipsDualStack => "s3-fips"
                 end in
  let dualstack := match variant with
                   | DualStack | FipsDualStack => ".dualstack"
                   | Standard | Fips => ""
                   end in
  Endpoint_new ("https://" +:+ service +:+ dualstack +:+ "." +:+ region +:+ "." +:+ suffix).

Definition for_aws_region (region : string) : outcome Endpoint :=
  for_aws_region_variant region Standard.

Definition is_https (e : Endpoint) : bool := String.eqb (scheme (url e)) "https".

(** The authority a request is sent to. *)
Definition object_authority (e : Endpoint) (bucket : string) (style : AddressingStyle)
  : outcome string :=
  match style with
  | VirtualHosted =>
      let? _ := validate_virtual_host_bucket bucket in
      let? parsed := ok_or (parse_authority (authority (url e)))
                       (S3Error.configuration "endpoint authority is invalid") in
      if IpParser.is_ip (trim_matches "[]" (auth_host parsed))
      then Err (S3Error.configuration
                  "virtual-hosted addressing cannot be used with an IP endpoint")
      else Ok (match auth_port parsed with
               | None => bucket +:+ "." +:+ auth_host parsed
               | Some port => bucket +:+ "." +:+ auth_host parsed +:+ ":" +:+ to_string port
               end)
  | Path => Ok (authority (url e))
  end.

(** [path.pop()]: drops the last character. *)
Definition pop_char (s : string) : string := String.substring 0 (String.length s - 1) s.

(** The request path. *)
Definition object_path (e : Endpoint) (bucket : string) (object_key : option string)
    (style : AddressingStyle) : string :=
  let path := base_path e in
  let path := match style with
              | Path => encode_path_component bucket path
              | VirtualHosted => path
              end in
  match object_key with
  | Some key =>
      let path := if bool_decide (style = Path) && negb (ends_with "/" path)
                  then path +:+ "/" else path in
      encode_object_key key path
  | None =>
      if bool_decide (style = VirtualHosted) && (1 <? slen path) then pop_char path else path
  end.

Definition object_url (e : Endpoint) (bucket : string) (object_key : option string)
    (style : AddressingStyle) : outcome EndpointUrl :=
  let? _ := validate_bucket_for_path bucket in
  let? authority := object_authority e bucket style in
  EndpointUrl_from_parts (scheme (url e)) authority (object_path e bucket object_key style).
End endpoint.

(** ** Lemmas *)

(** A text that ends in a byte other than [d] does not end with [d]. *)
Lemma ends_with_not d s t :
  is_empty t = false -> contains_char d t = false -> ends_with (String d "") (s +:+ t) = false.
Proof.
  intros Ht Hd. destruct (ends_with _ _) eqn:E; [|done]. apply ends_with_Some in E as [r E].
  apply (f_equal str_rev) in E. rewrite !str_rev_append in E.
  assert (str_all (fun c => negb (Ascii.eqb d c)) (str_rev t) = true) as A.
  { rewrite str_all_rev. by apply str_any_false. }
  destruct (str_rev t) as [|c u] eqn:R.
  - apply (f_equal str_rev) in R. rewrite str_rev_involutive in R. by subst.
  - simpl in E. change (str_rev (String d "")) with (String d "") in E. simpl in E.
    injection E as E _. subst. simpl in A. by rewrite Ascii.eqb_refl in A.
Qed.

Lemma canonical_path_no_question s : canonical_path s = true -> contains_char "?" s = false.
Proof.
  intros H. apply canonical_path_fixed, canonical_uri_loop_bytes in H.
  eapply str_any_none; [|done]. intros c. all_bytes c.
Qed.

Lemma pop_char_snoc s c : pop_char (s +:+ String c "") = s.
Proof.
  unfold pop_char. rewrite str_length_app. simpl.
  replace (String.length s + 1 - 1)%nat with (String.length s) by lia.
  induction s as [|d s IH]; [done|]. simpl. by rewrite IH.
Qed.

(** The two encoders are the signer's. *)
Lemma encode_object_key_spec k out : encode_object_key k out = out +:+ aws_uri_encode k false.
Proof.
  revert out. induction k as [|c k IH]; intros out; simpl; [by rewrite app_nil_r_str|].
  rewrite IH. unfold aws_uri_encode, is_unreserved, push_percent_encoded, aws_uri_encode_byte.
  simpl. rewrite andb_true_r, (orb_comm (Ascii.eqb c "/")).
  destruct (is_ascii_alphanumeric c || one_of "-._~" c || Ascii.eqb c "/");
    by rewrite !app_assoc_str.
Qed.

Lemma encode_path_component_spec b out :
  encode_path_component b out = out +:+ aws_uri_encode b true.
Proof.
  revert out. induction b as [|c b IH]; intros out; simpl; [by rewrite app_nil_r_str|].
  rewrite IH. unfold aws_uri_encode, is_unreserved, push_percent_encoded, aws_uri_encode_byte.
  simpl. rewrite andb_false_r, orb_false_r.
  destruct (is_ascii_alphanumeric c || one_of "-._~" c); by rewrite !app_assoc_str.
Qed.

Lemma aws_uri_encode_nonempty s b : is_empty s = false -> is_empty (aws_uri_encode s b) = false.
Proof.
  destruct s as [|c s]; [done|]. intros _. unfold aws_uri_encode. simpl.
  unfold aws_uri_encode_byte. by destruct (_ || _).
Qed.

Section lemmas.
Context `{HttpUri}.

Lemma from_parts_ok s a p u :
  EndpointUrl_from_parts s a p = Ok u ->
  u = {| serialized := s +:+ "://" +:+ a +:+ p; scheme := s; authority := a;
         path_and_query := p |} /\ parse_uri (serialized u) <> None.
Proof.
  unfold EndpointUrl_from_parts. destruct (parse_uri _) eqn:E; intros; inv_ok.
  split; [done|]. simpl in *. congruence.
Qed.

Lemma object_path_key_path e b k :
  is_empty b = false ->
  object_path e b (Some k) Path
  = base_path e +:+ aws_uri_encode b true +:+ "/" +:+ aws_uri_encode k false.
Proof.
  intros Hb. unfold object_path. rewrite encode_path_component_spec, encode_object_key_spec.
  rewrite ends_with_not; simpl; [by rewrite !app_assoc_str| by apply aws_uri_encode_nonempty |].
  by apply encoded_no_separator.
Qed.

Lemma object_path_key_virtual e b k :
  object_path e b (Some k) VirtualHosted = base_path e +:+ aws_uri_encode k false.
Proof. unfold object_path. simpl. apply encode_object_key_spec. Qed.

Lemma object_url_ok e b k st u :
  object_url e b k st = Ok u ->
  is_empty b = false /\ contains_char "/" b = false
  /\ object_authority e b st = Ok (authority u) /\ scheme u = scheme (url e)
  /\ path_and_query u = object_path e b k st /\ parse_uri (serialized u) <> None.
Proof.
  unfold object_url, validate_bucket_for_path. intros Hu. steps_in Hu. bools.
  apply from_parts_ok in Hu as [-> Hp]. split_and!; try done.
  match goal with N : str_any _ b = false |- _ =>
    apply str_any_false in N; apply str_any_false; eapply str_all_impl; [|exact N] end.
  intros c. all_bytes c.
Qed.

Lemma object_authority_virtual_inj e b b' a :
  object_authority e b VirtualHosted = Ok a -> object_authority e b' VirtualHosted = Ok a -> b = b'.
Proof.
  unfold object_authority, ok_or. intros H1 H2.
  destruct (validate_virtual_host_bucket b); [|done].
  destruct (validate_virtual_host_bucket b'); [|done].
  destruct (parse_authority _) as [p|]; [|done]. destruct (IpParser.is_ip _); [done|].
  inv_ok. destruct (auth_port p); by apply app_inj_r in H2.
Qed.

(** Canonical base paths give canonical, rooted request paths. *)
Lemma object_path_canonical e b k st t :
  is_empty b = false -> canonical_path (base_path e) = true ->
  base_path e = "/" +:+ t -> ends_with "/" (base_path e) = true ->
  canonical_path (object_path e b k st) = true /\ exists r, object_path e b k st = "/" +:+ r.
Proof.
  intros N HB Et He. destruct k as [k|], st.
  - rewrite object_path_key_path by done. split.
    + repeat apply canonical_path_app; auto using canonical_path_encoded.
    + rewrite Et, app_assoc_str. eauto.
  - rewrite object_path_key_virtual. split.
    + apply canonical_path_app; auto using canonical_path_encoded.
    + rewrite Et, app_assoc_str. eauto.
  - unfold object_path. simpl. rewrite encode_path_component_spec. split.
    + apply canonical_path_app; auto using canonical_path_encoded.
    + rewrite Et, app_assoc_str. eauto.
  - unfold object_path. rewrite bool_decide_eq_true_2 by done. simpl.
    destruct (1 <? slen (base_path e)) eqn:L; [|split; [done|eauto]].
    apply ends_with_Some in He as [r Er]. rewrite Er in *. rewrite pop_char_snoc.
    split; [by apply canonical_path_snoc_slash|].
    destruct r as [|c r]; [by vm_compute in L|]. exists r. simpl in Et. by injection Et as -> _.
Qed.

(** What [Endpoint::new] guarantees. *)
Lemma Endpoint_new_ok input e :
  Endpoint_new input = Ok e ->
  contains_char "#" input = false
  /\ starts_with "/" (base_path e) = true /\ ends_with "/" (base_path e) = true
  /\ (scheme (url e) = "https" \/ scheme (url e) = "http")
  /\ contains_char "@" (authority (url e)) = false
  /\ path_and_query (url e) = base_path e
  /\ parse_uri (serialized (url e)) <> None.
Proof.
  unfold Endpoint_new, ok_or. intros He.
  destruct (contains_char "#" input); [done|]. destruct (parse_uri input) as [u|]; [|done].
  destruct (uri_scheme u) as [sc|]; [|done].
  destruct (uri_authority u) as [a|]; [|by destruct sc].
  assert (exists x, starts_with "/" x = true /\ contains_char "@" (auth_str a) = false
    /\ (sc = HTTPS \/ sc = HTTP) /\ (let? url := EndpointUrl_from_parts (scheme_as_str sc)
        (auth_str a) (if ends_with "/" x then x else x +:+ "/") in
        Ok {| url := url; base_path := if ends_with "/" x then x else x +:+ "/" |}) = Ok e)
    as (x & Hx & Ha & Hs & E).
  { exists (if is_empty (uri_path u) then "/" else uri_path u).
    destruct sc; [..|done]; repeat (case_match; [done|]);
      bools; eauto 6. }
  clear He. destruct (EndpointUrl_from_parts _ _ _) as [ur|] eqn:F; [|done]. inv_ok. simpl.
  apply from_parts_ok in F as [-> F]. simpl in *. split_and!; try done.
  - destruct (ends_with "/" x); [done|].
    apply starts_with_slash in Hx as [t ->].
    rewrite app_assoc_str. apply starts_with_app.
  - destruct (ends_with "/" x) eqn:EW; [done|]. apply ends_with_app.
  - destruct Hs as [-> | ->]; auto.
Qed.

Lemma with_query_ok u q v :
  with_query u q = Ok v ->
  scheme v = scheme u /\ authority v = authority u
  /\ target_path (path_and_query v) = target_path (path_and_query u)
  /\ path_and_query v = target_path (path_and_query u) +:+ (if is_empty q then "" else "?" +:+ q)
  /\ parse_uri (serialized v) <> None.
Proof.
  unfold with_query. intros Hv. destruct (_ || _); [done|]. apply from_parts_ok in Hv as [-> Hp].
  simpl. split_and!; try done.
  - assert (contains_char "?" (target_path (path_and_query u)) = false) as N.
    { unfold target_path. destruct (split_once "?" (path_and_query u)) as [[a b]|] eqn:E.
      - by apply split_once_Some in E as [_ E].
      - by apply split_once_absent. }
    unfold target_path at 1. destruct (is_empty q).
    + by rewrite split_once_None.
    + simpl. by rewrite split_once_app.
  - destruct (is_empty q); by rewrite ?app_nil_r_str.
Qed.
End lemmas.

(** A small URI parser standing for the parameter in the witnesses. *)
Definition sample_parse_uri (s : string) : option Uri :=
  match strip_prefix "https://" s with
  | Some rest =>
      let (a, p) := match split_once "/" rest with
                    | Some (a, p) => (a, "/" +:+ p)
                    | None => (rest, "")
                    end in
      let (h, port) := match split_once ":" a with
                       | Some (h, port) => (h, parse_uint U16_MAX port)
                       | None => (a, None)
                       end in
      Some {| uri_scheme := Some HTTPS;
              uri_authority := Some {| auth_str := a; auth_host := h; auth_port := port |};
              uri_path := target_path p; uri_query := None |}
  | None => None
  end.
#[local] Instance sample_uri : HttpUri := {
  parse_uri := sample_parse_uri;
  parse_authority s := Some {| auth_str := s; auth_host := s; auth_port := None |}
}.

Definition sample_url (authority path : string) : EndpointUrl :=
  {| serialized := "https://" +:+ authority +:+ path; scheme := "https";
     authority := authority; path_and_query := path |}.
Definition sample_endpoint : Endpoint :=
  {| url := sample_url "s3.example.com" "/base/"; base_path := "/base/" |}.

(** ** Properties *)

(** C23. A request URL identifies its object: in either addressing style, the
same URL comes from the same bucket and the same key, byte for byte. *)
Theorem object_url_injective `{HttpUri} (e : Endpoint) (st : AddressingStyle)
  (b b' k k' : string) (u : EndpointUrl)
  (H1 : object_url e b (Some k) st = Ok u) (H2 : object_url e b' (Some k') st = Ok u) :
  b = b' /\ k = k'.
Proof.
  apply object_url_ok in H1 as (N & S & A & _ & P & _).
  apply object_url_ok in H2 as (N' & S' & A' & _ & P' & _). rewrite P in P'. destruct st.
  - rewrite !object_path_key_path in P' by done. apply app_inj_l in P'.
    apply split_once_inj in P' as [E1 E2]; [|by apply encoded_no_separator..].
    by apply aws_uri_encode_inj in E1, E2.
  - rewrite !object_path_key_virtual in P'. apply app_inj_l, aws_uri_encode_inj in P'.
    split; [|done]. by eapply object_authority_virtual_inj.
Qed.

Lemma object_url_injective_witness :
  Endpoint_new "https://s3.example.com/base" = Ok sample_endpoint
  /\ "my bucket" = "my bucket" /\ "a/../b?c#d" = "a/../b?c#d".
Proof.
  split; [vm_compute; reflexivity|].
  apply (object_url_injective (H := sample_uri) sample_endpoint Path _ _ _ _
    (sample_url "s3.example.com" "/base/my%20bucket/a/../b%3Fc%23d")); vm_compute; reflexivity.
Defined.

(** The path on the wire is the path that is signed: with a canonical base
path, the target of every bucket or object URL has no query and is a fixed point
of the signer's canonicalisation. *)
Theorem object_url_signed_path `{HttpUri} (input : string) (e : Endpoint) (b : string)
  (k : option string) (st : AddressingStyle) (u : EndpointUrl)
  (Hnew : Endpoint_new input = Ok e)
  (Hbase : canonical_uri_from_encoded (base_path e) = Ok (base_path e))
  (Hurl : object_url e b k st = Ok u) :
  target_path (path_and_query u) = path_and_query u
  /\ canonical_uri_from_encoded (path_and_query u) = Ok (path_and_query u).
Proof.
  apply Endpoint_new_ok in Hnew as (_ & Hs & He & _).
  apply object_url_ok in Hurl as (N & _ & _ & _ & -> & _).
  assert (exists t, base_path e = "/" +:+ t) as [t Et] by by apply starts_with_slash.
  assert (canonical_path (base_path e) = true) as HB.
  { apply canonical_path_fixed. rewrite Et, canonical_uri_from_encoded_slash in Hbase.
    rewrite Et, canonical_uri_loop_slash. by destruct (canonical_uri_loop t). }
  assert (canonical_path (object_path e b k st) = true
    /\ exists r, object_path e b k st = "/" +:+ r) as [HP [r Er]].
  { by eapply object_path_canonical. }
  split.
  - unfold target_path. by rewrite split_once_None by by apply canonical_path_no_question.
  - rewrite Er in *. by apply canonical_path_rooted.
Qed.

Lemma object_url_signed_path_witness :
  object_url sample_endpoint "bucket" (Some "a b/%") VirtualHosted
    = Ok (sample_url "bucket.s3.example.com" "/base/a%20b/%25")
  /\ canonical_uri_from_encoded "/base/a%20b/%25" = Ok "/base/a%20b/%25".
Proof.
  split; [vm_compute; reflexivity|].
  apply (object_url_signed_path (H := sample_uri) "https://s3.example.com/base" sample_endpoint
    "bucket" (Some "a b/%") VirtualHosted
    (sample_url "bucket.s3.example.com" "/base/a%20b/%25")); vm_compute; reflexivity.
Defined.

(** Setting the query replaces the previous one and nothing else, and
every URL that is built parses, so [request_uri] never panics. *)
Theorem with_query_replaces `{HttpUri} (u v : EndpointUrl) (q q' : string)
  (Hok : with_query u q = Ok v) :
  with_query v q' = with_query u q'
  /\ scheme v = scheme u /\ authority v = authority u
  /\ path_and_query v = target_path (path_and_query u) +:+ (if is_empty q then "" else "?" +:+ q)
  /\ request_uri v <> None.
Proof.
  apply with_query_ok in Hok as (Es & Ea & Et & Ep & Hp). split_and!; try done.
  unfold with_query. by rewrite Es, Ea, Et.
Qed.

Lemma with_query_replaces_witness :
  with_query (sample_url "h" "/p?x") "list-type=2" = Ok (sample_url "h" "/p?list-type=2")
  /\ with_query (sample_url "h" "/p?list-type=2") "acl" = with_query (sample_url "h" "/p?x") "acl".
Proof.
  split; [vm_compute; reflexivity|].
  apply (with_query_replaces (H := sample_uri) (sample_url "h" "/p?x")
    (sample_url "h" "/p?list-type=2") "list-type=2" "acl"). vm_compute. reflexivity.
Defined.
