(* ===== verification/Http.v ===== *)
(** What the client relies on of the [http] crate: header values and header
maps, as an interface with laws, and an association-list instance. Names are in
lower case, as [HeaderName] keeps them. *)

From S2P Require Import Prelude.
From stdpp Require Import options.
Local Open Scope Z_scope.

Class Http : Type := {
  HeaderValue : Type;
  HeaderMap : Type;
  (** [HeaderValue::from_str], [to_str] and [as_bytes]. *)
  hv_from_str : string -> option HeaderValue;
  hv_to_str : HeaderValue -> option string;
  hv_bytes : HeaderValue -> string;
  (** [HeaderValue::from(u64)]: the decimal digits. *)
  hv_from_u64 : Z -> HeaderValue;
  (** [HeaderName::from_bytes]: the lower-case name. *)
  hn_from_bytes : string -> option string;
  (** [HeaderMap::new], [get], [get_all], [insert], [append], [remove], [iter]. *)
  hm_empty : HeaderMap;
  hm_get_all : HeaderMap -> string -> list HeaderValue;
  hm_insert : string -> HeaderValue -> HeaderMap -> HeaderMap;
  hm_append : string -> HeaderValue -> HeaderMap -> HeaderMap;
  hm_remove : string -> HeaderMap -> HeaderMap;
  hm_iter : HeaderMap -> list (string * HeaderValue)
}.

(** Reading and showing what the [http] and [httpdate] crates define; instants
are nanoseconds. *)
Class HttpText : Type := {
  parse_http_date : string -> option Z;
  fmt_http_date : Z -> string;
  display_status : Z -> string
}.

Section derived.
Context `{Http}.

Definition hm_get (m : HeaderMap) (name : string) : option HeaderValue := head (hm_get_all m name).
Definition hm_contains (m : HeaderMap) (name : string) : bool :=
  match hm_get m name with Some _ => true | None => false end.

(** [headers.get(name).and_then(|v| v.to_str().ok())]. *)
Definition hm_get_str (m : HeaderMap) (name : string) : option string :=
  v ← hm_get m name; hv_to_str v.
End derived.

(** Visible ASCII and tab: the bytes [to_str] accepts. *)
Definition is_visible_ascii (c : ascii) : bool :=
  ((32 <=? byte c) && (byte c <? 127)) || (byte c =? 9).

Class HttpLaws `{Http} : Prop := {
  hv_from_str_visible : forall s, str_all is_visible_ascii s = true ->
    exists v, hv_from_str s = Some v;
  hv_from_str_bytes : forall s v, hv_from_str s = Some v -> hv_bytes v = s;
  hv_to_str_bytes : forall v s, hv_to_str v = Some s ->
    hv_bytes v = s /\ str_all is_visible_ascii s = true;
  hv_from_str_to_str : forall s v, hv_from_str s = Some v ->
    str_all is_visible_ascii s = true -> hv_to_str v = Some s;
  hv_from_u64_str : forall n, hv_from_str (to_string n) = Some (hv_from_u64 n);
  hn_from_bytes_lower : forall s n, hn_from_bytes s = Some n -> to_ascii_lowercase n = n;
  hm_iter_get_all : forall m k, hm_get_all m k = snd <$> filter (fun p => p.1 = k) (hm_iter m);
  hm_get_all_empty : forall k, hm_get_all hm_empty k = [];
  hm_get_all_insert : forall m k v, hm_get_all (hm_insert k v m) k = [v];
  hm_get_all_insert_ne : forall m k k' v, k <> k' ->
    hm_get_all (hm_insert k v m) k' = hm_get_all m k';
  hm_get_all_append : forall m k v, hm_get_all (hm_append k v m) k = hm_get_all m k ++ [v];
  hm_get_all_append_ne : forall m k k' v, k <> k' ->
    hm_get_all (hm_append k v m) k' = hm_get_all m k';
  hm_get_all_remove : forall m k, hm_get_all (hm_remove k m) k = [];
  hm_get_all_remove_ne : forall m k k', k <> k' ->
    hm_get_all (hm_remove k m) k' = hm_get_all m k'
}.

Section laws.
Set Default Proof Using "Type*".
Context `{HttpLaws}.

Lemma hm_get_empty k : hm_get hm_empty k = None.
Proof. unfold hm_get. by rewrite hm_get_all_empty. Qed.

Lemma hm_get_insert m k v : hm_get (hm_insert k v m) k = Some v.
Proof. unfold hm_get. by rewrite hm_get_all_insert. Qed.

Lemma hm_get_insert_ne m k k' v : k <> k' -> hm_get (hm_insert k v m) k' = hm_get m k'.
Proof. intros. unfold hm_get. by rewrite hm_get_all_insert_ne. Qed.

(** What is iterated over is what a lookup by name finds. *)
Lemma hm_iter_elem m k v : (k, v) ∈ hm_iter m <-> v ∈ hm_get_all m k.
Proof.
  rewrite hm_iter_get_all, list_elem_of_fmap. split.
  - intros I. exists (k, v). by rewrite list_elem_of_filter.
  - intros ([k' v'] & -> & I). apply list_elem_of_filter in I as [E I]. cbn in *. by subst.
Qed.

(** After an insertion a name maps to the new value, other names are unchanged. *)
Lemma hm_iter_insert m n w k v : (k, v) ∈ hm_iter (hm_insert n w m) ->
  (k = n /\ v = w) \/ (k <> n /\ (k, v) ∈ hm_iter m).
Proof.
  rewrite !hm_iter_elem. destruct (decide (k = n)) as [->|N].
  - rewrite hm_get_all_insert, list_elem_of_singleton. auto.
  - rewrite hm_get_all_insert_ne by done. auto.
Qed.

(** Names as [HeaderName] keeps them. *)
Definition lower_named (h : HeaderMap) : Prop :=
  Forall (fun p => to_ascii_lowercase p.1 = p.1) (hm_iter h).

Lemma lower_named_insert k v h : to_ascii_lowercase k = k -> lower_named h ->
  lower_named (hm_insert k v h).
Proof.
  unfold lower_named. rewrite !Forall_forall. intros Hk Hh [k' v'] I. cbn.
  apply hm_iter_insert in I as [[-> _]|[_ I]]; [done|]. exact (Hh _ I).
Qed.
End laws.

#[export] Hint Rewrite @hm_get_empty @hm_get_insert using typeclasses eauto : s3.

(** ** The association-list instance *)

#[local] Notation assoc_map := (list (string * string)).

Definition assoc_http : Http := {|
  HeaderValue := string;
  HeaderMap := assoc_map;
  hv_from_str s := if str_all is_visible_ascii s then Some s else None;
  hv_to_str s := if str_all is_visible_ascii s then Some s else None;
  hv_bytes s := s;
  hv_from_u64 n := to_string n;
  hn_from_bytes s := if is_empty s then None else Some (to_ascii_lowercase s);
  hm_empty := [];
  hm_get_all m k := snd <$> filter (fun p => p.1 = k) m;
  hm_insert k v m := filter (fun p => p.1 <> k) m ++ [(k, v)];
  hm_append k v m := m ++ [(k, v)];
  hm_remove k m := filter (fun p => p.1 <> k) m;
  hm_iter m := m
|}.

Lemma filter_filter_eq {V} (k : string) (m : list (string * V)) :
  filter (fun p => p.1 = k) (filter (fun p => p.1 <> k) m) = [].
Proof. apply filter_none, Forall_forall. intros x Hx E. by apply list_elem_of_filter in Hx as [? _]. Qed.

Lemma filter_filter_ne {V} (k k' : string) (m : list (string * V)) : k <> k' ->
  filter (fun p => p.1 = k') (filter (fun p => p.1 <> k) m) = filter (fun p => p.1 = k') m.
Proof.
  intros N. induction m as [|[a v] m IH]; [done|]. rewrite !filter_cons. simpl.
  repeat case_decide; rewrite ?filter_cons; simpl; repeat case_decide; congruence.
Qed.

Lemma assoc_http_laws : @HttpLaws assoc_http.
Proof.
  split; cbn [assoc_http hv_from_str hv_to_str hv_bytes hv_from_u64 hm_iter hm_empty hm_get_all hm_insert hm_append
              hm_remove hn_from_bytes].
  - intros s ->. eauto.
  - intros s v. case_match; intros; by inv_ok.
  - intros v s. case_match eqn:E; intros; by inv_ok.
  - intros s v E V. rewrite V in E. inv_ok. by rewrite V.
  - intros n. rewrite (str_all_impl is_ascii_digit is_visible_ascii); [done|intros c; all_bytes c|].
    apply to_string_digits.
  - intros s n. destruct (is_empty s); [done|]. intros [= <-]. apply to_ascii_lowercase_idemp.
  - done.
  - done.
  - intros m k v. rewrite filter_app, filter_filter_eq, filter_cons. by rewrite decide_True.
  - intros m k k' v N. rewrite filter_app, filter_filter_ne, filter_cons by done.
    rewrite decide_False by done. simpl. by rewrite app_nil_r.
  - intros m k v. rewrite filter_app, fmap_app, filter_cons. by rewrite decide_True.
  - intros m k k' v N. rewrite filter_app, filter_cons, decide_False by done. simpl.
    by rewrite app_nil_r.
  - intros m k. by rewrite filter_filter_eq.
  - intros m k k' N. by rewrite filter_filter_ne.
Qed.
