(* ===== verification/Retry.v ===== *)
(** Retry policy ([src/retry/mod.rs]) and the region-redirect helpers of the
request loop ([src/client/request/retry.rs]). Durations are nanoseconds. *)

From S2P Require Import Prelude Text Errors Canonical Endpoint Http.
From stdpp Require Import options.
Local Open Scope Z_scope.

(** ** [RetryPolicy] *)

Record RetryPolicy : Type := {
  max_attempts : Z;
  base_delay : Z;
  max_delay : Z;
  max_elapsed : Z
}.

Definition RetryPolicy_standard : RetryPolicy :=
  {| max_attempts := 4; base_delay := from_millis 100; max_delay := from_secs 10;
     max_elapsed := from_secs 30 |}.

Definition RetryPolicy_new (max_attempts base_delay max_delay max_elapsed : Z)
  : outcome RetryPolicy :=
  if max_attempts =? 0
  then Err (S3Error.configuration "retry max_attempts must be at least one")
  else if base_delay =? 0
  then Err (S3Error.configuration "retry base_delay must be greater than zero")
  else if max_delay <? base_delay
  then Err (S3Error.configuration "retry max_delay must not be shorter than base_delay")
  else if max_elapsed =? 0
  then Err (S3Error.configuration "retry max_elapsed must be greater than zero")
  else Ok {| max_attempts := max_attempts; base_delay := base_delay; max_delay := max_delay;
             max_elapsed := max_elapsed |}.

Definition permits_retry (p : RetryPolicy) (classification : RetryClassification.t)
    (attempts_completed elapsed : Z) : bool :=
  negb (bool_decide (classification = RetryClassification.Never))
  && (attempts_completed <? max_attempts p) && (elapsed <? max_elapsed p).

Definition delay_ceiling (p : RetryPolicy) (classification : RetryClassification.t)
    (attempts_completed : Z) : Z :=
  let base := if bool_decide (classification = RetryClassification.Throttled)
              then Z.max (base_delay p) (from_secs 1) else base_delay p in
  let exponent := Z.min (saturating_sub attempts_completed 1) 31 in
  let multiplier := Z.land (Z.shiftl 1 exponent) U32_MAX in
  Z.min (saturating_mul DURATION_MAX base multiplier) (max_delay p).

(** [fastrand] is [fastrand::u64(0..=hi)]. *)
Definition delay_for (fastrand : Z -> Z) (p : RetryPolicy)
    (classification : RetryClassification.t) (attempts_completed elapsed : Z)
    (retry_after : option Z) : option Z :=
  if (attempts_completed =? 0) || (max_attempts p <=? attempts_completed)
     || (max_elapsed p <=? elapsed) || bool_decide (classification = RetryClassification.Never)
  then None
  else
    let remaining := saturating_sub (max_elapsed p) elapsed in
    match retry_after with
    | Some delay => if delay <=? remaining then Some delay else None
    | None =>
        let ceiling := Z.min (delay_ceiling p classification attempts_completed) remaining in
        let ceiling_nanos := default U64_MAX (try_from U64_MAX ceiling) in
        Some (fastrand ceiling_nanos)
    end.

Definition delay (fastrand : Z -> Z) (p : RetryPolicy) (attempts_completed elapsed : Z)
    (retry_after : option Z) : option Z :=
  delay_for fastrand p RetryClassification.Retryable attempts_completed elapsed retry_after.

(** ** Region redirects *)

Definition valid_region_label (region : string) : bool :=
  negb (is_empty region) && (slen region <=? 64)
  && str_all (fun c => is_ascii_alphanumeric c || Ascii.eqb c "-") region.

Definition is_regional_name (name prefix : string) : bool :=
  match strip_prefix prefix name with
  | Some rest =>
      match strip_prefix "." rest with
      | Some region => valid_region_label region
      | None => false
      end
  | None => false
  end.

(** The host without its DNS suffix, and the suffix. *)
Definition aws_host_split (host : string) : option (string * string) :=
  match strip_suffix ".amazonaws.com.cn" host with
  | Some name => Some (name, "amazonaws.com.cn")
  | None =>
      match strip_suffix ".amazonaws.com" host with
      | Some name => Some (name, "amazonaws.com")
      | None => None
      end
  end.

Definition aws_prefix (name : string) : option string :=
  if String.eqb name "s3" || is_regional_name name "s3" then Some "s3"
  else if is_regional_name name "s3.dualstack" then Some "s3.dualstack"
  else if is_regional_name name "s3-fips" then Some "s3-fips"
  else if is_regional_name name "s3-fips.dualstack" then Some "s3-fips.dualstack"
  else None.

Definition redirected_aws_authority (endpoint : EndpointUrl) (region : string) : option string :=
  if negb (String.eqb (scheme endpoint) "https") then None
  else
  let host := match split_once ":" (authority endpoint) with
              | Some (host, _) => host
              | None => authority endpoint
              end in
  match aws_host_split host with
  | None => None
  | Some (name, suffix) =>
      prefix ← aws_prefix name;
      Some (prefix +:+ "." +:+ region +:+ "." +:+ suffix)
  end.

Section headers.
Context `{Http}.
(** [httpdate::parse_http_date], as nanoseconds since the epoch, and the clock. *)
Variable parse_http_date : string -> option Z.

Definition parse_retry_after_value (now : Z) (value : HeaderValue) : option Z :=
  value ← hv_to_str value;
  match parse_uint U64_MAX value with
  | Some seconds => Some (from_secs seconds)
  | None => retry_at ← parse_http_date value; Some (Z.max (retry_at - now) 0)
  end.

Definition parse_retry_after (now : Z) (headers : HeaderMap) : option Z :=
  match hm_get headers "retry-after" ≫= parse_retry_after_value now with
  | Some d => Some d
  | None => hm_get headers "x-amz-retry-after" ≫= parse_retry_after_value now
  end.

Definition controlled_region_redirect (status : Z) (headers : HeaderMap) : option string :=
  if negb (bool_decide (status ∈ [301; 307; 308; 400])) then None
  else
    region ← hm_get_str headers "x-amz-bucket-region";
    if valid_region_label region then Some region else None.
End headers.

(** ** Lemmas *)

Definition policy_ok (p : RetryPolicy) : Prop :=
  1 <= max_attempts p /\ 0 < base_delay p <= max_delay p /\ max_delay p <= DURATION_MAX
  /\ 0 < max_elapsed p <= DURATION_MAX.

(** [fastrand::u64(0..=hi)] stays in its range. *)
Definition fastrand_ok (fastrand : Z -> Z) : Prop := forall hi, 0 <= hi -> 0 <= fastrand hi <= hi.

Definition effective_base (p : RetryPolicy) (c : RetryClassification.t) : Z :=
  if bool_decide (c = RetryClassification.Throttled)
  then Z.max (base_delay p) (from_secs 1) else base_delay p.

Lemma shift_exact e : 0 <= e <= 31 -> Z.land (Z.shiftl 1 e) U32_MAX = 2 ^ e.
Proof.
  intros He. rewrite Z.shiftl_mul_pow2, Z.mul_1_l by lia.
  unfold U32_MAX. change (2 ^ 32 - 1) with (Z.ones 32). rewrite Z.land_ones by lia.
  apply Z.mod_small. split; [lia|]. apply Z.pow_lt_mono_r; lia.
Qed.

(** No bit of the multiplier and no saturation shows in the ceiling. *)
Lemma delay_ceiling_exact p c n :
  policy_ok p -> 1 <= n ->
  delay_ceiling p c n = Z.min (effective_base p c * 2 ^ Z.min (n - 1) 31) (max_delay p).
Proof.
  intros (_ & _ & Hd & _) Hn. unfold delay_ceiling, saturating_mul, saturating_sub.
  fold (effective_base p c). rewrite shift_exact by lia. rewrite Z.max_l by lia. lia.
Qed.

Lemma effective_base_pos p c : policy_ok p -> 0 < effective_base p c.
Proof.
  intros (_ & Hb & _). unfold effective_base, from_secs, NANOS_PER_SEC. case_bool_decide; lia.
Qed.

Lemma delay_ceiling_pos p c n : policy_ok p -> 1 <= n -> 0 < delay_ceiling p c n <= max_delay p.
Proof.
  intros Hp Hn. rewrite delay_ceiling_exact by done.
  pose proof (effective_base_pos p c Hp). destruct Hp as (_ & Hb & _).
  assert (0 < 2 ^ Z.min (n - 1) 31) by (apply Z.pow_pos_nonneg; lia). nia.
Qed.

Lemma is_regional_name_spec name prefix :
  is_regional_name name prefix = true ->
  exists region, name = prefix +:+ "." +:+ region /\ valid_region_label region = true.
Proof.
  unfold is_regional_name. destruct (strip_prefix prefix name) as [r|] eqn:E; [|done].
  destruct (strip_prefix "." r) as [region|] eqn:F; [|done]. intros Hv. exists region.
  apply strip_prefix_Some in E, F. by subst.
Qed.

Definition aws_prefixes : list string := ["s3"; "s3.dualstack"; "s3-fips"; "s3-fips.dualstack"].
Definition aws_suffixes : list string := ["amazonaws.com"; "amazonaws.com.cn"].

Lemma aws_host_split_spec host name suffix :
  aws_host_split host = Some (name, suffix) ->
  suffix ∈ aws_suffixes /\ host = name +:+ "." +:+ suffix.
Proof.
  unfold aws_host_split, aws_suffixes.
  destruct (strip_suffix ".amazonaws.com.cn" host) eqn:E; intros; inv_ok.
  - apply strip_suffix_Some in E. split; [set_solver|done].
  - destruct (strip_suffix ".amazonaws.com" host) eqn:F; inv_ok.
    apply strip_suffix_Some in F. split; [set_solver|done].
Qed.

Lemma aws_prefix_spec name prefix :
  aws_prefix name = Some prefix ->
  prefix ∈ aws_prefixes
  /\ (name = prefix \/ exists r, name = prefix +:+ "." +:+ r /\ valid_region_label r = true).
Proof.
  unfold aws_prefix, aws_prefixes. intros Hp.
  destruct (String.eqb name "s3") eqn:E; simpl in Hp.
  { bools. inv_ok. split; [set_solver|by left]. }
  steps_in Hp; (split; [set_solver|]); right; by apply is_regional_name_spec.
Qed.

(** ** Properties *)

(** C40. A delay is granted exactly when the policy permits another attempt
after at least one, and a server's [Retry-After] fits the remaining time; it is
that value, or a jitter of at most the ceiling, and never outlasts the bound. *)
Theorem delay_for_spec (fastrand : Z -> Z) (p : RetryPolicy) (c : RetryClassification.t)
  (attempts elapsed : Z) (retry_after : option Z)
  (Hp : policy_ok p) (Hr : fastrand_ok fastrand) (Ha : 0 <= attempts) (He : 0 <= elapsed) :
  match delay_for fastrand p c attempts elapsed retry_after with
  | Some d =>
      permits_retry p c attempts elapsed = true /\ 1 <= attempts
      /\ elapsed + d <= max_elapsed p
      /\ match retry_after with
         | Some r => d = r
         | None => 0 <= d <= delay_ceiling p c attempts
         end
  | None =>
      permits_retry p c attempts elapsed = false \/ attempts = 0
      \/ exists r, retry_after = Some r /\ max_elapsed p < elapsed + r
  end.
Proof.
  unfold delay_for, permits_retry, saturating_sub.
  destruct (attempts =? 0) eqn:E0; bools; simpl; [by auto|].
  destruct (max_attempts p <=? attempts) eqn:E1; bools; simpl;
    [left; rewrite (proj2 (Z.ltb_ge _ _)) by lia; by rewrite andb_false_r|].
  destruct (max_elapsed p <=? elapsed) eqn:E2; bools; simpl;
    [left; rewrite (proj2 (Z.ltb_ge elapsed _)) by lia; by rewrite andb_false_r|].
  case_bool_decide as Hc; simpl; [by auto|].
  rewrite !(proj2 (Z.ltb_lt _ _)) by lia. destruct retry_after as [r|].
  - destruct (r <=? _) eqn:L; bools; [repeat split; lia|]. right; right. exists r. split; [done|lia].
  - pose proof (delay_ceiling_pos p c attempts Hp ltac:(lia)) as Hceil.
    set (m := Z.min (delay_ceiling p c attempts) (Z.max (max_elapsed p - elapsed) 0)).
    assert (0 <= default U64_MAX (try_from U64_MAX m) <= m) as Hm.
    { unfold try_from. destruct (m <=? U64_MAX) eqn:L; bools; simpl; unfold U64_MAX in *; lia. }
    pose proof (Hr _ (proj1 Hm)). repeat split; lia.
Qed.


Lemma delay_for_spec_witness :
  delay_for (fun hi => hi) RetryPolicy_standard RetryClassification.Retryable 3 0 None
    = Some (from_millis 400)
  /\ permits_retry RetryPolicy_standard RetryClassification.Retryable 3 0 = true.
Proof.
  split; [reflexivity|].
  apply (delay_for_spec (fun hi => hi) RetryPolicy_standard RetryClassification.Retryable 3 0 None);
    [vm_compute; intuition discriminate | intros hi Hhi; lia | lia | lia].
Defined.

(** The ceiling doubles with each attempt up to the maximum delay: shifting
and saturating arithmetic lose nothing, and it never decreases. *)
Theorem delay_ceiling_doubles (p : RetryPolicy) (c : RetryClassification.t) (n : Z)
  (Hp : policy_ok p) (Hn : 1 <= n <= U32_MAX) :
  delay_ceiling p c n
    = Z.min (max_delay p)
        ((if bool_decide (c = RetryClassification.Throttled)
          then Z.max (base_delay p) (from_secs 1) else base_delay p) * 2 ^ Z.min (n - 1) 31)
  /\ 0 < delay_ceiling p c n <= delay_ceiling p c (n + 1)
  /\ delay_ceiling p c (n + 1) <= max_delay p.
Proof.
  fold (effective_base p c). pose proof (delay_ceiling_pos p c n Hp ltac:(lia)).
  pose proof (delay_ceiling_pos p c (n + 1) Hp ltac:(lia)).
  rewrite !delay_ceiling_exact in * by (done || lia). split; [lia|]. split; [|lia].
  pose proof (effective_base_pos p c Hp).
  assert (2 ^ Z.min (n - 1) 31 <= 2 ^ Z.min (n + 1 - 1) 31) by (apply Z.pow_le_mono_r; lia). nia.
Qed.

Lemma delay_ceiling_doubles_witness :
  delay_ceiling RetryPolicy_standard RetryClassification.Throttled 4 = from_secs 8
  /\ delay_ceiling RetryPolicy_standard RetryClassification.Throttled 5 <= from_secs 10.
Proof.
  split; [reflexivity|].
  apply (delay_ceiling_doubles RetryPolicy_standard RetryClassification.Throttled 4);
    [vm_compute; intuition discriminate | vm_compute; intuition discriminate].
Defined.

(** C27. A redirect cannot leave AWS: the new authority keeps the https
endpoint's service prefix and DNS suffix, and differs in the region only. *)
Theorem redirected_aws_authority_safe (u : EndpointUrl) (region a : string)
  (Hok : redirected_aws_authority u region = Some a) :
  scheme u = "https" /\
  exists prefix suffix host, prefix ∈ aws_prefixes /\ suffix ∈ aws_suffixes
    /\ a = prefix +:+ "." +:+ region +:+ "." +:+ suffix
    /\ (authority u = host \/ exists port, authority u = host +:+ ":" +:+ port)
    /\ (host = prefix +:+ "." +:+ suffix
        \/ exists r, valid_region_label r = true
             /\ host = prefix +:+ "." +:+ r +:+ "." +:+ suffix).
Proof.
  unfold redirected_aws_authority in Hok.
  destruct (String.eqb (scheme u) "https") eqn:S; bools; [|done]. simpl in Hok.
  split; [done|].
  set (host := match split_once ":" (authority u) with
               | Some (host, _) => host | None => authority u end) in *.
  assert (authority u = host \/ exists port, authority u = host +:+ ":" +:+ port) as Hh.
  { unfold host. destruct (split_once ":" (authority u)) as [[h q]|] eqn:E; [|by left].
    apply split_once_Some in E as [E _]. right. by exists q. }
  destruct (aws_host_split host) as [[name suffix]|] eqn:N; [|done].
  apply aws_host_split_spec in N as [Hs Hhost].
  destruct (aws_prefix name) as [prefix|] eqn:P; simpl in Hok; inv_ok.
  apply aws_prefix_spec in P as [Hp Hname].
  exists prefix, suffix, host. split_and!; [done..|].
  destruct Hname as [-> | (r & -> & Hr)]; [by left|].
  right. exists r. split; [done|]. by rewrite Hhost, !app_assoc_str.
Qed.

Lemma redirected_aws_authority_safe_witness :
  redirected_aws_authority (sample_url "s3-fips.us-east-1.amazonaws.com:443" "/") "eu-west-1"
    = Some "s3-fips.eu-west-1.amazonaws.com"
  /\ scheme (sample_url "s3-fips.us-east-1.amazonaws.com:443" "/") = "https".
Proof.
  split; [reflexivity|].
  apply (redirected_aws_authority_safe (sample_url "s3-fips.us-east-1.amazonaws.com:443" "/")
    "eu-west-1" "s3-fips.eu-west-1.amazonaws.com"). reflexivity.
Defined.
