(* ===== verification/Quota.v ===== *)
(** The retry quota shared by all requests of a client ([src/client/mod.rs]):
an atomic token bucket and the permits taken from it. Each [fetch_update] is one
atomic step, so concurrent requests are interleavings of the steps below. *)

From S2P Require Import Prelude Errors.
From stdpp Require Import options.
Local Open Scope Z_scope.

Definition RETRY_QUOTA_CAPACITY : Z := 500.
Definition TRANSIENT_RETRY_COST : Z := 14.
Definition THROTTLING_RETRY_COST : Z := 5.

(** [RetryQuota] is its token count; [RetryPermit] its cost, the reference to
the shared quota being the state the operations run on. *)
Record RetryQuota : Type := { tokens : Z }.
Record RetryPermit : Type := { cost : Z; committed : bool }.

Definition RetryQuota_new : RetryQuota := {| tokens := RETRY_QUOTA_CAPACITY |}.

(** [fetch_update]: the new value and whether the closure accepted. *)
Definition fetch_update (q : RetryQuota) (f : Z -> option Z) : RetryQuota * bool :=
  match f (tokens q) with Some t => ({| tokens := t |}, true) | None => (q, false) end.

Definition retry_cost (c : RetryClassification.t) : option Z :=
  match c with
  | RetryClassification.Throttled => Some THROTTLING_RETRY_COST
  | RetryClassification.Retryable => Some TRANSIENT_RETRY_COST
  | RetryClassification.Never => None
  end.

Definition acquire (q : RetryQuota) (c : RetryClassification.t)
  : RetryQuota * option RetryPermit :=
  match retry_cost c with
  | None => (q, None)
  | Some cost =>
      match fetch_update q (fun available =>
              if cost <=? available then Some (available - cost) else None) with
      | (q, true) => (q, Some {| cost := cost; committed := false |})
      | (q, false) => (q, None)
      end
  end.

Definition replenish_after_success (q : RetryQuota) (last_retry_cost : option Z) : RetryQuota :=
  let restored := default 1 last_retry_cost in
  fst (fetch_update q (fun available =>
    Some (Z.min (saturating_add U32_MAX available restored) RETRY_QUOTA_CAPACITY))).

Definition RetryPermit_commit (p : RetryPermit) : RetryPermit * Z :=
  ({| cost := cost p; committed := true |}, cost p).

Definition RetryPermit_drop (q : RetryQuota) (p : RetryPermit) : RetryQuota :=
  if committed p then q else replenish_after_success q (Some (cost p)).

(** ** Interleaving

The permits in flight, and two ledgers of costs that no code keeps: what was
committed and what successes gave back. *)
Record Ledger : Type := {
  quota : RetryQuota;
  in_flight : list RetryPermit;
  spent : list Z;
  restored : Z
}.

Definition Ledger_new : Ledger :=
  {| quota := RetryQuota_new; in_flight := []; spent := []; restored := 0 |}.

(** A request acquires a permit, commits it before the next attempt (committing
consumes it, and its drop then does nothing), drops it uncommitted, or succeeds
and restores the cost of its last retry. *)
Inductive quota_step : Ledger -> Ledger -> Prop :=
| step_acquire l c q p :
    acquire (quota l) c = (q, Some p) ->
    quota_step l {| quota := q; in_flight := p :: in_flight l; spent := spent l;
                    restored := restored l |}
| step_refused l c q :
    acquire (quota l) c = (q, None) ->
    quota_step l {| quota := q; in_flight := in_flight l; spent := spent l;
                    restored := restored l |}
| step_commit l p p' k before after :
    in_flight l = before ++ p :: after -> RetryPermit_commit p = (p', k) ->
    quota_step l {| quota := RetryPermit_drop (quota l) p'; in_flight := before ++ after;
                    spent := k :: spent l; restored := restored l |}
| step_drop l p before after :
    in_flight l = before ++ p :: after ->
    quota_step l {| quota := RetryPermit_drop (quota l) p; in_flight := before ++ after;
                    spent := spent l; restored := restored l |}
| step_success l last :
    last = None \/ (exists k, last = Some k /\ k ∈ spent l) ->
    quota_step l {| quota := replenish_after_success (quota l) last; in_flight := in_flight l;
                    spent := spent l; restored := restored l + default 1 last |}.

Definition sum_list (l : list Z) : Z := foldr Z.add 0 l.
#[global] Arguments sum_list : simpl never.
Definition is_cost (k : Z) : Prop := k = TRANSIENT_RETRY_COST \/ k = THROTTLING_RETRY_COST.

(** The invariant of the bucket. *)
Record ledger_ok (l : Ledger) : Prop := {
  ok_tokens : 0 <= tokens (quota l) <= RETRY_QUOTA_CAPACITY;
  ok_permits : Forall (fun p => is_cost (cost p) /\ committed p = false) (in_flight l);
  ok_spent : Forall is_cost (spent l);
  ok_budget : tokens (quota l) + sum_list (cost <$> in_flight l) + sum_list (spent l)
              <= RETRY_QUOTA_CAPACITY + restored l
}.

Lemma sum_list_cons k l : sum_list (k :: l) = k + sum_list l.
Proof. done. Qed.

Lemma sum_list_app l k : sum_list (l ++ k) = sum_list l + sum_list k.
Proof. unfold sum_list. induction l; simpl; [done|]. lia. Qed.

Lemma acquire_spec q c q' r :
  acquire q c = (q', r) ->
  match r with
  | Some p => committed p = false /\ is_cost (cost p) /\ tokens q' = tokens q - cost p
              /\ 0 <= tokens q'
  | None => q' = q
  end.
Proof.
  unfold acquire, fetch_update. destruct (retry_cost c) as [k|] eqn:K; [|by intros [= <- <-]].
  destruct (k <=? tokens q) eqn:L; bools; intros [= <- <-]; [|done]. simpl.
  split_and!; [done| |done|lia]. destruct c; inversion K; [by left | by right].
Qed.

Lemma replenish_spec q last :
  0 <= tokens q <= RETRY_QUOTA_CAPACITY -> 0 <= default 1 last <= RETRY_QUOTA_CAPACITY ->
  tokens (replenish_after_success q last)
  = Z.min (tokens q + default 1 last) RETRY_QUOTA_CAPACITY.
Proof.
  unfold replenish_after_success, fetch_update, saturating_add. simpl.
  unfold RETRY_QUOTA_CAPACITY, U32_MAX. lia.
Qed.

Lemma is_cost_range k : is_cost k -> 5 <= k <= 14.
Proof. unfold is_cost, TRANSIENT_RETRY_COST, THROTTLING_RETRY_COST. lia. Qed.

Lemma sum_costs_lower l : Forall is_cost l -> 5 * Z.of_nat (List.length l) <= sum_list l.
Proof.
  induction 1 as [|k l Hk F IH]; [done|]. simpl. rewrite sum_list_cons. apply is_cost_range in Hk. lia.
Qed.

Lemma sum_costs_nonneg l : Forall is_cost l -> 0 <= sum_list l.
Proof. intros H%sum_costs_lower. lia. Qed.

Lemma permit_costs ps :
  Forall (fun p => is_cost (cost p) /\ committed p = false) ps -> Forall is_cost (cost <$> ps).
Proof. intros H. apply Forall_fmap. eapply Forall_impl; [done|]. by intros p []. Qed.

Lemma ledger_new_ok : ledger_ok Ledger_new.
Proof. split; try done; vm_compute; intuition discriminate. Qed.

Lemma quota_step_ok l l' : quota_step l l' -> ledger_ok l -> ledger_ok l'.
Proof.
  intros S [Ht Hp Hs Hb]. pose proof (sum_costs_nonneg _ (permit_costs _ Hp)).
  destruct S as [l c q p E|l c q E|l p p' k before after E C|l p before after E|l last C].
  - apply acquire_spec in E as (Hc & Hk & Hq & Hn). pose proof (is_cost_range _ Hk).
    split; cbn [quota in_flight spent restored]; [lia | by constructor | done | rewrite fmap_cons, sum_list_cons; lia].
  - apply acquire_spec in E as ->. by split.
  - rewrite E in *. apply Forall_app in Hp as [Hp1 Hp2]. inversion Hp2 as [|? ? [Hk Hc] Hp3]; subst.
    injection C as <- <-. rewrite fmap_app, fmap_cons, sum_list_app, sum_list_cons in *.
    split; cbn [quota in_flight spent restored]; [done | by apply Forall_app | by constructor |].
    rewrite fmap_app, sum_list_app, sum_list_cons.
    change (RetryPermit_drop (quota l) {| cost := cost p; committed := true |}) with (quota l). lia.
  - rewrite E in *. apply Forall_app in Hp as [Hp1 Hp2]. inversion Hp2 as [|? ? [Hk Hc] Hp3]; subst.
    rewrite fmap_app, fmap_cons, sum_list_app, sum_list_cons in *. pose proof (is_cost_range _ Hk).
    assert (tokens (RetryPermit_drop (quota l) p)
            = Z.min (tokens (quota l) + cost p) RETRY_QUOTA_CAPACITY) as Eq.
    { unfold RetryPermit_drop. rewrite Hc. apply (replenish_spec _ (Some (cost p))); [done|].
      simpl. unfold RETRY_QUOTA_CAPACITY. lia. }
    split; cbn [quota in_flight spent restored]; [lia | by apply Forall_app | done |].
    rewrite Eq, fmap_app, sum_list_app. lia.
  - assert (0 <= default 1 last <= 14) as Hl.
    { destruct C as [-> | (k & -> & Hk)]; simpl; [lia|]. rewrite Forall_forall in Hs.
      apply Hs, is_cost_range in Hk. lia. }
    split; cbn [quota in_flight spent restored]; try done;
      rewrite replenish_spec by (done || unfold RETRY_QUOTA_CAPACITY; lia); lia.
Qed.

Lemma quota_reachable_ok l : rtc quota_step Ledger_new l -> ledger_ok l.
Proof.
  intros R. pose proof ledger_new_ok as H. induction R; [done|]. eauto using quota_step_ok.
Qed.

(** ** Properties *)

(** C15. However requests interleave, the bucket stays within 0..500, every
permit is paid for, and retries spend at most the capacity plus what successes
restored: so at most one retry per 5 tokens of that budget. *)
Theorem retry_budget (l : Ledger) (Hreach : rtc quota_step Ledger_new l) :
  0 <= tokens (quota l) <= RETRY_QUOTA_CAPACITY
  /\ sum_list (spent l) <= RETRY_QUOTA_CAPACITY + restored l
  /\ 5 * Z.of_nat (List.length (spent l)) <= RETRY_QUOTA_CAPACITY + restored l.
Proof.
  apply quota_reachable_ok in Hreach as [Ht Hp Hs Hb].
  pose proof (sum_costs_nonneg _ (permit_costs _ Hp)). pose proof (sum_costs_lower _ Hs). lia.
Qed.

Lemma retry_budget_witness :
  exists l, rtc quota_step Ledger_new l /\ tokens (quota l) = 486 /\ spent l = [14]
    /\ 5 * Z.of_nat (List.length (spent l)) <= RETRY_QUOTA_CAPACITY + restored l.
Proof.
  set (p := {| cost := 14; committed := false |}).
  exists {| quota := {| tokens := 486 |}; in_flight := []; spent := [14]; restored := 0 |}.
  assert (rtc quota_step Ledger_new
    {| quota := {| tokens := 486 |}; in_flight := []; spent := [14]; restored := 0 |}) as R.
  { eapply rtc_l; [apply (step_acquire _ RetryClassification.Retryable {| tokens := 486 |} p);
      reflexivity|].
    eapply rtc_l; [|apply rtc_refl]. apply (step_commit {| quota := {| tokens := 486 |};
      in_flight := [p]; spent := []; restored := 0 |} p {| cost := 14; committed := true |} 14 [] []);
      reflexivity. }
  split; [exact R|]. split; [reflexivity|]. split; [reflexivity|]. apply (retry_budget _ R).
Defined.
