(* ===== verification/Types.v ===== *)
(** Validated values of the public API ([src/operation/types.rs],
[src/operation/multipart/identifier.rs], [part.rs], [completion.rs] and
[managed.rs]): keys, ranges, checksums, part numbers, upload identifiers,
completed parts and the multipart options. *)

From S2P Require Import Prelude Text Errors.
From stdpp Require Import options.
Local Open Scope Z_scope.

Definition MAX_OBJECT_KEY_BYTES : Z := 1024.

Module ObjectKeyError.
Inductive t : Type := Empty | TooLong (actual maximum : Z).
Definition display (e : t) : string :=
  match e with
  | Empty => "an S3 object key cannot be empty"
  | TooLong actual maximum =>
      "S3 object key is " +:+ to_string actual +:+ " bytes; the maximum is " +:+ to_string maximum
  end.
End ObjectKeyError.

Module ObjectKey.
Record t : Type := Mk { as_str : string }.
Definition new (value : string) : result ObjectKeyError.t t :=
  if is_empty value then Err ObjectKeyError.Empty
  else if MAX_OBJECT_KEY_BYTES <? slen value
  then Err (ObjectKeyError.TooLong (slen value) MAX_OBJECT_KEY_BYTES)
  else Ok (Mk value).
#[global] Instance eq_dec : EqDecision t.
Proof. solve_decision. Defined.
End ObjectKey.

Module RangeError.
Record t : Type := Mk { start : Z; end_ : Z }.
End RangeError.

Module ByteRange.
(** [Suffix] holds a non-zero length. *)
Inductive t : Type := Inclusive (start end_ : Z) | From (start : Z) | Suffix (length : Z).
Definition inclusive (start end_ : Z) : result RangeError.t t :=
  if end_ <? start then Err (RangeError.Mk start end_) else Ok (Inclusive start end_).
Definition from (start : Z) : t := From start.
Definition suffix (length : Z) : option t := if length =? 0 then None else Some (Suffix length).
Definition to_header_value (r : t) : string :=
  match r with
  | Inclusive start end_ => "bytes=" +:+ to_string start +:+ "-" +:+ to_string end_
  | From start => "bytes=" +:+ to_string start +:+ "-"
  | Suffix length => "bytes=-" +:+ to_string length
  end.
End ByteRange.

(** Instants are nanoseconds since the epoch. *)
Module Conditions.
Record t : Type := Mk {
  if_match : option string;
  if_none_match : option string;
  if_modified_since : option Z;
  if_unmodified_since : option Z
}.
Definition default : t := Mk None None None None.
End Conditions.

Module ChecksumAlgorithm.
Inductive t : Type := Crc32 | Crc32c | Crc64Nvme | Sha1 | Sha256.
#[global] Instance eq_dec : EqDecision t.
Proof. solve_decision. Defined.
End ChecksumAlgorithm.

Module ChecksumType.
Inductive t : Type := Composite | FullObject | Unknown (value : string).
#[global] Instance eq_dec : EqDecision t.
Proof. solve_decision. Defined.
Definition as_str (c : t) : string :=
  match c with
  | Composite => "COMPOSITE"
  | FullObject => "FULL_OBJECT"
  | Unknown value => value
  end.
Definition parse (value : string) : t :=
  if String.eqb value "COMPOSITE" then Composite
  else if String.eqb value "FULL_OBJECT" then FullObject
  else Unknown value.
End ChecksumType.

Module Checksum.
Record t : Type := Mk {
  crc32 : option string;
  crc32c : option string;
  crc64_nvme : option string;
  sha1 : option string;
  sha256 : option string
}.
Definition default : t := Mk None None None None None.
#[global] Instance eq_dec : EqDecision t.
Proof. solve_decision. Defined.
End Checksum.

Module RequestIds.
Record t : Type := Mk { request_id : option string; host_id : option string }.
Definition default : t := Mk None None.
End RequestIds.

(** ** Multipart identifiers and parts *)

Module UploadIdError.
Inductive t : Type := Empty | TooLong (length maximum : Z) | AsciiControl (index : Z).
Definition display (e : t) : string :=
  match e with
  | Empty => "multipart upload ID cannot be empty"
  | TooLong length maximum =>
      "multipart upload ID is " +:+ to_string length +:+ " bytes; the maximum is "
      +:+ to_string maximum
  | AsciiControl index =>
      "multipart upload ID contains an ASCII control at byte " +:+ to_string index
  end.
End UploadIdError.

(** [value.bytes().position(p)]. *)
Fixpoint position (p : ascii -> bool) (s : string) : option Z :=
  match s with
  | EmptyString => None
  | String c s => if p c then Some 0 else i ← position p s; Some (i + 1)
  end.

Module UploadId.
Record t : Type := Mk { as_str : string }.
Definition MAX_LENGTH : Z := 2048.
Definition new (value : string) : result UploadIdError.t t :=
  if is_empty value then Err UploadIdError.Empty
  else if MAX_LENGTH <? slen value then Err (UploadIdError.TooLong (slen value) MAX_LENGTH)
  else match position is_ascii_control value with
       | Some index => Err (UploadIdError.AsciiControl index)
       | None => Ok (Mk value)
       end.
#[global] Instance eq_dec : EqDecision t.
Proof. solve_decision. Defined.
End UploadId.

Module PartNumber.
Record t : Type := Mk { get : Z }.
Definition MAX : Z := 10000.
Definition new (value : Z) : option t :=
  if value =? 0 then None else if value <=? MAX then Some (Mk value) else None.
Definition debug (n : t) : string := "PartNumber(" +:+ to_string (get n) +:+ ")".
#[global] Instance eq_dec : EqDecision t.
Proof. solve_decision. Defined.
End PartNumber.

Module MultipartError.
Inductive t : Type :=
| InvalidPartNumber (value : Z)
| EmptyETag (part_number : Z)
| DuplicatePart (n : PartNumber.t)
| NoCompletedParts
| OutOfOrder (previous next : PartNumber.t).
Definition display (e : t) : string :=
  match e with
  | InvalidPartNumber n => "multipart part number " +:+ to_string n +:+ " is outside 1..=10000"
  | EmptyETag n => "multipart part " +:+ to_string n +:+ " has an empty ETag"
  | DuplicatePart n =>
      "multipart part " +:+ PartNumber.debug n +:+ " was recorded more than once"
  | NoCompletedParts => "a multipart upload cannot be completed without parts"
  | OutOfOrder previous next =>
      "multipart part " +:+ PartNumber.debug next +:+ " does not follow "
      +:+ PartNumber.debug previous +:+ " in ascending order"
  end.
End MultipartError.

Module CompletedPart.
Record t : Type := Mk { part_number : PartNumber.t; e_tag : string; checksum : Checksum.t }.
Definition new (part_number : Z) (e_tag : string) : result MultipartError.t t :=
  let? part_number := ok_or (PartNumber.new part_number)
                        (MultipartError.InvalidPartNumber part_number) in
  if trim_is_empty e_tag
  then Err (MultipartError.EmptyETag (PartNumber.get part_number))
  else Ok (Mk part_number e_tag Checksum.default).
Definition with_checksum (p : t) (checksum : Checksum.t) : t :=
  Mk (part_number p) (e_tag p) checksum.
#[global] Instance eq_dec : EqDecision t.
Proof. solve_decision. Defined.
End CompletedPart.

Module CopyPartRange.
Record t : Type := Mk { start : Z; end_ : Z }.
Definition new (start end_ : Z) : result RangeError.t t :=
  if end_ <? start then Err (RangeError.Mk start end_) else Ok (Mk start end_).
Definition header_value (r : t) : string :=
  "bytes=" +:+ to_string (start r) +:+ "-" +:+ to_string (end_ r).
End CopyPartRange.

Fixpoint validate_windows (parts : list CompletedPart.t) : result MultipartError.t unit :=
  match parts with
  | a :: (b :: _) as rest =>
      if PartNumber.get (CompletedPart.part_number b) <=? PartNumber.get (CompletedPart.part_number a)
      then Err (MultipartError.OutOfOrder (CompletedPart.part_number a) (CompletedPart.part_number b))
      else validate_windows rest
  | _ => Ok tt
  end.

Definition validate_completed_parts (parts : list CompletedPart.t)
  : result MultipartError.t unit :=
  match parts with [] => Err MultipartError.NoCompletedParts | _ => validate_windows parts end.

(** The state kept while an upload is in progress. *)
Module MultipartUpload.
Record t : Type := Mk {
  key : ObjectKey.t;
  upload_id : UploadId.t;
  completed_parts : list CompletedPart.t
}.
Definition new (key : ObjectKey.t) (upload_id : UploadId.t) : t := Mk key upload_id [].

(** [binary_search_by_key] on the ascending list: where the part goes, unless
it is there; [Vec::insert] at that place. *)
Fixpoint insert_part (part : CompletedPart.t) (parts : list CompletedPart.t)
  : result MultipartError.t (list CompletedPart.t) :=
  match parts with
  | [] => Ok [part]
  | p :: rest =>
      let n := PartNumber.get (CompletedPart.part_number part) in
      let m := PartNumber.get (CompletedPart.part_number p) in
      if n =? m then Err (MultipartError.DuplicatePart (CompletedPart.part_number part))
      else if n <? m then Ok (part :: parts)
      else let? rest := insert_part part rest in Ok (p :: rest)
  end.
Definition record_part (u : t) (part : CompletedPart.t) : result MultipartError.t t :=
  let? parts := insert_part part (completed_parts u) in
  Ok (Mk (key u) (upload_id u) parts).
End MultipartUpload.

(** ** Multipart options *)

Definition MIN_PART_SIZE : Z := 5 * 1024 * 1024.
Definition MAX_PART_SIZE : Z := 5 * 1024 * 1024 * 1024.
Definition MAX_CONCURRENCY : Z := 64.

Module MultipartOptions.
Record t : Type := Mk {
  part_size : Z;
  concurrency : Z;
  transfer_timeout : Z;
  cleanup_timeout : Z
}.
Definition new (part_size concurrency : Z) : outcome t :=
  if negb ((MIN_PART_SIZE <=? part_size) && (part_size <=? MAX_PART_SIZE))
  then Err (S3Error.configuration "multipart part size must be between 5 MiB and 5 GiB")
  else if negb ((1 <=? concurrency) && (concurrency <=? MAX_CONCURRENCY))
  then Err (S3Error.configuration "multipart concurrency must be between 1 and 64")
  else
    let? concurrency64 := ok_or (try_from U64_MAX concurrency)
      (S3Error.configuration "multipart concurrency does not fit in u64") in
    let? _ := ok_or (checked_mul U64_MAX part_size concurrency64)
      (S3Error.configuration "multipart buffered byte bound overflow") in
    Ok (Mk part_size concurrency (from_secs (5 * 60)) (from_secs 30)).

(** [instant_max] is the largest representable instant, [now] the clock. *)
Definition validate_deadline (now instant_max timeout : Z) (name : string) : outcome unit :=
  if now + timeout <=? instant_max then Ok tt
  else Err (S3Error.configuration (name +:+ " is too large to represent as a deadline")).

Definition with_transfer_timeout (now instant_max : Z) (o : t) (timeout : Z) : outcome t :=
  if timeout =? 0
  then Err (S3Error.configuration "multipart transfer timeout must be greater than zero")
  else
    let? _ := validate_deadline now instant_max timeout "multipart transfer timeout" in
    Ok (Mk (part_size o) (concurrency o) timeout (cleanup_timeout o)).

Definition with_cleanup_timeout (now instant_max : Z) (o : t) (timeout : Z) : outcome t :=
  if timeout =? 0
  then Err (S3Error.configuration "multipart cleanup timeout must be greater than zero")
  else
    let? _ := validate_deadline now instant_max timeout "multipart cleanup timeout" in
    Ok (Mk (part_size o) (concurrency o) (transfer_timeout o) timeout).

(** [None] is an overflow of the multiplication. *)
Definition maximum_buffered_bytes (o : t) : option Z :=
  checked_mul U64_MAX (part_size o) (concurrency o).

Definition default : outcome t := new (8 * 1024 * 1024) 4.
End MultipartOptions.

(** ** Lemmas *)

Definition part_no (p : CompletedPart.t) : Z := PartNumber.get (CompletedPart.part_number p).

(** Part numbers strictly ascending. *)
Definition ascending (parts : list CompletedPart.t) : Prop :=
  StronglySorted (fun a b => part_no a < part_no b) parts.

Lemma validate_windows_sorted parts :
  validate_windows parts = Ok tt <-> Sorted (fun a b => part_no a < part_no b) parts.
Proof.
  induction parts as [|a [|b parts] IH].
  - split; [constructor|done].
  - split; [repeat constructor|done].
  - simpl in *. fold (part_no a) (part_no b). destruct (part_no b <=? part_no a) eqn:E; bools.
    + split; [done|]. intros S. apply Sorted_inv in S as [_ H]. inversion H. lia.
    + rewrite IH. split; intros S; [constructor; [done|by constructor]|].
      by apply Sorted_inv in S as [? _].
Qed.

Lemma ascending_sorted parts :
  Sorted (fun a b => part_no a < part_no b) parts <-> ascending parts.
Proof.
  split; [|apply StronglySorted_Sorted]. apply Sorted_StronglySorted. intros a b c ? ?. lia.
Qed.

Lemma insert_part_spec part parts :
  ascending parts ->
  match MultipartUpload.insert_part part parts with
  | Ok parts' => ascending parts' /\ parts' ≡ₚ part :: parts
  | Err e => e = MultipartError.DuplicatePart (CompletedPart.part_number part)
             /\ Exists (fun p => part_no p = part_no part) parts
  end.
Proof.
  induction 1 as [|p parts S IH F]; simpl; [split; [repeat constructor|done]|].
  fold (part_no part) (part_no p). destruct (part_no part =? part_no p) eqn:E; bools.
  { split; [done|]. by left. }
  destruct (part_no part <? part_no p) eqn:L; bools.
  - split; [|done]. constructor; [by constructor|]. constructor; [done|].
    eapply Forall_impl; [done|]. simpl. lia.
  - destruct (MultipartUpload.insert_part part parts) as [parts'|e].
    + destruct IH as [A P]. split; [|by rewrite P, Permutation_swap].
      constructor; [done|]. rewrite P. constructor; [lia|done].
    + destruct IH as [? X]. split; [done|]. by right.
Qed.

Lemma PartNumber_new_spec v n :
  0 <= v -> PartNumber.new v = Some n <-> n = PartNumber.Mk v /\ 1 <= v <= 10000.
Proof.
  intros Hv. unfold PartNumber.new, PartNumber.MAX. destruct (v =? 0) eqn:E; bools.
  { split; [done|lia]. }
  destruct (v <=? 10000) eqn:L; bools; split.
  - intros. inv_ok. split; [done|lia].
  - by intros [-> _].
  - done.
  - lia.
Qed.

(** [record_part] for each part in the order the uploads finish. *)
Fixpoint record_parts (u : MultipartUpload.t) (ps : list CompletedPart.t)
  : result MultipartError.t MultipartUpload.t :=
  match ps with
  | [] => Ok u
  | p :: ps => let? u := MultipartUpload.record_part u p in record_parts u ps
  end.

Lemma ascending_valid parts :
  parts <> [] -> ascending parts -> validate_completed_parts parts = Ok tt.
Proof.
  intros N A. unfold validate_completed_parts. destruct parts; [done|].
  by apply validate_windows_sorted, ascending_sorted.
Qed.

Lemma valid_ascending parts :
  validate_completed_parts parts = Ok tt -> parts <> [] /\ ascending parts.
Proof.
  destruct parts; [done|]. intros H. split; [done|].
  by apply ascending_sorted, validate_windows_sorted.
Qed.

Lemma record_parts_spec ps u :
  ascending (MultipartUpload.completed_parts u) ->
  match record_parts u ps with
  | Ok v => ascending (MultipartUpload.completed_parts v)
            /\ MultipartUpload.completed_parts v ≡ₚ ps ++ MultipartUpload.completed_parts u
            /\ MultipartUpload.key v = MultipartUpload.key u
            /\ MultipartUpload.upload_id v = MultipartUpload.upload_id u
  | Err _ => ~ NoDup (part_no <$> ps ++ MultipartUpload.completed_parts u)
  end.
Proof.
  revert u. induction ps as [|p ps IH]; intros u A; [done|]. simpl record_parts.
  unfold MultipartUpload.record_part. pose proof (insert_part_spec p _ A) as H.
  destruct (MultipartUpload.insert_part p _) as [parts|e].
  - destruct H as [A' P]. specialize (IH (MultipartUpload.Mk (MultipartUpload.key u)
      (MultipartUpload.upload_id u) parts) A'). simpl in IH.
    assert (ps ++ parts ≡ₚ (p :: ps) ++ MultipartUpload.completed_parts u) as PP.
    { rewrite P. simpl. by rewrite Permutation_middle. }
    destruct (record_parts _ ps) as [v|]; [destruct IH as (I1 & I2 & I3 & I4)|].
    + split_and!; [done| by rewrite I2 | done..].
    + rewrite <- PP. exact IH.
  - destruct H as [_ X]. apply Exists_exists in X as (q & Hq & E). simpl.
    rewrite NoDup_cons. intros [NI _]. apply NI. rewrite <- E.
    apply list_elem_of_fmap_2. apply elem_of_app. by right.
Qed.

Lemma ascending_nodup parts : ascending parts -> NoDup (part_no <$> parts).
Proof.
  induction 1 as [|p parts S IH F]; simpl; constructor; [|done].
  intros (q & E & Hq)%list_elem_of_fmap. rewrite Forall_forall in F. specialize (F q Hq). lia.
Qed.

(** ** Properties *)

(** Parts may be recorded in any order: recording fails exactly on a
repeated part number, and otherwise the parts are kept in ascending order, none
lost, so that completing with them passes validation. *)
Theorem record_parts_any_order (key : ObjectKey.t) (id : UploadId.t) (ps : list CompletedPart.t) :
  match record_parts (MultipartUpload.new key id) ps with
  | Ok u => NoDup (part_no <$> ps) /\ MultipartUpload.completed_parts u ≡ₚ ps
            /\ ascending (MultipartUpload.completed_parts u)
            /\ validate_completed_parts (MultipartUpload.completed_parts u)
               = (if bool_decide (ps = []) then Err MultipartError.NoCompletedParts else Ok tt)
  | Err _ => ~ NoDup (part_no <$> ps)
  end.
Proof.
  pose proof (record_parts_spec ps (MultipartUpload.new key id) (SSorted_nil _)) as H.
  simpl in H. rewrite app_nil_r in H. destruct (record_parts _ ps) as [u|]; [|done].
  destruct H as (A & P & _). split_and!; [|done|done|].
  - rewrite <- P. by apply ascending_nodup.
  - case_bool_decide as E; subst.
    + apply Permutation_nil_r in P. by rewrite P.
    + apply ascending_valid; [|done]. intros N. rewrite N in P. by apply Permutation_nil in P.
Qed.

(** Multipart options are accepted exactly within S3's bounds, and the
bound on buffered bytes they imply never overflows. *)
Theorem multipart_options_bounds (part_size concurrency : Z) :
  match MultipartOptions.new part_size concurrency with
  | Ok o => 5242880 <= part_size <= 5368709120 /\ 1 <= concurrency <= 64
            /\ MultipartOptions.part_size o = part_size
            /\ MultipartOptions.concurrency o = concurrency
            /\ MultipartOptions.maximum_buffered_bytes o = Some (part_size * concurrency)
            /\ part_size * concurrency <= 343597383680
  | Err _ => ~ (5242880 <= part_size <= 5368709120 /\ 1 <= concurrency <= 64)
  end.
Proof.
  unfold MultipartOptions.new, MultipartOptions.maximum_buffered_bytes, try_from, checked_mul.
  unfold MIN_PART_SIZE, MAX_PART_SIZE, MAX_CONCURRENCY, U64_MAX.
  destruct (_ && _) eqn:E1; simpl; [bools|apply andb_false_iff in E1 as [?|?]; bools; lia].
  destruct (_ && _) eqn:E2; simpl; [bools|apply andb_false_iff in E2 as [?|?]; bools; lia].
  rewrite (proj2 (Z.leb_le concurrency _)) by lia. simpl.
  assert (part_size * concurrency <= 343597383680) by nia.
  rewrite (proj2 (Z.leb_le (part_size * concurrency) _)) by lia. simpl.
  rewrite (proj2 (Z.leb_le (part_size * concurrency) _)) by lia. split_and!; (done || lia).
Qed.
