(* ===== verification/Stream.v ===== *)
(** Upload bodies ([src/stream/upload.rs], [snapshot.rs]): replay rules of a
prepared body, the length and digest checks of the transport body, and private
file snapshots. *)

From S2P Require Import Prelude Text Errors SigV4.
From stdpp Require Import options.
Local Open Scope Z_scope.

(** What polling a byte stream may give; the end of the list is [None]. An
error is known by the name of its type. *)
Inductive stream_item : Type := Chunk (bytes : string) | Fail (e : string) | Pend.

(** [Poll<Option<Result<A, S3Error>>>]. *)
Inductive poll (A : Type) : Type := Ready (r : option (outcome A)) | Pending.
Arguments Ready {A} r.
Arguments Pending {A}.

(** The bytes of a stream, whatever else it holds. *)
Fixpoint stream_bytes (s : list stream_item) : string :=
  match s with
  | [] => ""
  | Chunk b :: s => b +:+ stream_bytes s
  | _ :: s => stream_bytes s
  end.

Definition io_error : string := "std::io::error::Error".

Section stream.
Context `{Primitives}.

(** ** [TransportBody]; the hasher is the bytes it was fed *)

Record TransportBody : Type := {
  stream : list stream_item;
  remaining : Z;
  expected_sha256 : string;
  hasher : string;
  final_chunk : option string;
  finished : bool
}.

Definition TransportBody_new (stream : list stream_item) (length : Z) (expected_sha256 : string)
  : TransportBody :=
  {| stream := stream; remaining := length; expected_sha256 := expected_sha256; hasher := "";
     final_chunk := None; finished := false |}.

Definition TransportBody_empty : TransportBody := TransportBody_new [] 0 (sha256 "").

(** The state after the body ended, in an error or not. *)
Definition finish (b : TransportBody) (stream : list stream_item) (hasher : string) : TransportBody :=
  {| stream := stream; remaining := 0; expected_sha256 := expected_sha256 b; hasher := hasher;
     final_chunk := None; finished := true |}.

Definition upload_exceeded : S3Error.t := S3Error.integrity "upload exceeded its declared content length".
Definition digest_mismatch : S3Error.t :=
  S3Error.integrity "upload bytes did not match the signed payload digest".

(** The loop of [poll_frame], on the items left, the bytes hashed and the final
chunk held back. *)
Fixpoint poll_frame_loop (b : TransportBody) (s : list stream_item) (hashed : string)
    (final : option string) : poll string * TransportBody :=
  match final with
  | Some last =>
      match s with
      | Chunk c :: s =>
          if is_empty c then poll_frame_loop b s hashed final
          else (Ready (Some (Err upload_exceeded)), finish b s hashed)
      | Fail e :: s => (Ready (Some (Err (S3Error.transport e))), finish b s hashed)
      | [] =>
          if negb (String.eqb (sha256 hashed) (expected_sha256 b))
          then (Ready (Some (Err digest_mismatch)), finish b s hashed)
          else (Ready (Some (Ok last)), finish b s hashed)
      | Pend :: s =>
          (Pending, {| stream := s; remaining := remaining b; expected_sha256 := expected_sha256 b;
                       hasher := hashed; final_chunk := final; finished := false |})
      end
  | None =>
      match s with
      | Chunk c :: s =>
          if is_empty c then poll_frame_loop b s hashed None
          else
            match try_from U64_MAX (slen c) with
            | None =>
                (Ready (Some (Err (S3Error.integrity "upload chunk length does not fit in u64"))),
                 finish b s hashed)
            | Some chunk_length =>
                if remaining b <? chunk_length
                then (Ready (Some (Err upload_exceeded)), finish b s hashed)
                else
                  let hashed := hashed +:+ c in
                  if chunk_length =? remaining b then poll_frame_loop b s hashed (Some c)
                  else (Ready (Some (Ok c)),
                        {| stream := s; remaining := remaining b - chunk_length;
                           expected_sha256 := expected_sha256 b; hasher := hashed;
                           final_chunk := None; finished := false |})
            end
      | Fail e :: s => (Ready (Some (Err (S3Error.transport e))), finish b s hashed)
      | [] =>
          if negb (remaining b =? 0)
          then (Ready (Some (Err (S3Error.integrity
                  "upload ended before its declared content length"))), finish b s hashed)
          else if String.eqb (sha256 hashed) (expected_sha256 b)
          then (Ready None, finish b s hashed)
          else (Ready (Some (Err digest_mismatch)), finish b s hashed)
      | Pend :: s =>
          (Pending, {| stream := s; remaining := remaining b; expected_sha256 := expected_sha256 b;
                       hasher := hashed; final_chunk := None; finished := false |})
      end
  end.

Definition poll_frame (b : TransportBody) : poll string * TransportBody :=
  if finished b then (Ready None, b)
  else poll_frame_loop b (stream b) (hasher b) (final_chunk b).

Definition is_end_stream (b : TransportBody) : bool := finished b.
Definition size_hint (b : TransportBody) : Z := remaining b.

(** The transport: poll until the body ends, at most [n] times. The bytes sent,
and how the body ended if it did. *)
Fixpoint send_body (n : nat) (b : TransportBody) : string * option (outcome unit) * TransportBody :=
  match n with
  | O => ("", None, b)
  | S n =>
      match poll_frame b with
      | (Ready None, b) => ("", Some (Ok tt), b)
      | (Ready (Some (Err e)), b) => ("", Some (Err e), b)
      | (Ready (Some (Ok c)), b) =>
          match send_body n b with (out, v, b) => (c +:+ out, v, b) end
      | (Pending, b) => send_body n b
      end
  end.
(** ** [FileSnapshot]

What the file system answers while a snapshot is taken: opening the source, its
kind, the reads (an empty one ends the file), the writes to the private copy,
its flush, the permission change and the length of the copy afterwards. *)
Record SnapshotIo : Type := {
  io_open : result string unit;
  io_is_file : result string bool;
  io_temp : result string unit;
  io_reads : list (result string string);
  io_write : string -> result string unit;
  io_flush : result string unit;
  io_read_only : result string unit;
  io_length : string -> result string Z
}.

(** [content] is what the temporary file holds; [readable] whether it opens. *)
Record FileSnapshot : Type := {
  content : string;
  readable : result string unit;
  snapshot_length : Z;
  snapshot_sha256 : option string
}.

Definition io {A} (r : result string A) : outcome A := map_err S3Error.transport r.

(** The copy loop: the length, the bytes hashed and the bytes written. *)
Fixpoint copy_loop (write : string -> result string unit) (reads : list (result string string))
    (length : Z) (copied : string) : outcome (Z * string) :=
  match reads with
  | [] => Ok (length, copied)
  | r :: reads =>
      let? buffer := io r in
      if slen buffer =? 0 then Ok (length, copied)
      else
        let? read := ok_or (try_from U64_MAX (slen buffer))
          (S3Error.integrity "upload file chunk length does not fit in u64") in
        let? length := ok_or (checked_add U64_MAX length read)
          (S3Error.integrity "upload file length overflow") in
        let? _ := io (write buffer) in
        copy_loop write reads length (copied +:+ buffer)
  end.

Definition FileSnapshot_create (fs : SnapshotIo) (hash : bool) : outcome FileSnapshot :=
  let? _ := io (io_open fs) in
  let? is_file := io (io_is_file fs) in
  if negb is_file
  then Err (S3Error.configuration "upload path must identify a regular file")
  else
    let? _ := io (io_temp fs) in
    let? (length, copied) := copy_loop (io_write fs) (io_reads fs) 0 "" in
    let? _ := io (io_flush fs) in
    let? _ := io (io_read_only fs) in
    let? actual := io (io_length fs copied) in
    if negb (actual =? length)
    then Err (S3Error.integrity "upload snapshot length changed while preparing")
    else Ok {| content := copied; readable := Ok tt; snapshot_length := length;
               snapshot_sha256 := if hash then Some (sha256 copied) else None |}.

(** [read_range]: [read_exact] fails past the end of the file. *)
Definition read_range (s : FileSnapshot) (offset length : Z) : outcome string :=
  let? _ := io (readable s) in
  let bytes := str_take length (str_drop offset (content s)) in
  if slen bytes =? length then Ok bytes else Err (S3Error.transport io_error).

(** ** [ByteStream] and [PreparedBody] *)

Inductive UploadSource : Type :=
| SourceBytes (bytes : string)
| SourceFile (fs : SnapshotIo)
| SourceStream (stream : list stream_item) (length : Z) (sha256 : string).

Inductive PreparedSource : Type :=
| PreparedBytes (bytes : string)
| PreparedSnapshot (s : FileSnapshot)
| OneShot (stream : option (list stream_item)).

Record PreparedBody : Type := {
  source : PreparedSource;
  body_length : Z;
  body_sha256 : string
}.

(** Hashing a megabyte at a time. *)
Definition cooperative_sha256 (bytes : string) : string :=
  sha256 (fold_left String.append (chunks (1024 * 1024) bytes) "").

Definition prepare_file (fs : SnapshotIo) : outcome PreparedBody :=
  let? snapshot := FileSnapshot_create fs true in
  let? digest := ok_or (snapshot_sha256 snapshot)
    (S3Error.integrity "upload snapshot digest was not calculated") in
  Ok {| source := PreparedSnapshot snapshot; body_length := snapshot_length snapshot;
        body_sha256 := digest |}.

Definition prepare (s : UploadSource) : outcome PreparedBody :=
  match s with
  | SourceBytes bytes =>
      let? length := ok_or (try_from U64_MAX (slen bytes))
        (S3Error.configuration "in-memory body length does not fit in u64") in
      Ok {| source := PreparedBytes bytes; body_length := length;
            body_sha256 := cooperative_sha256 bytes |}
  | SourceFile fs => prepare_file fs
  | SourceStream stream length sha256 =>
      Ok {| source := OneShot (Some stream); body_length := length; body_sha256 := sha256 |}
  end.

Definition is_replayable (b : PreparedBody) : bool :=
  match source b with OneShot _ => false | _ => true end.

Definition sha256_hex (b : PreparedBody) : string := hex_encode (body_sha256 b).

(** A reader of at most [body_length] bytes in 64 KiB pieces. *)
Definition snapshot_stream (b : PreparedBody) (s : FileSnapshot) : list stream_item :=
  Chunk <$> chunks (64 * 1024) (str_take (body_length b) (content s)).

(** The body of one attempt, and the prepared body left behind: a one-shot
stream is taken out. *)
Definition request_body (b : PreparedBody) : outcome TransportBody * PreparedBody :=
  match source b with
  | PreparedBytes bytes =>
      (Ok (TransportBody_new [Chunk bytes] (body_length b) (body_sha256 b)), b)
  | PreparedSnapshot s =>
      (let? _ := io (readable s) in
       Ok (TransportBody_new (snapshot_stream b s) (body_length b) (body_sha256 b)), b)
  | OneShot (Some stream) =>
      (Ok (TransportBody_new stream (body_length b) (body_sha256 b)),
       {| source := OneShot None; body_length := body_length b; body_sha256 := body_sha256 b |})
  | OneShot None =>
      (Err (S3Error.unsupported "a non-replayable upload body cannot be sent twice"), b)
  end.
End stream.

(** ** Lemmas: the transport body *)

Section body_lemmas.
Set Default Proof Using "Type*".
Context `{Primitives}.
Variables (data exp : string) (L : Z).

(** A body in progress that has sent [out]: the bytes hashed are those sent and
those held back, and [remaining] counts the bytes not sent. *)
Definition in_progress (out : string) (b : TransportBody) (s : list stream_item)
    (hashed : string) (final : option string) : Prop :=
  expected_sha256 b = exp /\ remaining b = L - slen out /\
  match final with
  | None => hashed = out /\ 0 <= remaining b /\ data = out +:+ stream_bytes s
            /\ (remaining b = 0 -> out = "")
  | Some last => hashed = out +:+ last /\ is_empty last = false /\ remaining b = slen last
                 /\ data = out +:+ last +:+ stream_bytes s
  end.

Definition body_state (out : string) (b : TransportBody) : Prop :=
  finished b = true \/ in_progress out b (stream b) (hasher b) (final_chunk b).

Lemma poll_frame_loop_spec b s hashed final out r b' :
  in_progress out b s hashed final ->
  poll_frame_loop b s hashed final = (r, b') ->
  match r with
  | Ready (Some (Ok c)) =>
      is_empty c = false /\ (exists rest, data = out +:+ c +:+ rest)
      /\ (slen (out +:+ c) < L /\ finished b' = false /\ body_state (out +:+ c) b'
          \/ slen (out +:+ c) = L /\ finished b' = true /\ sha256 (out +:+ c) = exp)
  | Ready (Some (Err _)) => finished b' = true
  | Ready None => finished b' = true /\ out = "" /\ L = 0 /\ sha256 out = exp
  | Pending => finished b' = false /\ body_state out b'
  end.
Proof.
  revert hashed final. induction s as [|[c|e|] s IH]; intros hashed final (He & Hr & HI); simpl.
  - destruct final as [last|]; [destruct HI as (-> & Hl & Hrl & HD)|destruct HI as (-> & Hn & HD & H0)].
    + destruct (String.eqb _ _) eqn:E; simpl; intros [= <- <-]; bools; [|done].
      split_and!; [done| exists ""; by rewrite HD |]. right. rewrite slen_app.
      split_and!; [lia|done|congruence].
    + destruct (remaining b =? 0) eqn:Z0; simpl; bools; [|by intros [= <- <-]].
      destruct (String.eqb _ _) eqn:E; simpl; intros [= <- <-]; bools; [|done].
      rewrite H0 in * by done. change (slen "") with 0 in Hr. split_and!; [done..|lia|congruence].
  - destruct final as [last|]; [destruct HI as (-> & Hl & Hrl & HD)|destruct HI as (-> & Hn & HD & H0)].
    + destruct (is_empty c) eqn:Ec; [|by intros [= <- <-]].
      intros Hp. eapply IH; [|exact Hp]. destruct c; [|done]. split_and!; try done.
    + destruct (is_empty c) eqn:Ec.
      { intros Hp. eapply IH; [|exact Hp]. destruct c; [|done]. split_and!; try done. }
      unfold try_from. destruct (slen c <=? U64_MAX); [|by intros [= <- <-]].
      destruct (remaining b <? slen c) eqn:Lt; bools; [by intros [= <- <-]|].
      destruct (slen c =? remaining b) eqn:Eq; bools.
      { intros Hp. eapply IH; [|exact Hp]. simpl in HD. split_and!; try done. }
      intros [= <- <-]. simpl in HD. split_and!; [done|by eauto|]. left.
      rewrite is_empty_slen in Ec. bools. pose proof (slen_nonneg c).
      split_and!; [rewrite slen_app; lia|done|]. right.
      unfold in_progress. simpl. rewrite slen_app.
      split_and!; try done; [lia|lia| by rewrite app_assoc_str |lia].
  - destruct final; by intros [= <- <-].
  - destruct final as [last|]; intros [= <- <-]; (split; [done|]); right;
      (split_and!; [done..|]); exact HI.
Qed.

Lemma poll_frame_spec b out r b' :
  finished b = false -> body_state out b -> poll_frame b = (r, b') ->
  match r with
  | Ready (Some (Ok c)) =>
      is_empty c = false /\ (exists rest, data = out +:+ c +:+ rest)
      /\ (slen (out +:+ c) < L /\ finished b' = false /\ body_state (out +:+ c) b'
          \/ slen (out +:+ c) = L /\ finished b' = true /\ sha256 (out +:+ c) = exp)
  | Ready (Some (Err _)) => finished b' = true
  | Ready None => finished b' = true /\ out = "" /\ L = 0 /\ sha256 out = exp
  | Pending => finished b' = false /\ body_state out b'
  end.
Proof.
  intros Hf [Hs|Hs]; [congruence|]. unfold poll_frame. rewrite Hf. by apply poll_frame_loop_spec.
Qed.

Lemma send_finished n b : finished b = true -> (send_body n b).1.1 = "".
Proof. intros Hf. destruct n; [done|]. simpl. unfold poll_frame. by rewrite Hf. Qed.

Lemma send_body_spec n b out0 out v b' :
  (exists rest, data = out0 +:+ rest) ->
  finished b = false -> body_state out0 b -> slen out0 < L \/ out0 = "" /\ L = 0 ->
  send_body n b = (out, v, b') ->
  slen (out0 +:+ out) <= L
  /\ (exists rest, data = out0 +:+ out +:+ rest)
  /\ (slen (out0 +:+ out) = L -> 0 < L -> sha256 (out0 +:+ out) = exp)
  /\ (v = Some (Ok tt) -> slen (out0 +:+ out) = L /\ sha256 (out0 +:+ out) = exp).
Proof.
  revert b out0 out v b'. induction n as [|n IH]; intros b out0 out v b' [rest0 HD] Hf Hs HL Hsend.
  { simpl in Hsend. injection Hsend as <- <- <-. rewrite app_nil_r_str.
    split_and!; [destruct HL as [?|[-> ->]]; [lia|done]|by exists rest0| |done].
    intros ? ?. destruct HL as [?|[_ ->]]; lia. }
  simpl in Hsend. destruct (poll_frame b) as [r b1] eqn:P.
  pose proof (poll_frame_spec _ _ _ _ Hf Hs P) as Sp. destruct r as [[[c|e]|]|].
  - destruct (send_body n b1) as [[out1 v1] b2] eqn:E. injection Hsend as <- <- <-.
    destruct Sp as (Hc & [rest Hd] & [(Hlt & Hf1 & Hs1)|(Heq & Hf1 & Hx)]).
    + assert (exists r, data = (out0 +:+ c) +:+ r) as HD1
        by (exists rest; by rewrite app_assoc_str).
      pose proof (IH b1 (out0 +:+ c) out1 v1 b2 HD1 Hf1 Hs1 (or_introl Hlt) E) as R.
      rewrite app_assoc_str in R. setoid_rewrite app_assoc_str in R. setoid_rewrite app_assoc_str. exact R.
    + pose proof (send_finished n _ Hf1) as Ho. rewrite E in Ho. simpl in Ho. subst out1.
      rewrite app_nil_r_str. split_and!; [lia|by exists rest|done|done].
  - injection Hsend as <- <- <-. rewrite app_nil_r_str.
    split_and!; [destruct HL as [?|[-> ->]]; [lia|done]|by exists rest0| |done].
    intros ? ?. destruct HL as [?|[_ ->]]; lia.
  - injection Hsend as <- <- <-. destruct Sp as (_ & -> & -> & Hx). simpl.
    split_and!; [done|by exists rest0|lia|done].
  - destruct Sp as [Hf1 Hs1]. by eapply IH; eauto.
Qed.
End body_lemmas.


Section delivery.
Set Default Proof Using "Type*".
Context `{Primitives}.

Definition no_failure (s : list stream_item) : Prop :=
  Forall (fun i => forall e, i <> Fail e) s.

Lemma no_failure_cons i s : no_failure (i :: s) -> no_failure s /\ forall e, i <> Fail e.
Proof. intros F. inversion F; subst. done. Qed.

(** A body that still has to send [stream_bytes] correctly does so, and then
ends, within two polls more than the items its stream has left. *)
Definition deliverable (b : TransportBody) (s : list stream_item) (hashed : string)
    (final : option string) : Prop :=
  no_failure s /\ finished b = false
  /\ sha256 (hashed +:+ stream_bytes s) = expected_sha256 b
  /\ match final with
     | None => remaining b = slen (stream_bytes s) /\ remaining b <= U64_MAX
     | Some _ => stream_bytes s = ""
     end.

Definition pending_bytes (s : list stream_item) (final : option string) : string :=
  default "" final +:+ stream_bytes s.

Lemma poll_frame_loop_delivers b s hashed final r b' :
  deliverable b s hashed final -> poll_frame_loop b s hashed final = (r, b') ->
  match r with
  | Ready (Some (Ok c)) =>
      finished b' = true /\ pending_bytes s final = c
      \/ deliverable b' (stream b') (hasher b') (final_chunk b')
         /\ (List.length (stream b') < List.length s)%nat
         /\ pending_bytes s final = c +:+ pending_bytes (stream b') (final_chunk b')
  | Ready (Some (Err _)) => False
  | Ready None => finished b' = true /\ pending_bytes s final = ""
  | Pending =>
      deliverable b' (stream b') (hasher b') (final_chunk b')
      /\ (List.length (stream b') < List.length s)%nat
      /\ pending_bytes s final = pending_bytes (stream b') (final_chunk b')
  end.
Proof.
  revert hashed final. induction s as [|i s IH]; intros hashed final (Hn & Hf & Hd & HI); simpl.
  - simpl in Hd. rewrite app_nil_r_str in Hd. destruct final as [last|].
    + rewrite Hd, String.eqb_refl. intros [= <- <-]. left. split; [done|]. apply app_nil_r_str.
    + destruct HI as [-> _]. simpl. rewrite Hd, String.eqb_refl. by intros [= <- <-].
  - apply no_failure_cons in Hn as [Hn Hi]. destruct i as [c|e|].
    + simpl in Hd, HI. destruct final as [last|].
      * destruct c; [|done]. simpl. intros Hp. by eapply IH in Hp; [destruct r as [[[|]|]|]; naive_solver lia|].
      * destruct (is_empty c) eqn:Ec.
        { destruct c; [|done]. intros Hp. eapply IH in Hp; [|done].
          destruct r as [[[|]|]|]; naive_solver lia. }
        destruct HI as [Hr Hm]. rewrite slen_app in Hr. pose proof (slen_nonneg (stream_bytes s)).
        unfold try_from. rewrite (proj2 (Z.leb_le (slen c) _)) by lia.
        rewrite (proj2 (Z.ltb_ge (remaining b) _)) by lia.
        destruct (slen c =? remaining b) eqn:Eq; bools.
        -- assert (stream_bytes s = "") as E0 by (apply slen_zero; lia). intros Hp.
           eapply IH in Hp; [|split_and!; try done; by rewrite app_assoc_str].
           unfold pending_bytes in *. simpl in *. rewrite E0, app_nil_r_str in *.
           destruct r as [[[|]|]|]; naive_solver lia.
        -- clear IH. intros [= <- <-]. right. pose proof (slen_nonneg c). unfold deliverable, pending_bytes. simpl.
           split_and!; try done; try (by rewrite app_assoc_str); try lia.
    + by destruct (Hi e).
    + simpl in Hd, HI. destruct final as [last|]; intros [= <- <-]; (split_and!; try done); simpl; lia.
Qed.

Lemma send_body_delivers n b :
  deliverable b (stream b) (hasher b) (final_chunk b) -> (List.length (stream b) + 1 < n)%nat ->
  (send_body n b).1 = (pending_bytes (stream b) (final_chunk b), Some (Ok tt)).
Proof.
  revert b. induction n as [|n IH]; intros b Hd Hn; [lia|]. simpl.
  destruct (poll_frame b) as [r b'] eqn:P. unfold poll_frame in P.
  assert (finished b = false) as Hf by apply Hd. rewrite Hf in P.
  pose proof (poll_frame_loop_delivers _ _ _ _ _ _ Hd P) as Sp. destruct r as [[[c|e]|]|].
  - destruct Sp as [[Hf' ->]|(Hd' & Hl & E)].
    + destruct n as [|n]; [lia|]. simpl. unfold poll_frame. rewrite Hf'. simpl.
      by rewrite app_nil_r_str.
    + specialize (IH b' Hd' ltac:(lia)). destruct (send_body n b') as [[out v] b2].
      simpl in *. injection IH as -> ->. by rewrite E.
  - done.
  - destruct Sp as [_ ->]. done.
  - destruct Sp as (Hd' & Hl & E). rewrite E. apply IH; [done|lia].
Qed.
End delivery.

(** ** Lemmas: prepared bodies *)

Section prepared_lemmas.
Set Default Proof Using "Type*".
Context `{Primitives}.

Lemma cooperative_sha256_eq bytes : cooperative_sha256 bytes = sha256 bytes.
Proof. unfold cooperative_sha256. by rewrite fold_left_append, chunks_concat. Qed.

Lemma stream_bytes_chunks l : stream_bytes (Chunk <$> l) = str_concat l.
Proof. induction l as [|s l IH]; [done|]. rewrite fmap_cons. simpl. by rewrite IH. Qed.

Lemma no_failure_chunks l : no_failure (Chunk <$> l).
Proof. apply Forall_fmap, Forall_true. done. Qed.

Lemma copy_loop_spec w reads n copied n' c :
  n = slen copied -> copy_loop w reads n copied = Ok (n', c) ->
  n' = slen c /\ (n <= U64_MAX -> n' <= U64_MAX) /\ exists more, c = copied +:+ more.
Proof.
  revert n copied. induction reads as [|r reads IH]; intros n copied Hn Hc; simpl in Hc.
  { inv_ok. split_and!; [done..|]. exists "". by rewrite app_nil_r_str. }
  unfold io in Hc. destruct r as [buf|e]; simpl in Hc; [|done].
  destruct (slen buf =? 0) eqn:E.
  { inv_ok. split_and!; [done..|]. exists "". by rewrite app_nil_r_str. }
  unfold try_from, checked_add, ok_or in Hc. destruct (slen buf <=? U64_MAX); [|done].
  destruct (n + slen buf <=? U64_MAX) eqn:B; bools; [|done].
  destruct (w buf) as [[]|e]; simpl in Hc; [|done].
  apply IH in Hc as (-> & Hm & more & ->); [|rewrite slen_app; lia].
  split_and!; [done|auto|]. exists (buf +:+ more). by rewrite app_assoc_str.
Qed.

Lemma snapshot_spec fs hash s :
  FileSnapshot_create fs hash = Ok s ->
  snapshot_length s = slen (content s) /\ snapshot_length s <= U64_MAX /\ readable s = Ok tt
  /\ snapshot_sha256 s = (if hash then Some (sha256 (content s)) else None).
Proof.
  unfold FileSnapshot_create. intros Hs. steps_in Hs; simpl.
  all: match goal with E : copy_loop _ _ 0 "" = Ok _ |- _ =>
    apply copy_loop_spec in E as (-> & Hm & _); [|done] end.
  all: unfold U64_MAX in *; split_and!; try done; lia.
Qed.

(** Every prepared body that is not a caller's stream delivers its own bytes. *)
Lemma prepared_deliverable s b :
  prepare s = Ok b -> is_replayable b = true ->
  exists t bytes, request_body b = (Ok t, b) /\ body_length b = slen bytes
    /\ body_sha256 b = sha256 bytes
    /\ deliverable t (stream t) (hasher t) (final_chunk t)
    /\ pending_bytes (stream t) (final_chunk t) = bytes.
Proof.
  destruct s as [bytes|fs|st n d]; simpl; intros Hp Hr.
  - unfold ok_or, try_from in Hp. destruct (slen bytes <=? U64_MAX) eqn:L; bools; [|done]. inv_ok.
    eexists _, bytes. split; [done|]. simpl. rewrite cooperative_sha256_eq.
    unfold deliverable, pending_bytes. simpl. rewrite !app_nil_r_str.
    split_and!; try done. by repeat constructor.
  - unfold prepare_file in Hp. destruct (FileSnapshot_create fs true) as [sn|e] eqn:C; [|done].
    apply snapshot_spec in C as (Hl & Hm & Ho & Hd). rewrite Hd in Hp. simpl in Hp. inv_ok.
    unfold request_body, io. simpl. rewrite Ho. simpl. eexists _, (content sn). split; [done|].
    unfold deliverable, pending_bytes, snapshot_stream. simpl.
    rewrite Hl, str_take_all, stream_bytes_chunks, chunks_concat by lia.
    split_and!; try done; [apply no_failure_chunks|lia].
  - by inv_ok.
Qed.
End prepared_lemmas.

(** ** Properties *)

(** C8. Whatever a caller's stream yields, the body never sends more than its
declared length, and it sends the last declared byte, or ends cleanly, only when
the bytes sent are a prefix of the stream with the signed digest. *)
Theorem transport_body_integrity `{Primitives} (items : list stream_item) (length : Z)
  (expected out : string) (n : nat) (v : option (outcome unit)) (b : TransportBody)
  (Hlen : 0 <= length)
  (Hsend : send_body n (TransportBody_new items length expected) = (out, v, b)) :
  slen out <= length
  /\ (exists rest, stream_bytes items = out +:+ rest)
  /\ (slen out = length -> 0 < length -> sha256 out = expected)
  /\ (v = Some (Ok tt) -> slen out = length /\ sha256 out = expected).
Proof.
  eapply (send_body_spec (stream_bytes items) expected length n
    (TransportBody_new items length expected) "" out v b); try done.
  - by eexists.
  - right. unfold in_progress. simpl. change (slen "") with 0. split_and!; (done || lia).
  - change (slen "") with 0. destruct (Z.eq_dec length 0); [by right|left; lia].
Qed.

Lemma transport_body_integrity_witness :
  exists b, send_body (H := sample_primitives) 9
      (TransportBody_new [Chunk "ab"; Pend; Chunk ""; Chunk "cd"] 3 "?")
    = ("ab", Some (Err upload_exceeded), b) /\ slen "ab" <= 3.
Proof.
  eexists. split; [vm_compute; reflexivity|].
  eapply (transport_body_integrity (H := sample_primitives)
    [Chunk "ab"; Pend; Chunk ""; Chunk "cd"] 3 "?" "ab" 9); [lia|vm_compute; reflexivity].
Defined.

(** C32. A body from memory or from a snapshot can be sent again and again:
each time, in a bounded number of polls, exactly the prepared bytes are sent and
the body ends cleanly. *)
Theorem prepared_body_replays `{Primitives} (s : UploadSource) (b : PreparedBody)
  (Hprep : prepare s = Ok b) (Hreplay : is_replayable b = true) :
  exists t bytes, request_body b = (Ok t, b)
    /\ body_length b = slen bytes /\ body_sha256 b = sha256 bytes
    /\ forall n, (List.length (stream t) + 1 < n)%nat ->
         (send_body n t).1 = (bytes, Some (Ok tt)).
Proof.
  destruct (prepared_deliverable s b Hprep Hreplay) as (t & bytes & Hb & Hl & Hd & D & E).
  exists t, bytes. split_and!; [done..|]. intros n Hn. rewrite <- E. by apply send_body_delivers.
Qed.

Lemma prepared_body_replays_witness :
  exists b t bytes, prepare (H := sample_primitives) (SourceBytes "hello") = Ok b
    /\ request_body b = (Ok t, b) /\ body_length b = slen bytes.
Proof.
  eexists. edestruct (prepared_body_replays (H := sample_primitives) (SourceBytes "hello"))
    as (t & bytes & Hb & Hl & _); [vm_compute; reflexivity | reflexivity |].
  exists t, bytes. split; [vm_compute; reflexivity|]. split; [exact Hb|exact Hl].
Defined.
