(* ===== verification/Download.v ===== *)
(** Download bodies ([src/stream/download.rs]): the response stream, its length,
digest and timeout checks, and copying it into a writer. *)

From S2P Require Import Prelude Text Errors SigV4 Stream.
From stdpp Require Import options.
Local Open Scope Z_scope.

(** Items of the response: bytes, an error, or pending. *)
Inductive download_item : Type := Data (bytes : string) | Broken (e : S3Error.t) | Waiting.

Fixpoint download_bytes (s : list download_item) : string :=
  match s with
  | [] => ""
  | Data b :: s => b +:+ download_bytes s
  | _ :: s => download_bytes s
  end.

Section download.
Context `{Primitives}.

(** Timers are the instants they fire at; the hasher is the bytes it was fed. *)
Record ResponseStream : Type := {
  inner : list download_item;
  expected_length : option Z;
  expected_digest : option string;
  sha256_state : option string;
  received : Z;
  idle_timeout : Z;
  idle : Z;
  deadline : option Z;
  ended : bool
}.

Definition ResponseStream_new (now : Z) (stream : list download_item) (length : option Z)
    (idle_for : Z) : ResponseStream :=
  {| inner := stream; expected_length := length; expected_digest := None;
     sha256_state := None; received := 0; idle_timeout := idle_for;
     idle := now + idle_for; deadline := None; ended := false |}.

Definition with_deadline (now : Z) (stream : list download_item) (length : option Z)
    (sha256 : option string) (idle_for at_ : Z) : ResponseStream :=
  let response := ResponseStream_new now stream length idle_for in
  {| inner := inner response; expected_length := expected_length response;
     expected_digest := sha256;
     sha256_state := match sha256 with Some _ => Some "" | None => None end;
     received := received response; idle_timeout := idle_timeout response;
     idle := idle response; deadline := Some at_; ended := ended response |}.

(** The stream with its inner items, received count and hasher replaced. *)
Definition update (r : ResponseStream) (items : list download_item) (count : Z)
    (state : option string) (idle_at : Z) (done_ : bool) : ResponseStream :=
  {| inner := items; expected_length := expected_length r; expected_digest := expected_digest r;
     sha256_state := state; received := count; idle_timeout := idle_timeout r;
     idle := idle_at; deadline := deadline r; ended := done_ |}.

Definition end_with (r : ResponseStream) (items : list download_item) (count : Z)
    (result : option (outcome string)) : poll string * ResponseStream :=
  (Ready result, update r items count (sha256_state r) (idle r) true).

(** One poll: [now] is when the timers are polled, [later] when the idle timer
is reset. [None] is the panic of the [expect]. *)
Definition poll_next (now later : Z) (r : ResponseStream) : option (poll string * ResponseStream) :=
  if ended r then Some (Ready None, r)
  else if match deadline r with Some d => d <=? now | None => false end
  then Some (end_with r (inner r) (received r) (Some (Err (S3Error.timeout TimeoutPhase.Operation
         "operation deadline expired while streaming the response body"))))
  else if idle r <=? now
  then Some (end_with r (inner r) (received r) (Some (Err (S3Error.timeout TimeoutPhase.ResponseBody
         "download body was idle past its configured timeout"))))
  else
  match inner r with
  | Data chunk :: items =>
      if is_empty chunk
      then Some (Pending, update r items (received r) (sha256_state r) (idle r) false)
      else
        let r := update r items (received r) (sha256_state r) (later + idle_timeout r) false in
        match try_from U64_MAX (slen chunk) with
        | None => Some (end_with r items (received r) (Some (Err (S3Error.integrity
                    "download chunk length does not fit in u64"))))
        | Some chunk_length =>
            match checked_add U64_MAX (received r) chunk_length with
            | None => Some (end_with r items (received r)
                        (Some (Err (S3Error.integrity "download length overflow"))))
            | Some count =>
                if match expected_length r with Some e => e <? count | None => false end
                then Some (end_with r items count (Some (Err (S3Error.integrity
                       "download exceeded the declared content length"))))
                else Some (Ready (Some (Ok chunk)),
                       update r items count
                         (match sha256_state r with Some h => Some (h +:+ chunk) | None => None end)
                         (idle r) false)
            end
        end
  | Broken e :: items => Some (end_with r items (received r) (Some (Err e)))
  | [] =>
      if match expected_length r with Some e => negb (received r =? e) | None => false end
      then Some (end_with r [] (received r) (Some (Err (S3Error.integrity
             "download ended before the declared content length"))))
      else
        match expected_digest r with
        | Some expected =>
            actual ← sha256_state r;
            Some (Ready (if String.eqb (sha256 actual) expected then None
                         else Some (Err (S3Error.integrity
                           "download bytes did not match the returned SHA-256 checksum"))),
                  update r [] (received r) None (idle r) true)
        | None => Some (end_with r [] (received r) None)
        end
  | Waiting :: items =>
      Some (Pending, update r items (received r) (sha256_state r) (idle r) false)
  end.

(** [write_to]: the clock readings of each poll, and the answers of the writer
to each [write_all] and to [flush]. The bytes handed to the writer and the
result; [None] is a panic or more polls than readings. *)
Fixpoint write_loop (clock : list (Z * Z)) (write_all : string -> result string unit)
    (flush : result string unit) (r : ResponseStream) (written : Z) (out : string)
  : option (string * outcome Z) :=
  match clock with
  | [] => None
  | (now, later) :: clock =>
      polled ← poll_next now later r;
      match polled with
      | (Ready None, r) =>
          Some (out, let? _ := map_err S3Error.transport flush in Ok written)
      | (Ready (Some (Err e)), r) => Some (out, Err e)
      | (Ready (Some (Ok chunk)), r) =>
          match map_err S3Error.transport (write_all chunk) with
          | Err e => Some (out, Err e)
          | Ok _ =>
              let out := out +:+ chunk in
              match try_from U64_MAX (slen chunk) with
              | None => Some (out, Err (S3Error.integrity
                          "download chunk length does not fit in u64"))
              | Some n =>
                  match checked_add U64_MAX written n with
                  | None => Some (out, Err (S3Error.integrity "download length overflow"))
                  | Some written => write_loop clock write_all flush r written out
                  end
              end
          end
      | (Pending, r) => write_loop clock write_all flush r written out
      end
  end.

Definition write_to (clock : list (Z * Z)) (write_all : string -> result string unit)
    (flush : result string unit) (r : ResponseStream) : option (string * outcome Z) :=
  write_loop clock write_all flush r 0 "".
End download.

(** ** Lemmas *)

Section lemmas.
Set Default Proof Using "Type*".
Context `{Primitives}.
Variables (data : string) (length : option Z) (digest : option string).

(** A stream in progress that has yielded [out]. *)
Record yielding (out : string) (r : ResponseStream) : Prop := {
  y_length : expected_length r = length;
  y_digest : expected_digest r = digest;
  y_state : sha256_state r = match digest with Some _ => Some out | None => None end;
  y_received : received r = slen out;
  y_bound : match length with Some e => slen out <= e | None => True end;
  y_data : data = out +:+ download_bytes (inner r)
}.

(** A poll that ends the stream. *)
Ltac ended_here := eexists _, _; split; [reflexivity|]; reflexivity.

Lemma poll_next_spec now later out r :
  ended r = false -> yielding out r ->
  exists p r', poll_next now later r = Some (p, r') /\
  match p with
  | Ready (Some (Ok c)) => ended r' = false /\ yielding (out +:+ c) r'
  | Ready (Some (Err _)) => ended r' = true
  | Ready None =>
      ended r' = true /\ out = data
      /\ match length with Some e => slen out = e | None => True end
      /\ match digest with Some d => sha256 out = d | None => True end
  | Pending => ended r' = false /\ yielding out r'
  end.
Proof.
  intros He [YL YD YS YR YB YT]. unfold poll_next. rewrite He.
  if_case D; [ended_here|].
  destruct (idle r <=? now); [ended_here|].
  destruct (inner r) as [|[c|e|] items] eqn:EI; simpl in YT.
  - rewrite YL, YD, YR, YS, app_nil_r_str in *.
    if_case EL; [ended_here|].
    assert (match length with Some e => slen out = e | None => True end)
      by (destruct length; [bools; done|done]).
    destruct digest as [d|]; simpl; eexists _, _; (split; [done|]); [|done].
    destruct (String.eqb _ _) eqn:ED; bools; done.
  - destruct (is_empty c) eqn:Ec.
    { destruct c; [|done]. eexists _, _. split; [done|]. split; [done|]. by split. }
    unfold try_from, checked_add. destruct (slen c <=? U64_MAX); [|by eexists _, _]. simpl.
    destruct (received r + slen c <=? U64_MAX); [|by eexists _, _]. rewrite YL.
    if_case EL; [ended_here|].
    eexists _, _. split; [done|]. split; [done|]. split; simpl; try done.
    + rewrite YS. by destruct digest.
    + rewrite slen_app. lia.
    + rewrite slen_app. destruct length; [bools; lia|done].
    + by rewrite app_assoc_str.
  - ended_here.
  - eexists _, _. split; [done|]. split; [done|]. by split.
Qed.

Lemma write_loop_spec clock wa fl r out out' res :
  ended r = false -> yielding out r ->
  write_loop clock wa fl r (slen out) out = Some (out', res) ->
  match length with Some e => slen out' <= e | None => True end
  /\ (exists rest, data = out' +:+ rest)
  /\ forall n, res = Ok n -> n = slen out' /\ out' = data
       /\ match length with Some e => slen out' = e | None => True end
       /\ match digest with Some d => sha256 out' = d | None => True end.
Proof.
  revert r out. induction clock as [|[now later] clock IH]; intros r out He Y Hw; [done|].
  simpl in Hw. destruct (poll_next_spec now later out r He Y) as (p & r' & E & Sp).
  rewrite E in Hw. simpl in Hw. destruct p as [[[c|e]|]|].
  - destruct Sp as [He' Y'].
    assert (match length with Some e => slen (out +:+ c) <= e | None => True end
      /\ exists rest, data = (out +:+ c) +:+ rest) as [B X].
    { destruct Y' as [_ _ _ _ B T]. split; [done|]. by eexists. }
    assert (match length with Some e => slen out <= e | None => True end
      /\ exists rest, data = out +:+ rest) as [B0 X0] by (destruct Y; split; [done|by eexists]).
    destruct (wa c) as [[]|]; simpl in Hw; [|by inv_ok].
    unfold try_from, checked_add in Hw. destruct (slen c <=? U64_MAX); [|by inv_ok].
    destruct (slen out + slen c <=? U64_MAX); [|by inv_ok].
    rewrite <- slen_app in Hw. by eapply IH.
  - inv_ok. destruct Y. split_and!; [done|by eexists|done].
  - inv_ok. destruct Y. destruct Sp as (_ & ? & ? & ?). split_and!; [done|by eexists|].
    intros n Hn. destruct fl; simpl in Hn; inv_ok. done.
  - destruct Sp as [He' Y']. by eapply IH.
Qed.
End lemmas.

(** ** Properties *)

(** A download that is written out completely is the whole body: the count
is its length, the length is the declared one and the digest the one returned
by S3; never more than the declared length is written, whatever happens. *)
Theorem write_to_integrity `{Primitives} (start : Z) (items : list download_item)
  (length : option Z) (digest : option string) (idle_for at_ : Z) (clock : list (Z * Z))
  (write_all : string -> result string unit) (flush : result string unit)
  (out : string) (res : outcome Z)
  (Hlen : match length with Some e => 0 <= e | None => True end)
  (Hw : write_to clock write_all flush (with_deadline start items length digest idle_for at_)
        = Some (out, res)) :
  match length with Some e => slen out <= e | None => True end
  /\ (exists rest, download_bytes items = out +:+ rest)
  /\ forall n, res = Ok n -> n = slen out /\ out = download_bytes items
       /\ match length with Some e => slen out = e | None => True end
       /\ match digest with Some d => sha256 out = d | None => True end.
Proof.
  eapply (write_loop_spec (download_bytes items) length digest clock write_all flush
    (with_deadline start items length digest idle_for at_) ""); [done| |exact Hw].
  by split.
Qed.

Lemma write_to_integrity_witness :
  write_to (H := sample_primitives) [(0, 0); (1, 1); (2, 2); (3, 3)] (fun _ => Ok tt) (Ok tt)
    (with_deadline 0 [Data "ab"; Waiting; Data "c"] (Some 3) None 10 100) = Some ("abc", Ok 3)
  /\ slen "abc" <= 3.
Proof.
  split; [vm_compute; reflexivity|].
  apply (write_to_integrity (H := sample_primitives) 0 [Data "ab"; Waiting; Data "c"] (Some 3) None
    10 100 [(0, 0); (1, 1); (2, 2); (3, 3)] (fun _ => Ok tt) (Ok tt) "abc" (Ok 3));
    [lia | vm_compute; reflexivity].
Defined.

(** Successive polls, nothing being looked at but the stream. *)
Fixpoint poll_many `{Primitives} (clock : list (Z * Z)) (r : ResponseStream)
  : option ResponseStream :=
  match clock with
  | [] => Some r
  | (now, later) :: clock => polled ← poll_next now later r; poll_many clock polled.2
  end.

Lemma poll_next_ended `{Primitives} now later r :
  ended r = true -> poll_next now later r = Some (Ready None, r).
Proof. unfold poll_next. by intros ->. Qed.

Lemma poll_many_total `{Primitives} data length digest clock out r :
  ended r = true \/ yielding data length digest out r -> exists r', poll_many clock r = Some r'.
Proof.
  revert out r. induction clock as [|[now later] clock IH]; intros out r Hr; [by eexists|]. simpl.
  destruct (ended r) eqn:E.
  { rewrite poll_next_ended by done. simpl. apply (IH out). by left. }
  destruct Hr as [?|Y]; [done|].
  destruct (poll_next_spec data length digest now later out r E Y) as (p & r' & -> & Sp). simpl.
  destruct p as [[[c|e]|]|].
  - apply (IH (out +:+ c)). right. apply Sp.
  - apply (IH out). by left.
  - apply (IH out). left. apply Sp.
  - apply (IH out). right. apply Sp.
Qed.

(** Polling never panics, and once the stream has ended, normally or with
an error, every later poll says so and nothing more is yielded. *)
Theorem poll_next_terminal `{Primitives} (start : Z) (items : list download_item)
  (length : option Z) (digest : option string) (idle_for at_ : Z) (clock : list (Z * Z))
  (Hlen : match length with Some e => 0 <= e | None => True end) :
  exists r, poll_many clock (with_deadline start items length digest idle_for at_) = Some r
  /\ (ended r = true -> forall now later, poll_next now later r = Some (Ready None, r)).
Proof.
  destruct (poll_many_total (download_bytes items) length digest clock ""
    (with_deadline start items length digest idle_for at_)) as [r Hr]; [right; by split|].
  exists r. split; [done|]. intros. by apply poll_next_ended.
Qed.

Lemma poll_next_terminal_witness :
  exists r, poll_many (H := sample_primitives) [(0, 0); (9, 9)]
    (with_deadline 0 [Data "ab"] (Some 3) None 10 100) = Some r.
Proof.
  destruct (poll_next_terminal (H := sample_primitives) 0 [Data "ab"] (Some 3) None 10 100
    [(0, 0); (9, 9)]) as (r & Hr & _); [lia|].
  exists r. exact Hr.
Defined.
