(* ===== verification/Xml.v ===== *)
(** Bounded XML ([src/protocol/xml.rs], [src/protocol/error.rs] and the root
scanner of [src/protocol/multipart/common.rs]). Tokenising, deserialising and
serialising are the [quick_xml] crate's: events are a field of [QuickXml], a
deserialiser and the pieces a serialiser writes are arguments. *)

From S2P Require Import Prelude Text Types.
From stdpp Require Import options.
Local Open Scope Z_scope.

Module ProtocolError.
Inductive t : Type :=
| Oversized (actual maximum : Z)
| InvalidXml (message : string)
| InvalidField (field reason : string).
Definition display (e : t) : string :=
  match e with
  | Oversized actual maximum =>
      "XML response is " +:+ to_string actual +:+ " bytes; configured maximum is "
      +:+ to_string maximum
  | InvalidXml m => "invalid S3 XML: " +:+ m
  | InvalidField field reason => "invalid S3 response field " +:+ field +:+ ": " +:+ reason
  end.
End ProtocolError.

Module ParsedS3Error.
Record t : Type := Mk {
  code : option string;
  message : option string;
  request_id : option string;
  host_id : option string;
  resource : option string;
  region : option string
}.
End ParsedS3Error.

(** The document [quick_xml] deserialises an error body to. *)
Module ErrorDocument.
Record t : Type := Mk {
  code : option string;
  message : option string;
  request_id : option string;
  host_id : option string;
  resource : option string;
  region : option string
}.
End ErrorDocument.

(** Reader events; [Start] and [Empty] carry the local name. *)
Inductive XmlEvent : Type :=
| Start (local_name : string) | Empty (local_name : string)
| Decl | Text | Comment | PI | DocType | Eof | OtherEvent.

(** The events of a text, the end of the list being [Eof]; and the text of a
UTF-8 error. *)
Class QuickXml : Type := {
  read_events : string -> list (result string XmlEvent);
  utf8_error : string -> string
}.

(** [ascii_contains_ignore_case]: some window equals the needle but for case. *)
Fixpoint starts_with_ignore_case (needle s : string) : bool :=
  match needle, s with
  | EmptyString, _ => true
  | String a needle, String b s =>
      Ascii.eqb (ascii_lower b) (ascii_lower a) && starts_with_ignore_case needle s
  | String _ _, EmptyString => false
  end.
Fixpoint ascii_contains_ignore_case (haystack needle : string) : bool :=
  starts_with_ignore_case needle haystack ||
  match haystack with
  | EmptyString => false
  | String _ h => ascii_contains_ignore_case h needle
  end.

Definition reject_dangerous_declarations (body : string) : result ProtocolError.t unit :=
  if ascii_contains_ignore_case body "<!DOCTYPE" || ascii_contains_ignore_case body "<!ENTITY"
  then Err (ProtocolError.InvalidXml "DTD and entity declarations are not accepted")
  else Ok tt.

Section xml.
Context `{QuickXml}.

Definition from_utf8 (body : string) : result ProtocolError.t string :=
  if utf8_valid body then Ok body else Err (ProtocolError.InvalidXml (utf8_error body)).

(** [from_str] is [quick_xml::de::from_str] at the type read. *)
Definition parse_bounded {T} (from_str : string -> result string T) (body : string) (maximum : Z)
  : result ProtocolError.t T :=
  if maximum <? slen body then Err (ProtocolError.Oversized (slen body) maximum)
  else
    let? _ := reject_dangerous_declarations body in
    let? text := from_utf8 body in
    map_err ProtocolError.InvalidXml (from_str text).

Fixpoint find_root (expected : list string) (events : list (result string XmlEvent))
  : result ProtocolError.t unit :=
  match events with
  | [] | Ok Eof :: _ => Err (ProtocolError.InvalidXml "missing root element")
  | Ok (Start name | Empty name) :: _ =>
      if bool_decide (name ∈ expected) then Ok tt
      else Err (ProtocolError.InvalidXml ("unexpected root element " +:+ name))
  | Ok DocType :: _ => Err (ProtocolError.InvalidXml "DTD declarations are not accepted")
  | Ok (Decl | Text | Comment | PI | OtherEvent) :: events => find_root expected events
  | Err e :: _ => Err (ProtocolError.InvalidXml e)
  end.

Definition expect_root (body : string) (maximum : Z) (expected : list string)
  : result ProtocolError.t unit :=
  if maximum <? slen body then Err (ProtocolError.Oversized (slen body) maximum)
  else
    let? _ := reject_dangerous_declarations body in
    let? text := from_utf8 body in
    find_root expected (read_events text).

(** [multipart/common.rs] *)
Fixpoint scan_root (events : list (result string XmlEvent)) : result ProtocolError.t bool :=
  match events with
  | [] | Ok Eof :: _ => Err (ProtocolError.InvalidXml "missing root element")
  | Ok (Start name | Empty name) :: _ => Ok (String.eqb name "Error")
  | Ok DocType :: _ => Err (ProtocolError.InvalidXml "DTD declarations are not accepted")
  | Ok (Decl | Text | Comment | PI | OtherEvent) :: events => scan_root events
  | Err e :: _ => Err (ProtocolError.InvalidXml e)
  end.

Definition root_is_error (body : string) (maximum : Z) : result ProtocolError.t bool :=
  if maximum <? slen body then Err (ProtocolError.Oversized (slen body) maximum)
  else let? text := from_utf8 body in scan_root (read_events text).

(** ** [error.rs] *)

Definition parse_s3_error (from_str : string -> result string ErrorDocument.t) (body : string)
    (maximum : Z) : result ProtocolError.t ParsedS3Error.t :=
  let? _ := expect_root body maximum ["Error"] in
  let? parsed := parse_bounded from_str body maximum in
  Ok {| ParsedS3Error.code := ErrorDocument.code parsed;
        ParsedS3Error.message := ErrorDocument.message parsed;
        ParsedS3Error.request_id := ErrorDocument.request_id parsed;
        ParsedS3Error.host_id := ErrorDocument.host_id parsed;
        ParsedS3Error.resource := ErrorDocument.resource parsed;
        ParsedS3Error.region := ErrorDocument.region parsed |}.
End xml.

(** ** Bounded serialisation *)

Record LimitedString : Type := { value : string; limit : Z; exceeded : bool }.
Definition LimitedString_new (maximum : Z) : LimitedString :=
  {| value := ""; limit := maximum; exceeded := false |}.

(** [write_str]: the writer and whether the write succeeded. *)
Definition write_str (w : LimitedString) (s : string) : LimitedString * bool :=
  match checked_add USIZE_MAX (slen (value w)) (slen s) with
  | None => (w, false)
  | Some new_length =>
      if limit w <? new_length
      then ({| value := value w; limit := limit w; exceeded := true |}, false)
      else ({| value := value w +:+ s; limit := limit w; exceeded := exceeded w |}, true)
  end.

(** [to_writer]: the pieces in order, up to the first failing write; [failure]
is an error the serialiser itself ends with, [fmt_error] that of a write. *)
Fixpoint to_writer (fmt_error : string) (pieces : list string) (failure : option string)
    (w : LimitedString) : LimitedString * result string unit :=
  match pieces with
  | [] => (w, match failure with Some e => Err e | None => Ok tt end)
  | s :: pieces =>
      match write_str w s with
      | (w, true) => to_writer fmt_error pieces failure w
      | (w, false) => (w, Err fmt_error)
      end
  end.

Definition serialize_bounded (fmt_error : string) (pieces : list string) (failure : option string)
    (maximum : Z) : result ProtocolError.t string :=
  match to_writer fmt_error pieces failure (LimitedString_new maximum) with
  | (output, Err e) =>
      if exceeded output
      then Err (ProtocolError.Oversized (saturating_add USIZE_MAX maximum 1) maximum)
      else Err (ProtocolError.InvalidXml e)
  | (output, Ok _) => Ok (value output)
  end.

(** ** Lemmas *)

Lemma starts_with_ignore_case_spec needle s :
  starts_with_ignore_case needle s
  = starts_with (to_ascii_lowercase needle) (to_ascii_lowercase s).
Proof.
  revert s. induction needle as [|a needle IH]; intros [|b s]; simpl; try done.
  rewrite IH. unfold starts_with. simpl. rewrite Ascii.eqb_sym.
  by destruct (Ascii.eqb (ascii_lower a) (ascii_lower b)).
Qed.

Lemma contains_ignore_case_spec haystack needle :
  ascii_contains_ignore_case haystack needle
  = contains_str (to_ascii_lowercase needle) (to_ascii_lowercase haystack).
Proof.
  induction haystack as [|c h IH]; simpl; rewrite starts_with_ignore_case_spec; [done|].
  by rewrite IH.
Qed.

Lemma write_str_ok w s w' : write_str w s = (w', true) ->
  value w' = value w +:+ s /\ limit w' = limit w /\ exceeded w' = exceeded w
  /\ slen (value w') <= limit w.
Proof.
  unfold write_str, checked_add. destruct (_ <=? USIZE_MAX); [|done].
  destruct (limit w <? _) eqn:E; bools; intros [= <-]; simpl. rewrite slen_app. done.
Qed.

Lemma to_writer_ok fe pieces f w w' u :
  to_writer fe pieces f w = (w', Ok u) -> slen (value w) <= limit w ->
  value w' = value w +:+ str_concat pieces /\ slen (value w') <= limit w /\ f = None.
Proof.
  revert w. induction pieces as [|s pieces IH]; simpl; intros w Hw Hl.
  - destruct f; [done|]. injection Hw as <-. by rewrite app_nil_r_str.
  - destruct (write_str w s) as [w1 []] eqn:E; [|done].
    apply write_str_ok in E as (Ev & El & _ & Hl1). apply IH in Hw as (-> & ? & ?); [|lia].
    rewrite Ev, app_assoc_str. split_and!; [done|rewrite Ev in *; rewrite <- app_assoc_str; lia|done].
Qed.

Lemma to_writer_fits fe pieces w :
  slen (value w) + slen (str_concat pieces) <= limit w -> limit w <= USIZE_MAX ->
  exists w', to_writer fe pieces None w = (w', Ok tt).
Proof.
  revert w. induction pieces as [|s pieces IH]; simpl; intros w Hl Hm; [eauto|].
  rewrite slen_app in Hl. pose proof (slen_nonneg (str_concat pieces)).
  unfold write_str, checked_add. rewrite (proj2 (Z.leb_le _ _)) by lia.
  rewrite (proj2 (Z.ltb_ge _ _)) by lia. apply IH; simpl; [rewrite slen_app|]; lia.
Qed.

Lemma to_writer_exceeds fe pieces w w' r :
  limit w < slen (value w) + slen (str_concat pieces) -> limit w <= USIZE_MAX ->
  slen (value w) <= limit w -> exceeded w = false ->
  slen (value w) + slen (str_concat pieces) <= USIZE_MAX ->
  to_writer fe pieces None w = (w', r) -> r = Err fe /\ exceeded w' = true.
Proof.
  revert w. induction pieces as [|s pieces IH]; simpl; intros w Hl Hm Hv He Hu Hw.
  { change (slen "") with 0 in Hl. lia. }
  rewrite slen_app in *. pose proof (slen_nonneg (str_concat pieces)).
  unfold write_str, checked_add in Hw. rewrite (proj2 (Z.leb_le _ USIZE_MAX)) in Hw by lia.
  destruct (limit w <? _) eqn:E; bools; [by injection Hw as <- <-|].
  eapply IH in Hw; simpl; rewrite ?slen_app in *; try done; lia.
Qed.

(** ** Properties *)

(** Why a document is refused before it is read, if it is: it is longer than
allowed, declares a document type or an entity in any letter case, or is not
UTF-8. *)
Definition refused `{QuickXml} (body : string) (maximum : Z) : option ProtocolError.t :=
  if decide (maximum < slen body) then Some (ProtocolError.Oversized (slen body) maximum)
  else if contains_str "<!doctype" (to_ascii_lowercase body)
          || contains_str "<!entity" (to_ascii_lowercase body)
  then Some (ProtocolError.InvalidXml "DTD and entity declarations are not accepted")
  else if utf8_valid body then None else Some (ProtocolError.InvalidXml (utf8_error body)).

(** The first element of a text is [name]: only events that are neither elements,
document types nor errors come before it. *)
Definition ignorable (e : result string XmlEvent) : bool :=
  match e with Ok (Decl | Text | Comment | PI | OtherEvent) => true | _ => false end.

Definition first_element (events : list (result string XmlEvent)) (name : string) : Prop :=
  exists skipped event rest, events = skipped ++ Ok event :: rest /\
    (event = Start name \/ event = Empty name) /\ Forall (fun e => ignorable e = true) skipped.

Lemma first_element_nil name : ~ first_element [] name.
Proof. by intros (skipped & ? & ? & E & _); destruct skipped. Qed.

Lemma first_element_cons e events name :
  first_element (e :: events) name <->
  match e with
  | Ok (Start n | Empty n) => n = name
  | _ => ignorable e = true /\ first_element events name
  end.
Proof.
  assert (Hi : ignorable e = true ->
    first_element (e :: events) name <-> first_element events name).
  { intros He. split; intros (skipped & event & rest & E & Hn & Hs).
    - destruct skipped as [|x skipped]; injection E as -> ->; [by destruct Hn as [-> | ->]|].
      apply Forall_cons in Hs as [_ Hs]. by exists skipped, event, rest.
    - exists (e :: skipped), event, rest. rewrite E. split_and!; [done|done|by constructor]. }
  assert (Hn : ignorable e = false -> first_element (e :: events) name <->
    e = Ok (Start name) \/ e = Ok (Empty name)).
  { intros He. split; [|intros [-> | ->]; [by exists [], (Start name), events; auto
                                         |by exists [], (Empty name), events; auto] ].
    intros (skipped & event & rest & E & H & Hs). destruct skipped as [|x skipped].
    - injection E as -> _. destruct H as [-> | ->]; auto.
    - injection E as -> _. apply Forall_cons in Hs as [Hx _]. congruence. }
  destruct (ignorable e) eqn:Hig.
  - rewrite (Hi eq_refl). destruct e as [ [] | ]; try discriminate Hig; tauto.
  - rewrite (Hn eq_refl). destruct e as [ [] | ]; try discriminate Hig; naive_solver.
Qed.

(** Both scanners find the first element. *)
Lemma find_root_spec expected events :
  find_root expected events = Ok tt <-> exists name, first_element events name /\ name ∈ expected.
Proof.
  induction events as [|e events IH]; cbn [find_root].
  { split; [done|]. intros (name & Hf & _). by apply first_element_nil in Hf. }
  setoid_rewrite first_element_cons. destruct e as [ [] | ]; cbn [ignorable];
    try (case_bool_decide); try rewrite IH; naive_solver.
Qed.

Lemma scan_root_spec events b :
  scan_root events = Ok b <->
  exists name, first_element events name /\ b = bool_decide (name = "Error").
Proof.
  assert (He : forall name, String.eqb name "Error" = bool_decide (name = "Error"))
    by (intros name; destruct (String.eqb_spec name "Error"); by case_bool_decide).
  induction events as [|e events IH]; cbn [scan_root].
  { split; [done|]. intros (name & Hf & _). by apply first_element_nil in Hf. }
  setoid_rewrite first_element_cons. destruct e as [ [] | ]; cbn [ignorable];
    rewrite ?He; try rewrite IH; naive_solver.
Qed.

(** C35. Documents are checked before they are read. A document that is too long,
declares a document type or an entity in any letter case, or is not UTF-8 is
refused by [parse_bounded] and [expect_root] with the error of the first of these
that applies, whatever the reader and the deserialiser would make of it; any other
goes to the deserialiser as it is, and its root is accepted exactly when the first
element is one of those expected. The scanner that only chooses between a result
and an error, [root_is_error], does not look for declarations: it reads what is
short enough and UTF-8, up to the first element, and refuses a document type before
it; the document is then parsed by the others. *)
Theorem parse_bounded_guards `{QuickXml} {T} (from_str : string -> result string T)
  (body : string) (maximum : Z) (expected : list string) :
  match refused body maximum with
  | Some e => parse_bounded from_str body maximum = Err e /\
              expect_root body maximum expected = Err e
  | None =>
      parse_bounded from_str body maximum
        = match from_str body with Ok v => Ok v | Err e => Err (ProtocolError.InvalidXml e) end /\
      (expect_root body maximum expected = Ok tt <->
       exists name, first_element (read_events body) name /\ name ∈ expected)
  end /\
  (forall b, root_is_error body maximum = Ok b <->
     slen body <= maximum /\ utf8_valid body = true /\
     exists name, first_element (read_events body) name /\ b = bool_decide (name = "Error")).
Proof.
  unfold refused, parse_bounded, expect_root, root_is_error, reject_dangerous_declarations,
    from_utf8. rewrite !contains_ignore_case_spec.
  destruct (Z.ltb_spec maximum (slen body)) as [L|L];
    [rewrite decide_True by lia|rewrite decide_False by lia].
  { split; [done|]. intros b. split; [done|lia]. }
  split.
  - change (to_ascii_lowercase "<!DOCTYPE") with "<!doctype".
    change (to_ascii_lowercase "<!ENTITY") with "<!entity".
    destruct (_ || _); [done|]. destruct (utf8_valid body); [|done]. cbn [map_err].
    split; [by destruct (from_str body)|]. apply find_root_spec.
  - intros b. destruct (utf8_valid body); [rewrite scan_root_spec; tauto|].
    split; [done|]. by intros (_ & ? & _).
Qed.

Definition sample_xml : QuickXml :=
  {| read_events _ := [Ok Decl; Ok (Start "Error")]; utf8_error _ := "invalid utf-8" |}.

(** A document with a declaration is refused even by a lenient deserialiser. *)
Example declaration_refused :
  parse_bounded (H := sample_xml) (fun s => Ok (slen s)) "<!DocType x><Error/>" 32
    = Err (ProtocolError.InvalidXml "DTD and entity declarations are not accepted") /\
  parse_bounded (H := sample_xml) (fun s => Ok (slen s)) "<Error/>" 16 = Ok 8.
Proof. split; vm_compute; reflexivity. Qed.

(** Serialisation is exact or refused: it succeeds exactly when the whole
document fits, and then returns all of it; otherwise it reports the bound. *)
Theorem serialize_bounded_exact (fmt_error : string) (pieces : list string) (maximum : Z)
  (Hmax : 0 <= maximum <= USIZE_MAX) (Hlen : slen (str_concat pieces) <= USIZE_MAX) :
  serialize_bounded fmt_error pieces None maximum
  = if slen (str_concat pieces) <=? maximum then Ok (str_concat pieces)
    else Err (ProtocolError.Oversized (saturating_add USIZE_MAX maximum 1) maximum).
Proof.
  unfold serialize_bounded. destruct (slen (str_concat pieces) <=? maximum) eqn:E; bools.
  - destruct (to_writer_fits fmt_error pieces (LimitedString_new maximum)) as [w Hw];
      [simpl; change (slen "") with 0; lia | simpl; lia |].
    rewrite Hw. apply to_writer_ok in Hw as (-> & _); [done|simpl; change (slen "") with 0; lia].
  - destruct (to_writer _ _ _ _) as [w r] eqn:Hw. pose proof (slen_nonneg (str_concat pieces)).
    apply to_writer_exceeds in Hw as [-> He]; simpl; change (slen "") with 0; try done; try lia.
    by rewrite He.
Qed.

Lemma serialize_bounded_exact_witness :
  serialize_bounded "fmt" ["<Value>"; "content"; "</Value>"] None 64 = Ok "<Value>content</Value>"
  /\ serialize_bounded "fmt" ["<Value>"; "content"] None 4 = Err (ProtocolError.Oversized 5 4).
Proof.
  split.
  - apply (serialize_bounded_exact "fmt" ["<Value>"; "content"; "</Value>"] 64);
      vm_compute; intuition discriminate.
  - apply (serialize_bounded_exact "fmt" ["<Value>"; "content"] 4);
      vm_compute; intuition discriminate.
Defined.
