(* ===== verification/Records.v ===== *)
(** Request and response records of the object and multipart operations
([src/operation/object.rs], [src/operation/multipart/*.rs]) and their
constructors. Metadata maps are sorted association lists. *)

From S2P Require Import Prelude Text Errors Types Http Stream.
From stdpp Require Import options.
Local Open Scope Z_scope.

(** ** Objects *)

Module ObjectMetadata.
Record t : Type := Mk {
  e_tag : option string;
  content_length : Z;
  content_type : option string;
  last_modified : option Z;
  version_id : option string;
  user_metadata : list (string * string);
  checksum : Checksum.t;
  request_ids : RequestIds.t
}.
End ObjectMetadata.

Module PutObjectRequest.
Record t `{Http} : Type := Mk {
  key : ObjectKey.t;
  body : UploadSource;
  content_type : option string;
  user_metadata : list (string * string);
  conditions : Conditions.t;
  checksum_algorithm : option ChecksumAlgorithm.t;
  headers : HeaderMap
}.
Arguments Mk {_}.
Definition new `{Http} (key : ObjectKey.t) (body : UploadSource) : t :=
  Mk key body None [] Conditions.default None hm_empty.
Definition with_headers `{Http} (r : t) (headers : HeaderMap) : t :=
  Mk (key r) (body r) (content_type r) (user_metadata r) (conditions r)
      (checksum_algorithm r) headers.
End PutObjectRequest.

Module PutObjectOutput.
Record t : Type := Mk {
  e_tag : option string;
  version_id : option string;
  checksum : Checksum.t;
  request_ids : RequestIds.t
}.
End PutObjectOutput.

Module GetObjectRequest.
Record t `{Http} : Type := Mk {
  key : ObjectKey.t;
  range : option ByteRange.t;
  conditions : Conditions.t;
  version_id : option string;
  headers : HeaderMap
}.
Arguments Mk {_}.
Definition new `{Http} (key : ObjectKey.t) : t :=
  Mk key None Conditions.default None hm_empty.
Definition with_headers `{Http} (r : t) (headers : HeaderMap) : t :=
  Mk (key r) (range r) (conditions r) (version_id r) headers.
End GetObjectRequest.

Module HeadObjectRequest.
Record t `{Http} : Type := Mk {
  key : ObjectKey.t;
  conditions : Conditions.t;
  version_id : option string;
  headers : HeaderMap
}.
Arguments Mk {_}.
Definition new `{Http} (key : ObjectKey.t) : t :=
  Mk key Conditions.default None hm_empty.
Definition with_headers `{Http} (r : t) (headers : HeaderMap) : t :=
  Mk (key r) (conditions r) (version_id r) headers.
End HeadObjectRequest.

Module DeleteObjectRequest.
Record t `{Http} : Type := Mk {
  key : ObjectKey.t;
  version_id : option string;
  if_match : option string;
  headers : HeaderMap
}.
Arguments Mk {_}.
Definition new `{Http} (key : ObjectKey.t) : t :=
  Mk key None None hm_empty.
Definition with_headers `{Http} (r : t) (headers : HeaderMap) : t :=
  Mk (key r) (version_id r) (if_match r) headers.
End DeleteObjectRequest.

Module DeleteObjectOutput.
Record t : Type := Mk {
  delete_marker : bool;
  version_id : option string;
  request_ids : RequestIds.t
}.
End DeleteObjectOutput.

Module DeleteObjectIdentifier.
Record t : Type := Mk {
  key : ObjectKey.t;
  version_id : option string;
  if_match : option string
}.
Definition new (key : ObjectKey.t) : t :=
  Mk key None None.
End DeleteObjectIdentifier.

Definition MAX_DELETE_OBJECTS : Z := 1000.

Module DeleteObjectsError.
Inductive t : Type := Empty | TooMany (actual maximum : Z).
Definition display (e : t) : string :=
  match e with
  | Empty => "a multi-object delete request cannot be empty"
  | TooMany actual maximum =>
      "multi-object delete has " +:+ to_string actual +:+ " entries; the maximum is "
      +:+ to_string maximum
  end.
End DeleteObjectsError.

Module DeleteObjectsRequest.
Record t `{Http} : Type := Mk {
  objects : list DeleteObjectIdentifier.t;
  quiet : bool;
  headers : HeaderMap
}.
Arguments Mk {_}.
Definition new `{Http} (objects : list DeleteObjectIdentifier.t)
  : result DeleteObjectsError.t t :=
  match objects with
  | [] => Err DeleteObjectsError.Empty
  | _ =>
      let n := Z.of_nat (List.length objects) in
      if MAX_DELETE_OBJECTS <? n then Err (DeleteObjectsError.TooMany n MAX_DELETE_OBJECTS)
      else Ok (Mk objects false hm_empty)
  end.
Definition with_headers `{Http} (r : t) (headers : HeaderMap) : t :=
  Mk (objects r) (quiet r) headers.
End DeleteObjectsRequest.

Module DeletedObject.
Record t : Type := Mk {
  key : ObjectKey.t;
  version_id : option string;
  delete_marker : bool;
  delete_marker_version_id : option string
}.
End DeletedObject.

Module DeleteError.
Record t : Type := Mk {
  key : string;
  version_id : option string;
  code : option string;
  message : option string
}.
End DeleteError.

Module DeleteObjectsOutput.
Record t : Type := Mk {
  deleted : list DeletedObject.t;
  errors : list DeleteError.t;
  request_ids : RequestIds.t
}.
End DeleteObjectsOutput.

Module CopySource.
Record t : Type := Mk {
  bucket : string;
  key : ObjectKey.t;
  version_id : option string
}.
End CopySource.

Module CopyMetadataDirective.
Inductive t : Type :=
| Copy
| Replace (content_type : option string) (user_metadata : list (string * string)).
End CopyMetadataDirective.

Module CopyObjectRequest.
Record t `{Http} : Type := Mk {
  source : CopySource.t;
  destination : ObjectKey.t;
  source_conditions : Conditions.t;
  metadata : CopyMetadataDirective.t;
  headers : HeaderMap
}.
Arguments Mk {_}.
Definition new `{Http} (source : CopySource.t) (destination : ObjectKey.t) : t :=
  Mk source destination Conditions.default CopyMetadataDirective.Copy hm_empty.
Definition with_headers `{Http} (r : t) (headers : HeaderMap) : t :=
  Mk (source r) (destination r) (source_conditions r) (metadata r) headers.
End CopyObjectRequest.

Module CopyObjectOutput.
Record t : Type := Mk {
  e_tag : option string;
  last_modified : option Z;
  version_id : option string;
  checksum : Checksum.t;
  request_ids : RequestIds.t
}.
End CopyObjectOutput.

Module ObjectOwner.
Record t : Type := Mk {
  id : option string;
  display_name : option string
}.
End ObjectOwner.

Module PageSize.
Record t : Type := Mk { get : Z }.
Definition MAX : Z := 1000.
Definition new (value : Z) : option t :=
  if value =? 0 then None else if value <=? MAX then Some (Mk value) else None.
Definition default : t := Mk MAX.
End PageSize.

Module ListObjectsV2Request.
Record t `{Http} : Type := Mk {
  prefix : option string;
  delimiter : option string;
  continuation_token : option string;
  start_after : option ObjectKey.t;
  max_keys : PageSize.t;
  fetch_owner : bool;
  headers : HeaderMap
}.
Arguments Mk {_}.
Definition default `{Http} : t := Mk None None None None PageSize.default false hm_empty.
Definition with_headers `{Http} (r : t) (headers : HeaderMap) : t :=
  Mk (prefix r) (delimiter r) (continuation_token r) (start_after r) (max_keys r)
     (fetch_owner r) headers.
End ListObjectsV2Request.

Module ListedObject.
Record t : Type := Mk {
  key : ObjectKey.t;
  last_modified : option Z;
  e_tag : option string;
  size : Z;
  storage_class : option string;
  owner : option ObjectOwner.t;
  checksum_algorithms : list string;
  checksum_type : option ChecksumType.t
}.
End ListedObject.

Module ListObjectsV2Output.
Record t : Type := Mk {
  objects : list ListedObject.t;
  common_prefixes : list string;
  is_truncated : bool;
  next_continuation_token : option string;
  key_count : option Z;
  request_ids : RequestIds.t
}.
End ListObjectsV2Output.

(** ** Multipart *)

Module UploadPartRequest.
Record t `{Http} : Type := Mk {
  key : ObjectKey.t;
  upload_id : UploadId.t;
  part_number : PartNumber.t;
  body : UploadSource;
  checksum : Checksum.t;
  headers : HeaderMap
}.
Arguments Mk {_}.
Definition new `{Http} (key : ObjectKey.t) (upload_id : UploadId.t) (part_number : PartNumber.t)
    (body : UploadSource) : t :=
  Mk key upload_id part_number body Checksum.default hm_empty.
Definition with_headers `{Http} (r : t) (headers : HeaderMap) : t :=
  Mk (key r) (upload_id r) (part_number r) (body r) (checksum r) headers.
End UploadPartRequest.

Definition UploadPartRequest_with_checksum `{Http} (r : UploadPartRequest.t)
    (checksum : Checksum.t)
  : UploadPartRequest.t :=
  UploadPartRequest.Mk (UploadPartRequest.key r) (UploadPartRequest.upload_id r)
    (UploadPartRequest.part_number r) (UploadPartRequest.body r) checksum
    (UploadPartRequest.headers r).

Module UploadPartOutput.
Record t : Type := Mk {
  part_number : PartNumber.t;
  e_tag : string;
  checksum : Checksum.t;
  request_ids : RequestIds.t
}.
End UploadPartOutput.

Module UploadPartCopyRequest.
Record t `{Http} : Type := Mk {
  destination : ObjectKey.t;
  upload_id : UploadId.t;
  part_number : PartNumber.t;
  source : CopySource.t;
  source_range : option CopyPartRange.t;
  source_conditions : Conditions.t;
  headers : HeaderMap
}.
Arguments Mk {_}.
Definition new `{Http} (destination : ObjectKey.t) (upload_id : UploadId.t)
    (part_number : PartNumber.t) (source : CopySource.t) : t :=
  Mk destination upload_id part_number source None Conditions.default hm_empty.
Definition with_headers `{Http} (r : t) (headers : HeaderMap) : t :=
  Mk (destination r) (upload_id r) (part_number r) (source r) (source_range r)
      (source_conditions r) headers.
End UploadPartCopyRequest.

Module UploadPartCopyOutput.
Record t : Type := Mk {
  part_number : PartNumber.t;
  e_tag : string;
  last_modified : option Z;
  checksum : Checksum.t;
  request_ids : RequestIds.t
}.
End UploadPartCopyOutput.

Definition UploadPartCopyOutput_completed_part (o : UploadPartCopyOutput.t)
  : result MultipartError.t CompletedPart.t :=
  result_map (fun part => CompletedPart.with_checksum part (UploadPartCopyOutput.checksum o))
    (CompletedPart.new (PartNumber.get (UploadPartCopyOutput.part_number o))
       (UploadPartCopyOutput.e_tag o)).

Module CompleteMultipartUploadRequest.
Record t `{Http} : Type := Mk {
  key : ObjectKey.t;
  upload_id : UploadId.t;
  completed_parts : list CompletedPart.t;
  headers : HeaderMap
}.
Arguments Mk {_}.
Definition new `{Http} (key : ObjectKey.t) (upload_id : UploadId.t)
    (completed_parts : list CompletedPart.t) : result MultipartError.t t :=
  let? _ := validate_completed_parts completed_parts in
  Ok (Mk key upload_id completed_parts hm_empty).
Definition with_headers `{Http} (r : t) (headers : HeaderMap) : t :=
  Mk (key r) (upload_id r) (completed_parts r) headers.
End CompleteMultipartUploadRequest.

Module CompleteMultipartUploadOutput.
Record t : Type := Mk {
  location : option string;
  bucket : option string;
  key : option ObjectKey.t;
  e_tag : option string;
  version_id : option string;
  checksum : Checksum.t;
  request_ids : RequestIds.t
}.
End CompleteMultipartUploadOutput.

Module AbortMultipartUploadRequest.
Record t `{Http} : Type := Mk {
  key : ObjectKey.t;
  upload_id : UploadId.t;
  headers : HeaderMap
}.
Arguments Mk {_}.
Definition new `{Http} (key : ObjectKey.t) (upload_id : UploadId.t) : t :=
  Mk key upload_id hm_empty.
Definition with_headers `{Http} (r : t) (headers : HeaderMap) : t :=
  Mk (key r) (upload_id r) headers.
End AbortMultipartUploadRequest.

Module CreateMultipartUploadRequest.
Record t `{Http} : Type := Mk {
  key : ObjectKey.t;
  content_type : option string;
  user_metadata : list (string * string);
  checksum_algorithm : option ChecksumAlgorithm.t;
  checksum_type : option ChecksumType.t;
  headers : HeaderMap
}.
Arguments Mk {_}.
Definition new `{Http} (key : ObjectKey.t) : t :=
  Mk key None [] None None hm_empty.
Definition with_headers `{Http} (r : t) (headers : HeaderMap) : t :=
  Mk (key r) (content_type r) (user_metadata r) (checksum_algorithm r) (checksum_type r) headers.
End CreateMultipartUploadRequest.

Module CreateMultipartUploadOutput.
Record t : Type := Mk {
  bucket : option string;
  key : ObjectKey.t;
  upload_id : UploadId.t;
  checksum_algorithm : option string;
  checksum_type : option ChecksumType.t;
  request_ids : RequestIds.t
}.
Definition new (bucket : option string) (key : ObjectKey.t) (upload_id : UploadId.t)
    (checksum_algorithm : option string) (checksum_type : option ChecksumType.t) : t :=
  Mk bucket key upload_id checksum_algorithm checksum_type RequestIds.default.
End CreateMultipartUploadOutput.

(** Headers of each phase of a managed upload. *)
Module ManagedMultipartHeaders.
Record t `{Http} : Type := Mk {
  create : HeaderMap;
  upload_part : HeaderMap;
  complete : HeaderMap;
  abort : HeaderMap
}.
Arguments Mk {_}.
Definition default `{Http} : t := Mk hm_empty hm_empty hm_empty hm_empty.
End ManagedMultipartHeaders.

(** A file source is what the file system answers while it is copied. *)
Inductive MultipartUploadSource : Type :=
| MultipartBytes (bytes : string)
| MultipartFile (fs : SnapshotIo).

Module ManagedMultipartUploadRequest.
Record t `{Http} : Type := Mk {
  key : ObjectKey.t;
  source : MultipartUploadSource;
  content_type : option string;
  user_metadata : list (string * string);
  options : MultipartOptions.t;
  checksum_algorithm : option ChecksumAlgorithm.t;
  headers : ManagedMultipartHeaders.t
}.
Arguments Mk {_}.
(** [None] is the panic of an invalid default, which there is not. *)
Definition from_source `{Http} (key : ObjectKey.t) (source : MultipartUploadSource) : option t :=
  match MultipartOptions.default with
  | Ok options =>
      Some (Mk key source None [] options None ManagedMultipartHeaders.default)
  | Err _ => None
  end.
Definition from_bytes `{Http} (key : ObjectKey.t) (bytes : string) : option t :=
  from_source key (MultipartBytes bytes).
Definition from_path `{Http} (key : ObjectKey.t) (fs : SnapshotIo) : option t :=
  from_source key (MultipartFile fs).
Definition with_metadata `{Http} (r : t) (name value : string) : t :=
  Mk (key r) (source r) (content_type r) (btree_insert name value (user_metadata r)) (options r)
     (checksum_algorithm r) (headers r).
Definition with_content_type `{Http} (r : t) (content_type : string) : t :=
  Mk (key r) (source r) (Some content_type) (user_metadata r) (options r) (checksum_algorithm r)
     (headers r).
Definition with_options `{Http} (r : t) (options : MultipartOptions.t) : t :=
  Mk (key r) (source r) (content_type r) (user_metadata r) options (checksum_algorithm r)
     (headers r).
Definition with_headers `{Http} (r : t) (headers : ManagedMultipartHeaders.t) : t :=
  Mk (key r) (source r) (content_type r) (user_metadata r) (options r) (checksum_algorithm r)
     headers.
(** The error is the refused algorithm. *)
Definition with_checksum_algorithm `{Http} (r : t) (algorithm : ChecksumAlgorithm.t)
  : result ChecksumAlgorithm.t t :=
  if bool_decide (algorithm = ChecksumAlgorithm.Sha1) then Err algorithm
  else Ok (Mk (key r) (source r) (content_type r) (user_metadata r) (options r) (Some algorithm)
             (headers r)).
End ManagedMultipartUploadRequest.

Module ListMultipartUploadsRequest.
Record t `{Http} : Type := Mk {
  prefix : option string;
  delimiter : option string;
  key_marker : option string;
  upload_id_marker : option UploadId.t;
  max_uploads : PageSize.t;
  headers : HeaderMap
}.
Arguments Mk {_}.
Definition with_headers `{Http} (r : t) (headers : HeaderMap) : t :=
  Mk (prefix r) (delimiter r) (key_marker r) (upload_id_marker r) (max_uploads r) headers.
End ListMultipartUploadsRequest.

Module MultipartUploadEntry.
Record t : Type := Mk {
  key : ObjectKey.t;
  upload_id : UploadId.t;
  initiated : option Z;
  storage_class : option string
}.
Definition new (key : ObjectKey.t) (upload_id : UploadId.t) (initiated : option Z)
    (storage_class : option string) : t :=
  Mk key upload_id initiated storage_class.
End MultipartUploadEntry.

Module ListMultipartUploadsOutput.
Record t : Type := Mk {
  uploads : list MultipartUploadEntry.t;
  common_prefixes : list string;
  is_truncated : bool;
  next_key_marker : option string;
  next_upload_id_marker : option UploadId.t;
  request_ids : RequestIds.t
}.
End ListMultipartUploadsOutput.

Module ListPartsRequest.
Record t `{Http} : Type := Mk {
  key : ObjectKey.t;
  upload_id : UploadId.t;
  part_number_marker : option PartNumber.t;
  max_parts : PageSize.t;
  headers : HeaderMap
}.
Arguments Mk {_}.
Definition new `{Http} (key : ObjectKey.t) (upload_id : UploadId.t) : t :=
  Mk key upload_id None PageSize.default hm_empty.
Definition with_headers `{Http} (r : t) (headers : HeaderMap) : t :=
  Mk (key r) (upload_id r) (part_number_marker r) (max_parts r) headers.
End ListPartsRequest.

Module ListedPart.
Record t : Type := Mk {
  part_number : PartNumber.t;
  e_tag : string;
  last_modified : option Z;
  size : Z;
  checksum : Checksum.t
}.
Definition new (part_number : PartNumber.t) (e_tag : string) (last_modified : option Z)
    (size : Z) (checksum : Checksum.t) : t :=
  Mk part_number e_tag last_modified size checksum.
End ListedPart.

Definition ListedPart_completed_part
    (p : ListedPart.t) : result MultipartError.t CompletedPart.t :=
  result_map (fun part => CompletedPart.with_checksum part (ListedPart.checksum p))
    (CompletedPart.new (PartNumber.get (ListedPart.part_number p)) (ListedPart.e_tag p)).

Module ListPartsOutput.
Record t : Type := Mk {
  parts : list ListedPart.t;
  is_truncated : bool;
  next_part_number_marker : option PartNumber.t;
  checksum_algorithm : option string;
  checksum_type : option ChecksumType.t;
  request_ids : RequestIds.t
}.
End ListPartsOutput.
