(* ===== verification/Protocol.v ===== *)
(** Response documents ([src/protocol/listing.rs], [delete.rs] and
[src/protocol/multipart/*.rs]): what is checked between the deserialised
document and the typed output. Deserialisers, the serialisers' pieces and RFC
3339 parsing belong to other crates and are the fields of [Documents]. *)

From S2P Require Import Prelude Text Errors Canonical Types Http Stream Records Xml.
From stdpp Require Import options.
Local Open Scope Z_scope.

(** ** Documents, as declared for [serde] *)

Module OwnerDocument.
Record t : Type := Mk { id : option string; display_name : option string }.
End OwnerDocument.

Module ObjectDocument.
Record t : Type := Mk {
  key : string;
  last_modified : option string;
  e_tag : option string;
  size : Z;
  storage_class : option string;
  owner : option OwnerDocument.t;
  checksum_algorithms : list string;
  checksum_type : option string
}.
End ObjectDocument.

Module ListBucketDocument.
Record t : Type := Mk {
  encoding_type : option string;
  contents : list ObjectDocument.t;
  common_prefixes : list string;
  is_truncated : bool;
  next_continuation_token : option string;
  key_count : option Z
}.
End ListBucketDocument.

Module DeletedDocument.
Record t : Type := Mk {
  key : string;
  version_id : option string;
  delete_marker : bool;
  delete_marker_version_id : option string
}.
End DeletedDocument.

Module DeleteResultDocument.
Record t : Type := Mk { deleted : list DeletedDocument.t; errors : list DeleteError.t }.
End DeleteResultDocument.

(** The checksum fields that several documents share. *)
Module PartDocument.
Record t : Type := Mk {
  part_number : Z;
  e_tag : string;
  last_modified : option string;
  size : Z;
  checksum : Checksum.t
}.
End PartDocument.

Module ListPartsDocument.
Record t : Type := Mk {
  parts : list PartDocument.t;
  is_truncated : bool;
  next_part_number_marker : option Z;
  checksum_algorithm : option string;
  checksum_type : option string
}.
End ListPartsDocument.

Module CreateDocument.
Record t : Type := Mk {
  bucket : option string;
  key : string;
  upload_id : string;
  checksum_algorithm : option string;
  checksum_type : option string
}.
End CreateDocument.

Module CompleteResultDocument.
Record t : Type := Mk {
  location : option string;
  bucket : option string;
  key : option string;
  e_tag : option string;
  checksum : Checksum.t
}.
End CompleteResultDocument.

Module CopyResultDocument.
Record t : Type := Mk {
  e_tag : option string;
  last_modified : option string;
  checksum : Checksum.t
}.
End CopyResultDocument.

Module UploadDocument.
Record t : Type := Mk {
  key : string;
  upload_id : string;
  initiated : option string;
  storage_class : option string
}.
End UploadDocument.

Module ListUploadsDocument.
Record t : Type := Mk {
  uploads : list UploadDocument.t;
  common_prefixes : list string;
  is_truncated : bool;
  next_key_marker : option string;
  next_upload_id_marker : option string
}.
End ListUploadsDocument.

Module CompletedPartDocument.
Record t : Type := Mk { part_number : Z; e_tag : string; checksum : Checksum.t }.
End CompletedPartDocument.

Module DeleteEntry.
Record t : Type := Mk { key : string; version_id : option string; e_tag : option string }.
End DeleteEntry.

Class Documents : Type := {
  documents_xml : QuickXml;
  de_error : string -> result string ErrorDocument.t;
  de_list : string -> result string ListBucketDocument.t;
  de_delete : string -> result string DeleteResultDocument.t;
  de_parts : string -> result string ListPartsDocument.t;
  de_create : string -> result string CreateDocument.t;
  de_complete : string -> result string CompleteResultDocument.t;
  de_copy : string -> result string CopyResultDocument.t;
  de_uploads : string -> result string ListUploadsDocument.t;
  (** What the serialiser writes: the pieces and an error of its own. *)
  se_complete : list CompletedPartDocument.t -> list string * option string;
  se_delete : list DeleteEntry.t * bool -> list string * option string;
  fmt_error : string;
  (** [OffsetDateTime::parse(_, &Rfc3339)]. *)
  parse_rfc3339 : string -> result string Z
}.
#[export] Existing Instance documents_xml.

Section protocol.
Context `{Documents}.

Definition invalid_field {A} (field reason : string) : result ProtocolError.t A :=
  Err (ProtocolError.InvalidField field reason).

(** An optional timestamp field. *)
Definition parse_time (field : string) (value : option string)
  : result ProtocolError.t (option Z) :=
  transpose ((fun v => map_err (ProtocolError.InvalidField field) (parse_rfc3339 v)) <$> value).

Definition parse_key (field value : string) : result ProtocolError.t ObjectKey.t :=
  map_err (fun e => ProtocolError.InvalidField field (ObjectKeyError.display e))
    (ObjectKey.new value).

Definition parse_upload_id (value field : string) : result ProtocolError.t UploadId.t :=
  map_err (fun e => ProtocolError.InvalidField field (UploadIdError.display e))
    (UploadId.new value).

Definition parse_part_number (field : string) (value : Z) : result ProtocolError.t PartNumber.t :=
  ok_or (PartNumber.new value)
    (ProtocolError.InvalidField field "part number is outside 1..=10000").

(** ** [listing.rs] *)

Definition hex_value (c : ascii) : option Z :=
  if in_range "0" "9" c then Some (byte c - byte "0")
  else if in_range "a" "f" c then Some (byte c - byte "a" + 10)
  else if in_range "A" "F" c then Some (byte c - byte "A" + 10)
  else None.

(** The percent-decoding loop; [None] is an invalid escape. *)
Fixpoint decode_loop (input : string) : option string :=
  match input with
  | EmptyString => Some ""
  | String c rest =>
      if Ascii.eqb c "%" then
        match rest with
        | String h (String l rest) =>
            high ← hex_value h; low ← hex_value l;
            decoded ← decode_loop rest;
            Some (String (chr (Z.lor (Z.shiftl high 4) low)) decoded)
        | _ => None
        end
      else decoded ← decode_loop rest; Some (String c decoded)
  end.

Definition decode_url_field (value field : string) : result ProtocolError.t string :=
  match decode_loop value with
  | None => invalid_field field "invalid URL percent encoding"
  | Some decoded =>
      if utf8_valid decoded then Ok decoded
      else invalid_field field ("URL-decoded value is not UTF-8: " +:+ utf8_error decoded)
  end.

Definition parse_listed_object (object : ObjectDocument.t) : result ProtocolError.t ListedObject.t :=
  let? decoded_key := decode_url_field (ObjectDocument.key object) "Contents.Key" in
  let? key := parse_key "Contents.Key" decoded_key in
  let? last_modified := parse_time "Contents.LastModified" (ObjectDocument.last_modified object) in
  Ok {| ListedObject.key := key;
        ListedObject.last_modified := last_modified;
        ListedObject.e_tag := ObjectDocument.e_tag object;
        ListedObject.size := ObjectDocument.size object;
        ListedObject.storage_class := ObjectDocument.storage_class object;
        ListedObject.owner :=
          (fun o => ObjectOwner.Mk (OwnerDocument.id o) (OwnerDocument.display_name o))
            <$> ObjectDocument.owner object;
        ListedObject.checksum_algorithms := ObjectDocument.checksum_algorithms object;
        ListedObject.checksum_type := ChecksumType.parse <$> ObjectDocument.checksum_type object |}.

Definition parse_list_objects_v2 (body : string) (maximum : Z)
  : result ProtocolError.t ListObjectsV2Output.t :=
  let? _ := expect_root body maximum ["ListBucketResult"] in
  let? parsed := parse_bounded de_list body maximum in
  if negb (bool_decide (ListBucketDocument.encoding_type parsed = Some "url"))
  then invalid_field "EncodingType" "expected url encoding requested by the client"
  else
    let? objects := try_map parse_listed_object (ListBucketDocument.contents parsed) in
    let? prefixes := try_map (fun p => decode_url_field p "CommonPrefixes.Prefix")
                       (ListBucketDocument.common_prefixes parsed) in
    Ok {| ListObjectsV2Output.objects := objects;
          ListObjectsV2Output.common_prefixes := prefixes;
          ListObjectsV2Output.is_truncated := ListBucketDocument.is_truncated parsed;
          ListObjectsV2Output.next_continuation_token :=
            ListBucketDocument.next_continuation_token parsed;
          ListObjectsV2Output.key_count := ListBucketDocument.key_count parsed;
          ListObjectsV2Output.request_ids := RequestIds.default |}.

(** ** [delete.rs] *)

Definition serialize_delete_objects `{Http} (request : DeleteObjectsRequest.t) (maximum : Z)
  : result ProtocolError.t string :=
  let entries := (fun o => DeleteEntry.Mk (ObjectKey.as_str (DeleteObjectIdentifier.key o))
                             (DeleteObjectIdentifier.version_id o)
                             (DeleteObjectIdentifier.if_match o))
                   <$> DeleteObjectsRequest.objects request in
  let (pieces, failure) := se_delete (entries, DeleteObjectsRequest.quiet request) in
  serialize_bounded fmt_error pieces failure maximum.

Definition parse_deleted (item : DeletedDocument.t) : result ProtocolError.t DeletedObject.t :=
  let? key := parse_key "Deleted.Key" (DeletedDocument.key item) in
  Ok (DeletedObject.Mk key (DeletedDocument.version_id item) (DeletedDocument.delete_marker item)
        (DeletedDocument.delete_marker_version_id item)).

Definition parse_delete_objects (body : string) (maximum : Z)
  : result ProtocolError.t DeleteObjectsOutput.t :=
  let? _ := expect_root body maximum ["DeleteResult"] in
  let? document := parse_bounded de_delete body maximum in
  let? deleted := try_map parse_deleted (DeleteResultDocument.deleted document) in
  Ok (DeleteObjectsOutput.Mk deleted (DeleteResultDocument.errors document) RequestIds.default).

(** ** [multipart/create.rs] *)

Definition parse_create_multipart_upload (body : string) (maximum : Z)
  : result ProtocolError.t CreateMultipartUploadOutput.t :=
  let? _ := expect_root body maximum ["InitiateMultipartUploadResult"] in
  let? document := parse_bounded de_create body maximum in
  let? upload_id := parse_upload_id (CreateDocument.upload_id document) "UploadId" in
  let? key := parse_key "Key" (CreateDocument.key document) in
  Ok (CreateMultipartUploadOutput.new (CreateDocument.bucket document) key upload_id
        (CreateDocument.checksum_algorithm document)
        (ChecksumType.parse <$> CreateDocument.checksum_type document)).

(** ** [multipart/completion.rs] *)

Definition serialize_complete_multipart_upload `{Http}
    (request : CompleteMultipartUploadRequest.t) (maximum : Z) : result ProtocolError.t string :=
  let parts := (fun p => CompletedPartDocument.Mk (PartNumber.get (CompletedPart.part_number p))
                           (CompletedPart.e_tag p) (CompletedPart.checksum p))
                 <$> CompleteMultipartUploadRequest.completed_parts request in
  let (pieces, failure) := se_complete parts in
  serialize_bounded fmt_error pieces failure maximum.

Inductive CompleteMultipartResponse : Type :=
| CompleteMultipart (o : CompleteMultipartUploadOutput.t)
| CompleteEmbeddedError (e : ParsedS3Error.t).

Definition parse_complete_multipart_upload (body : string) (maximum : Z)
  : result ProtocolError.t CompleteMultipartResponse :=
  let? is_error := root_is_error body maximum in
  if is_error : bool
  then result_map CompleteEmbeddedError (parse_s3_error de_error body maximum)
  else
    let? _ := expect_root body maximum ["CompleteMultipartUploadResult"] in
    let? document := parse_bounded de_complete body maximum in
    let? key := transpose (parse_key "Key" <$> CompleteResultDocument.key document) in
    Ok (CompleteMultipart (CompleteMultipartUploadOutput.Mk
          (CompleteResultDocument.location document) (CompleteResultDocument.bucket document)
          key (CompleteResultDocument.e_tag document) None
          (CompleteResultDocument.checksum document) RequestIds.default)).

(** ** [multipart/copy.rs] *)

Record CopyPartResult : Type := {
  cp_e_tag : string;
  cp_last_modified : option Z;
  cp_checksum : Checksum.t
}.

Inductive CopyObjectResponse : Type :=
| CopyComplete (o : CopyObjectOutput.t)
| CopyEmbeddedError (e : ParsedS3Error.t).
Inductive UploadPartCopyResponse : Type :=
| PartCopyComplete (o : CopyPartResult)
| PartCopyEmbeddedError (e : ParsedS3Error.t).

Definition parse_copy_object (body : string) (maximum : Z)
  : result ProtocolError.t CopyObjectResponse :=
  let? is_error := root_is_error body maximum in
  if is_error : bool
  then result_map CopyEmbeddedError (parse_s3_error de_error body maximum)
  else
    let? _ := expect_root body maximum ["CopyObjectResult"] in
    let? document := parse_bounded de_copy body maximum in
    let? last_modified := parse_time "LastModified" (CopyResultDocument.last_modified document) in
    Ok (CopyComplete (CopyObjectOutput.Mk (CopyResultDocument.e_tag document) last_modified None
          (CopyResultDocument.checksum document) RequestIds.default)).

Definition parse_upload_part_copy (body : string) (maximum : Z)
  : result ProtocolError.t UploadPartCopyResponse :=
  let? is_error := root_is_error body maximum in
  if is_error : bool
  then result_map PartCopyEmbeddedError (parse_s3_error de_error body maximum)
  else
    let? _ := expect_root body maximum ["CopyPartResult"] in
    let? document := parse_bounded de_copy body maximum in
    let? e_tag := ok_or (e ← CopyResultDocument.e_tag document;
                         if trim_is_empty e then None else Some e)
                    (ProtocolError.InvalidField "ETag" "copied part has no usable ETag") in
    let? last_modified := parse_time "LastModified" (CopyResultDocument.last_modified document) in
    Ok (PartCopyComplete {| cp_e_tag := e_tag; cp_last_modified := last_modified;
                            cp_checksum := CopyResultDocument.checksum document |}).

(** ** [multipart/parts.rs] *)

Fixpoint parse_parts_loop (parts : list PartDocument.t) (previous : option PartNumber.t)
  : result ProtocolError.t (list ListedPart.t) :=
  match parts with
  | [] => Ok []
  | part :: parts =>
      let? part_number := parse_part_number "Part.PartNumber" (PartDocument.part_number part) in
      if match previous with
         | Some value => PartNumber.get part_number <=? PartNumber.get value
         | None => false
         end
      then invalid_field "Part.PartNumber" "parts are not in strictly ascending order"
      else if trim_is_empty (PartDocument.e_tag part)
      then invalid_field "Part.ETag" "ETag is empty"
      else
        let? last_modified := parse_time "Part.LastModified" (PartDocument.last_modified part) in
        let? rest := parse_parts_loop parts (Some part_number) in
        Ok (ListedPart.new part_number (PartDocument.e_tag part) last_modified
              (PartDocument.size part) (PartDocument.checksum part) :: rest)
  end.

Definition parse_list_parts (body : string) (maximum : Z) : result ProtocolError.t ListPartsOutput.t :=
  let? _ := expect_root body maximum ["ListPartsResult"] in
  let? document := parse_bounded de_parts body maximum in
  let? parts := parse_parts_loop (ListPartsDocument.parts document) None in
  let? next := transpose (parse_part_number "NextPartNumberMarker"
                 <$> ListPartsDocument.next_part_number_marker document) in
  Ok (ListPartsOutput.Mk parts (ListPartsDocument.is_truncated document) next
        (ListPartsDocument.checksum_algorithm document)
        (ChecksumType.parse <$> ListPartsDocument.checksum_type document) RequestIds.default).

(** ** [multipart/listing.rs] *)

Definition parse_upload_entry (upload : UploadDocument.t)
  : result ProtocolError.t MultipartUploadEntry.t :=
  let? upload_id := parse_upload_id (UploadDocument.upload_id upload) "Upload.UploadId" in
  let? initiated := parse_time "Upload.Initiated" (UploadDocument.initiated upload) in
  let? key := parse_key "Upload.Key" (UploadDocument.key upload) in
  Ok (MultipartUploadEntry.new key upload_id initiated (UploadDocument.storage_class upload)).

Definition nonempty (value : option string) : option string :=
  v ← value; if is_empty v then None else Some v.

Definition parse_list_multipart_uploads (body : string) (maximum : Z)
  : result ProtocolError.t ListMultipartUploadsOutput.t :=
  let? _ := expect_root body maximum ["ListMultipartUploadsResult"] in
  let? document := parse_bounded de_uploads body maximum in
  let? uploads := try_map parse_upload_entry (ListUploadsDocument.uploads document) in
  let? next_upload_id := transpose ((fun v => parse_upload_id v "NextUploadIdMarker")
                           <$> nonempty (ListUploadsDocument.next_upload_id_marker document)) in
  Ok (ListMultipartUploadsOutput.Mk uploads (ListUploadsDocument.common_prefixes document)
        (ListUploadsDocument.is_truncated document)
        (nonempty (ListUploadsDocument.next_key_marker document)) next_upload_id
        RequestIds.default).
End protocol.

(** ** Lemmas *)

Lemma hex_value_digit c : hex_value c = hex_digit_value c.
Proof. all_bytes c. Qed.

Lemma hex_digit_range c v : hex_digit_value c = Some v -> 0 <= v < 16.
Proof. destruct c as [[] [] [] [] [] [] [] []]; vm_compute; intros; inv_ok; intuition discriminate. Qed.

Lemma lor_nibbles a b : 0 <= a < 16 -> 0 <= b < 16 -> Z.lor (Z.shiftl a 4) b = a * 16 + b.
Proof.
  intros Ha Hb. rewrite Z.shiftl_mul_pow2 by lia. change (2 ^ 4) with 16.
  assert (Z.land (a * 16) b = 0) as D.
  { apply Z.bits_inj'. intros n Hn. rewrite Z.land_spec, Z.bits_0.
    destruct (Z.lt_ge_cases n 4).
    - change 16 with (2 ^ 4). by rewrite Z.mul_pow2_bits_low by lia.
    - rewrite andb_comm, (Z.bits_above_log2 b n); [done|lia|].
      destruct (Z.eq_dec b 0) as [->|]; [simpl; lia|]. apply Z.log2_lt_pow2; [lia|].
      apply Z.lt_le_trans with (2 ^ 4); [lia|]. apply Z.pow_le_mono_r; lia. }
  pose proof (Z.add_lor_land (a * 16) b). lia.
Qed.

(** The decoder is percent decoding. *)
Lemma decode_loop_pct s : decode_loop s = pct_decode s.
Proof.
  induction s as [s IH] using (induction_ltof1 _ String.length); unfold ltof in IH.
  destruct s as [|c s]; [done|]. simpl. destruct (Ascii.eqb c "%").
  - destruct s as [|h [|l s]]; [done..|]. rewrite (hex_value_digit h), (hex_value_digit l), (IH s) by (simpl; lia).
    destruct (hex_digit_value h) as [a|] eqn:Ha; simpl; [|done].
    destruct (hex_digit_value l) as [b|] eqn:Hb; simpl; [|done].
    rewrite lor_nibbles by eauto using hex_digit_range. by destruct (pct_decode s).
  - rewrite (IH s) by (simpl; lia). by destruct (pct_decode s).
Qed.

Section parse_lemmas.
Set Default Proof Using "Type*".
Context `{Documents}.

Lemma parse_part_number_ok f v n :
  0 <= v -> parse_part_number f v = Ok n -> n = PartNumber.Mk v /\ 1 <= v <= 10000.
Proof.
  unfold parse_part_number, ok_or. intros Hv Hp.
  destruct (PartNumber.new v) eqn:E; inv_ok. by apply PartNumber_new_spec.
Qed.

(** Whatever the listing holds, its parts are usable completion descriptors. *)
Definition listed_ok (p : ListedPart.t) : Prop :=
  1 <= PartNumber.get (ListedPart.part_number p) <= 10000
  /\ trim_is_empty (ListedPart.e_tag p) = false.

Definition listed_no (p : ListedPart.t) : Z := PartNumber.get (ListedPart.part_number p).

Lemma parse_parts_loop_ok docs prev parts :
  Forall (fun d => 0 <= PartDocument.part_number d) docs ->
  parse_parts_loop docs prev = Ok parts ->
  Forall listed_ok parts
  /\ StronglySorted (fun a b => listed_no a < listed_no b) parts
  /\ match prev with
     | Some n => Forall (fun p => PartNumber.get n < listed_no p) parts
     | None => True
     end.
Proof.
  intros F. revert prev parts. induction F as [|d docs Hd F IH]; intros prev parts Hp; simpl in Hp.
  { inv_ok. split_and!; [constructor|constructor|by destruct prev]. }
  destruct (parse_part_number _ _) as [n|] eqn:N; [|done].
  apply parse_part_number_ok in N as [-> Hn]; [|done].
  destruct (match prev with Some value => _ | None => _ end) eqn:O; [done|].
  destruct (trim_is_empty _) eqn:T; [done|]. destruct (parse_time _ _); [|done].
  destruct (parse_parts_loop docs _) as [rest|] eqn:R; inv_ok.
  apply IH in R as (R1 & R2 & R3). split_and!.
  - by constructor.
  - by constructor.
  - destruct prev as [m|]; [|done]. simpl in O. bools. constructor; [done|].
    eapply Forall_impl; [exact R3|]. simpl. unfold listed_no in *. lia.
Qed.

Lemma listed_completed p :
  listed_ok p -> exists c, ListedPart_completed_part p = Ok c
    /\ part_no c = listed_no p /\ CompletedPart.e_tag c = ListedPart.e_tag p.
Proof.
  intros [Hn Ht]. unfold ListedPart_completed_part, CompletedPart.new, PartNumber.new, PartNumber.MAX.
  rewrite (proj2 (Z.eqb_neq _ _)), (proj2 (Z.leb_le _ _)) by lia. simpl. rewrite Ht. simpl.
  by eexists.
Qed.

Lemma listed_completed_all parts :
  Forall listed_ok parts ->
  exists cs, try_map ListedPart_completed_part parts = Ok cs /\ part_no <$> cs = listed_no <$> parts.
Proof.
  induction 1 as [|p parts Hp F IH]; [by exists []|].
  destruct (listed_completed p Hp) as (c & Hc & En & _). destruct IH as (cs & Hcs & E).
  exists (c :: cs). simpl. rewrite Hc, Hcs. split; [done|]. simpl. by f_equal.
Qed.
End parse_lemmas.

Lemma ascending_map {A} (f : A -> Z) l :
  StronglySorted (fun a b => f a < f b) l <-> StronglySorted Z.lt (f <$> l).
Proof.
  induction l as [|a l IH]; [split; constructor|]. rewrite fmap_cons. split; intros S;
    apply StronglySorted_inv in S as [S F]; constructor; try (by apply IH).
  - apply Forall_fmap. exact F.
  - by rewrite Forall_fmap in F.
Qed.

(** ** Properties *)

(** Listed keys decode to exactly what was encoded: decoding inverts the
client's own encoding on any UTF-8 key, and whatever it accepts is UTF-8 and the
percent-decoding of the field. *)
Theorem decode_url_field_roundtrip `{Documents} (s field value d : string) (encode_slash : bool)
  (Hutf8 : utf8_valid s = true) :
  decode_url_field (Canonical.aws_uri_encode s encode_slash) field = Ok s
  /\ (decode_url_field value field = Ok d <-> pct_decode value = Some d /\ utf8_valid d = true).
Proof.
  unfold decode_url_field. rewrite !decode_loop_pct, Canonical.aws_uri_decode, Hutf8.
  split; [done|]. destruct (pct_decode value) as [x|]; [|split; [done|by intros [? ?]]].
  destruct (utf8_valid x) eqn:U; split; intros E; inv_ok; try done.
  - destruct E as [E _]. by inv_ok.
  - destruct E as [E ?]. inv_ok. congruence.
Qed.

(** A stand-in for the crates, with one document per kind. *)
Definition sample_documents : Documents := {|
  documents_xml := {| read_events _ := [Ok (Start "ListPartsResult")]; utf8_error _ := "utf-8" |};
  de_error _ := Err "none";
  de_list _ := Err "none";
  de_delete _ := Err "none";
  de_parts _ := Ok (ListPartsDocument.Mk
    [PartDocument.Mk 2 "a" None 5 Checksum.default; PartDocument.Mk 7 "b" None 1 Checksum.default]
    false None None None);
  de_create _ := Err "none";
  de_complete _ := Err "none";
  de_copy _ := Err "none";
  de_uploads _ := Err "none";
  se_complete parts := ((fun p => to_string (CompletedPartDocument.part_number p)) <$> parts, None);
  se_delete _ := ([], None);
  fmt_error := "fmt";
  parse_rfc3339 _ := Err "time"
|}.

Lemma decode_url_field_roundtrip_witness :
  decode_url_field (H := sample_documents) (aws_uri_encode "a b/%2F" true) "Key" = Ok "a b/%2F"
  /\ utf8_valid "a b/%2F" = true.
Proof.
  split; [|vm_compute; reflexivity].
  apply (decode_url_field_roundtrip (H := sample_documents) "a b/%2F" "Key" "" "" true).
  vm_compute. reflexivity.
Defined.

(** C34. A parsed part listing can be completed: its part numbers are in range
and strictly ascending, every part converts to a completion descriptor, and a
completion request built from a non-empty listing passes validation. *)
Theorem listed_parts_complete `{Documents} `{Http} (body : string) (maximum : Z)
  (out : ListPartsOutput.t) (key : ObjectKey.t) (id : UploadId.t)
  (Hunsigned : forall s d, de_parts s = Ok d ->
     Forall (fun p => 0 <= PartDocument.part_number p) (ListPartsDocument.parts d))
  (Hok : parse_list_parts body maximum = Ok out) :
  Forall listed_ok (ListPartsOutput.parts out)
  /\ StronglySorted (fun a b => listed_no a < listed_no b) (ListPartsOutput.parts out)
  /\ exists cs, try_map ListedPart_completed_part (ListPartsOutput.parts out) = Ok cs
       /\ (cs <> [] -> exists r, CompleteMultipartUploadRequest.new key id cs = Ok r).
Proof.
  unfold parse_list_parts in Hok. destruct (expect_root _ _ _); [|done].
  destruct (parse_bounded de_parts body maximum) as [doc|] eqn:P; [|done].
  destruct (parse_parts_loop _ None) as [parts|] eqn:L; [|done].
  destruct (transpose _); [|done]. inv_ok. simpl.
  assert (Forall (fun p => 0 <= PartDocument.part_number p) (ListPartsDocument.parts doc)) as F.
  { unfold parse_bounded, map_err in P. steps_in P. by eapply Hunsigned. }
  destruct (parse_parts_loop_ok _ _ _ F L) as (F1 & S1 & _). split_and!; [done..|].
  destruct (listed_completed_all _ F1) as (cs & Hcs & E). exists cs. split; [done|]. intros N.
  unfold CompleteMultipartUploadRequest.new. rewrite (ascending_valid cs N); [by eexists|].
  unfold ascending. rewrite ascending_map, E. by rewrite <- ascending_map.
Qed.

Lemma listed_parts_complete_witness :
  exists out, parse_list_parts (H := sample_documents) "<x/>" 64 = Ok out
  /\ listed_no <$> ListPartsOutput.parts out = [2; 7]
  /\ Forall listed_ok (ListPartsOutput.parts out).
Proof.
  eexists. split; [vm_compute; reflexivity|]. split; [reflexivity|].
  apply (listed_parts_complete (H := sample_documents) (H0 := assoc_http) "<x/>" 64 _
    (ObjectKey.Mk "k") (UploadId.Mk "u")); [|vm_compute; reflexivity].
  intros s d Hd. injection Hd as <-. repeat constructor; simpl; lia.
Defined.
