(* ===== verification/Response.v ===== *)
(** Failed responses ([src/client/request/response.rs]): bounded collection of a
body, classification of a service error, and what of it is shown. *)

From S2P Require Import Prelude Text Errors Http Types Xml.
From stdpp Require Import options.
Local Open Scope Z_scope.

Definition operation_timeout : S3Error.t :=
  S3Error.timeout TimeoutPhase.Operation "S3 operation exceeded its overall deadline".
Definition body_idle_timeout : S3Error.t :=
  S3Error.timeout TimeoutPhase.ResponseBody "response body was idle past its configured timeout".

Definition oversized_response (maximum : Z) : S3Error.t :=
  S3Error.new ErrorCategory.OversizedResponse
    ("response exceeded the configured " +:+ to_string maximum +:+ "-byte limit")
    RetryClassification.Never.

Definition protocol_error (error : ProtocolError.t) : S3Error.t :=
  match error with
  | ProtocolError.Oversized _ maximum => oversized_response maximum
  | _ => S3Error.with_source (S3Error.invalid_response "S3 returned malformed XML")
           "s3_wire::protocol::xml::ProtocolError"
  end.

(** ** Collecting a body *)

(** One wait for a frame: the clock when the two deadlines are checked, what
came ([TimedOut] is the elapsed [timeout_at]), and the clock at the reset. *)
Inductive frame_result : Type :=
| TimedOut | NoFrame | FrameError (e : string) | FrameTrailers | FrameData (bytes : string).
Record frame_wait : Type := {
  at_operation_check : Z;
  at_idle_check : Z;
  frame : frame_result;
  at_reset : Z
}.

(** [collect_incoming]: [None] when the waits run out before the loop ends. *)
Fixpoint collect_incoming (waits : list frame_wait) (maximum idle_timeout operation_deadline : Z)
    (idle_deadline : Z) (output : string) : option (outcome string) :=
  match waits with
  | [] => None
  | w :: waits =>
      if operation_deadline <=? at_operation_check w then Some (Err operation_timeout)
      else if idle_deadline <=? at_idle_check w then Some (Err body_idle_timeout)
      else
        match frame w with
        | TimedOut =>
            Some (Err (if operation_deadline <=? idle_deadline then operation_timeout
                       else body_idle_timeout))
        | NoFrame => Some (Ok output)
        | FrameError e => Some (Err (S3Error.transport e))
        | FrameTrailers =>
            collect_incoming waits maximum idle_timeout operation_deadline idle_deadline output
        | FrameData data =>
            if is_empty data
            then collect_incoming waits maximum idle_timeout operation_deadline idle_deadline output
            else
              match checked_add USIZE_MAX (slen output) (slen data) with
              | None => Some (Err (oversized_response maximum))
              | Some new_length =>
                  if maximum <? new_length then Some (Err (oversized_response maximum))
                  else collect_incoming waits maximum idle_timeout operation_deadline
                         (at_reset w + idle_timeout) (output +:+ data)
              end
        end
  end.

(** [collect_response]: [upper] is the size hint's upper bound, [start] the
clock when collection begins. *)
Definition collect_response (upper : option Z) (start : Z) (waits : list frame_wait)
    (maximum idle_timeout operation_deadline : Z) : option (outcome string) :=
  if match upper with
     | Some length => default U64_MAX (try_from U64_MAX maximum) <? length
     | None => false
     end
  then Some (Err (oversized_response maximum))
  else collect_incoming waits maximum idle_timeout operation_deadline (start + idle_timeout) "".

Definition DRAIN_MAXIMUM : Z := 8 * 1024.
Definition drain_success_response (upper : option Z) (start : Z) (waits : list frame_wait)
    (idle_timeout operation_deadline : Z) : option (outcome unit) :=
  result_map (fun _ => tt)
    <$> collect_response upper start waits DRAIN_MAXIMUM idle_timeout operation_deadline.

(** ** Classification *)

Definition code_in (code : option string) (codes : list string) : bool :=
  match code with Some c => bool_decide (c ∈ codes) | None => false end.

(** [StatusCode::is_server_error]. *)
Definition is_server_error (status : Z) : bool := (500 <=? status) && (status <? 600).

Definition classify_service_error (status : Z) (code : option string) : ErrorCategory.t :=
  if code_in code ["InvalidAccessKeyId"; "SignatureDoesNotMatch"; "ExpiredToken"; "InvalidToken"]
  then ErrorCategory.Authentication
  else if code_in code ["AccessDenied"; "AllAccessDisabled"] then ErrorCategory.Authorization
  else if code_in code ["NoSuchKey"; "NoSuchBucket"; "NoSuchUpload"; "NotFound"]
  then ErrorCategory.NotFound
  else if code_in code ["PreconditionFailed"] then ErrorCategory.Precondition
  else if code_in code ["ConditionalRequestConflict"; "OperationAborted"]
  then ErrorCategory.Conflict
  else if code_in code ["SlowDown"; "Throttling"; "ThrottlingException"; "RequestLimitExceeded";
                        "TooManyRequestsException"; "BandwidthLimitExceeded"]
  then ErrorCategory.Throttling
  else if code_in code ["InternalError"; "InternalFailure"; "ServiceUnavailable";
                        "ServiceUnavailableException"; "RequestTimeout";
                        "RequestTimeoutException"; "PriorRequestNotComplete"]
  then ErrorCategory.Server
  else if status =? 401 then ErrorCategory.Authentication
  else if status =? 403 then ErrorCategory.Authorization
  else if status =? 404 then ErrorCategory.NotFound
  else if status =? 409 then ErrorCategory.Conflict
  else if status =? 412 then ErrorCategory.Precondition
  else if status =? 429 then ErrorCategory.Throttling
  else if status =? 408 then ErrorCategory.Server
  else if is_server_error status then ErrorCategory.Server
  else ErrorCategory.InvalidResponse.

Definition classify_retry (status : Z) (code : option string) (category : ErrorCategory.t)
  : RetryClassification.t :=
  let by_status := if bool_decide (status ∈ [500; 502; 503; 504])
                   then RetryClassification.Retryable else RetryClassification.Never in
  match category with
  | ErrorCategory.Throttling => RetryClassification.Throttled
  | ErrorCategory.Server | ErrorCategory.Transport | ErrorCategory.Timeout =>
      RetryClassification.Retryable
  | ErrorCategory.Conflict =>
      if code_in code ["ConditionalRequestConflict"; "OperationAborted"]
      then RetryClassification.Retryable else by_status
  | _ => by_status
  end.

(** ** Messages *)

Definition is_ascii_whitespace (c : ascii) : bool :=
  (byte c =? 32) || (byte c =? 9) || (byte c =? 10) || (byte c =? 12) || (byte c =? 13).

(** [split_ascii_whitespace]: the maximal runs of other bytes. *)
Fixpoint whitespace_words (s current : string) : list string :=
  match s with
  | EmptyString => if is_empty current then [] else [current]
  | String c s =>
      if is_ascii_whitespace c then
        (if is_empty current then [] else [current]) ++ whitespace_words s ""
      else whitespace_words s (current +:+ String c "")
  end.

Definition is_message_char (c : ascii) : bool :=
  is_ascii_alphanumeric c || is_ascii_whitespace c || one_of ".,:;_-'()" c.

Definition sanitize_service_message (message : string) : option string :=
  if is_empty message || (512 <? slen message) || contains_str "X-Amz-" message
     || contains_str "authorization" (to_ascii_lowercase message)
     || contains_str "token" (to_ascii_lowercase message)
     || negb (str_all is_message_char message)
  then None
  else Some (join " " (whitespace_words message "")).

Section service_error.
Context `{Http}.
(** [httpdate::parse_http_date], in nanoseconds, and [StatusCode]'s display. *)
Variable parse_http_date : string -> option Z.
Variable display_status : Z -> string.

Definition header_text (headers : HeaderMap) (name : string) : option string :=
  value ← hm_get_str headers name;
  if negb (is_empty value) && (slen value <=? 1024)
     && str_all (fun c => negb (is_ascii_control c)) value
  then Some value else None.

Definition or_else {A} (a b : option A) : option A :=
  match a with Some _ => a | None => b end.

Definition service_error (now : Z) (status : Z) (headers : HeaderMap)
    (parsed : option ParsedS3Error.t) : S3Error.t :=
  let code := parsed ≫= ParsedS3Error.code in
  let category := classify_service_error status code in
  let retry := classify_retry status code category in
  let message :=
    default ("S3 request failed with HTTP status " +:+ display_status status)
      ((parsed ≫= ParsedS3Error.message) ≫= sanitize_service_message) in
  let request_id := or_else (header_text headers "x-amz-request-id")
                      (parsed ≫= ParsedS3Error.request_id) in
  let host_id := or_else (header_text headers "x-amz-id-2") (parsed ≫= ParsedS3Error.host_id) in
  let error := S3Error.with_service_details (S3Error.new category message retry) code status
                 request_id host_id in
  if code_in code ["RequestTimeTooSkewed"; "RequestExpired"]
  then match hm_get_str headers "date" ≫= parse_http_date with
       | Some server_time => S3Error.with_clock_skew error server_time now
       | None => error
       end
  else error.

(** [response_error]: [collected] is the body, bounded by the configured
maximum; [parse] is [parse_s3_error] at that maximum. *)
Definition response_error (parse : string -> result ProtocolError.t ParsedS3Error.t) (now : Z)
    (status : Z) (headers : HeaderMap) (collected : outcome string) : S3Error.t :=
  match collected with
  | Err error => error
  | Ok body =>
      let parsed := match parse body with Ok p => Some p | Err _ => None end in
      service_error now status headers parsed
  end.
End service_error.

(** ** Lemmas *)

Fixpoint frame_bytes (waits : list frame_wait) : string :=
  match waits with
  | [] => ""
  | w :: waits => match frame w with FrameData d => d +:+ frame_bytes waits
                  | NoFrame => "" | _ => frame_bytes waits end
  end.

Lemma collect_incoming_ok waits maximum idle op dl out r :
  slen out <= maximum ->
  collect_incoming waits maximum idle op dl out = Some (Ok r) ->
  r = out +:+ frame_bytes waits /\ slen r <= maximum.
Proof.
  revert dl out. induction waits as [|w waits IH]; intros dl out Hl Hc; [done|]. simpl in *.
  destruct (op <=? _); [done|]. destruct (dl <=? _); [done|]. destruct (frame w); try done.
  - inv_ok. by rewrite app_nil_r_str.
  - by eapply IH.
  - destruct (is_empty bytes) eqn:E.
    + destruct bytes; [|done]. by eapply IH.
    + destruct (checked_add _ _ _) as [n|] eqn:A; [|done]. unfold checked_add in A.
      destruct (_ <=? USIZE_MAX); inv_ok. destruct (maximum <? _) eqn:M; bools; [done|].
      apply IH in Hc as [-> ?]; [|rewrite slen_app; lia]. by rewrite app_assoc_str in *.
Qed.

(** A collection never holds more than the maximum: the output so far is
bounded at every step, which the fixed point's argument is. *)
Lemma collect_response_ok upper start waits maximum idle op r :
  0 <= maximum -> collect_response upper start waits maximum idle op = Some (Ok r) ->
  r = frame_bytes waits /\ slen r <= maximum.
Proof.
  intros Hm. unfold collect_response.
  if_case U; [done|]. intros Hc. apply collect_incoming_ok in Hc; [done|]. by change (slen "") with 0.
Qed.

(** ** Lemmas: substrings *)

Lemma starts_with_before n a c r :
  starts_with n (a +:+ String c r) = true -> contains_char c n = false -> starts_with n a = true.
Proof.
  unfold starts_with, contains_char. revert a. induction n as [|d n IH]; intros a; [by destruct a|].
  destruct a as [|e a]; simpl; intros H N; bools.
  - destruct (Ascii.eqb d c) eqn:E; [|done]. bools. congruence.
  - destruct (Ascii.eqb d e); [|done]. by apply IH.
Qed.

Lemma starts_with_extend n a b : starts_with n a = true -> starts_with n (a +:+ b) = true.
Proof.
  unfold starts_with. revert a. induction n as [|d n IH]; intros [|e a]; simpl; try done.
  destruct (Ascii.eqb d e); [apply IH|done].
Qed.

Lemma contains_str_nil n : contains_str n "" = starts_with n "".
Proof. simpl. apply orb_false_r. Qed.

Lemma contains_str_app_r n a b : contains_str n b = true -> contains_str n (a +:+ b) = true.
Proof. intros H. induction a as [|c a IH]; simpl; [done|]. rewrite IH. apply orb_true_r. Qed.

Lemma contains_str_app_l n a b : contains_str n a = true -> contains_str n (a +:+ b) = true.
Proof.
  induction a as [|c a IH]; intros H.
  - rewrite contains_str_nil in H. destruct n; [|done]. by destruct b.
  - simpl in *. apply orb_true_iff in H as [H|H].
    + apply (starts_with_extend n (String c a) b) in H. simpl in H. by rewrite H.
    + rewrite IH by done. apply orb_true_r.
Qed.

(** A needle without the separator lies within one of the two sides. *)
Lemma contains_str_split n a c r :
  contains_char c n = false -> is_empty n = false ->
  contains_str n (a +:+ String c r) = true -> contains_str n a = true \/ contains_str n r = true.
Proof.
  intros N E. induction a as [|d a IH]; intros H.
  - simpl in H. apply orb_true_iff in H as [H|H]; [|by right]. left.
    rewrite contains_str_nil. by apply (starts_with_before n "" c r).
  - simpl in H. apply orb_true_iff in H as [H|H].
    + left. apply (starts_with_before n (String d a) c r) in H; [|done]. simpl. by rewrite H.
    + apply IH in H as [H|H]; [left|by right]. simpl. rewrite H. apply orb_true_r.
Qed.

Lemma contains_join n ws :
  contains_char " " n = false -> is_empty n = false ->
  contains_str n (join " " ws) = true -> exists w, w ∈ ws /\ contains_str n w = true.
Proof.
  intros N E. induction ws as [|w ws IH]; [by destruct n|]. intros H.
  destruct ws as [|w' ws]; [exists w; split; [set_solver|done]|].
  change (join " " (w :: w' :: ws)) with (w +:+ String " " (join " " (w' :: ws))) in H.
  apply contains_str_split in H as [H|H]; [|by apply IH in H as (x & ? & ?); exists x; set_solver|done..].
  exists w. split; [set_solver|done].
Qed.

Lemma whitespace_words_within s cur w :
  w ∈ whitespace_words s cur -> exists a b, cur +:+ s = a +:+ w +:+ b.
Proof.
  revert cur. induction s as [|c s IH]; intros cur; simpl.
  - destruct (is_empty cur); [set_solver|]. intros ->%list_elem_of_singleton. by exists "", "".
  - destruct (is_ascii_whitespace c).
    + rewrite elem_of_app. intros [H|H].
      * destruct (is_empty cur); [set_solver|]. apply list_elem_of_singleton in H as ->.
        by exists "", (String c s).
      * apply IH in H as (a & b & E). simpl in E. exists (cur +:+ String c a), b.
        rewrite app_assoc_str. simpl. by rewrite E.
    + intros H. apply IH in H as (a & b & E). exists a, b. by rewrite <- E, app_assoc_str.
Qed.

Lemma to_ascii_lowercase_app a b :
  to_ascii_lowercase (a +:+ b) = to_ascii_lowercase a +:+ to_ascii_lowercase b.
Proof. unfold to_ascii_lowercase. induction a; simpl; congruence. Qed.

Lemma to_ascii_lowercase_join ws :
  to_ascii_lowercase (join " " ws) = join " " (to_ascii_lowercase <$> ws).
Proof.
  induction ws as [|w [|w' ws] IH]; [done..|]. rewrite !fmap_cons in *.
  change (join " " (w :: w' :: ws)) with (w +:+ " " +:+ join " " (w' :: ws)).
  change (join " " (to_ascii_lowercase w :: to_ascii_lowercase w' :: (to_ascii_lowercase <$> ws)))
    with (to_ascii_lowercase w +:+ " " +:+ join " " (to_ascii_lowercase w' :: (to_ascii_lowercase <$> ws))).
  by rewrite !to_ascii_lowercase_app, IH.
Qed.

Lemma words_contain n s :
  contains_char " " n = false -> is_empty n = false ->
  contains_str n (join " " (whitespace_words s "")) = true -> contains_str n s = true.
Proof.
  intros N E H. apply contains_join in H as (w & Hw & H); [|done..].
  apply whitespace_words_within in Hw as (a & b & Es). simpl in Es. rewrite Es.
  by apply contains_str_app_r, contains_str_app_l.
Qed.

Lemma words_contain_lower n s :
  contains_char " " n = false -> is_empty n = false ->
  contains_str n (to_ascii_lowercase (join " " (whitespace_words s ""))) = true ->
  contains_str n (to_ascii_lowercase s) = true.
Proof.
  intros N E. rewrite to_ascii_lowercase_join. intros H.
  apply contains_join in H as (w & Hw & H); [|done..].
  apply list_elem_of_fmap in Hw as (v & -> & Hv).
  apply whitespace_words_within in Hv as (a & b & Es). simpl in Es.
  rewrite Es, !to_ascii_lowercase_app. by apply contains_str_app_r, contains_str_app_l.
Qed.

Lemma whitespace_words_length s cur :
  slen (join " " (whitespace_words s cur)) <= slen cur + slen s.
Proof.
  revert cur. induction s as [|c s IH]; intros cur; simpl.
  - destruct (is_empty cur) eqn:E; [destruct cur; [done|done]|].
    change (join " " [cur]) with cur. change (slen "") with 0. lia.
  - rewrite slen_cons. destruct (is_ascii_whitespace c).
    + specialize (IH ""). change (slen "") with 0 in IH. pose proof (slen_nonneg cur).
      destruct (is_empty cur); [simpl; lia|]. simpl app.
      destruct (whitespace_words s "") as [|w ws]; [change (join " " [cur]) with cur; pose proof (slen_nonneg s); lia|].
      change (join " " (cur :: w :: ws)) with (cur +:+ " " +:+ join " " (w :: ws)).
      rewrite !slen_app. change (slen " ") with 1. lia.
    + specialize (IH (cur +:+ String c "")). rewrite slen_app, slen_cons in IH.
      change (slen "") with 0 in IH. lia.
Qed.

(** Bytes of a shown message: no control characters. *)
Definition is_shown (c : ascii) : bool := is_ascii_alphanumeric c || one_of " .,:;_-'()" c.

Lemma whitespace_words_shown s cur :
  str_all is_message_char s = true -> str_all is_shown cur = true ->
  str_all is_shown (join " " (whitespace_words s cur)) = true.
Proof.
  intros Hs Hc. assert (Forall (fun w => str_all is_shown w = true) (whitespace_words s cur)) as F.
  { revert cur Hc. induction s as [|c s IH]; intros cur Hc; simpl in *.
    - destruct (is_empty cur); by repeat constructor.
    - bools. destruct (is_ascii_whitespace c) eqn:W.
      + apply Forall_app. split; [destruct (is_empty cur); by repeat constructor|by apply IH].
      + apply IH; [done|]. rewrite str_all_app, Hc. simpl. rewrite andb_true_r.
        revert H W. all_bytes c. }
  induction F as [|w ws Hw F IH]; [done|]. destruct ws as [|w' ws]; [done|].
  change (join " " (w :: w' :: ws)) with (w +:+ " " +:+ join " " (w' :: ws)).
  by rewrite !str_all_app, Hw, IH.
Qed.

(** A text that may be shown: 1 to 512 bytes, letters, digits, whitespace and plain
punctuation, and none of three markers, the last two in any letter case. *)
Definition presentable (s : string) : Prop :=
  1 <= slen s <= 512 /\
  str_all (fun c => is_ascii_alphanumeric c || is_ascii_whitespace c || one_of ".,:;_-'()" c) s
    = true /\
  contains_str "X-Amz-" s = false /\
  contains_str "authorization" (to_ascii_lowercase s) = false /\
  contains_str "token" (to_ascii_lowercase s) = false.

Lemma sanitize_spec s :
  presentable s /\ sanitize_service_message s = Some (join " " (whitespace_words s "")) \/
  ~ presentable s /\ sanitize_service_message s = None.
Proof.
  assert (He : is_empty s = false <-> 1 <= slen s).
  { destruct s as [|c s]; [by split; [|change (slen "") with 0; lia]|].
    rewrite slen_cons. pose proof (slen_nonneg s). by split; [lia|]. }
  unfold sanitize_service_message, presentable. rewrite <- He.
  change (fun c => is_ascii_alphanumeric c || is_ascii_whitespace c || one_of ".,:;_-'()" c)
    with is_message_char.
  destruct (is_empty s); [right; split; [intros (? & _); naive_solver|done]|].
  destruct (Z.ltb_spec 512 (slen s)); [right; split; [lia|done]|].
  destruct (contains_str "X-Amz-" s); [right; split; [naive_solver|done]|].
  destruct (contains_str "authorization" _); [right; split; [naive_solver|done]|].
  destruct (contains_str "token" _); [right; split; [naive_solver|done]|].
  destruct (str_all is_message_char s); [left|right; split; [naive_solver|done] ].
  split; [|done]. split_and!; try done.
Qed.

Lemma words_sound s (m := join " " (whitespace_words s "")) : presentable s ->
  slen m <= 512 /\ str_all is_shown m = true /\ contains_str "X-Amz-" m = false /\
  contains_str "authorization" (to_ascii_lowercase m) = false /\
  contains_str "token" (to_ascii_lowercase m) = false.
Proof.
  subst m. intros (Hl & Hs & Hx & Ha & Ht). split_and!.
  - pose proof (whitespace_words_length s ""). change (slen "") with 0 in *. lia.
  - by apply whitespace_words_shown.
  - apply not_true_iff_false. intros C. apply words_contain in C; [congruence|done..].
  - apply not_true_iff_false. intros C. apply words_contain_lower in C; [congruence|done..].
  - apply not_true_iff_false. intros C. apply words_contain_lower in C; [congruence|done..].
Qed.

(** Printable ASCII. *)
Definition is_printable (c : ascii) : bool := (32 <=? byte c) && (byte c <=? 126).

Lemma is_shown_printable c : is_shown c = true -> is_printable c = true.
Proof. all_bytes c. Qed.

Lemma service_error_message `{Http} pd ds now status headers parsed :
  S3Error.message (service_error pd ds now status headers parsed)
  = default ("S3 request failed with HTTP status " +:+ ds status)
      ((parsed ≫= ParsedS3Error.message) ≫= sanitize_service_message).
Proof. unfold service_error. by repeat case_match. Qed.

(** ** Properties *)

(** C36. A service error shows the service's own message only when it passes a
filter. The filter lets through 1 to 512 bytes of letters, digits, whitespace and
plain punctuation that hold none of the markers [X-Amz-], and, in any letter case,
[authorization] and [token]; other texts, whatever they tell, are not judged by
their meaning. Of a text let through the words are shown, one space between them,
and none of the markers is in what is shown either. For every other text, and
without one, the message is the generic one, which depends on the status alone.
Either way it is at most 512 bytes of printable ASCII, provided that a status is
printed as at most 400 of them. *)
Theorem service_error_message_safe `{Http} (parse_http_date : string -> option Z)
  (display_status : Z -> string) (now status : Z) (headers : HeaderMap)
  (parsed : option ParsedS3Error.t)
  (Hstatus : slen (display_status status) <= 400 /\
             str_all is_printable (display_status status) = true) :
  let m := S3Error.message (service_error parse_http_date display_status now status headers parsed) in
  slen m <= 512 /\ str_all is_printable m = true /\
  match parsed ≫= ParsedS3Error.message with
  | Some text =>
      (presentable text /\ m = join " " (whitespace_words text "") /\
       str_all is_shown m = true /\ contains_str "X-Amz-" m = false /\
       contains_str "authorization" (to_ascii_lowercase m) = false /\
       contains_str "token" (to_ascii_lowercase m) = false) \/
      (~ presentable text /\ m = "S3 request failed with HTTP status " +:+ display_status status)
  | None => m = "S3 request failed with HTTP status " +:+ display_status status
  end.
Proof.
  intros m. subst m. rewrite service_error_message.
  set (generic := "S3 request failed with HTTP status " +:+ display_status status).
  assert (Hg : slen generic <= 512 /\ str_all is_printable generic = true).
  { subst generic. rewrite slen_app, str_all_app. destruct Hstatus as [Hl ->].
    change (slen "S3 request failed with HTTP status ") with 35. split; [lia|done]. }
  destruct (parsed ≫= ParsedS3Error.message) as [s|]; cbn [mbind option_bind default from_option id];
    [|tauto].
  destruct (sanitize_spec s) as [ [Hp ->] | [Hp ->] ]; cbn [default from_option id]; [|tauto].
  destruct (words_sound s Hp) as (Hl & Hs & Hm). split; [done|].
  split; [|left; exact (conj Hp (conj eq_refl (conj Hs Hm)))].
  eapply str_all_impl; [apply is_shown_printable|exact Hs].
Qed.

(** C38. Classification and retry agree: exactly throttling errors are retried
as throttled, a 500, 502, 503 or 504 is never given up at once, and an error is
never retried unless it is throttling, a server error, one of the two retryable
conflicts or one of those statuses. *)
Theorem service_error_classified `{Http} (parse_http_date : string -> option Z)
  (display_status : Z -> string) (now status : Z) (headers : HeaderMap)
  (parsed : option ParsedS3Error.t) :
  let e := service_error parse_http_date display_status now status headers parsed in
  let code := parsed ≫= ParsedS3Error.code in
  (S3Error.retry_classification e = RetryClassification.Throttled
     <-> S3Error.category e = ErrorCategory.Throttling)
  /\ (status ∈ [500; 502; 503; 504] -> S3Error.retry_classification e <> RetryClassification.Never)
  /\ (S3Error.retry_classification e <> RetryClassification.Never ->
        S3Error.category e = ErrorCategory.Throttling \/ S3Error.category e = ErrorCategory.Server
        \/ code_in code ["ConditionalRequestConflict"; "OperationAborted"] = true
        \/ status ∈ [500; 502; 503; 504])
  /\ S3Error.status e = Some status /\ S3Error.code e = code.
Proof.
  set (e := service_error _ _ _ _ _ _). intros e' code. subst e'.
  assert (S3Error.category e = classify_service_error status code
    /\ S3Error.retry_classification e = classify_retry status code (classify_service_error status code)
    /\ S3Error.status e = Some status /\ S3Error.code e = code) as (-> & -> & Hs & Hc).
  { unfold e, service_error. fold code. by repeat case_match. }
  assert (classify_service_error status code <> ErrorCategory.Transport
    /\ classify_service_error status code <> ErrorCategory.Timeout) as [NT NO].
  { unfold classify_service_error. by repeat case_match. }
  unfold classify_retry.
  destruct (classify_service_error status code) eqn:K; try done;
    repeat case_match; repeat case_bool_decide; split_and!; try done; try tauto; auto.
Qed.

#[local] Existing Instance assoc_http.

(** A message that is shown, with its white space normalised, and one that is not. *)
Lemma service_error_message_safe_witness :
  let display status := to_string status in
  let told text := S3Error.message (service_error (fun _ => None) display 0 503 hm_empty
    (Some (ParsedS3Error.Mk None (Some text) None None None None))) in
  slen (display 503) <= 400 /\
  told "Please  reduce
 your request rate." = "Please reduce your request rate." /\
  told "Authorization: AWS4" = "S3 request failed with HTTP status 503" /\
  presentable "Please  reduce
 your request rate.".
Proof.
  cbv zeta. split; [by vm_compute|]. split; [by vm_compute|]. split; [by vm_compute|].
  destruct (service_error_message_safe (fun _ => None) (fun status => to_string status) 0 503 hm_empty
    (Some (ParsedS3Error.Mk None (Some "Please  reduce
 your request rate.") None None None None))) as (_ & _ & [ [Hp _] | [_ Hm] ]).
  - split; [by vm_compute|by vm_compute].
  - exact Hp.
  - vm_compute in Hm. discriminate Hm.
Defined.
