(* ===== verification/Credentials.v ===== *)
(** Credentials and their providers ([src/credentials/mod.rs]): validated
credential values, the static, environment and caching providers, and the
cache shared by concurrent callers as a step relation over its mutex. Instants
([OffsetDateTime], UTC) are nanoseconds from the Unix epoch. *)

From S2P Require Import Prelude Text Errors.
From stdpp Require Import options.
Local Open Scope Z_scope.

(** The [time] crate's largest date, 9999-12-31T23:59:59.999999999, and
[time::Duration::MAX]; an [i64] of seconds. *)
Definition OFFSET_DATE_TIME_MAX : Z := 253402300799 * NANOS_PER_SEC + 999999999.
Definition I64_MAX : Z := 2 ^ 63 - 1.
Definition TIME_DURATION_MAX : Z := I64_MAX * NANOS_PER_SEC + 999999999.

Module Credentials.
Record t : Type := Mk {
  access_key_id : string;
  secret_access_key : string;
  session_token : option string;
  expires_at : option Z
}.

#[global] Instance eq_dec : EqDecision t.
Proof. solve_decision. Defined.

Definition with_expiration (access_key_id secret_access_key : string)
    (session_token : option string) (expires_at : option Z) : outcome t :=
  if is_empty access_key_id
  then Err (S3Error.configuration "credential access key identifier must not be empty")
  else if is_empty secret_access_key
  then Err (S3Error.configuration "credential secret access key must not be empty")
  else if bool_decide (session_token = Some "")
  then Err (S3Error.configuration "credential session token must not be empty when present")
  else Ok (Mk access_key_id secret_access_key session_token expires_at).

Definition new (access_key_id secret_access_key : string) (session_token : option string)
  : outcome t := with_expiration access_key_id secret_access_key session_token None.

Definition expires_by (c : t) (time : Z) : bool :=
  match expires_at c with Some expiration => expiration <=? time | None => false end.
End Credentials.

(** ** Providers *)

(** What a provider may read when it is called: a state of the world, with the
process environment. A provider answers in each. *)
Class World : Type := {
  world : Type;
  env_var_os : world -> string -> option string
}.

Definition CredentialsProvider `{World} : Type := world -> outcome Credentials.t.

Module StaticCredentialsProvider.
Record t : Type := new { credentials : Credentials.t }.
Definition provide_credentials `{World} (p : t) : CredentialsProvider :=
  fun _ => Ok (credentials p).
End StaticCredentialsProvider.

(** An environment maps a variable to its bytes. *)
Module EnvironmentCredentialsProvider.
Definition read_optional_env (var_os : string -> option string) (name : string)
  : outcome (option string) :=
  transpose
    ((fun value : string =>
        if utf8_valid value then Ok value
        else Err (S3Error.new ErrorCategory.Authentication
                    ("credential environment variable " +:+ name +:+ " is not valid Unicode")
                    RetryClassification.Never)) <$> var_os name).

Definition read_required_env (var_os : string -> option string) (name : string)
  : outcome string :=
  let? value := read_optional_env var_os name in
  ok_or value (S3Error.new ErrorCategory.Authentication
                 ("required credential environment variable " +:+ name +:+ " is not set")
                 RetryClassification.Never).

Definition provide_credentials `{World} : CredentialsProvider := fun w =>
  let var_os := env_var_os w in
  let? access_key_id := read_required_env var_os "AWS_ACCESS_KEY_ID" in
  let? secret_access_key := read_required_env var_os "AWS_SECRET_ACCESS_KEY" in
  let? session_token := read_optional_env var_os "AWS_SESSION_TOKEN" in
  Credentials.new access_key_id secret_access_key session_token.
End EnvironmentCredentialsProvider.

(** The feature aws-credentials: what the AWS SDK's standard chains answer, for
the default or a named profile. The SDK's error is told by its type. *)
Class AwsSdk `{World} : Type := {
  sdk_credentials : option string -> world -> result string Credentials.t;
  sdk_region : option string -> world -> option string
}.

Module AwsDefaultCredentialsProvider.
Record t : Type := Mk { profile : option string }.

Definition new : t := Mk None.

Definition for_profile (profile : string) : outcome t :=
  if is_empty profile then Err (S3Error.configuration "AWS profile name must not be empty")
  else Ok (Mk (Some profile)).

Definition provide_credentials `{AwsSdk} (p : t) : CredentialsProvider := fun w =>
  let? credentials :=
    map_err (fun error => S3Error.with_source
        (S3Error.new ErrorCategory.Authentication
           "AWS default credential chain did not resolve credentials" RetryClassification.Never)
        error) (sdk_credentials (profile p) w) in
  Credentials.with_expiration (Credentials.access_key_id credentials)
    (Credentials.secret_access_key credentials) (Credentials.session_token credentials)
    (Credentials.expires_at credentials).
End AwsDefaultCredentialsProvider.

Definition resolve_default_aws_region `{AwsSdk} (w : world) : outcome string :=
  ok_or (sdk_region None w)
    (S3Error.configuration "AWS default region chain did not resolve a region").

Definition resolve_aws_region_for_profile `{AwsSdk} (profile : string) (w : world)
  : outcome string :=
  if is_empty profile then Err (S3Error.configuration "AWS profile name must not be empty")
  else ok_or (sdk_region (Some profile) w)
         (S3Error.configuration "AWS profile did not resolve a region").

(** The cache. What the wrapped provider answers is an argument. *)
Module CachedCredentialsProvider.
Record t : Type := Mk { refresh_before : Z; cached : option Credentials.t }.

Definition with_refresh_before (refresh_before : Z) : t := Mk refresh_before None.
Definition new : t := with_refresh_before (from_secs 60).

Definition time_duration (d : Z) : Z :=
  if as_secs d <=? I64_MAX then d else TIME_DURATION_MAX.

Definition refresh_deadline (p : t) (now : Z) : Z :=
  Z.min (now + time_duration (refresh_before p)) OFFSET_DATE_TIME_MAX.

Definition invalidate (p : t) : t := Mk (refresh_before p) None.

(** [provide_credentials] up to the call of the wrapped provider, which [None]
stands for. *)
Definition lookup (p : t) (now : Z) : option Credentials.t :=
  match cached p with
  | Some credentials =>
      if negb (Credentials.expires_by credentials (refresh_deadline p now))
      then Some credentials else None
  | None => None
  end.

(** The rest of [provide_credentials], after that call. *)
Definition refreshed (p : t) (now : Z) (answer : outcome Credentials.t)
  : t * outcome Credentials.t :=
  match answer with
  | Ok credentials => (Mk (refresh_before p) (Some credentials), Ok credentials)
  | Err refresh_error =>
      match cached p with
      | Some credentials =>
          if negb (Credentials.expires_by credentials now) then (p, Ok credentials)
          else (p, Err refresh_error)
      | None => (p, Err refresh_error)
      end
  end.

Definition provide_credentials (p : t) (now : Z) (provider : outcome Credentials.t)
  : t * outcome Credentials.t :=
  match lookup p now with
  | Some credentials => (p, Ok credentials)
  | None => refreshed p now provider
  end.
End CachedCredentialsProvider.

(** ** Concurrent callers

The mutex is held over a refresh: while one caller awaits the wrapped provider
no other step reads or writes the cache. A caller whose future is dropped while
it refreshes releases the mutex and leaves the cache as it was. *)

Inductive cache_event : Type :=
| Hit (now : Z) (c : Credentials.t)
| RefreshStarted (now : Z)
| RefreshEnded (now : Z) (answer result : outcome Credentials.t)
| RefreshCancelled
| Invalidated.

(** [refreshing] is the reading of the clock of the caller that holds the mutex
and awaits the provider; [events] is what happened, the latest first. *)
Record CacheState : Type := {
  provider : CachedCredentialsProvider.t;
  refreshing : option Z;
  events : list cache_event
}.

Definition CacheState_new (refresh_before : Z) : CacheState :=
  {| provider := CachedCredentialsProvider.with_refresh_before refresh_before;
     refreshing := None; events := [] |}.

Inductive cache_step : CacheState -> CacheState -> Prop :=
| step_hit s now c :
    refreshing s = None -> CachedCredentialsProvider.lookup (provider s) now = Some c ->
    cache_step s {| provider := provider s; refreshing := None; events := Hit now c :: events s |}
| step_refresh s now :
    refreshing s = None -> CachedCredentialsProvider.lookup (provider s) now = None ->
    cache_step s {| provider := provider s; refreshing := Some now;
                    events := RefreshStarted now :: events s |}
| step_refreshed s now answer p r :
    refreshing s = Some now ->
    CachedCredentialsProvider.refreshed (provider s) now answer = (p, r) ->
    cache_step s {| provider := p; refreshing := None;
                    events := RefreshEnded now answer r :: events s |}
| step_cancelled s now :
    refreshing s = Some now ->
    cache_step s {| provider := provider s; refreshing := None;
                    events := RefreshCancelled :: events s |}
| step_invalidate s :
    refreshing s = None ->
    cache_step s {| provider := CachedCredentialsProvider.invalidate (provider s);
                    refreshing := None; events := Invalidated :: events s |}.

(** ** What the history of a cache says *)

(** The credentials last supplied and not invalidated since. *)
Fixpoint last_supplied (h : list cache_event) : option Credentials.t :=
  match h with
  | RefreshEnded _ (Ok c) _ :: _ => Some c
  | Invalidated :: _ => None
  | _ :: h => last_supplied h
  | [] => None
  end.

(** The clock reading of the refresh that has started and not ended. *)
Definition in_flight (h : list cache_event) : option Z :=
  match h with RefreshStarted now :: _ => Some now | _ => None end.

(** The date before which credentials are refreshed at [now]. *)
Definition window_end (rb now : Z) : Z :=
  Z.min (now + CachedCredentialsProvider.time_duration rb) OFFSET_DATE_TIME_MAX.

(** What a refresh hands over: the provider's answer as it is, and for a failure
the credentials last supplied, if they had not expired when it started. *)
Definition refresh_result (last : option Credentials.t) (now : Z) (answer : outcome Credentials.t)
  : outcome Credentials.t :=
  match answer, last with
  | Ok c, _ => Ok c
  | Err e, Some c =>
      match Credentials.expires_at c with
      | Some expiration => if decide (expiration <= now) then Err e else Ok c
      | None => Ok c
      end
  | Err e, None => Err e
  end.

(** [event_ok rb h e]: the event [e] is right after the history [h]. *)
Definition event_ok (rb : Z) (h : list cache_event) (e : cache_event) : Prop :=
  match e with
  | Hit now c =>
      in_flight h = None /\ last_supplied h = Some c /\ Credentials.expires_by c now = false /\
      Credentials.expires_by c (window_end rb now) = false
  | RefreshStarted now =>
      in_flight h = None /\
      (forall c, last_supplied h = Some c -> Credentials.expires_by c (window_end rb now) = true)
  | RefreshEnded now answer r =>
      in_flight h = Some now /\ r = refresh_result (last_supplied h) now answer
  | RefreshCancelled => in_flight h <> None
  | Invalidated => in_flight h = None
  end.

Fixpoint history_ok (rb : Z) (h : list cache_event) : Prop :=
  match h with [] => True | e :: h => event_ok rb h e /\ history_ok rb h end.

Record cache_ok (rb : Z) (s : CacheState) : Prop := {
  ok_window : CachedCredentialsProvider.refresh_before (provider s) = rb;
  ok_cached : CachedCredentialsProvider.cached (provider s) = last_supplied (events s);
  ok_flight : refreshing s = in_flight (events s);
  ok_history : history_ok rb (events s)
}.

(** Every step reads the clock within the range of dates. *)
Definition reads_in_range (s : CacheState) : Prop :=
  Forall (fun e => match e with Hit now _ => now <= OFFSET_DATE_TIME_MAX | _ => True end) (events s).

(** ** Lemmas *)

Lemma expires_by_mono c t t' : t <= t' ->
  Credentials.expires_by c t' = false -> Credentials.expires_by c t = false.
Proof. unfold Credentials.expires_by. destruct (Credentials.expires_at c); [lia|done]. Qed.

Lemma refresh_deadline_after p now : 0 <= CachedCredentialsProvider.refresh_before p ->
  now <= OFFSET_DATE_TIME_MAX -> now <= CachedCredentialsProvider.refresh_deadline p now.
Proof.
  intros ? ?. unfold CachedCredentialsProvider.refresh_deadline, CachedCredentialsProvider.time_duration.
  case_match; [lia|]. assert (0 <= TIME_DURATION_MAX) by by vm_compute. lia.
Qed.

Lemma lookup_spec p now c :
  CachedCredentialsProvider.lookup p now = Some c <->
  CachedCredentialsProvider.cached p = Some c /\
  Credentials.expires_by c (CachedCredentialsProvider.refresh_deadline p now) = false.
Proof.
  unfold CachedCredentialsProvider.lookup. split.
  - intros H. repeat case_match; simplify_eq. split; [done|]. by apply negb_true_iff.
  - intros [-> ->]. done.
Qed.

Lemma refreshed_spec p now answer p' r :
  CachedCredentialsProvider.refreshed p now answer = (p', r) ->
  CachedCredentialsProvider.refresh_before p' = CachedCredentialsProvider.refresh_before p /\
  CachedCredentialsProvider.cached p' =
    match answer with Ok c => Some c | Err _ => CachedCredentialsProvider.cached p end /\
  r = refresh_result (CachedCredentialsProvider.cached p) now answer.
Proof.
  unfold CachedCredentialsProvider.refreshed, refresh_result. destruct answer as [c|e].
  { by intros [= <- <-]. }
  destruct (CachedCredentialsProvider.cached p) as [c|] eqn:E; [|by intros [= <- <-]].
  unfold Credentials.expires_by. destruct (Credentials.expires_at c) as [x|];
    [|by intros [= <- <-]].
  destruct (Z.leb_spec x now); intros [= <- <-]; rewrite E; case_decide; done || lia.
Qed.

Lemma cache_new_ok rb : cache_ok rb (CacheState_new rb).
Proof. by split. Qed.

Lemma cache_step_ok rb s s' : 0 <= rb -> cache_step s s' -> reads_in_range s' ->
  cache_ok rb s -> cache_ok rb s'.
Proof.
  intros Hrb Hs Hr [Hw Hc Hf Hh].
  destruct Hs as [s now c R L|s now R L|s now a p r R L|s now R|s R].
  - apply lookup_spec in L as [L1 L2]. inversion_clear Hr.
    assert (L3 : Credentials.expires_by c (window_end rb now) = false) by by rewrite <- Hw.
    split; cbn; try done. split_and!; try congruence.
    eapply expires_by_mono; [|exact L2]. apply refresh_deadline_after; lia.
  - split; cbn; try done. split_and!; try congruence. intros c Hl.
    destruct (Credentials.expires_by c _) eqn:X; [done|]. rewrite <- Hc in Hl.
    assert (CachedCredentialsProvider.lookup (provider s) now = Some c); [|congruence].
    apply lookup_spec. split; [done|]. unfold CachedCredentialsProvider.refresh_deadline.
    by rewrite Hw.
  - apply refreshed_spec in L as (L1 & L2 & L3). split; cbn; [congruence| |done|].
    + rewrite L2. destruct a; congruence.
    + split; [|done]. split; [congruence|]. by rewrite <- Hc.
  - split; cbn; try done. split; [congruence|done].
  - split; cbn; try done. split; [congruence|done].
Qed.

Lemma cache_step_grows s s' : cache_step s s' -> exists e, events s' = e :: events s.
Proof. destruct 1; eauto. Qed.

Lemma cache_reachable_ok rb s : 0 <= rb -> rtc cache_step (CacheState_new rb) s ->
  reads_in_range s -> cache_ok rb s.
Proof.
  intros Hrb Hs. revert s Hs. refine (rtc_ind_r _ _ _ _); [intros _; apply cache_new_ok|].
  intros s s' _ Hstep IH Hr. eapply cache_step_ok; [done..|]. apply IH.
  destruct (cache_step_grows _ _ Hstep) as [e E]. unfold reads_in_range in *. rewrite E in Hr.
  by inversion Hr.
Qed.

Lemma history_ok_split rb l e h : history_ok rb (l ++ e :: h) -> event_ok rb h e.
Proof. induction l as [|x l IH]; cbn; [tauto|]. intros [_ ?]. auto. Qed.

(** ** Properties *)

(** C14. The shared cache serves by its history, one refresh at a time. In every
execution of concurrent callers, each event follows its history: a cache hit
returns the credentials last supplied and not invalidated, which have not expired
and do not expire within the refresh window; a refresh starts only when none is in
flight and there are no such credentials; it hands over what the provider answered,
unchecked, or, when the provider fails, the credentials last supplied if they had
not expired when the refresh started (the clock is not read again), and otherwise
the provider's error. *)
Theorem cached_credentials_sound (refresh_before : Z) (s : CacheState)
  (Hwindow : 0 <= refresh_before)
  (Hreach : rtc cache_step (CacheState_new refresh_before) s)
  (Hclock : reads_in_range s) :
  CachedCredentialsProvider.cached (provider s) = last_supplied (events s) /\
  forall later e h, events s = later ++ e :: h -> event_ok refresh_before h e.
Proof.
  destruct (cache_reachable_ok _ _ Hwindow Hreach Hclock) as [_ Hc _ Hh].
  split; [done|]. intros later e h E. rewrite E in Hh. by eapply history_ok_split.
Qed.

(** A refresh, then a hit, then a failed early refresh that falls back. *)
Lemma cached_credentials_sound_witness :
  let c := Credentials.Mk "AKID" "secret" None (Some (from_secs 1000)) in
  let e := S3Error.cancellation "x" in
  let h := [RefreshEnded (from_secs 950) (Err e) (Ok c); RefreshStarted (from_secs 950);
            Hit (from_secs 10) c; RefreshEnded 5 (Ok c) (Ok c); RefreshStarted 5] in
  Some c = last_supplied h /\
  forall later e h', h = later ++ e :: h' -> event_ok (from_secs 60) h' e.
Proof.
  cbv zeta. set (c := Credentials.Mk _ _ _ _). set (e := S3Error.cancellation _).
  apply (cached_credentials_sound (from_secs 60)
           {| provider := CachedCredentialsProvider.Mk (from_secs 60) (Some c); refreshing := None;
              events := [RefreshEnded (from_secs 950) (Err e) (Ok c); RefreshStarted (from_secs 950);
                         Hit (from_secs 10) c; RefreshEnded 5 (Ok c) (Ok c); RefreshStarted 5] |}).
  - by vm_compute.
  - eapply rtc_l; [apply (step_refresh _ 5); reflexivity|].
    eapply rtc_l; [apply (step_refreshed _ 5 (Ok c)); reflexivity|].
    eapply rtc_l; [apply (step_hit _ (from_secs 10) c); reflexivity|].
    eapply rtc_l; [apply (step_refresh _ (from_secs 950)); reflexivity|].
    eapply rtc_l; [apply (step_refreshed _ (from_secs 950) (Err e)); reflexivity|].
    apply rtc_refl.
  - unfold reads_in_range. repeat constructor; by vm_compute.
Defined.
