(* ===== verification/Config.v ===== *)
(** The client configuration ([src/config/mod.rs]): the builder with its
defaults and setters, its validation, and the change of bucket. Durations are
nanoseconds; of an observer only whether one is installed is kept. *)

From S2P Require Import Prelude Text Errors Endpoint Http Retry Credentials.
From stdpp Require Import options.
Local Open Scope Z_scope.

Module S3Config.
Record t `{HttpUri} `{World} : Type := Mk {
  endpoint : Endpoint;
  region : string;
  bucket : string;
  addressing_style : AddressingStyle;
  connect_timeout : Z;
  attempt_timeout : Z;
  operation_timeout : Z;
  idle_body_timeout : Z;
  max_xml_response_size : Z;
  max_error_response_size : Z;
  retry_policy : RetryPolicy;
  user_agent : string;
  credentials_provider : CredentialsProvider;
  observer : bool
}.
Arguments Mk {_ _}.

Definition for_bucket `{HttpUri} `{World} (c : t) (bucket : string) : outcome t :=
  if is_empty bucket then Err (S3Error.configuration "bucket must not be empty")
  else
    let? _ := object_url (endpoint c) bucket None (addressing_style c) in
    Ok (Mk (endpoint c) (region c) bucket (addressing_style c) (connect_timeout c) (attempt_timeout c) (operation_timeout c) (idle_body_timeout c) (max_xml_response_size c) (max_error_response_size c) (retry_policy c) (user_agent c) (credentials_provider c) (observer c)).
End S3Config.

Module S3ConfigBuilder.
Record t `{HttpUri} `{World} : Type := Mk {
  endpoint : Endpoint;
  region : string;
  bucket : option string;
  addressing_style : AddressingStyle;
  allow_http : bool;
  connect_timeout : Z;
  attempt_timeout : Z;
  operation_timeout : Z;
  idle_body_timeout : Z;
  max_xml_response_size : Z;
  max_error_response_size : Z;
  retry_policy : RetryPolicy;
  user_agent : string;
  credentials_provider : CredentialsProvider;
  observer : bool
}.
Arguments Mk {_ _}.

Definition set_endpoint `{HttpUri} `{World} (b : t) (value : Endpoint) : t :=
    Mk value (region b) (bucket b) (addressing_style b) (allow_http b) (connect_timeout b)
    (attempt_timeout b) (operation_timeout b) (idle_body_timeout b) (max_xml_response_size b)
    (max_error_response_size b) (retry_policy b) (user_agent b) (credentials_provider b)
    (observer b).
Definition set_region `{HttpUri} `{World} (b : t) (value : string) : t :=
    Mk (endpoint b) value (bucket b) (addressing_style b) (allow_http b) (connect_timeout b)
    (attempt_timeout b) (operation_timeout b) (idle_body_timeout b) (max_xml_response_size b)
    (max_error_response_size b) (retry_policy b) (user_agent b) (credentials_provider b)
    (observer b).
Definition set_bucket `{HttpUri} `{World} (b : t) (value : string) : t :=
    Mk (endpoint b) (region b) (Some value) (addressing_style b) (allow_http b) (connect_timeout
    b) (attempt_timeout b) (operation_timeout b) (idle_body_timeout b) (max_xml_response_size b)
    (max_error_response_size b) (retry_policy b) (user_agent b) (credentials_provider b)
    (observer b).
Definition set_addressing_style `{HttpUri} `{World} (b : t) (value : AddressingStyle) : t :=
    Mk (endpoint b) (region b) (bucket b) value (allow_http b) (connect_timeout b)
    (attempt_timeout b) (operation_timeout b) (idle_body_timeout b) (max_xml_response_size b)
    (max_error_response_size b) (retry_policy b) (user_agent b) (credentials_provider b)
    (observer b).
Definition allow_http_for_local_testing `{HttpUri} `{World} (b : t) : t :=
    Mk (endpoint b) (region b) (bucket b) (addressing_style b) true (connect_timeout b)
    (attempt_timeout b) (operation_timeout b) (idle_body_timeout b) (max_xml_response_size b)
    (max_error_response_size b) (retry_policy b) (user_agent b) (credentials_provider b)
    (observer b).
Definition set_connect_timeout `{HttpUri} `{World} (b : t) (value : Z) : t :=
    Mk (endpoint b) (region b) (bucket b) (addressing_style b) (allow_http b) value
    (attempt_timeout b) (operation_timeout b) (idle_body_timeout b) (max_xml_response_size b)
    (max_error_response_size b) (retry_policy b) (user_agent b) (credentials_provider b)
    (observer b).
Definition set_attempt_timeout `{HttpUri} `{World} (b : t) (value : Z) : t :=
    Mk (endpoint b) (region b) (bucket b) (addressing_style b) (allow_http b) (connect_timeout
    b) value (operation_timeout b) (idle_body_timeout b) (max_xml_response_size b)
    (max_error_response_size b) (retry_policy b) (user_agent b) (credentials_provider b)
    (observer b).
Definition set_operation_timeout `{HttpUri} `{World} (b : t) (value : Z) : t :=
    Mk (endpoint b) (region b) (bucket b) (addressing_style b) (allow_http b) (connect_timeout
    b) (attempt_timeout b) value (idle_body_timeout b) (max_xml_response_size b)
    (max_error_response_size b) (retry_policy b) (user_agent b) (credentials_provider b)
    (observer b).
Definition set_idle_body_timeout `{HttpUri} `{World} (b : t) (value : Z) : t :=
    Mk (endpoint b) (region b) (bucket b) (addressing_style b) (allow_http b) (connect_timeout
    b) (attempt_timeout b) (operation_timeout b) value (max_xml_response_size b)
    (max_error_response_size b) (retry_policy b) (user_agent b) (credentials_provider b)
    (observer b).
Definition set_max_xml_response_size `{HttpUri} `{World} (b : t) (value : Z) : t :=
    Mk (endpoint b) (region b) (bucket b) (addressing_style b) (allow_http b) (connect_timeout
    b) (attempt_timeout b) (operation_timeout b) (idle_body_timeout b) value
    (max_error_response_size b) (retry_policy b) (user_agent b) (credentials_provider b)
    (observer b).
Definition set_max_error_response_size `{HttpUri} `{World} (b : t) (value : Z) : t :=
    Mk (endpoint b) (region b) (bucket b) (addressing_style b) (allow_http b) (connect_timeout
    b) (attempt_timeout b) (operation_timeout b) (idle_body_timeout b) (max_xml_response_size b)
    value (retry_policy b) (user_agent b) (credentials_provider b) (observer b).
Definition set_retry_policy `{HttpUri} `{World} (b : t) (value : RetryPolicy) : t :=
    Mk (endpoint b) (region b) (bucket b) (addressing_style b) (allow_http b) (connect_timeout
    b) (attempt_timeout b) (operation_timeout b) (idle_body_timeout b) (max_xml_response_size b)
    (max_error_response_size b) value (user_agent b) (credentials_provider b) (observer b).
Definition set_user_agent `{HttpUri} `{World} (b : t) (value : string) : t :=
    Mk (endpoint b) (region b) (bucket b) (addressing_style b) (allow_http b) (connect_timeout
    b) (attempt_timeout b) (operation_timeout b) (idle_body_timeout b) (max_xml_response_size b)
    (max_error_response_size b) (retry_policy b) value (credentials_provider b) (observer b).
Definition set_credentials_provider `{HttpUri} `{World} (b : t) (value : CredentialsProvider) : t :=
    Mk (endpoint b) (region b) (bucket b) (addressing_style b) (allow_http b) (connect_timeout
    b) (attempt_timeout b) (operation_timeout b) (idle_body_timeout b) (max_xml_response_size b)
    (max_error_response_size b) (retry_policy b) (user_agent b) value (observer b).
Definition set_observer `{HttpUri} `{World} (b : t) : t :=
    Mk (endpoint b) (region b) (bucket b) (addressing_style b) (allow_http b) (connect_timeout
    b) (attempt_timeout b) (operation_timeout b) (idle_body_timeout b) (max_xml_response_size b)
    (max_error_response_size b) (retry_policy b) (user_agent b) (credentials_provider b) true.

(** [Default]: [None] if the constant endpoint were refused, a panic. *)
Definition default `{HttpUri} `{World} : option t :=
  match Endpoint_new "https://s3.amazonaws.com" with
  | Ok endpoint =>
      Some (Mk endpoint "us-east-1" None Path false (from_secs 10) (from_secs 30)
              (from_secs (5 * 60)) (from_secs 30) (1024 * 1024) (64 * 1024)
              RetryPolicy_standard "s3-wire/0.3.1"
              EnvironmentCredentialsProvider.provide_credentials false)
  | Err _ => None
  end.

Definition is_token_byte (c : ascii) : bool := is_ascii_alphanumeric c || one_of "-_" c.

Definition validate_nonempty_token (name value : string) : outcome unit :=
  if is_empty value || negb (str_all is_token_byte value)
  then Err (S3Error.configuration (name +:+ " is invalid")) else Ok tt.

(** [Instant::checked_add] where an instant holds an [i64] of seconds. *)
Definition instant_checked_add (now d : Z) : option Z :=
  checked_add (I64_MAX * NANOS_PER_SEC + 999999999) now d.

(** The loop over the timeouts; [now] is the clock when each is checked. *)
Fixpoint validate_timeouts (now : string -> Z) (timeouts : list (string * Z)) : outcome unit :=
  match timeouts with
  | [] => Ok tt
  | (name, timeout) :: timeouts =>
      if timeout =? 0
      then Err (S3Error.configuration (name +:+ " must be greater than zero"))
      else match instant_checked_add (now name) timeout with
           | None => Err (S3Error.configuration
                            (name +:+ " is too large to represent as a deadline"))
           | Some _ => validate_timeouts now timeouts
           end
  end.

Definition timeouts `{HttpUri} `{World} (b : t) : list (string * Z) :=
  [("connect timeout", connect_timeout b); ("attempt timeout", attempt_timeout b);
   ("operation timeout", operation_timeout b); ("idle body timeout", idle_body_timeout b)].

Definition build `{HttpUri} `{Http} `{World} (b : t) (now : string -> Z) : outcome S3Config.t :=
  let? bucket := ok_or (bucket b) (S3Error.configuration "bucket is required") in
  if negb (is_https (endpoint b)) && negb (allow_http b)
  then Err (S3Error.configuration "plain HTTP requires allow_http_for_local_testing")
  else
    let? _ := validate_nonempty_token "region" (region b) in
    if is_empty bucket then Err (S3Error.configuration "bucket must not be empty")
    else
      let? _ := validate_timeouts now (timeouts b) in
      if (max_xml_response_size b =? 0) || (max_error_response_size b =? 0)
      then Err (S3Error.configuration "response body limits must be greater than zero")
      else
        let? _ := ok_or (hv_from_str (user_agent b))
                    (S3Error.configuration "user agent is not a valid HTTP header value") in
        if is_empty (user_agent b)
        then Err (S3Error.configuration "user agent must not be empty")
        else
          let? _ := object_url (endpoint b) bucket None (addressing_style b) in
          Ok (S3Config.Mk (endpoint b) (region b) bucket (addressing_style b)
                (connect_timeout b) (attempt_timeout b) (operation_timeout b)
                (idle_body_timeout b) (max_xml_response_size b) (max_error_response_size b)
                (retry_policy b) (user_agent b) (credentials_provider b) (observer b)).
End S3ConfigBuilder.

(** ** What a configuration guarantees *)

(** The configurations there are: built, then possibly moved to other buckets. *)
Inductive configured `{HttpUri} `{Http} `{World} : S3Config.t -> Prop :=
| configured_build b now c : S3ConfigBuilder.build b now = Ok c -> configured c
| configured_bucket c bucket c' :
    configured c -> S3Config.for_bucket c bucket = Ok c' -> configured c'.

Record config_ok `{HttpUri} `{Http} `{World} (c : S3Config.t) : Prop := {
  ok_region : S3Config.region c <> "" /\
              str_all S3ConfigBuilder.is_token_byte (S3Config.region c) = true;
  ok_bucket : S3Config.bucket c <> "";
  ok_url : is_ok (object_url (S3Config.endpoint c) (S3Config.bucket c) None
                    (S3Config.addressing_style c)) = true;
  ok_timeouts : Forall (fun d => d <> 0)
    [S3Config.connect_timeout c; S3Config.attempt_timeout c;
     S3Config.operation_timeout c; S3Config.idle_body_timeout c];
  ok_limits : S3Config.max_xml_response_size c <> 0 /\ S3Config.max_error_response_size c <> 0;
  ok_agent : S3Config.user_agent c <> "" /\ is_Some (hv_from_str (S3Config.user_agent c))
}.

(** What [build] accepts. *)
Definition builder_ok `{HttpUri} `{Http} `{World} (b : S3ConfigBuilder.t) (now : string -> Z)
  : Prop :=
  exists bucket,
    S3ConfigBuilder.bucket b = Some bucket /\ bucket <> "" /\
    (is_https (S3ConfigBuilder.endpoint b) = true \/ S3ConfigBuilder.allow_http b = true) /\
    (S3ConfigBuilder.region b <> "" /\
     str_all S3ConfigBuilder.is_token_byte (S3ConfigBuilder.region b) = true) /\
    Forall (fun p => p.2 <> 0 /\ now p.1 + p.2 <= I64_MAX * NANOS_PER_SEC + 999999999)
      (S3ConfigBuilder.timeouts b) /\
    S3ConfigBuilder.max_xml_response_size b <> 0 /\
    S3ConfigBuilder.max_error_response_size b <> 0 /\
    is_Some (hv_from_str (S3ConfigBuilder.user_agent b)) /\
    S3ConfigBuilder.user_agent b <> "" /\
    is_ok (object_url (S3ConfigBuilder.endpoint b) bucket None
             (S3ConfigBuilder.addressing_style b)) = true.

Lemma is_empty_false s : is_empty s = false <-> s <> "".
Proof. by destruct s. Qed.

Lemma validate_timeouts_spec now l :
  S3ConfigBuilder.validate_timeouts now l = Ok tt <->
  Forall (fun p => p.2 <> 0 /\ now p.1 + p.2 <= I64_MAX * NANOS_PER_SEC + 999999999) l.
Proof.
  induction l as [|[name d] l IH]; cbn [S3ConfigBuilder.validate_timeouts]; [by split; [constructor|]|].
  rewrite Forall_cons. cbn [fst snd]. rewrite <- IH.
  unfold S3ConfigBuilder.instant_checked_add, checked_add.
  destruct (Z.eqb_spec d 0); [split; [done|intros [[? _] _]; done]|].
  destruct (Z.leb_spec (now name + d) (I64_MAX * NANOS_PER_SEC + 999999999)); [tauto|].
  split; [done|intros [[_ ?] _]; lia].
Qed.

Lemma validate_token_spec name value :
  S3ConfigBuilder.validate_nonempty_token name value = Ok tt <->
  value <> "" /\ str_all S3ConfigBuilder.is_token_byte value = true.
Proof.
  unfold S3ConfigBuilder.validate_nonempty_token.
  destruct value as [|a v]; cbn [is_empty orb]; [by split; [|intros []]|].
  destruct (str_all _ (String a v)); cbn [negb]; [done|by split; [|intros []]].
Qed.

Lemma unit_ok {E} (r : result E unit) u : r = Ok u -> r = Ok tt.
Proof. by destruct u. Qed.

Section validation.
Context `{HttpUri} `{Http} `{World}.

Lemma build_ok b now c : S3ConfigBuilder.build b now = Ok c -> builder_ok b now /\ config_ok c.
Proof.
  unfold S3ConfigBuilder.build. intros Hb. steps_in Hb. inv_ok.
  repeat match goal with
  | E : S3ConfigBuilder.validate_nonempty_token _ _ = Ok _ |- _ =>
      apply unit_ok, validate_token_spec in E
  | E : S3ConfigBuilder.validate_timeouts _ _ = Ok _ |- _ =>
      apply unit_ok, validate_timeouts_spec in E
  | E : is_empty _ = false |- _ => apply is_empty_false in E
  end.
  rewrite andb_false_iff, !negb_false_iff in Heqb0. apply orb_false_iff in Heqb2 as [?%Z.eqb_neq ?%Z.eqb_neq].
  destruct (S3ConfigBuilder.bucket b) as [bu|] eqn:B; cbn [ok_or] in Heqr; inv_ok.
  destruct (hv_from_str _) eqn:V; cbn [ok_or] in Heqr2; inv_ok.
  split.
  - exists a. rewrite B, V, Heqr3. split_and!; try done; tauto.
  - split; cbn [S3Config.region S3Config.bucket S3Config.endpoint S3Config.addressing_style
                S3Config.user_agent S3Config.max_xml_response_size
                S3Config.max_error_response_size S3Config.connect_timeout
                S3Config.attempt_timeout S3Config.operation_timeout S3Config.idle_body_timeout];
      try done; rewrite ?Heqr3, ?V; try by eauto.
    unfold S3ConfigBuilder.timeouts in Heqr1. decompose_Forall; cbn in *; tauto.
Qed.

Lemma build_complete b now : builder_ok b now -> is_ok (S3ConfigBuilder.build b now) = true.
Proof.
  intros (bucket & B & N & S & R & T & X & L & U & UA & O). unfold S3ConfigBuilder.build.
  rewrite B. cbn [ok_or]. rewrite (proj2 (validate_token_spec _ _) R).
  rewrite (proj2 (validate_timeouts_spec _ _) T).
  rewrite (proj2 (is_empty_false bucket) N), (proj2 (is_empty_false _) UA).
  rewrite (proj2 (Z.eqb_neq _ _) X), (proj2 (Z.eqb_neq _ _) L). destruct U as [v ->].
  cbn [ok_or orb]. destruct (object_url _ _ _ _); [|done].
  destruct S as [-> | ->]; [done|]. by destruct (is_https _).
Qed.

Lemma for_bucket_ok c bucket c' : config_ok c -> S3Config.for_bucket c bucket = Ok c' -> config_ok c'.
Proof.
  intros [R B U T L A] Hc. unfold S3Config.for_bucket in Hc. steps_in Hc. inv_ok.
  match goal with E : is_empty _ = false |- _ => apply is_empty_false in E end.
  split; try done. cbn. by match goal with E : object_url _ _ _ _ = _ |- _ => rewrite E end.
Qed.

Lemma configured_ok c : configured c -> config_ok c.
Proof. induction 1; [by eapply build_ok|by eapply for_bucket_ok]. Qed.
End validation.

(** ** Properties *)

(** C29. A client has a usable configuration: every configuration that is built
or moved to another bucket has a region and a bucket, an addressable bucket URL,
positive timeouts and limits and a user agent that is a header value; and
[build] accepts exactly the builders that satisfy its rules, of which HTTPS
unless opted out is one. *)
Theorem config_valid `{HttpUri} `{Http} `{World} (c : S3Config.t) (b : S3ConfigBuilder.t)
  (now : string -> Z) (Hc : configured c) :
  config_ok c /\ (is_ok (S3ConfigBuilder.build b now) = true <-> builder_ok b now).
Proof.
  split; [by apply configured_ok|]. split; [|apply build_complete].
  destruct (S3ConfigBuilder.build b now) eqn:E; [|done]. intros _. by apply build_ok in E as [? _].
Qed.

Definition sample_world : World := {| world := unit; env_var_os _ _ := None |}.

#[local] Existing Instance sample_uri.
#[local] Existing Instance assoc_http.
#[local] Existing Instance sample_world.

Definition sample_builder (bucket : string) : S3ConfigBuilder.t :=
  S3ConfigBuilder.Mk sample_endpoint "eu-west-1" (Some bucket) Path false (from_secs 10)
    (from_secs 30) (from_secs 300) (from_secs 30) 1048576 65536 RetryPolicy_standard
    "s3-wire/0.3.1" EnvironmentCredentialsProvider.provide_credentials false.
Definition sample_config : S3Config.t :=
  S3Config.Mk sample_endpoint "eu-west-1" "photos" Path (from_secs 10)
    (from_secs 30) (from_secs 300) (from_secs 30) 1048576 65536 RetryPolicy_standard
    "s3-wire/0.3.1" EnvironmentCredentialsProvider.provide_credentials false.

Lemma config_valid_witness :
  config_ok sample_config /\
  (is_ok (S3ConfigBuilder.build (sample_builder "photos") (fun _ => 0)) = true <->
   builder_ok (sample_builder "photos") (fun _ => 0)).
Proof.
  apply (config_valid sample_config (sample_builder "photos") (fun _ => 0)).
  apply (configured_bucket
           (S3Config.Mk sample_endpoint "eu-west-1" "other" Path (from_secs 10)
              (from_secs 30) (from_secs 300) (from_secs 30) 1048576 65536 RetryPolicy_standard
              "s3-wire/0.3.1" EnvironmentCredentialsProvider.provide_credentials false) "photos").
  - by apply (configured_build (sample_builder "other") (fun _ => 0)).
  - reflexivity.
Defined.
