(* ===== verification/Request.v ===== *)
(** Building and signing one request ([src/client/request/headers.rs] and
[src/client/request/signing.rs]) and handing it to the transport
([src/transport/mod.rs]). Connection pooling, TLS and the HTTP protocol are the
transport's, an argument here. *)

From S2P Require Import Prelude Text Errors Canonical SigV4 Endpoint Http Stream Credentials.
From stdpp Require Import options.
Local Open Scope Z_scope.

(** ** [headers.rs] *)

Definition PROTECTED_HEADERS : list string :=
  ["host"; "authorization"; "x-amz-date"; "x-amz-security-token"; "x-amz-content-sha256";
   "content-length"; "transfer-encoding"].

Definition header_collision (name : string) : S3Error.t :=
  S3Error.configuration
    ("request header `" +:+ name +:+
     "` conflicts with a generated, signing-owned, or transport-owned header").

Section headers.
Context `{Http}.

Fixpoint reject_protected (names : list string) (headers : HeaderMap) : outcome HeaderMap :=
  match names with
  | [] => Ok headers
  | name :: names =>
      if hm_contains headers name then Err (header_collision name)
      else reject_protected names headers
  end.

Definition request_headers (headers : HeaderMap) : outcome HeaderMap :=
  reject_protected PROTECTED_HEADERS headers.

Definition insert_header (headers : HeaderMap) (name value : string) : outcome HeaderMap :=
  if hm_contains headers name then Err (header_collision name)
  else
    let? value := ok_or (hv_from_str value)
      (S3Error.configuration "request contains an invalid header value") in
    Ok (hm_insert name value headers).

Definition insert_optional_header (headers : HeaderMap) (name : string) (value : option string)
  : outcome HeaderMap :=
  match value with Some value => insert_header headers name value | None => Ok headers end.

Definition insert_named_header (headers : HeaderMap) (name value : string) : outcome HeaderMap :=
  let? name := ok_or (hn_from_bytes name)
    (S3Error.configuration "request contains an invalid header name") in
  insert_header headers name value.

Definition insert_optional_named_header (headers : HeaderMap) (name : string)
    (value : option string) : outcome HeaderMap :=
  match value with Some value => insert_named_header headers name value | None => Ok headers end.
End headers.

(** ** [signing.rs] *)

Record SignedRequestInput `{Http} : Type := {
  si_method : string;
  si_target : EndpointUrl;
  si_query : list QueryParam;
  si_headers : HeaderMap;
  si_body : option PreparedBody;
  si_payload_hash : string;
  si_signing_region : string
}.

(** [http::Request<TransportBody>]. A [None] uri is the panic of [request_uri]. *)
Record Request `{Http} `{HttpUri} : Type := {
  rq_method : string;
  rq_uri : option Uri;
  rq_headers : HeaderMap;
  rq_body : TransportBody
}.

(** The moments of one signature: the world the provider answers in, the clock
at the expiry check and the clock that is signed. *)
Record SigningMoment `{World} : Type := {
  provider_world : world;
  expiry_now : Z;
  signing_now : Z
}.

Section signing.
Context `{Http} `{HttpUri} `{World} `{Primitives}.

Definition expired_credentials : S3Error.t :=
  S3Error.new ErrorCategory.Authentication "credential provider returned expired credentials"
    RetryClassification.Never.

Definition signing_failed : S3Error.t :=
  S3Error.with_source
    (S3Error.new ErrorCategory.Authentication "request signing failed" RetryClassification.Never)
    "s3_wire::signing::request::types::SigningError".

Definition set_header (name value message : string) (headers : HeaderMap) : outcome HeaderMap :=
  let? value := ok_or (hv_from_str value) (S3Error.configuration message) in
  Ok (hm_insert name value headers).

(** The caller's headers with the ones that describe the request. *)
Definition unsigned_headers (input : SignedRequestInput) : outcome HeaderMap :=
  let? headers := set_header "host" (authority (si_target input))
                    "endpoint authority is not a valid header" (si_headers input) in
  let? headers := set_header "x-amz-content-sha256" (si_payload_hash input)
                    "payload digest is not a valid header" headers in
  Ok (match si_body input with
      | Some body => hm_insert "content-length" (hv_from_u64 (body_length body)) headers
      | None => headers
      end).

Definition owned_headers (headers : HeaderMap) : outcome (list Header) :=
  try_map (fun '(name, value) =>
    let? value := ok_or (hv_to_str value)
      (S3Error.configuration "a signed header contains non-ASCII bytes") in
    Ok (hdr name value)) (hm_iter headers).

(** The part of the target before the query. *)
Definition signed_path (target : EndpointUrl) : string :=
  match split_once "?" (path_and_query target) with
  | Some (path, _) => path
  | None => path_and_query target
  end.

Definition signing_request (input : SignedRequestInput) (headers : list Header)
  : HeaderSigningRequest :=
  {| hs_method := si_method input; hs_uri_path := Encoded (signed_path (si_target input));
     hs_query := si_query input; hs_headers := headers;
     hs_payload_hash := si_payload_hash input |}.

Definition signing_credentials (c : Credentials.t) : SigningCredentials :=
  {| access_key_id := Credentials.access_key_id c;
     secret_access_key := Credentials.secret_access_key c;
     session_token := Credentials.session_token c |}.

Definition signed_headers (signed : HeaderSigningOutput) (headers : HeaderMap)
  : outcome HeaderMap :=
  let? headers := set_header "authorization" (authorization signed)
                    "generated authorization header is invalid" headers in
  let? headers := set_header "x-amz-date" (amz_date signed)
                    "generated signing date is invalid" headers in
  match security_token signed with
  | Some token => set_header "x-amz-security-token" token
                    "generated session token header is invalid" headers
  | None => Ok headers
  end.

(** [PreparedBody::request_body], or an empty body; the prepared body left. *)
Definition attempt_body (body : option PreparedBody)
  : outcome TransportBody * option PreparedBody :=
  match body with
  | Some body => let (r, body) := request_body body in (r, Some body)
  | None => (Ok TransportBody_empty, None)
  end.

(** [signed_request], with the prepared body it leaves behind. *)
Definition signed_request (provide_credentials : CredentialsProvider) (at_ : SigningMoment)
    (input : SignedRequestInput) : outcome Request * option PreparedBody :=
  match
    let? headers := unsigned_headers input in
    let? credentials := provide_credentials (provider_world at_) in
    if Credentials.expires_by credentials (expiry_now at_) then Err expired_credentials
    else
      let? owned := owned_headers headers in
      let? signed :=
        map_err (fun _ => signing_failed)
          (sign_headers (signing_credentials credentials)
             {| region := si_signing_region input; service := "s3" |}
             (signing_request input owned) (signing_now at_)) in
      signed_headers signed headers
  with
  | Err e => (Err e, si_body input)
  | Ok headers =>
      let (body, left) := attempt_body (si_body input) in
      (let? body := body in
       Ok {| rq_method := si_method input; rq_uri := request_uri (si_target input);
             rq_headers := headers; rq_body := body |}, left)
  end.
End signing.

(** ** [transport/mod.rs] *)

(** What an error of the HTTP client has in its chain of sources. *)
Inductive error_cause : Type :=
| CauseS3 (e : S3Error.t) | CauseIo (timed_out : bool) | CauseTls | CauseOther.
Record ClientError : Type := { error_chain : list error_cause; is_connect : bool }.

Definition client_error_type : string := "hyper_util::client::legacy::client::Error".

Fixpoint error_chain_s3_error (chain : list error_cause) : option S3Error.t :=
  match chain with
  | [] => None
  | CauseS3 e :: _ => Some e
  | _ :: chain => error_chain_s3_error chain
  end.
Fixpoint error_chain_has_io_timeout (chain : list error_cause) : bool :=
  match chain with
  | [] => false
  | CauseIo true :: _ => true
  | _ :: chain => error_chain_has_io_timeout chain
  end.
Fixpoint error_chain_has_tls_error (chain : list error_cause) : bool :=
  match chain with
  | [] => false
  | CauseTls :: _ => true
  | _ :: chain => error_chain_has_tls_error chain
  end.

Definition classify_client_error (error : ClientError) (is_https : bool) : S3Error.t :=
  match error_chain_s3_error (error_chain error) with
  | Some body_error =>
      let preserved :=
        match S3Error.timeout_phase body_error with
        | Some phase => S3Error.timeout phase (S3Error.message body_error)
        | None => S3Error.new (S3Error.category body_error) (S3Error.message body_error)
                    (S3Error.retry_classification body_error)
        end in
      S3Error.with_source preserved client_error_type
  | None =>
      if is_connect error && error_chain_has_io_timeout (error_chain error)
      then S3Error.with_source
             (S3Error.timeout TimeoutPhase.Connect
                "connection establishment exceeded its configured timeout") client_error_type
      else if is_https && is_connect error && error_chain_has_tls_error (error_chain error)
      then S3Error.with_source
             (S3Error.new ErrorCategory.Tls "TLS negotiation or certificate verification failed"
                RetryClassification.Never) client_error_type
      else S3Error.transport client_error_type
  end.

Definition classify_response_body_error (error_type : string) : S3Error.t :=
  S3Error.with_source
    (S3Error.integrity
       "response body could not be verified because the transport interrupted it") error_type.

(** What the HTTP client answers: [ElapsedAttempt] is the attempt's timeout. *)
Inductive client_answer (R : Type) : Type :=
| ElapsedAttempt
| ClientFailed (e : ClientError)
| Answered (response : R).
Arguments ElapsedAttempt {R}.
Arguments ClientFailed {R} e.
Arguments Answered {R} response.

(** What the code asks of hyper's [HttpConnector] and rustls's [HttpsConnector]
builder: certificate checks against the WebPKI roots, the schemes and protocols. *)
Record Connector : Type := {
  enforce_http : bool;
  connect_limit : option Z;
  nodelay : bool;
  webpki_roots : bool;
  https_only : bool;
  enable_http1 : bool;
  enable_http2 : bool
}.

Record Transport `{Http} : Type := {
  connector : Connector;
  user_agent : HeaderValue;
  allow_http : bool
}.

Section transport.
Context `{Http} `{HttpUri}.

(** [Transport::new]; [http2] is the crate's feature. *)
Definition Transport_new (http2 : bool) (connect_timeout : Z) (user_agent : string)
    (allow_http : bool) : outcome Transport :=
  let connector :=
    {| enforce_http := false; connect_limit := Some connect_timeout; nodelay := true;
       webpki_roots := true; https_only := negb allow_http; enable_http1 := true;
       enable_http2 := http2 |} in
  let? user_agent := ok_or (hv_from_str user_agent)
    (S3Error.configuration "user agent is not a valid HTTP header value") in
  Ok {| connector := connector; user_agent := user_agent; allow_http := allow_http |}.

Definition scheme_str (request : Request) : option string :=
  uri ← rq_uri request; scheme_as_str <$> uri_scheme uri.

Definition permitted_scheme (t : Transport) (request : Request) : bool :=
  bool_decide (scheme_str request = Some "https")
  || (allow_http t && bool_decide (scheme_str request = Some "http")).

(** The request as it goes to the HTTP client. *)
Definition with_user_agent (t : Transport) (request : Request) : Request :=
  {| rq_method := rq_method request; rq_uri := rq_uri request;
     rq_headers := if hm_contains (rq_headers request) "user-agent" then rq_headers request
                   else hm_insert "user-agent" (user_agent t) (rq_headers request);
     rq_body := rq_body request |}.

(** [send]: the request handed to the client, if any, and the outcome. *)
Definition send {R} (t : Transport) (client : Request -> client_answer R) (request : Request)
  : option Request * outcome R :=
  if permitted_scheme t request then
    let request := with_user_agent t request in
    (Some request,
     match client request with
     | ElapsedAttempt => Err (S3Error.timeout TimeoutPhase.Request
                                "request attempt exceeded its configured timeout")
     | ClientFailed e =>
         Err (classify_client_error e (bool_decide (scheme_str request = Some "https")))
     | Answered response => Ok response
     end)
  else (None, Err (S3Error.configuration
          "transport refused a request without an explicitly permitted scheme")).
End transport.

(** ** Lemmas *)

Section lemmas.
Set Default Proof Using "Type*".
Context `{HttpLaws} `{HttpUri} `{World} `{Primitives}.

Lemma try_map_elem {E A B} (f : A -> result E B) l bs a :
  try_map f l = Ok bs -> a ∈ l -> exists b, f a = Ok b /\ b ∈ bs.
Proof.
  revert bs. induction l as [|x l IH]; intros bs Hm Ha; [by apply elem_of_nil in Ha|].
  cbn [try_map] in Hm. steps_in Hm. inv_ok. apply elem_of_cons in Ha as [->|Ha].
  - eexists. split; [done|]. by left.
  - destruct (IH _ eq_refl Ha) as (b & ? & ?). exists b. split; [done|]. by right.
Qed.

Lemma set_header_ok n v m h h' : set_header n v m h = Ok h' ->
  exists w, hv_from_str v = Some w /\ hv_bytes w = v /\ h' = hm_insert n w h.
Proof.
  unfold set_header. destruct (hv_from_str v) as [w|] eqn:E; cbn [ok_or]; [|done]. intros; inv_ok.
  exists w. split_and!; try done. by apply hv_from_str_bytes.
Qed.

Lemma unsigned_headers_ok i h : unsigned_headers i = Ok h ->
  (exists w, hm_get_all h "host" = [w] /\ hv_bytes w = authority (si_target i)) /\
  (exists w, hm_get_all h "x-amz-content-sha256" = [w] /\ hv_bytes w = si_payload_hash i) /\
  (forall b, si_body i = Some b -> hm_get_all h "content-length" = [hv_from_u64 (body_length b)]) /\
  (forall k, k <> "host" -> k <> "x-amz-content-sha256" -> k <> "content-length" ->
     hm_get_all h k = hm_get_all (si_headers i) k).
Proof.
  unfold unsigned_headers. intros Hu. steps_in Hu. inv_ok.
  repeat match goal with E : set_header _ _ _ _ = Ok _ |- _ =>
    apply set_header_ok in E as (? & _ & ? & ->) end.
  destruct (si_body i) as [b|]; split_and!; intros;
    repeat first [rewrite hm_get_all_insert | rewrite hm_get_all_insert_ne by congruence];
    try (by eauto); by simplify_eq.
Qed.

Lemma owned_headers_elem h l k v : owned_headers h = Ok l -> (k, v) ∈ hm_iter h ->
  hdr k (hv_bytes v) ∈ l.
Proof.
  unfold owned_headers. intros Hm Hi. destruct (try_map_elem _ _ _ _ Hm Hi) as (b & Hb & ?).
  cbn in Hb. destruct (hv_to_str v) as [s|] eqn:E; cbn [ok_or] in Hb; [|done]. inv_ok.
  by apply hv_to_str_bytes in E as [-> _].
Qed.

(** The headers added after signing are those of the signature. *)
Lemma signed_headers_elem out h h' k v : signed_headers out h = Ok h' -> (k, v) ∈ hm_iter h' ->
  (k = "authorization" /\ hv_bytes v = authorization out) \/
  (k = "x-amz-date" /\ hv_bytes v = amz_date out) \/
  (k = "x-amz-security-token" /\ Some (hv_bytes v) = security_token out) \/
  (k, v) ∈ hm_iter h.
Proof.
  unfold signed_headers. intros Hs Hi.
  destruct (set_header "authorization" _ _ _) as [ha|] eqn:Ea; [|done].
  destruct (set_header "x-amz-date" _ _ _) as [hd|] eqn:Ed; [|done].
  apply set_header_ok in Ea as (wa & _ & Ea & ->), Ed as (wd & _ & Ed & ->).
  assert (Ht : (k = "x-amz-security-token" /\ Some (hv_bytes v) = security_token out) \/
    (k, v) ∈ hm_iter (hm_insert "x-amz-date" wd (hm_insert "authorization" wa h))).
  { destruct (security_token out) as [t|]; [|inv_ok; by right].
    apply set_header_ok in Hs as (wt & _ & Et & ->).
    apply hm_iter_insert in Hi as [[-> ->]|[_ Hi]]; [left; by rewrite Et|by right]. }
  destruct Ht as [Ht|Ht]; [by auto|].
  apply hm_iter_insert in Ht as [[-> ->]|[_ Ht]]; [by auto|].
  apply hm_iter_insert in Ht as [[-> ->]|[_ Ht]]; by auto 10.
Qed.

Lemma signed_request_ok p at_ i rq left : signed_request p at_ i = (Ok rq, left) ->
  exists c h owned signed b,
    unsigned_headers i = Ok h /\ p (provider_world at_) = Ok c /\
    Credentials.expires_by c (expiry_now at_) = false /\ owned_headers h = Ok owned /\
    sign_headers (signing_credentials c) {| region := si_signing_region i; service := "s3" |}
      (signing_request i owned) (signing_now at_) = Ok signed /\
    signed_headers signed h = Ok (rq_headers rq) /\
    attempt_body (si_body i) = (Ok b, left) /\
    rq = {| rq_method := si_method i; rq_uri := request_uri (si_target i);
            rq_headers := rq_headers rq; rq_body := b |}.
Proof.
  unfold signed_request. intros Hs.
  match type of Hs with match ?m with _ => _ end = _ => destruct m as [hs|] eqn:E; [|done] end.
  destruct (unsigned_headers i) as [h|] eqn:Eh; [|done].
  destruct (p (provider_world at_)) as [c|] eqn:Ec; [|done].
  destruct (Credentials.expires_by c (expiry_now at_)) eqn:Ex; [done|].
  destruct (owned_headers h) as [owned|] eqn:Eo; [|done].
  destruct (sign_headers _ _ _ _) as [signed|] eqn:Es; cbn [map_err] in E; [|done].
  destruct (attempt_body (si_body i)) as [[b|] l] eqn:B; [|done].
  injection Hs as <- <-. exists c, h, owned, signed, b. done.
Qed.
End lemmas.

(** ** Properties *)

(** C26. Nothing is sent unsigned. A request that was signed carries, besides
the authorization, the date and the token the signer produced, only headers
that the signature covers, its [Host] and payload digest being those of the
target and the body; the signature is over the path of the target, for the
given region, with credentials that had not expired. *)
Theorem signed_request_covers `{HttpLaws} `{HttpUri} `{World} `{Primitives}
  (provide_credentials : CredentialsProvider) (moment : SigningMoment)
  (input : SignedRequestInput) (rq : Request) (left : option PreparedBody)
  (Hok : signed_request provide_credentials moment input = (Ok rq, left)) :
  rq_method rq = si_method input /\ rq_uri rq = request_uri (si_target input) /\
  exists c owned signed,
    provide_credentials (provider_world moment) = Ok c /\
    Credentials.expires_by c (expiry_now moment) = false /\
    sign_headers (signing_credentials c)
      {| region := si_signing_region input; service := "s3" |}
      (signing_request input owned) (signing_now moment) = Ok signed /\
    (forall k v, (k, v) ∈ hm_iter (rq_headers rq) ->
       (k = "authorization" /\ hv_bytes v = authorization signed) \/
       (k = "x-amz-date" /\ hv_bytes v = amz_date signed) \/
       (k = "x-amz-security-token" /\ Some (hv_bytes v) = security_token signed) \/
       hdr k (hv_bytes v) ∈ owned) /\
    hdr "host" (authority (si_target input)) ∈ owned /\
    hdr "x-amz-content-sha256" (si_payload_hash input) ∈ owned.
Proof.
  apply signed_request_ok in Hok as (c & h & owned & signed & b & Hh & Hc & Hx & Ho & Hs & Hr & _ & E).
  rewrite E. split_and!; [done..|]. exists c, owned, signed. split_and!; try done.
  - intros k v Hi. cbn [rq_headers] in Hi.
    destruct (signed_headers_elem _ _ _ _ _ Hr Hi) as [?|[?|[?|?]]]; auto.
    do 3 right. by eapply owned_headers_elem.
  - apply unsigned_headers_ok in Hh as ((w & Hw & <-) & _). eapply owned_headers_elem; [done|].
    apply hm_iter_elem. rewrite Hw. by left.
  - apply unsigned_headers_ok in Hh as (_ & (w & Hw & <-) & _). eapply owned_headers_elem; [done|].
    apply hm_iter_elem. rewrite Hw. by left.
Qed.

Definition sample_signing_world : World := {| world := unit; env_var_os _ _ := None |}.
#[local] Existing Instance assoc_http.
#[local] Existing Instance assoc_http_laws.
#[local] Existing Instance sample_uri.
#[local] Existing Instance sample_signing_world.
#[local] Existing Instance sample_primitives.

Definition sample_provider : CredentialsProvider :=
  fun _ => Ok (Credentials.Mk "AKID" "secret" (Some "tok") None).
Definition sample_input : SignedRequestInput :=
  {| si_method := "GET"; si_target := sample_url "s3.example.com" "/base/photos/a";
     si_query := []; si_headers := hm_insert "x-example" ("1" : HeaderValue) hm_empty; si_body := None;
     si_payload_hash := payload_sha256_hex ""; si_signing_region := "us-east-1" |}.
Definition sample_moment : SigningMoment :=
  {| provider_world := tt; expiry_now := 0; signing_now := 0 |}.

Definition sample_request : Request :=
  Eval vm_compute in
    match (signed_request sample_provider sample_moment sample_input).1 as r
      return match r with Ok _ => Request | Err _ => unit end with
    | Ok r => r
    | Err _ => tt
    end.

Lemma signed_request_covers_witness :
  signed_request sample_provider sample_moment sample_input = (Ok sample_request, None)
  /\ rq_method sample_request = "GET"
  /\ rq_uri sample_request = request_uri (sample_url "s3.example.com" "/base/photos/a").
Proof.
  assert (Hok : signed_request sample_provider sample_moment sample_input
                = (Ok sample_request, None)) by reflexivity.
  split; [exact Hok|].
  pose proof (signed_request_covers sample_provider sample_moment sample_input sample_request None Hok)
    as C.
  exact (conj (proj1 C) (proj1 (proj2 C))).
Defined.
