(* ===== verification/Execute.v ===== *)
(** Executing one operation ([src/client/request/execute.rs], with the client of
[src/client/mod.rs] and the events of [src/observer.rs]): signing, sending,
judging the response, following one region correction and retrying, within the
operation's deadline. Clock readings, what the transport answers and the other
users of the shared retry quota are arguments, one record per attempt. *)

From S2P Require Import Prelude Text Errors Canonical SigV4 Endpoint Http Retry Quota Types.
From S2P Require Import Stream Xml Records Protocol Response Credentials Config Request.
From stdpp Require Import options.
Local Open Scope Z_scope.

(** ** [observer.rs] *)

Module RequestEventKind.
Inductive t : Type :=
| AttemptStarted | AttemptSucceeded | AttemptFailed | RetryScheduled | RegionRedirected.
#[global] Instance eq_dec : EqDecision t.
Proof. solve_decision. Defined.
End RequestEventKind.

Module RequestEvent.
Record t : Type := Mk {
  kind : RequestEventKind.t;
  method : string;
  attempt : Z;
  error_category : option ErrorCategory.t;
  retry_classification : option RetryClassification.t;
  retry_delay : option Z
}.
End RequestEvent.

(** ** [OperationDeadline] *)

Record OperationDeadline : Type := { at_ : Z }.
Definition OperationDeadline_new (now timeout : Z) : OperationDeadline := {| at_ := now + timeout |}.
Definition deadline_remaining (d : OperationDeadline) (now : Z) : outcome Z :=
  if now <? at_ d then Ok (at_ d - now) else Err operation_timeout.

(** ** Responses *)

(** A response with what the collection of its body will see. *)
Record Response `{Http} : Type := {
  status : Z;
  rsp_headers : HeaderMap;
  size_upper : option Z;
  collect_start : Z;
  frames : list frame_wait
}.

Record CollectedSignedResponse `{Http} : Type := {
  collected_headers : HeaderMap;
  collected_body : string
}.

Inductive SuccessMode : Type :=
| Streaming
| CollectedXml (maximum : Z)
    (embedded_error : string -> Z -> result ProtocolError.t (option ParsedS3Error.t)).

Inductive SuccessfulResponse `{Http} : Type :=
| StreamingResponse (response : Response)
| Collected (response : CollectedSignedResponse).

Definition is_success (status : Z) : bool := (200 <=? status) && (status <? 300).

(** ** The client *)

Record S3Client `{HttpUri} `{World} `{Http} : Type := {
  config : S3Config.t;
  transport : Transport
}.

Section client.
Context `{Http} `{HttpUri} `{World} `{Primitives} `{Documents} `{HttpText}.

Definition S3Client_new (http2 : bool) (config : S3Config.t) : outcome S3Client :=
  let? transport := Transport_new http2 (S3Config.connect_timeout config)
                      (S3Config.user_agent config)
                      (negb (is_https (S3Config.endpoint config))) in
  Ok {| config := config; transport := transport |}.

Definition S3Client_for_bucket (c : S3Client) (bucket : string) : outcome S3Client :=
  let? config := S3Config.for_bucket (config c) bucket in
  Ok {| config := config; transport := transport c |}.

Definition operation_target (c : S3Client) (key : option string) : outcome EndpointUrl :=
  object_url (S3Config.endpoint (config c)) (S3Config.bucket (config c)) key
    (S3Config.addressing_style (config c)).

(** What does not change over the attempts. *)
Record Operation : Type := {
  op_method : string;
  op_query : list QueryParam;
  op_headers : HeaderMap;
  op_deadline : OperationDeadline;
  op_mode : SuccessMode;
  op_replayable : bool;
  op_payload_hash : string;
  op_started : Z
}.

(** What an attempt meets: the clock at each reading, the signer's moment and
whether signing outlasted the deadline, the HTTP client (given the request and
the attempt's timeout), the random number and, before this operation touches the
quota, the other operations that share it. *)
Record Attempt : Type := {
  at_start : Z;
  signing : SigningMoment;
  signing_elapsed : bool;
  at_ready : Z;
  http_client : Request -> Z -> client_answer Response;
  wall_clock : Z;
  at_redirect : Z;
  at_failure : Z;
  at_retry : Z;
  fastrand : Z -> Z;
  others : RetryQuota -> RetryQuota
}.

(** The loop's variables, the observed events and the requests handed to the
HTTP client, each with its target and signing region. *)
Record Execution : Type := {
  target : EndpointUrl;
  signing_region : string;
  region_redirected : bool;
  attempts_completed : Z;
  last_retry_cost : option Z;
  pending_retry_permit : option RetryPermit;
  body : option PreparedBody;
  quota : RetryQuota;
  events : list RequestEvent.t;
  sent : list (EndpointUrl * string * Request)
}.

Definition observe (c : S3Client) (e : RequestEvent.t) (events : list RequestEvent.t)
  : list RequestEvent.t :=
  if S3Config.observer (config c) then events ++ [e] else events.

Definition with_quota (q : RetryQuota) (st : Execution) : Execution :=
  {| target := target st; signing_region := signing_region st;
     region_redirected := region_redirected st; attempts_completed := attempts_completed st;
     last_retry_cost := last_retry_cost st; pending_retry_permit := pending_retry_permit st;
     body := body st; quota := q; events := events st; sent := sent st |}.

Definition with_body (b : option PreparedBody) (st : Execution) : Execution :=
  {| target := target st; signing_region := signing_region st;
     region_redirected := region_redirected st; attempts_completed := attempts_completed st;
     last_retry_cost := last_retry_cost st; pending_retry_permit := pending_retry_permit st;
     body := b; quota := quota st; events := events st; sent := sent st |}.

Definition with_event (c : S3Client) (e : RequestEvent.t) (st : Execution) : Execution :=
  {| target := target st; signing_region := signing_region st;
     region_redirected := region_redirected st; attempts_completed := attempts_completed st;
     last_retry_cost := last_retry_cost st; pending_retry_permit := pending_retry_permit st;
     body := body st; quota := quota st; events := observe c e (events st); sent := sent st |}.

(** Returning from the loop drops a permit that is still pending. *)
Definition abandon (st : Execution) : Execution :=
  match pending_retry_permit st with
  | Some permit => with_quota (RetryPermit_drop (quota st) permit) st
  | None => st
  end.

(** Committing the pending permit, announcing and counting the attempt. *)
Definition begin_attempt (c : S3Client) (op : Operation) (st : Execution) : Execution :=
  let attempt := saturating_add U32_MAX (attempts_completed st) 1 in
  {| target := target st; signing_region := signing_region st;
     region_redirected := region_redirected st;
     attempts_completed := attempt;
     last_retry_cost := match pending_retry_permit st with
                        | Some permit => Some (RetryPermit_commit permit).2
                        | None => last_retry_cost st
                        end;
     pending_retry_permit := None; body := body st; quota := quota st;
     events := observe c (RequestEvent.Mk RequestEventKind.AttemptStarted (op_method op) attempt
                            None None None) (events st);
     sent := sent st |}.

Definition hand_over (request : option Request) (st : Execution) : Execution :=
  {| target := target st; signing_region := signing_region st;
     region_redirected := region_redirected st; attempts_completed := attempts_completed st;
     last_retry_cost := last_retry_cost st; pending_retry_permit := pending_retry_permit st;
     body := body st; quota := quota st; events := events st;
     sent := match request with
             | Some request => sent st ++ [(target st, signing_region st, request)]
             | None => sent st
             end |}.

(** What the loop makes of a response. *)
Inductive verdict : Type :=
| Succeeded (r : SuccessfulResponse)
| Redirected (region authority : string)
| Failed (error : S3Error.t) (retry_after : option Z).

Definition elapsed (op : Operation) (now : Z) : Z := Z.max (now - op_started op) 0.

Definition policy (c : S3Client) : RetryPolicy := S3Config.retry_policy (config c).

(** [collect_response]; [None] while the body is still arriving. *)
Definition collect (c : S3Client) (op : Operation) (r : Response) (maximum : Z)
  : option (outcome string) :=
  collect_response (size_upper r) (collect_start r) (frames r) maximum
    (S3Config.idle_body_timeout (config c)) (at_ (op_deadline op)).

Definition judge_error (c : S3Client) (op : Operation) (env : Attempt) (r : Response)
  : option verdict :=
  let retry_after := parse_retry_after parse_http_date (wall_clock env) (rsp_headers r) in
  let maximum := S3Config.max_error_response_size (config c) in
  collected ← collect c op r maximum;
  Some (Failed (response_error parse_http_date display_status
                  (fun b => parse_s3_error de_error b maximum) (wall_clock env) (status r)
                  (rsp_headers r) collected) retry_after).

Definition judge_success (c : S3Client) (op : Operation) (env : Attempt) (r : Response)
  : option verdict :=
  match op_mode op with
  | Streaming => Some (Succeeded (StreamingResponse r))
  | CollectedXml maximum embedded_error =>
      let retry_after := parse_retry_after parse_http_date (wall_clock env) (rsp_headers r) in
      collected ← collect c op r maximum;
      Some (match collected with
            | Err error => Failed error retry_after
            | Ok response_body =>
                match embedded_error response_body maximum with
                | Err error => Failed (protocol_error error) retry_after
                | Ok (Some parsed) =>
                    Failed (service_error parse_http_date display_status (wall_clock env) 200
                              (rsp_headers r) (Some parsed)) retry_after
                | Ok None =>
                    Succeeded (Collected {| collected_headers := rsp_headers r;
                                            collected_body := response_body |})
                end
            end)
  end.

Definition judge (c : S3Client) (op : Operation) (env : Attempt) (st : Execution)
    (result : outcome Response) : option verdict :=
  match result with
  | Err error => Some (Failed error None)
  | Ok r =>
      if is_success (status r) then judge_success c op env r
      else
        match (if region_redirected st then None
               else controlled_region_redirect (status r) (rsp_headers r)) with
        | Some region =>
            match redirected_aws_authority (url (S3Config.endpoint (config c))) region with
            | Some service_authority =>
                if op_replayable op && (attempts_completed st <? max_attempts (policy c))
                   && (elapsed op (at_redirect env) <? max_elapsed (policy c))
                then Some (Redirected region
                       match S3Config.addressing_style (config c) with
                       | Path => service_authority
                       | VirtualHosted => S3Config.bucket (config c) +:+ "." +:+ service_authority
                       end)
                else judge_error c op env r
            | None => judge_error c op env r
            end
        | None => judge_error c op env r
        end
  end.

(** ** One attempt *)

Inductive step : Type :=
| Continue (st : Execution)
| Return (st : Execution) (result : outcome SuccessfulResponse).

Definition attempt_event (op : Operation) (kind : RequestEventKind.t) (st : Execution)
    (error : option S3Error.t) (delay : option Z) : RequestEvent.t :=
  RequestEvent.Mk kind (op_method op) (attempts_completed st) (S3Error.category <$> error)
    (S3Error.retry_classification <$> error) delay.

(** Giving up: the failure is announced and the error tells the attempts made. *)
Definition stop_with (c : S3Client) (op : Operation) (st : Execution) (error : S3Error.t)
    (reason : RetryStopReason.t) : step :=
  Return (with_event c (attempt_event op RequestEventKind.AttemptFailed st (Some error) None) st)
    (Err (S3Error.with_retry_context error (attempts_completed st) reason)).

Definition stop_reason (c : S3Client) (op : Operation) (st : Execution) (error : S3Error.t)
    (elapsed : Z) : option RetryStopReason.t :=
  if negb (op_replayable op) then Some RetryStopReason.NonReplayable
  else if bool_decide (S3Error.retry_classification error = RetryClassification.Never)
  then Some RetryStopReason.NonRetryable
  else if max_attempts (policy c) <=? attempts_completed st
  then Some RetryStopReason.AttemptsExhausted
  else if max_elapsed (policy c) <=? elapsed then Some RetryStopReason.ElapsedLimit
  else None.

Definition schedule_retry (c : S3Client) (op : Operation) (env : Attempt) (st : Execution)
    (error : S3Error.t) (retry_after : option Z) : step :=
  let elapsed := elapsed op (at_failure env) in
  let classification := S3Error.retry_classification error in
  match stop_reason c op st error elapsed with
  | Some reason => stop_with c op st error reason
  | None =>
      match delay_for (fastrand env) (policy c) classification (attempts_completed st) elapsed
              retry_after with
      | None => stop_with c op st error RetryStopReason.ElapsedLimit
      | Some delay =>
          match deadline_remaining (op_deadline op) (at_retry env) with
          | Err _ => stop_with c op st error RetryStopReason.Deadline
          | Ok remaining =>
              if remaining <=? delay then stop_with c op st error RetryStopReason.Deadline
              else
                match acquire (quota st) classification with
                | (q, None) => stop_with c op (with_quota q st) error RetryStopReason.RetryQuota
                | (q, Some permit) =>
                    Continue (with_event c (attempt_event op RequestEventKind.RetryScheduled st
                                              (Some error) (Some delay))
                      {| target := target st; signing_region := signing_region st;
                         region_redirected := region_redirected st;
                         attempts_completed := attempts_completed st;
                         last_retry_cost := last_retry_cost st;
                         pending_retry_permit := Some permit; body := body st; quota := q;
                         events := events st; sent := sent st |})
                end
          end
      end
  end.

Definition follow_redirect (c : S3Client) (op : Operation) (st : Execution)
    (region authority : string) : step :=
  match with_authority (target st) authority with
  | Err e => Return st (Err e)
  | Ok target =>
      Continue (with_event c
        (RequestEvent.Mk RequestEventKind.RegionRedirected (op_method op) (attempts_completed st)
           None (Some RetryClassification.Retryable) (Some 0))
        {| target := target; signing_region := region; region_redirected := true;
           attempts_completed := attempts_completed st; last_retry_cost := last_retry_cost st;
           pending_retry_permit := pending_retry_permit st; body := body st; quota := quota st;
           events := events st; sent := sent st |})
  end.

Definition succeed (c : S3Client) (op : Operation) (st : Execution) (r : SuccessfulResponse)
  : step :=
  Return (with_event c (attempt_event op RequestEventKind.AttemptSucceeded st None None)
            (with_quota (replenish_after_success (quota st) (last_retry_cost st)) st)) (Ok r).

Definition signed_input (op : Operation) (st : Execution) : SignedRequestInput :=
  {| si_method := op_method op; si_target := target st; si_query := op_query op;
     si_headers := op_headers op; si_body := body st; si_payload_hash := op_payload_hash op;
     si_signing_region := signing_region st |}.

(** The body of the loop. *)
Definition attempt (c : S3Client) (op : Operation) (env : Attempt) (st : Execution) : option step :=
  let st := with_quota (others env (quota st)) st in
  match deadline_remaining (op_deadline op) (at_start env) with
  | Err e => Some (Return (abandon st) (Err e))
  | Ok _ =>
      let (signed, left) :=
        signed_request (S3Config.credentials_provider (config c)) (signing env)
          (signed_input op st) in
      let st := with_body left st in
      match (if signing_elapsed env then Err operation_timeout else signed) with
      | Err e => Some (Return (abandon st) (Err e))
      | Ok request =>
          match deadline_remaining (op_deadline op) (at_ready env) with
          | Err e => Some (Return (abandon st) (Err e))
          | Ok remaining =>
              let st := begin_attempt c op st in
              let attempt_timeout := Z.min (S3Config.attempt_timeout (config c)) remaining in
              let (handed, result) :=
                send (transport c) (fun r => http_client env r attempt_timeout) request in
              let st := hand_over handed st in
              v ← judge c op env st result;
              Some (match v with
                    | Succeeded r => succeed c op st r
                    | Redirected region authority => follow_redirect c op st region authority
                    | Failed error retry_after => schedule_retry c op env st error retry_after
                    end)
          end
      end
  end.

(** The loop over the attempts' circumstances; [None] when they run out. *)
Fixpoint attempts (c : S3Client) (op : Operation) (envs : list Attempt) (st : Execution)
  : option (Execution * outcome SuccessfulResponse) :=
  match envs with
  | [] => None
  | env :: envs =>
      s ← attempt c op env st;
      match s with
      | Continue st => attempts c op envs st
      | Return st result => Some (st, result)
      end
  end.

(** [send_signed_inner], [started] being the clock when the loop begins. *)
Definition execution (region : string) (target : EndpointUrl) (body : option PreparedBody)
    (quota : RetryQuota) : Execution :=
  {| target := target; signing_region := region; region_redirected := false;
     attempts_completed := 0; last_retry_cost := None; pending_retry_permit := None; body := body;
     quota := quota; events := []; sent := [] |}.

Definition operation (method : string) (query : list QueryParam) (headers : HeaderMap)
    (body : option PreparedBody) (deadline : OperationDeadline) (mode : SuccessMode)
    (started : Z) : Operation :=
  {| op_method := method; op_query := query; op_headers := headers; op_deadline := deadline;
     op_mode := mode;
     op_replayable := match body with Some b => is_replayable b | None => true end;
     op_payload_hash := match body with Some b => sha256_hex b | None => payload_sha256_hex "" end;
     op_started := started |}.

Definition send_signed_inner (c : S3Client) (method : string) (target : EndpointUrl)
    (query : list QueryParam) (headers : HeaderMap) (body : option PreparedBody)
    (deadline : OperationDeadline) (mode : SuccessMode) (started : Z) (envs : list Attempt)
    (quota : RetryQuota) : option (Execution * outcome SuccessfulResponse) :=
  let region := S3Config.region (config c) in
  match with_query target (canonical_query query) with
  | Err e => Some (execution region target body quota, Err e)
  | Ok target =>
      attempts c (operation method query headers body deadline mode started) envs
        (execution region target body quota)
  end.

(** [send_signed] and [send_signed_collected_xml]; [None] is also the
[unreachable!] of a response in the other mode. *)
Definition send_signed (c : S3Client) (method : string) (target : EndpointUrl)
    (query : list QueryParam) (headers : HeaderMap) (body : option PreparedBody)
    (deadline : OperationDeadline) (started : Z) (envs : list Attempt) (quota : RetryQuota)
  : option (Execution * outcome Response) :=
  r ← send_signed_inner c method target query headers body deadline Streaming started envs quota;
  match r with
  | (st, Ok (StreamingResponse response)) => Some (st, Ok response)
  | (st, Ok (Collected _)) => None
  | (st, Err e) => Some (st, Err e)
  end.

Definition send_signed_collected_xml (c : S3Client) (method : string) (target : EndpointUrl)
    (query : list QueryParam) (headers : HeaderMap) (body : option PreparedBody)
    (deadline : OperationDeadline) (maximum : Z)
    (embedded_error : string -> Z -> result ProtocolError.t (option ParsedS3Error.t))
    (started : Z) (envs : list Attempt) (quota : RetryQuota)
  : option (Execution * outcome CollectedSignedResponse) :=
  r ← send_signed_inner c method target query headers body deadline
        (CollectedXml maximum embedded_error) started envs quota;
  match r with
  | (st, Ok (Collected response)) => Some (st, Ok response)
  | (st, Ok (StreamingResponse _)) => None
  | (st, Err e) => Some (st, Err e)
  end.

(** [OperationDeadline::prepare_body]. *)
Definition prepare_body (elapsed : bool) (source : UploadSource) : outcome PreparedBody :=
  if elapsed then Err operation_timeout else prepare source.
End client.

(** ** The life of an operation, as its observer sees it *)

Inductive phase : Type := Idle (n : Z) | Open (n : Z) | Closed (n : Z) (success : bool).

Definition advance (p : phase) (e : RequestEvent.t) : option phase :=
  match p, RequestEvent.kind e with
  | Idle n, RequestEventKind.AttemptStarted =>
      if RequestEvent.attempt e =? n + 1 then Some (Open (n + 1)) else None
  | Open n, RequestEventKind.RetryScheduled | Open n, RequestEventKind.RegionRedirected =>
      if RequestEvent.attempt e =? n then Some (Idle n) else None
  | Open n, RequestEventKind.AttemptSucceeded =>
      if RequestEvent.attempt e =? n then Some (Closed n true) else None
  | Open n, RequestEventKind.AttemptFailed =>
      if RequestEvent.attempt e =? n then Some (Closed n false) else None
  | _, _ => None
  end.

Fixpoint lifecycle (p : phase) (events : list RequestEvent.t) : option phase :=
  match events with
  | [] => Some p
  | e :: events => p ← advance p e; lifecycle p events
  end.

Lemma lifecycle_snoc p events q e : lifecycle p events = Some q ->
  lifecycle p (events ++ [e]) = advance q e.
Proof.
  revert p. induction events as [|x events IH]; intros p Hl; cbn in *.
  - injection Hl as ->. by destruct (advance q e).
  - destruct (advance p x) as [p'|]; cbn in *; [by apply IH|done].
Qed.

(** ** What holds during an execution *)

Section lemmas.
Set Default Proof Using "Type*".
Context `{Http} `{HttpUri} `{World} `{Primitives} `{Documents} `{HttpText}.
Variables (c : S3Client) (op : Operation) (home : EndpointUrl) (home_region : string).
Hypothesis Hattempts : 1 <= max_attempts (policy c) <= U32_MAX.

(** A target for another region: the same AWS service, with the same path and query. *)
Definition redirect_of (t : EndpointUrl) (region : string) : Prop :=
  exists a, redirected_aws_authority (url (S3Config.endpoint (config c))) region = Some a /\
    with_authority home
      match S3Config.addressing_style (config c) with
      | Path => a
      | VirtualHosted => S3Config.bucket (config c) +:+ "." +:+ a
      end = Ok t.

(** A request that was handed over: signed for this operation, for the target
and region it is recorded with. *)
Definition signed_for (x : EndpointUrl * string * Request) : Prop :=
  exists moment body request left,
    signed_request (S3Config.credentials_provider (config c)) moment
      {| si_method := op_method op; si_target := x.1.1; si_query := op_query op;
         si_headers := op_headers op; si_body := body; si_payload_hash := op_payload_hash op;
         si_signing_region := x.1.2 |} = (Ok request, left) /\
    x.2 = with_user_agent (transport c) request /\
    permitted_scheme (transport c) request = true.

Record exec_ok (st : Execution) : Prop := {
  ok_count : 0 <= attempts_completed st <= max_attempts (policy c);
  ok_once : op_replayable op = false -> attempts_completed st <= 1;
  ok_sent : Z.of_nat (List.length (sent st)) <= attempts_completed st;
  ok_target : if region_redirected st then redirect_of (target st) (signing_region st)
              else target st = home /\ signing_region st = home_region;
  ok_requests : Forall (fun x => signed_for x /\
      (x.1 = (home, home_region) \/
       (region_redirected st = true /\ x.1 = (target st, signing_region st)))) (sent st)
}.

(** Between attempts. *)
Record exec_live (st : Execution) : Prop := {
  live_ok : exec_ok st;
  live_count : attempts_completed st < max_attempts (policy c);
  live_once : op_replayable op = false -> attempts_completed st = 0
}.

(** The state in which a response is judged. *)
Definition judging (env : Attempt) (left : option PreparedBody) (handed : option Request)
    (st : Execution) : Execution :=
  hand_over handed
    (begin_attempt c op (with_body left (with_quota (others env (quota st)) st))).

(** Why an attempt does not start: the operation's deadline passed before or
after signing, or signing outlasted it, or failed. *)
Definition not_started (env : Attempt) (e : S3Error.t) : Prop :=
  (e = operation_timeout /\
   (at_ (op_deadline op) <= at_start env \/ signing_elapsed env = true \/
    at_ (op_deadline op) <= at_ready env)) \/
  exists input, si_method input = op_method op /\ si_query input = op_query op /\
    si_headers input = op_headers op /\
    (signed_request (S3Config.credentials_provider (config c)) (signing env) input).1 = Err e.

Lemma deadline_passed d now e : deadline_remaining d now = Err e ->
  e = operation_timeout /\ at_ d <= now.
Proof.
  clear Hattempts. unfold deadline_remaining. destruct (Z.ltb_spec now (at_ d)); [done|].
  by intros [= <-].
Qed.

(** An attempt fails before it begins, or signs, sends and concludes. *)
Lemma attempt_cases env st s : attempt c op env st = Some s ->
  (exists st' e, s = Return st' (Err e) /\ attempts_completed st' = attempts_completed st /\
     sent st' = sent st /\ events st' = events st /\ target st' = target st /\
     signing_region st' = signing_region st /\ region_redirected st' = region_redirected st /\
     not_started env e) \/
  (exists request left handed result timeout v,
     signed_request (S3Config.credentials_provider (config c)) (signing env)
       (signed_input op st) = (Ok request, left) /\
     send (transport c) (fun r => http_client env r timeout) request = (handed, result) /\
     judge c op env (judging env left handed st) result = Some v /\
     s = match v with
         | Succeeded r => succeed c op (judging env left handed st) r
         | Redirected region authority =>
             follow_redirect c op (judging env left handed st) region authority
         | Failed error retry_after =>
             schedule_retry c op env (judging env left handed st) error retry_after
         end).
Proof.
  assert (Hab : forall st', exists st'' , abandon st' = st'' /\
    attempts_completed st'' = attempts_completed st' /\ sent st'' = sent st' /\
    events st'' = events st' /\ target st'' = target st' /\
    signing_region st'' = signing_region st' /\ region_redirected st'' = region_redirected st').
  { intros st'. eexists; split; [done|]. unfold abandon. by destruct (pending_retry_permit st'). }
  unfold attempt. intros Ha.
  destruct (deadline_remaining _ (at_start env)) as [d|e] eqn:D; [|injection Ha as <-; left].
  2:{ apply deadline_passed in D as [-> D].
      destruct (Hab (with_quota (others env (quota st)) st)) as (? & -> & ? & ? & ? & ? & ? & ?).
      do 2 eexists. split_and!; try done. left. auto. }
  destruct (signed_request _ _ _) as [signed left] eqn:Es.
  set (st1 := with_body left _) in Ha.
  destruct (Hab st1) as (? & Eab & ? & ? & ? & ? & ? & ?). rewrite Eab in Ha.
  destruct (if signing_elapsed env then _ else _) as [request|e] eqn:Er; [|injection Ha as <-; left].
  2:{ do 2 eexists. split_and!; try done. destruct (signing_elapsed env) eqn:El.
      { injection Er as <-. left. auto. }
      right. exists (signed_input op (with_quota (others env (quota st)) st)).
      rewrite Es. by rewrite Er. }
  destruct (deadline_remaining _ (at_ready env)) as [remaining|e] eqn:D2; [|injection Ha as <-; left].
  2:{ apply deadline_passed in D2 as [-> D2]. do 2 eexists. split_and!; try done. left. auto. }
  right. destruct (signing_elapsed env); [done|]. subst signed.
  destruct (send _ _ request) as [handed result] eqn:Ed.
  destruct (judge _ _ _ _ _) as [v|] eqn:Ej; [|done]. injection Ha as <-.
  exists request, left, handed, result, (Z.min (S3Config.attempt_timeout (config c)) remaining), v.
  done.
Qed.

(** Two states that differ in the quota, the permit, the body and the events. *)
Definition same_core (st st' : Execution) : Prop :=
  attempts_completed st = attempts_completed st' /\ sent st = sent st' /\
  target st = target st' /\ signing_region st = signing_region st' /\
  region_redirected st = region_redirected st'.

Lemma same_core_ok st st' : same_core st st' -> exec_ok st' -> exec_ok st.
Proof. intros (Ha & Hs & Ht & Hr & Hd) []. split; by rewrite ?Ha, ?Hs, ?Ht, ?Hr, ?Hd. Qed.

(** Why an execution gave up after [n] attempts with the error [e], in the order
in which the reasons are weighed: each is told only when those before it are not
the case. [retry_after] is what the answer asked for, [left] the quota then. *)
Definition gave_up (env : Attempt) (e : S3Error.t) (retry_after : option Z) (n : Z)
    (left : RetryQuota) (reason : RetryStopReason.t) : Prop :=
  let may_retry := op_replayable op = true /\
    S3Error.retry_classification e <> RetryClassification.Never /\ n < max_attempts (policy c) in
  let wait delay := delay_for (fastrand env) (policy c) (S3Error.retry_classification e) n
    (elapsed op (at_failure env)) retry_after = Some delay in
  match reason with
  | RetryStopReason.NonReplayable => op_replayable op = false
  | RetryStopReason.NonRetryable => op_replayable op = true /\
      S3Error.retry_classification e = RetryClassification.Never
  | RetryStopReason.AttemptsExhausted => op_replayable op = true /\
      S3Error.retry_classification e <> RetryClassification.Never /\ max_attempts (policy c) <= n
  | RetryStopReason.ElapsedLimit => may_retry /\
      (max_elapsed (policy c) <= elapsed op (at_failure env) \/
       exists asked, retry_after = Some asked /\
         max_elapsed (policy c) < elapsed op (at_failure env) + asked)
  | RetryStopReason.Deadline => may_retry /\
      exists delay, wait delay /\
        (at_ (op_deadline op) <= at_retry env \/ at_ (op_deadline op) <= at_retry env + delay)
  | RetryStopReason.RetryQuota => may_retry /\
      exists delay cost, wait delay /\ at_retry env + delay < at_ (op_deadline op) /\
        retry_cost (S3Error.retry_classification e) = Some cost /\ tokens left < cost
  end.

Lemma stop_reason_cases env st e ra left :
  match stop_reason c op st e (elapsed op (at_failure env)) with
  | Some reason => gave_up env e ra (attempts_completed st) left reason
  | None => op_replayable op = true /\
      S3Error.retry_classification e <> RetryClassification.Never /\
      attempts_completed st < max_attempts (policy c) /\
      elapsed op (at_failure env) < max_elapsed (policy c)
  end.
Proof.
  unfold stop_reason. destruct (op_replayable op) eqn:R; cbn [negb]; [|done].
  case_bool_decide; [done|].
  destruct (Z.leb_spec (max_attempts (policy c)) (attempts_completed st)); [by split_and!|].
  destruct (Z.leb_spec (max_elapsed (policy c)) (elapsed op (at_failure env))); [|by split_and!].
  cbn. split_and!; try done. by left.
Qed.

(** No delay is granted only because the one asked for lasts too long. *)
Lemma delay_for_none r cl n t asked : 1 <= n -> n < max_attempts (policy c) ->
  cl <> RetryClassification.Never -> t < max_elapsed (policy c) ->
  delay_for r (policy c) cl n t asked = None ->
  exists d, asked = Some d /\ max_elapsed (policy c) < t + d.
Proof.
  intros Hn Hm Hc Ht. unfold delay_for, saturating_sub.
  rewrite (proj2 (Z.eqb_neq n 0)), (proj2 (Z.leb_gt _ _) Hm), (proj2 (Z.leb_gt _ _) Ht) by lia.
  rewrite bool_decide_eq_false_2 by done. cbn [orb]. destruct asked as [d|]; [|done].
  destruct (Z.leb_spec d (Z.max (max_elapsed (policy c) - t) 0)); [done|]. intros _. exists d.
  split; [done|lia].
Qed.

Lemma acquire_none q cl : cl <> RetryClassification.Never -> forall q',
  acquire q cl = (q', None) -> exists cost, retry_cost cl = Some cost /\ tokens q' < cost.
Proof.
  clear Hattempts. intros Hc q'. unfold acquire, fetch_update.
  destruct (retry_cost cl) as [cost|] eqn:E; [|by destruct cl].
  destruct (Z.leb_spec cost (tokens q)) as [|Hlt]; [done|]. intros [= <-]. by exists cost.
Qed.

Lemma schedule_retry_cases env st e ra :
  (exists st' reason,
     schedule_retry c op env st e ra
       = Return st' (Err (S3Error.with_retry_context e (attempts_completed st) reason)) /\
     same_core st' st /\
     (1 <= attempts_completed st ->
      gave_up env e ra (attempts_completed st) (quota st') reason) /\
     events st' = observe c (attempt_event op RequestEventKind.AttemptFailed st (Some e) None)
                    (events st)) \/
  (exists st' delay, schedule_retry c op env st e ra = Continue st' /\ same_core st' st /\
     op_replayable op = true /\ attempts_completed st < max_attempts (policy c) /\
     events st' = observe c (attempt_event op RequestEventKind.RetryScheduled st (Some e)
                              (Some delay)) (events st)).
Proof.
  unfold schedule_retry. pose proof (stop_reason_cases env st e ra (quota st)) as R.
  destruct (stop_reason _ _ _ _ _) as [reason|].
  { left. do 2 eexists. by split_and!. }
  assert (G : forall reason st1,
    (1 <= attempts_completed st ->
     gave_up env e ra (attempts_completed st) (quota st1) reason) ->
    same_core st1 st -> events st1 = events st -> exists st' reason',
     stop_with c op st1 e reason
       = Return st' (Err (S3Error.with_retry_context e (attempts_completed st) reason')) /\
     same_core st' st /\
     (1 <= attempts_completed st ->
      gave_up env e ra (attempts_completed st) (quota st') reason') /\
     events st' = observe c (attempt_event op RequestEventKind.AttemptFailed st (Some e) None)
                    (events st)).
  { intros reason st1 Hr Hc He. do 2 eexists. unfold stop_with, attempt_event.
    destruct Hc as (Ha & Hc). rewrite Ha. split_and!; [done| |done|by rewrite <- He].
    split; [done|exact Hc]. }
  destruct R as (Rr & Rc & Rn & Re).
  destruct (delay_for _ _ _ _ _ _) as [delay|] eqn:Ed.
  2:{ left. apply G; [|done..]. intros Hn. split; [done|]. right. by eapply delay_for_none. }
  destruct (deadline_remaining _ _) as [remaining|e'] eqn:El.
  2:{ left. apply G; [|done..]. intros Hn. split; [done|]. exists delay. split; [done|]. left.
      by apply deadline_passed in El as [_ ?]. }
  unfold deadline_remaining in El. destruct (Z.ltb_spec (at_retry env) (at_ (op_deadline op)));
    [|done]. injection El as <-. destruct (Z.leb_spec (at_ (op_deadline op) - at_retry env) delay).
  { left. apply G; [|done..]. intros Hn. split; [done|]. exists delay. split; [done|]. right. lia. }
  destruct (acquire _ _) as [q [permit|]] eqn:Eq.
  2:{ left. apply G; [|done..]. intros Hn. split; [done|].
      destruct (acquire_none _ _ Rc _ Eq) as (cost & ? & ?). exists delay, cost.
      split_and!; try done. lia. }
  right. exists (with_event c (attempt_event op RequestEventKind.RetryScheduled st (Some e) (Some delay))
    {| target := target st; signing_region := signing_region st;
       region_redirected := region_redirected st; attempts_completed := attempts_completed st;
       last_retry_cost := last_retry_cost st; pending_retry_permit := Some permit;
       body := body st; quota := q; events := events st; sent := sent st |}), delay.
  by split_and!.
Qed.

Lemma judging_ok env st request left handed result timeout :
  exec_live st ->
  signed_request (S3Config.credentials_provider (config c)) (signing env)
    (signed_input op st) = (Ok request, left) ->
  send (transport c) (fun r => http_client env r timeout) request = (handed, result) ->
  exec_ok (judging env left handed st) /\
  attempts_completed (judging env left handed st) = attempts_completed st + 1.
Proof.
  intros [[Hc Ho Hs Ht Hr] Hl Hfirst] Hsig Hsend.
  assert (Hn : attempts_completed (judging env left handed st) = attempts_completed st + 1).
  { cbn. unfold saturating_add. lia. }
  split; [|done]. split; rewrite ?Hn; [lia| | | |].
  - intros E. rewrite (Hfirst E). lia.
  - cbn. destruct handed; [rewrite length_app; cbn [List.length]|]; lia.
  - exact Ht.
  - cbn [judging hand_over begin_attempt with_body with_quota sent target signing_region
         region_redirected]. unfold send in Hsend.
    destruct (permitted_scheme (transport c) request) eqn:P; injection Hsend as <- _; [|done].
    apply Forall_app. split; [done|]. apply Forall_singleton. split.
    + unfold signed_for. cbn [fst snd]. do 4 eexists. by split_and!.
    + cbn [fst]. destruct (region_redirected st) eqn:D; [by right|]. destruct Ht as [-> ->]. by left.
Qed.

(** A judged failure or success, by the function that judges it. *)
Lemma judge_error_failed env r v : judge_error c op env r = Some v ->
  exists e ra, v = Failed e ra.
Proof.
  unfold judge_error. destruct (collect _ _ _ _); cbn; [|done]. intros [= <-]. eauto.
Qed.

(** A success has the shape asked for, and a collected body is no embedded error. *)
Definition mode_matches (r : SuccessfulResponse) : Prop :=
  match op_mode op, r with
  | Streaming, StreamingResponse _ => True
  | CollectedXml maximum embedded, Collected r => embedded (collected_body r) maximum = Ok None
  | _, _ => False
  end.

Lemma judge_success_cases env r v : judge_success c op env r = Some v ->
  (exists s, v = Succeeded s /\ mode_matches s) \/ exists e ra, v = Failed e ra.
Proof.
  unfold judge_success, mode_matches. destruct (op_mode op) as [|maximum embedded].
  - intros [= <-]. left. by eexists.
  - destruct (collect _ _ _ _) as [[b|e]|]; cbn; [| |done]; intros [= <-]; [|by eauto].
    destruct (embedded b maximum) as [[p|]|e] eqn:Em; [by eauto| |by eauto]. left. by eexists.
Qed.

(** A streaming success is a response the client answered with. *)
Lemma judge_success_answered env r v : judge_success c op env r = Some v ->
  match v with Succeeded (StreamingResponse r') => r' = r | _ => True end.
Proof.
  unfold judge_success. destruct (op_mode op) as [|maximum embedded]; [by intros [= <-]|].
  destruct (collect _ _ _ _) as [[b|e]|]; cbn; [| |done]; intros [= <-]; [|done].
  by destruct (embedded b maximum) as [[p|]|e].
Qed.

Lemma judge_cases env st result v : judge c op env st result = Some v ->
  match v with
  | Succeeded s => mode_matches s
  | Failed _ _ => True
  | Redirected region authority =>
      region_redirected st = false /\ op_replayable op = true /\
      attempts_completed st < max_attempts (policy c) /\
      exists a, redirected_aws_authority (url (S3Config.endpoint (config c))) region = Some a /\
        authority = match S3Config.addressing_style (config c) with
                    | Path => a
                    | VirtualHosted => S3Config.bucket (config c) +:+ "." +:+ a
                    end
  end.
Proof.
  assert (E : forall r, judge_error c op env r = Some v ->
    match v with Failed _ _ => True | _ => False end).
  { intros r He. by destruct (judge_error_failed _ _ _ He) as (? & ? & ->). }
  unfold judge. destruct result as [r|e]; [|by intros [= <-]].
  destruct (is_success (status r)).
  { intros Hs. by destruct (judge_success_cases _ _ _ Hs) as [(s & -> & ?)|(? & ? & ->)]. }
  destruct (region_redirected st) eqn:D; [intros Hj; apply E in Hj; by destruct v|].
  destruct (controlled_region_redirect _ _) as [region|];
    [|intros Hj; apply E in Hj; by destruct v].
  destruct (redirected_aws_authority _ _) as [a|] eqn:A; [|intros Hj; apply E in Hj; by destruct v].
  destruct (_ && _ && _) eqn:G; [|intros Hj; apply E in Hj; by destruct v].
  intros [= <-]. bools. split_and!; try done. by exists a.
Qed.

Lemma attempt_ok env st s : exec_live st -> attempt c op env st = Some s ->
  match s with
  | Continue st' => exec_live st' /\ attempts_completed st' = attempts_completed st + 1
  | Return st' r => exec_ok st' /\ match r with Ok x => mode_matches x | Err _ => True end
  end.
Proof.
  intros Hl Ha. destruct (attempt_cases _ _ _ Ha)
    as [(st' & e & -> & Hc)|(request & left & handed & result & timeout & v & Hsig & Hsend & Hj & ->)].
  { split; [|done]. eapply same_core_ok; [|apply Hl]. red. intuition. }
  destruct (judging_ok _ _ _ _ _ _ _ Hl Hsig Hsend) as [Hok Hn].
  set (st1 := judging env left handed st) in *. apply judge_cases in Hj.
  destruct v as [r|region a|e ra].
  - split; [|done]. eapply same_core_ok; [|exact Hok]. by repeat split.
  - destruct Hj as (Hd & Hr & Hlt & sa & Hsa & ->). unfold follow_redirect.
    destruct (with_authority _ _) as [t|e] eqn:W; [|by split].
    destruct Hok as [Hc Ho Hs Ht Hq]. rewrite Hd in Ht. destruct Ht as [Ht Htr].
    split; [|done]. split; [split; cbn -[judging]; try done| |by rewrite Hr].
    + exists sa. split; [done|]. by rewrite <- Ht.
    + eapply Forall_impl; [exact Hq|]. intros x [? [?|[D _]]]; [split; auto|congruence].
    + exact Hlt.
  - destruct (schedule_retry_cases env st1 e ra)
      as [(st' & reason & -> & Hcore & _)|(st' & delay & -> & Hcore & Hr & Hlt & _)].
    + split; [|done]. by eapply same_core_ok.
    + split; [|destruct Hcore as [-> _]; done]. split; [by eapply same_core_ok| |by rewrite Hr].
      destruct Hcore as [-> _]. done.
Qed.

Lemma attempts_ok envs st st' r : exec_live st -> attempts c op envs st = Some (st', r) ->
  exec_ok st' /\ match r with Ok x => mode_matches x | Err _ => True end.
Proof.
  revert st. induction envs as [|env envs IH]; intros st Hl Ha; [done|]. cbn [attempts] in Ha.
  destruct (attempt c op env st) as [s|] eqn:E; [|done]. cbn in Ha.
  apply attempt_ok in E; [|done]. destruct s as [st1|st1 r1]; [destruct E; by eapply IH|].
  injection Ha as <- <-. done.
Qed.

(** The response of a successful streaming execution, from one of the attempts. *)
Definition from_client (envs : list Attempt) (r : SuccessfulResponse) : Prop :=
  match r with
  | StreamingResponse r => exists env request timeout, env ∈ envs /\
      http_client env request timeout = Answered r
  | Collected _ => True
  end.

Lemma attempts_from_client envs st st' r : attempts c op envs st = Some (st', Ok r) ->
  from_client envs r.
Proof.
  revert st. induction envs as [|env envs IH]; intros st Ha; [done|]. cbn [attempts] in Ha.
  destruct (attempt c op env st) as [s|] eqn:E; [|done]. cbn in Ha.
  destruct s as [st1|st1 r1].
  - apply IH in Ha. destruct r; [|done]. destruct Ha as (e & rq & t & He & Hr).
    exists e, rq, t. split; [by right|done].
  - injection Ha as -> ->. destruct (attempt_cases _ _ _ E)
      as [(? & ? & ? & _)|(request & left & handed & result & timeout & v & _ & Hsend & Hj & Hv)];
      [done|].
    destruct v as [r1|region a|e ra].
    + injection Hv as _ <-. unfold judge in Hj. destruct result as [rs|]; [|done].
      destruct (is_success (status rs)).
      * apply judge_success_answered in Hj. destruct r as [r'|]; [|done]. subst r'.
        unfold send in Hsend. destruct (permitted_scheme _ _); [|done].
        destruct (http_client env _ _) as [| |a] eqn:A; simplify_eq.
        do 3 eexists. split; [by left|exact A].
      * assert (F : forall x, judge_error c op env rs <> Some (Succeeded x)).
        { intros x Hx. by destruct (judge_error_failed _ _ _ Hx) as (? & ? & ?). }
        repeat case_match; simplify_eq; exfalso; by eapply F.
    + unfold follow_redirect in Hv. by destruct (with_authority _ _).
    + destruct (schedule_retry_cases env (judging env left handed st) e ra)
        as [(? & ? & Hs & _)|(? & ? & Hs & _)]; rewrite Hs in Hv; done.
Qed.

(** Every body the client answers with can be collected. *)
Definition bodies_arrive (env : Attempt) : Prop :=
  forall request timeout r maximum, http_client env request timeout = Answered r ->
    is_Some (collect c op r maximum).

Lemma judge_some env st result : 
  (forall r, result = Ok r -> forall maximum, is_Some (collect c op r maximum)) ->
  is_Some (judge c op env st result).
Proof.
  intros Hc. unfold judge. destruct result as [r|e]; [|done]. specialize (Hc r eq_refl).
  assert (E : is_Some (judge_error c op env r)).
  { unfold judge_error. destruct (Hc (S3Config.max_error_response_size (config c))) as [? ->]. done. }
  destruct (is_success (status r)).
  { unfold judge_success. destruct (op_mode op) as [|m ?]; [done|]. by destruct (Hc m) as [? ->]. }
  repeat case_match; done.
Qed.

Lemma attempt_some env st : bodies_arrive env -> is_Some (attempt c op env st).
Proof.
  intros Hb. unfold attempt. destruct (deadline_remaining _ _); [|done].
  destruct (signed_request _ _ _) as [signed left]. destruct (if signing_elapsed env then _ else _); [|done].
  destruct (deadline_remaining _ _) as [remaining|]; [|done].
  destruct (send _ _ _) as [handed result] eqn:S.
  match goal with |- context [judge c op env ?st1 result] =>
    destruct (judge_some env st1 result) as [v ->]; [|by destruct v] end.
  intros r -> maximum. unfold send in S. destruct (permitted_scheme _ _); [|done].
  destruct (http_client env _ _) eqn:A; simplify_eq. by eapply Hb.
Qed.

Lemma attempts_some envs st : exec_live st -> Forall bodies_arrive envs ->
  max_attempts (policy c) - attempts_completed st <= Z.of_nat (List.length envs) ->
  is_Some (attempts c op envs st).
Proof.
  revert st. induction envs as [|env envs IH]; intros st Hl Hb Hn.
  { destruct Hl. cbn in Hn. lia. }
  inversion_clear Hb as [|? ? Hb1 Hb2]. cbn [attempts].
  destruct (attempt_some env st Hb1) as [s E]. rewrite E. cbn. apply attempt_ok in E; [|done].
  destruct s as [st1|]; [|done]. destruct E as [E1 E2]. apply IH; [done..|].
  rewrite E2. cbn [List.length] in Hn. lia.
Qed.

(** ** Events *)

Hypothesis Hobserver : S3Config.observer (config c) = true.

(** The failure that the last attempt was judged to be, from what the client
answered to its request. *)
Definition judged_failure (env : Attempt) (e : S3Error.t) (retry_after : option Z) : Prop :=
  exists request timeout handed result st,
    send (transport c) (fun r => http_client env r timeout) request = (handed, result) /\
    judge c op env st result = Some (Failed e retry_after).

(** What the observer has been told when the loop returns. A failed attempt closes
the events, and its error tells how many attempts were made and why they ended. The
other errors are returned as they are: of an attempt that did not start, and of a
redirect whose authority is refused. *)
Definition told (envs : list Attempt) (st : Execution) (r : outcome SuccessfulResponse) : Prop :=
  let n := attempts_completed st in
  match r with
  | Ok _ => lifecycle (Idle 0) (events st) = Some (Closed n true)
  | Err e =>
      (lifecycle (Idle 0) (events st) = Some (Closed n false) /\
       exists env e' retry_after reason, envs !! Z.to_nat (n - 1) = Some env /\
         judged_failure env e' retry_after /\ gave_up env e' retry_after n (quota st) reason /\
         e = S3Error.with_retry_context e' n reason) \/
      (lifecycle (Idle 0) (events st) = Some (Idle n) /\
       exists env, envs !! Z.to_nat n = Some env /\ not_started env e) \/
      (lifecycle (Idle 0) (events st) = Some (Open n) /\
       exists authority, with_authority (target st) authority = Err e)
  end.

Lemma observe_on e l : observe c e l = l ++ [e].
Proof. unfold observe. by rewrite Hobserver. Qed.

Lemma attempt_events envs env st s : exec_live st -> attempt c op env st = Some s ->
  envs !! Z.to_nat (attempts_completed st) = Some env ->
  lifecycle (Idle 0) (events st) = Some (Idle (attempts_completed st)) ->
  match s with
  | Continue st' => lifecycle (Idle 0) (events st') = Some (Idle (attempts_completed st'))
  | Return st' r => told envs st' r
  end.
Proof.
  intros Hl Ha Hi He. destruct (attempt_cases _ _ _ Ha)
    as [(st' & e & -> & Hn & _ & Hv & _ & _ & _ & Hw)
       |(request & left & handed & result & timeout & v & Hsig & Hsend & Hj & ->)].
  { right; left. rewrite Hv, Hn. split; [done|]. by exists env. }
  destruct (judging_ok _ _ _ _ _ _ _ Hl Hsig Hsend) as [_ Hn].
  set (st1 := judging env left handed st) in *.
  assert (Ho : lifecycle (Idle 0) (events st1) = Some (Open (attempts_completed st1))).
  { rewrite Hn. change (events st1) with
      (observe c (RequestEvent.Mk RequestEventKind.AttemptStarted (op_method op)
         (attempts_completed st1) None None None) (events st)).
    rewrite observe_on, Hn, (lifecycle_snoc _ _ _ _ He). cbn [advance RequestEvent.kind RequestEvent.attempt].
    by rewrite Z.eqb_refl. }
  destruct v as [r|region a|e ra].
  - cbn -[judging]. fold st1. rewrite observe_on, (lifecycle_snoc _ _ _ _ Ho). cbn -[judging].
    by rewrite Z.eqb_refl.
  - unfold follow_redirect. destruct (with_authority _ _) as [t|e] eqn:W.
    + cbn -[judging]. fold st1. rewrite observe_on, (lifecycle_snoc _ _ _ _ Ho). cbn -[judging].
      by rewrite Z.eqb_refl.
    + right; right. split; [done|]. by exists a.
  - destruct (schedule_retry_cases env st1 e ra)
      as [(st' & reason & -> & (Hm & _) & Hr & Hv)|(st' & delay & -> & (Hm & _) & _ & _ & Hv)];
      rewrite observe_on in Hv.
    + left. rewrite Hv, (lifecycle_snoc _ _ _ _ Ho), Hm. cbn -[judging]. rewrite Z.eqb_refl.
      split; [done|]. exists env, e, ra, reason. pose proof (ok_count _ (live_ok _ Hl)).
      fold st1. replace (attempts_completed st1 - 1) with (attempts_completed st) by lia.
      split_and!; [done| |apply Hr; lia|done].
      by exists request, timeout, handed, result, st1.
    + rewrite Hv, (lifecycle_snoc _ _ _ _ Ho), Hm. cbn -[judging]. by rewrite Z.eqb_refl.
Qed.

Lemma attempts_events before envs st st' r : exec_live st ->
  Z.of_nat (List.length before) = attempts_completed st ->
  lifecycle (Idle 0) (events st) = Some (Idle (attempts_completed st)) ->
  attempts c op envs st = Some (st', r) -> told (before ++ envs) st' r.
Proof.
  revert before st. induction envs as [|env envs IH]; intros before st Hl Hb He Ha; [done|].
  cbn [attempts] in Ha. destruct (attempt c op env st) as [s|] eqn:E; [|done]. cbn in Ha.
  assert (Hi : (before ++ env :: envs) !! Z.to_nat (attempts_completed st) = Some env)
    by (apply list_lookup_middle; lia).
  pose proof (attempt_events _ _ _ _ Hl E Hi He) as Ht. apply attempt_ok in E; [|done].
  destruct s as [st1|st1 r1]; [|by injection Ha as <- <-]. destruct E as [E1 E2].
  replace (before ++ env :: envs) with ((before ++ [env]) ++ envs) by by rewrite <- app_assoc.
  apply (IH _ st1); [done| |done|done]. rewrite length_app, E2. cbn. lia.
Qed.
End lemmas.

Lemma with_authority_ok `{HttpUri} u a t : with_authority u a = Ok t ->
  scheme t = scheme u /\ path_and_query t = path_and_query u.
Proof.
  unfold with_authority. destruct (parse_authority a) as [p|]; [|done]. destruct (_ || _); [done|].
  intros Ht. by apply from_parts_ok in Ht as [-> _].
Qed.

Lemma execution_live `{HttpUri} `{World} `{Primitives} `{Documents} `{Http} `{HttpText}
  (c : S3Client) (op : Operation) t r b q : 1 <= max_attempts (policy c) <= U32_MAX ->
  exec_live c op t r (execution r t b q).
Proof. intros Hm. by repeat split; cbn; try lia. Qed.

(** ** Properties *)

(** C13. An operation terminates within its attempts. When the bodies of the
responses arrive or time out, [max_attempts] iterations give a result, with at
most that many requests handed to the HTTP client; a one-shot body is sent at
most once, and a success has the shape that was asked for, not an error in its
body. *)
Theorem send_signed_terminates `{HttpUri} `{World} `{Primitives} `{Documents} `{Http} `{HttpText}
  (c : S3Client) (method : string) (target : EndpointUrl) (query : list QueryParam)
  (headers : HeaderMap) (body : option PreparedBody) (deadline : OperationDeadline)
  (mode : SuccessMode) (started : Z) (envs : list Attempt) (quota : RetryQuota)
  (op := operation method query headers body deadline mode started)
  (Hpolicy : 1 <= max_attempts (policy c) <= U32_MAX)
  (Hbodies : Forall (bodies_arrive c op) envs)
  (Henvs : max_attempts (policy c) <= Z.of_nat (List.length envs)) :
  exists st r,
    send_signed_inner c method target query headers body deadline mode started envs quota
      = Some (st, r) /\
    Z.of_nat (List.length (sent st)) <= max_attempts (policy c) /\
    (op_replayable op = false -> (List.length (sent st) <= 1)%nat) /\
    match r with Ok x => mode_matches op x | Err _ => True end.
Proof.
  unfold send_signed_inner. destruct (with_query target _) as [home|e].
  2:{ do 2 eexists. split_and!; [done|cbn; lia|cbn; lia|done]. }
  pose proof (execution_live c op home (S3Config.region (config c)) body quota Hpolicy) as Hl.
  destruct (attempts_some c op home _ Hpolicy envs _ Hl Hbodies) as [[st r] E]; [cbn; lia|].
  exists st, r. split; [exact E|]. apply (attempts_ok c op home (S3Config.region (config c)) Hpolicy) in E as [[] Hm]; [|done].
  split_and!; [lia| |done]. intros Hr. apply ok_once0 in Hr. lia.
Qed.


(** C24. The observer is told the life of every attempt, and a failure tells its
cause. The events are numbered attempts, each started and then retried,
redirected, succeeded or failed. A success closes the last attempt. An error that
closes an attempt is what that attempt's answer was judged to be, with the number
of attempts made and the reason to stop, the first that applies of: a body that
cannot be sent again, a failure that is never retried, no attempt left, the
elapsed limit reached or passed by the wait asked for, the deadline before the end
of the wait, too few tokens in the retry quota. The other errors carry no such
context: that of a query refused beforehand, of an attempt that did not start, for
the deadline or its signing, which leaves all attempts concluded, and of a
redirect whose authority is refused, which leaves its attempt open. *)
Theorem observer_told `{HttpUri} `{World} `{Primitives} `{Documents} `{Http} `{HttpText}
  (c : S3Client) (method : string) (target : EndpointUrl) (query : list QueryParam)
  (headers : HeaderMap) (body : option PreparedBody) (deadline : OperationDeadline)
  (mode : SuccessMode) (started : Z) (envs : list Attempt) (quota : RetryQuota)
  (st : Execution) (r : outcome SuccessfulResponse)
  (op := operation method query headers body deadline mode started)
  (Hpolicy : 1 <= max_attempts (policy c) <= U32_MAX)
  (Hobserver : S3Config.observer (config c) = true)
  (Hrun : send_signed_inner c method target query headers body deadline mode started envs quota
          = Some (st, r)) :
  told c op envs st r \/
  (events st = [] /\ sent st = [] /\
   exists e, with_query target (canonical_query query) = Err e /\ r = Err e).
Proof.
  unfold send_signed_inner in Hrun. destruct (with_query target _) as [home|e].
  - pose proof (execution_live c op home (S3Config.region (config c)) body quota Hpolicy) as Hl.
    left. by eapply (attempts_events c op home _ Hpolicy Hobserver []).
  - injection Hrun as <- <-. right. split_and!; [done|done|]. by exists e.
Qed.

(** A client that does not permit plain HTTP hands over HTTPS requests only. *)
Lemma inner_https `{HttpUri} `{World} `{Primitives} `{Documents} `{Http}
  `{HttpText} (c : S3Client) (method : string)
  (target : EndpointUrl) (query : list QueryParam) (headers : HeaderMap)
  (body : option PreparedBody) (deadline : OperationDeadline) (mode : SuccessMode) (started : Z)
  (envs : list Attempt) (quota : RetryQuota) (st : Execution) (r : outcome SuccessfulResponse) :
  allow_http (transport c) = false -> 1 <= max_attempts (policy c) <= U32_MAX ->
  send_signed_inner c method target query headers body deadline mode started envs quota
    = Some (st, r) ->
  Forall (fun x => scheme_str x.2 = Some "https") (sent st).
Proof.
  intros Hhttp Hpolicy Hrun. unfold send_signed_inner in Hrun. destruct (with_query target _) as [home|e].
  2:{ by injection Hrun as <- _. }
  match type of Hrun with attempts ?c ?op _ _ = _ => set (o := op) in * end.
  pose proof (execution_live c o home (S3Config.region (config c)) body quota Hpolicy) as Hl.
  apply (attempts_ok c o home (S3Config.region (config c)) Hpolicy) in Hrun as [[_ _ _ _ Hq] _]; [|exact Hl].
  eapply Forall_impl; [exact Hq|]. intros x [(m & b & request & left & _ & -> & Hp) _].
  unfold permitted_scheme in Hp. rewrite Hhttp in Hp. cbn in Hp. rewrite orb_false_r in Hp.
  by apply bool_decide_eq_true in Hp.
Qed.

(** C28. A client of an HTTPS endpoint speaks HTTPS only. Whatever the answers
to its requests and wherever they redirect, no request is handed over under
another scheme, and the connector below would refuse one too and checks every
certificate. *)
Theorem https_endpoint_stays_https `{HttpUri} `{World} `{Primitives} `{Documents} `{Http}
  `{HttpText} (http2 : bool) (cfg : S3Config.t) (c : S3Client) (method : string)
  (target : EndpointUrl) (query : list QueryParam) (headers : HeaderMap)
  (body : option PreparedBody) (deadline : OperationDeadline) (mode : SuccessMode) (started : Z)
  (envs : list Attempt) (quota : RetryQuota) (st : Execution) (r : outcome SuccessfulResponse)
  (Hnew : S3Client_new http2 cfg = Ok c) (Hhttps : is_https (S3Config.endpoint cfg) = true)
  (Hpolicy : 1 <= max_attempts (S3Config.retry_policy cfg) <= U32_MAX)
  (Hrun : send_signed_inner c method target query headers body deadline mode started envs quota
          = Some (st, r)) :
  Forall (fun x => scheme_str x.2 = Some "https") (sent st) /\
  https_only (connector (transport c)) = true /\ webpki_roots (connector (transport c)) = true /\
  connect_limit (connector (transport c)) = Some (S3Config.connect_timeout cfg).
Proof.
  unfold S3Client_new, Transport_new in Hnew. rewrite Hhttps in Hnew.
  destruct (hv_from_str _) as [ua|]; cbn in Hnew; [|done]. injection Hnew as <-.
  split; [|done]. by eapply inner_https in Hrun.
Qed.

(** ** A run: a region redirect, a retried failure and a success *)

#[local] Existing Instance sample_uri.
#[local] Existing Instance assoc_http.
#[local] Existing Instance sample_primitives.
#[local] Existing Instance sample_signing_world.
#[local] Existing Instance sample_documents.

#[local] Instance sample_text : HttpText := {
  parse_http_date _ := None;
  fmt_http_date _ := "";
  display_status := to_string
}.

Definition sample_aws_config (observer : bool) : S3Config.t :=
  S3Config.Mk {| url := sample_url "s3.us-east-1.amazonaws.com" "/"; base_path := "/" |}
    "us-east-1" "photos" Path (from_secs 10) (from_secs 30) (from_secs 300) (from_secs 30)
    1048576 65536 RetryPolicy_standard "s3-wire/0.3.1" sample_provider observer.
Definition sample_connector : Connector :=
  {| enforce_http := false; connect_limit := Some (from_secs 10); nodelay := true;
     webpki_roots := true; https_only := true; enable_http1 := true; enable_http2 := false |}.
Definition sample_client : S3Client :=
  {| config := sample_aws_config true;
     transport := {| connector := sample_connector; user_agent := "s3-wire/0.3.1" : HeaderValue; allow_http := false |} |}.

Definition sample_response (status : Z) (headers : list (string * string)) : Response :=
  {| status := status; rsp_headers := headers : HeaderMap; size_upper := None; collect_start := 0;
     frames := [{| at_operation_check := 0; at_idle_check := 0; frame := NoFrame; at_reset := 0 |}] |}.
Definition sample_attempt (start status : Z) (headers : list (string * string)) : Attempt :=
  {| at_start := start; signing := sample_moment; signing_elapsed := false; at_ready := start;
     http_client := fun _ _ => Answered (sample_response status headers); wall_clock := 0;
     at_redirect := 0; at_failure := 0; at_retry := 0; fastrand := fun _ => 0;
     others := fun q => q |}.
Definition sample_target : EndpointUrl := sample_url "s3.us-east-1.amazonaws.com" "/photos/a".
Definition sample_deadline : OperationDeadline := {| at_ := from_secs 300 |}.
Definition sample_envs : list Attempt :=
  [sample_attempt 0 301 [("x-amz-bucket-region", "eu-west-1")]; sample_attempt 0 503 [];
   sample_attempt 0 200 []; sample_attempt 0 200 []].
#[local] Notation sample_run :=
  (send_signed_inner sample_client "GET" sample_target [] hm_empty None sample_deadline Streaming 0
     sample_envs RetryQuota_new).

Example sample_run_regions :
  (fun r => (fun x => x.1.2) <$> sent r.1) <$> sample_run
  = Some ["us-east-1"; "eu-west-1"; "eu-west-1"].
Proof. vm_compute. reflexivity. Qed.

(** An error that ends an operation between two attempts does not tell the
attempts already made. *)
Example early_error_untold :
  match send_signed_inner sample_client "GET" sample_target [] hm_empty None sample_deadline
          Streaming 0 [sample_attempt 0 503 []; sample_attempt (from_secs 301) 200 []]
          RetryQuota_new with
  | Some (st, Err e) => attempts_completed st = 1 /\ S3Error.attempts e = 0
                        /\ S3Error.retry_stop_reason e = None
  | _ => False
  end.
Proof. vm_compute. repeat split. Qed.

Lemma sample_policy : 1 <= max_attempts (policy sample_client) <= U32_MAX.
Proof. by vm_compute. Qed.

Lemma send_signed_terminates_witness :
  exists st r, sample_run = Some (st, r) /\ Z.of_nat (List.length (sent st)) <= 4.
Proof.
  destruct (send_signed_terminates sample_client "GET" sample_target [] hm_empty None
              sample_deadline Streaming 0 sample_envs RetryQuota_new) as (st & r & E & L & _).
  - exact sample_policy.
  - repeat constructor; intros rq t resp m A; cbn in A; injection A as <-; eexists; reflexivity.
  - by vm_compute.
  - exists st, r. exact (conj E L).
Defined.


(** A service that throttles every attempt: the attempts are exhausted. *)
#[local] Notation throttled_run :=
  (send_signed_inner sample_client "GET" sample_target [] hm_empty None sample_deadline Streaming 0
     (repeat (sample_attempt 0 503 []) 5) RetryQuota_new).

Lemma observer_told_witness :
  match throttled_run with
  | Some (st, r) =>
      told sample_client (operation "GET" [] hm_empty None sample_deadline Streaming 0)
        (repeat (sample_attempt 0 503 []) 5) st r /\ attempts_completed st = 4 /\
      match r with
      | Err e => S3Error.attempts e = 4 /\
          S3Error.retry_stop_reason e = Some RetryStopReason.AttemptsExhausted
      | Ok _ => False
      end
  | None => False
  end.
Proof.
  assert (Hs : match throttled_run with
               | Some (st, Err e) => bool_decide (attempts_completed st = 4)
                   && match events st with [] => false | _ => true end
                   && bool_decide (S3Error.attempts e = 4)
                   && bool_decide (S3Error.retry_stop_reason e
                                   = Some RetryStopReason.AttemptsExhausted)
               | _ => false end = true) by (vm_compute; reflexivity).
  destruct throttled_run as [[st r]|] eqn:E; [|discriminate Hs].
  destruct r as [x|e]; [discriminate Hs|].
  repeat rewrite andb_true_iff in Hs. destruct Hs as [ [ [H1 H2] H3] H4].
  apply bool_decide_eq_true in H1. apply bool_decide_eq_true in H3.
  apply bool_decide_eq_true in H4. split; [|exact (conj H1 (conj H3 H4))].
  destruct (observer_told sample_client "GET" sample_target [] hm_empty None
             sample_deadline Streaming 0 (repeat (sample_attempt 0 503 []) 5) RetryQuota_new st
             (Err e) sample_policy eq_refl E) as [T|(N & _)]; [exact T|].
  rewrite N in H2. discriminate H2.
Defined.

Lemma https_endpoint_stays_https_witness :
  S3Client_new false (sample_aws_config true) = Ok sample_client /\
  match sample_run with
  | Some (st, _) => List.length (sent st) = 3%nat /\
      Forall (fun x => scheme_str x.2 = Some "https") (sent st)
  | None => False
  end.
Proof.
  assert (Hn : S3Client_new false (sample_aws_config true) = Ok sample_client) by reflexivity.
  split; [exact Hn|].
  assert (Hs : match sample_run with Some (st, _) => (List.length (sent st) =? 3)%nat | None => false end
               = true) by (vm_compute; reflexivity).
  destruct sample_run as [[st r]|] eqn:E; [|discriminate Hs].
  split; [by apply Nat.eqb_eq|].
  exact (proj1 (https_endpoint_stays_https false (sample_aws_config true) sample_client "GET"
    sample_target [] hm_empty None sample_deadline Streaming 0 sample_envs RetryQuota_new st r Hn
    eq_refl sample_policy E)).
Defined.
