(* ===== verification/Crc.v ===== *)
(** Local checksums ([src/operation/checksum.rs]): the table-driven CRC-32,
CRC-32C and CRC-64/NVME and SHA-256, computed at once or in chunks. Base64 is
the [base64] crate's, a parameter. *)

From S2P Require Import Prelude Text SigV4 Types.
From stdpp Require Import options.
Local Open Scope Z_scope.

Class Base64 : Type := {
  base64_encode : string -> string;
  base64_decode : string -> option string
}.

(** ** Tables *)

(** One bit: shift right, and subtract the polynomial if a one fell out. *)
Definition crc_bit (polynomial value : Z) : Z :=
  if Z.land value 1 =? 0 then Z.shiftr value 1
  else Z.lxor (Z.shiftr value 1) polynomial.

Fixpoint crc_bits (n : nat) (polynomial value : Z) : Z :=
  match n with O => value | S n => crc_bits n polynomial (crc_bit polynomial value) end.

(** [crc32_table] and [crc64_table]. *)
Definition crc_table (polynomial : Z) : list Z :=
  (fun index => crc_bits 8 polynomial (Z.of_nat index)) <$> seq 0 256.

Definition CRC32_POLYNOMIAL : Z := 0xedb88320.
Definition CRC32C_POLYNOMIAL : Z := 0x82f63b78.
Definition CRC64_NVME_POLYNOMIAL : Z := 0x9a6c9329ac4bc9b5.
Definition CRC32_TABLE : list Z := Eval vm_compute in crc_table CRC32_POLYNOMIAL.
Definition CRC32C_TABLE : list Z := Eval vm_compute in crc_table CRC32C_POLYNOMIAL.
Definition CRC64_NVME_TABLE : list Z := Eval vm_compute in crc_table CRC64_NVME_POLYNOMIAL.

(** ** The state after some bytes; [None] would be an index out of the table. *)

Definition table_step (table : list Z) (value : Z) (c : ascii) : option Z :=
  let index := Z.lxor (Z.land value 255) (byte c) in
  t ← table !! Z.to_nat index;
  Some (Z.lxor t (Z.shiftr value 8)).

Fixpoint update_crc_state (table : list Z) (value : Z) (bytes : string) : option Z :=
  match bytes with
  | EmptyString => Some value
  | String c bytes => value ← table_step table value c; update_crc_state table value bytes
  end.

(** [!value] at a width whose largest value is [max]. *)
Definition crc_not (max value : Z) : Z := Z.lxor value max.

Definition crc32 (bytes : string) : option Z :=
  crc_not U32_MAX <$> update_crc_state CRC32_TABLE U32_MAX bytes.
Definition crc32c (bytes : string) : option Z :=
  crc_not U32_MAX <$> update_crc_state CRC32C_TABLE U32_MAX bytes.
Definition crc64_nvme (bytes : string) : option Z :=
  crc_not U64_MAX <$> update_crc_state CRC64_NVME_TABLE U64_MAX bytes.

(** [to_be_bytes] of [n] bytes. *)
Fixpoint to_be_bytes (n : nat) (value : Z) : string :=
  match n with
  | O => EmptyString
  | S n => String (chr (Z.land (Z.shiftr value (8 * Z.of_nat n)) 255)) (to_be_bytes n value)
  end.

(** The loop over chunks of the cooperative calculation. *)
Fixpoint update_chunks (table : list Z) (value : Z) (chunks : list string) : option Z :=
  match chunks with
  | [] => Some value
  | chunk :: chunks => value ← update_crc_state table value chunk; update_chunks table value chunks
  end.

Definition CHUNK_SIZE : Z := 256 * 1024.

(** [ChecksumCalculationError]: the algorithm. *)
Record ChecksumCalculationError : Type := { failed_algorithm : ChecksumAlgorithm.t }.

Definition algorithm_name (a : ChecksumAlgorithm.t) : string :=
  match a with
  | ChecksumAlgorithm.Crc32 => "Crc32" | ChecksumAlgorithm.Crc32c => "Crc32c"
  | ChecksumAlgorithm.Crc64Nvme => "Crc64Nvme" | ChecksumAlgorithm.Sha1 => "Sha1"
  | ChecksumAlgorithm.Sha256 => "Sha256"
  end.
Definition ChecksumCalculationError_display (e : ChecksumCalculationError) : string :=
  "local calculation for " +:+ algorithm_name (failed_algorithm e) +:+ " is not implemented".

Section calculate.
Context `{Primitives} `{Base64}.

Definition encode_crc (n : nat) (value : option Z) : option string :=
  (fun value => base64_encode (to_be_bytes n value)) <$> value.

Definition calculate (algorithm : ChecksumAlgorithm.t) (bytes : string)
  : result ChecksumCalculationError Checksum.t :=
  match algorithm with
  | ChecksumAlgorithm.Crc32 => Ok (Checksum.Mk (encode_crc 4 (crc32 bytes)) None None None None)
  | ChecksumAlgorithm.Crc32c => Ok (Checksum.Mk None (encode_crc 4 (crc32c bytes)) None None None)
  | ChecksumAlgorithm.Crc64Nvme =>
      Ok (Checksum.Mk None None (encode_crc 8 (crc64_nvme bytes)) None None)
  | ChecksumAlgorithm.Sha256 =>
      Ok (Checksum.Mk None None None None (Some (base64_encode (sha256 bytes))))
  | ChecksumAlgorithm.Sha1 => Err {| failed_algorithm := algorithm |}
  end.

Definition chunked_crc (table : list Z) (max : Z) (bytes : string) : option Z :=
  crc_not max <$> update_chunks table max (chunks CHUNK_SIZE bytes).

(** [calculate_cooperatively]; a hasher is the bytes it was fed. *)
Definition calculate_cooperatively (algorithm : ChecksumAlgorithm.t) (bytes : string)
  : result ChecksumCalculationError Checksum.t :=
  match algorithm with
  | ChecksumAlgorithm.Crc32 =>
      Ok (Checksum.Mk (encode_crc 4 (chunked_crc CRC32_TABLE U32_MAX bytes)) None None None None)
  | ChecksumAlgorithm.Crc32c =>
      Ok (Checksum.Mk None (encode_crc 4 (chunked_crc CRC32C_TABLE U32_MAX bytes)) None None None)
  | ChecksumAlgorithm.Crc64Nvme =>
      Ok (Checksum.Mk None None (encode_crc 8 (chunked_crc CRC64_NVME_TABLE U64_MAX bytes))
            None None)
  | ChecksumAlgorithm.Sha256 =>
      let digest := fold_left String.append (chunks CHUNK_SIZE bytes) "" in
      Ok (Checksum.Mk None None None None (Some (base64_encode (sha256 digest))))
  | ChecksumAlgorithm.Sha1 => Err {| failed_algorithm := algorithm |}
  end.
End calculate.

Example standard_crc_check_values :
  crc32 "123456789" = Some 0xcbf43926 /\ crc32c "123456789" = Some 0xe3069283
  /\ crc64_nvme "123456789" = Some 0xae8b14860a799888.
Proof. by vm_compute. Qed.

(** ** The bitwise reference *)

Definition crc_byte (polynomial value : Z) (c : ascii) : Z :=
  crc_bits 8 polynomial (Z.lxor value (byte c)).
Fixpoint crc_fold (polynomial value : Z) (bytes : string) : Z :=
  match bytes with
  | EmptyString => value
  | String c bytes => crc_fold polynomial (crc_byte polynomial value c) bytes
  end.
Definition crc_reference (polynomial max : Z) (bytes : string) : Z :=
  crc_not max (crc_fold polynomial max bytes).

(** ** Lemmas *)

Lemma crc_bit_odd p v : crc_bit p v = Z.lxor (Z.shiftr v 1) (if Z.odd v then p else 0).
Proof.
  unfold crc_bit. change 1 with (Z.ones 1) at 1. rewrite Z.land_ones by lia.
  change (2 ^ 1) with 2. rewrite Zmod_odd. destruct (Z.odd v); [done|]. by rewrite Z.lxor_0_r.
Qed.

Lemma crc_bit_lxor p a b : crc_bit p (Z.lxor a b) = Z.lxor (crc_bit p a) (crc_bit p b).
Proof.
  rewrite !crc_bit_odd, Z.shiftr_lxor. rewrite <- !Z.bit0_odd, Z.lxor_spec, !Z.bit0_odd.
  apply Z.bits_inj'. intros n _. rewrite !Z.lxor_spec.
  destruct (Z.odd a), (Z.odd b); cbn [xorb]; rewrite ?Z.bits_0;
    repeat (match goal with |- context [Z.testbit ?x n] => destruct (Z.testbit x n) end); done.
Qed.

Lemma crc_bits_lxor n p a b : crc_bits n p (Z.lxor a b) = Z.lxor (crc_bits n p a) (crc_bits n p b).
Proof. revert a b. induction n as [|n IH]; intros a b; [done|]. cbn. by rewrite crc_bit_lxor, IH. Qed.

Lemma crc_bits_high n p x : crc_bits n p (Z.shiftl x (Z.of_nat n)) = x.
Proof.
  induction n as [|n IH]; [apply Z.shiftl_0_r|]. cbn [crc_bits]. rewrite crc_bit_odd.
  rewrite <- Z.bit0_odd, Z.shiftl_spec_low by lia. rewrite Z.lxor_0_r.
  rewrite Z.shiftr_shiftl_l by lia. by replace (Z.of_nat (S n) - 1) with (Z.of_nat n) by lia.
Qed.

Lemma low_high_bits v : 0 <= v -> v = Z.lxor (Z.land v 255) (Z.shiftl (Z.shiftr v 8) 8).
Proof.
  intros Hv. change 255 with (Z.ones 8). apply Z.bits_inj'. intros n Hn.
  rewrite Z.lxor_spec, Z.land_spec. destruct (Z.ltb_spec n 8).
  - rewrite Z.ones_spec_low, Z.shiftl_spec_low, andb_true_r, xorb_false_r by lia. done.
  - rewrite Z.ones_spec_high, Z.shiftl_spec, Z.shiftr_spec, andb_false_r by lia. cbn.
    by replace (n - 8 + 8) with n by lia.
Qed.

Lemma land_ones_range w v : 0 <= w -> (0 <= v < 2 ^ w <-> Z.land v (Z.ones w) = v).
Proof.
  intros Hw. rewrite Z.land_ones by done. split; [apply Z.mod_small|].
  intros <-. apply Z.mod_pos_bound. lia.
Qed.

Lemma lxor_range w a b : 0 <= w -> 0 <= a < 2 ^ w -> 0 <= b < 2 ^ w -> 0 <= Z.lxor a b < 2 ^ w.
Proof.
  intros Hw Ha Hb. apply (land_ones_range w) in Ha, Hb; [|done..]. apply (land_ones_range w); [done|].
  rewrite <- Ha, <- Hb at 2. apply Z.bits_inj'. intros n _. rewrite !Z.land_spec, !Z.lxor_spec, !Z.land_spec.
  by destruct (Z.testbit a n), (Z.testbit b n), (Z.testbit (Z.ones w) n).
Qed.

Lemma byte_range_256 c : 0 <= byte c < 2 ^ 8.
Proof. all_bytes c. Qed.

Lemma crc_bits_range n w p v : 0 <= w -> 0 <= p < 2 ^ w -> 0 <= v < 2 ^ w ->
  0 <= crc_bits n p v < 2 ^ w.
Proof.
  intros Hw Hp. revert v. induction n as [|n IH]; intros v Hv; [done|]. cbn [crc_bits]. apply IH.
  rewrite crc_bit_odd. apply lxor_range; [done| |].
  - rewrite Z.shiftr_div_pow2 by lia. change (2 ^ 1) with 2. split.
    + apply Z.div_pos; lia.
    + apply Z.div_lt_upper_bound; lia.
  - destruct (Z.odd v); [done|]. split; [done|]. by apply Z.pow_pos_nonneg.
Qed.

Lemma table_step_spec p v c : 0 <= v ->
  table_step (crc_table p) v c = Some (crc_byte p v c).
Proof.
  intros Hv. unfold table_step, crc_byte.
  assert (Hi : 0 <= Z.lxor (Z.land v 255) (byte c) < 2 ^ 8).
  { apply lxor_range; [lia| |apply byte_range_256]. change 255 with (Z.ones 8).
    rewrite Z.land_ones by lia. apply Z.mod_pos_bound. lia. }
  set (i := Z.lxor (Z.land v 255) (byte c)) in *.
  unfold crc_table. rewrite list_lookup_fmap, lookup_seq_lt by lia. cbn -[crc_bits].
  rewrite Z2Nat.id by lia. f_equal.
  assert (E : Z.lxor v (byte c) = Z.lxor i (Z.shiftl (Z.shiftr v 8) (Z.of_nat 8))).
  { rewrite (low_high_bits v Hv) at 1. subst i. change (Z.of_nat 8) with 8.
    rewrite !Z.lxor_assoc. f_equal. apply Z.lxor_comm. }
  by rewrite E, crc_bits_lxor, crc_bits_high.
Qed.

Section width.
Variables (w p : Z).
Hypotheses (Hw : 8 <= w) (Hp : 0 <= p < 2 ^ w).

Lemma crc_byte_range v c : 0 <= v < 2 ^ w -> 0 <= crc_byte p v c < 2 ^ w.
Proof using Hw Hp.
  intros Hv. apply crc_bits_range; [lia|done|]. apply lxor_range; [lia|done|].
  pose proof (byte_range_256 c). pose proof (Z.pow_le_mono_r 2 8 w). lia.
Qed.

Lemma update_crc_state_spec v s : 0 <= v < 2 ^ w ->
  update_crc_state (crc_table p) v s = Some (crc_fold p v s) /\ 0 <= crc_fold p v s < 2 ^ w.
Proof using Hw Hp.
  revert v. induction s as [|c s IH]; intros v Hv; [done|]. cbn [update_crc_state crc_fold].
  rewrite table_step_spec by lia. by apply IH, crc_byte_range.
Qed.

Lemma update_chunks_spec v l : 0 <= v < 2 ^ w ->
  update_chunks (crc_table p) v l = Some (crc_fold p v (str_concat l)).
Proof using Hw Hp.
  revert v. induction l as [|s l IH]; intros v Hv; [done|]. cbn [update_chunks str_concat].
  destruct (update_crc_state_spec v s Hv) as [-> Hs]. cbn. rewrite IH by done. f_equal.
  clear. revert v. induction s as [|c s IH]; intros v; [done|]. cbn. apply IH.
Qed.

Lemma crc_spec max s : max = 2 ^ w - 1 ->
  crc_not max <$> update_crc_state (crc_table p) max s = Some (crc_reference p max s) /\
  0 <= crc_reference p max s < 2 ^ w /\
  chunked_crc (crc_table p) max s = Some (crc_reference p max s).
Proof using Hw Hp.
  intros ->. assert (Hm : 0 <= 2 ^ w - 1 < 2 ^ w) by (pose proof (Z.pow_pos_nonneg 2 w); lia).
  destruct (update_crc_state_spec _ s Hm) as [E R]. rewrite E. split; [done|split].
  - apply lxor_range; [lia|done|done].
  - unfold chunked_crc. rewrite update_chunks_spec by done. by rewrite chunks_concat.
Qed.
End width.

Lemma tables_are_tables :
  CRC32_TABLE = crc_table CRC32_POLYNOMIAL /\ CRC32C_TABLE = crc_table CRC32C_POLYNOMIAL /\
  CRC64_NVME_TABLE = crc_table CRC64_NVME_POLYNOMIAL.
Proof. split_and!; vm_compute; reflexivity. Qed.

Lemma crc32_spec s : crc32 s = Some (crc_reference CRC32_POLYNOMIAL U32_MAX s) /\
  0 <= crc_reference CRC32_POLYNOMIAL U32_MAX s <= U32_MAX /\
  chunked_crc CRC32_TABLE U32_MAX s = crc32 s.
Proof.
  unfold crc32. rewrite (proj1 tables_are_tables).
  destruct (crc_spec 32 CRC32_POLYNOMIAL ltac:(lia) ltac:(by vm_compute) U32_MAX s eq_refl) as (-> & ? & ->).
  unfold U32_MAX in *. split; [done|]. split; [lia|done].
Qed.

Lemma crc32c_spec s : crc32c s = Some (crc_reference CRC32C_POLYNOMIAL U32_MAX s) /\
  0 <= crc_reference CRC32C_POLYNOMIAL U32_MAX s <= U32_MAX /\
  chunked_crc CRC32C_TABLE U32_MAX s = crc32c s.
Proof.
  unfold crc32c. rewrite (proj1 (proj2 tables_are_tables)).
  destruct (crc_spec 32 CRC32C_POLYNOMIAL ltac:(lia) ltac:(by vm_compute) U32_MAX s eq_refl) as (-> & ? & ->).
  unfold U32_MAX in *. split; [done|]. split; [lia|done].
Qed.

Lemma crc64_nvme_spec s : crc64_nvme s = Some (crc_reference CRC64_NVME_POLYNOMIAL U64_MAX s) /\
  0 <= crc_reference CRC64_NVME_POLYNOMIAL U64_MAX s <= U64_MAX /\
  chunked_crc CRC64_NVME_TABLE U64_MAX s = crc64_nvme s.
Proof.
  unfold crc64_nvme. rewrite (proj2 (proj2 tables_are_tables)).
  destruct (crc_spec 64 CRC64_NVME_POLYNOMIAL ltac:(lia) ltac:(by vm_compute) U64_MAX s eq_refl) as (-> & ? & ->).
  unfold U64_MAX in *. split; [done|]. split; [lia|done].
Qed.

(** The chunks make no difference. *)
Lemma calculate_cooperatively_spec `{Primitives} `{Base64} algorithm bytes :
  calculate_cooperatively algorithm bytes = calculate algorithm bytes.
Proof.
  destruct (crc32_spec bytes) as (? & ? & E1), (crc32c_spec bytes) as (? & ? & E2),
    (crc64_nvme_spec bytes) as (? & ? & E3).
  destruct algorithm; cbn [calculate calculate_cooperatively]; rewrite ?E1, ?E2, ?E3; try done.
  by rewrite fold_left_append, chunks_concat.
Qed.

(** ** Properties *)

(** C30. The checksums are the standard ones, however the bytes are cut. The
table-driven CRCs are, for every input, the bit-by-bit division by their
polynomials, within the width of the register; and the cooperative calculation
in chunks gives the same checksum, or the same refusal, as the direct one. *)
Theorem checksum_calculation `{Primitives} `{Base64} (algorithm : ChecksumAlgorithm.t)
  (bytes : string) :
  (crc32 bytes = Some (crc_reference CRC32_POLYNOMIAL U32_MAX bytes) /\
   0 <= crc_reference CRC32_POLYNOMIAL U32_MAX bytes <= U32_MAX) /\
  (crc32c bytes = Some (crc_reference CRC32C_POLYNOMIAL U32_MAX bytes) /\
   0 <= crc_reference CRC32C_POLYNOMIAL U32_MAX bytes <= U32_MAX) /\
  (crc64_nvme bytes = Some (crc_reference CRC64_NVME_POLYNOMIAL U64_MAX bytes) /\
   0 <= crc_reference CRC64_NVME_POLYNOMIAL U64_MAX bytes <= U64_MAX) /\
  calculate_cooperatively algorithm bytes = calculate algorithm bytes.
Proof.
  destruct (crc32_spec bytes) as (? & ? & _), (crc32c_spec bytes) as (? & ? & _),
    (crc64_nvme_spec bytes) as (? & ? & _).
  repeat (split; [by auto|]). apply calculate_cooperatively_spec.
Qed.
