(* ===== verification/Multipart.v ===== *)
(** Managed multipart uploads ([src/client/multipart_upload.rs]): cutting a
source into parts, uploading them with bounded concurrency, quiescing after a
failure, and aborting what was not completed. The four service calls are an
interface; what happens while the upload waits is a list of events. *)

From S2P Require Import Prelude Text Errors SigV4 Http Types Stream Records Crc.
From stdpp Require Import options.
Local Open Scope Z_scope.

(** ** The service calls, as the orchestration sees them

Each request is sent at most once, so an answer per request is general. *)
Class MultipartApi `{Http} : Type := {
  api_create : CreateMultipartUploadRequest.t -> outcome CreateMultipartUploadOutput.t;
  api_upload_part : UploadPartRequest.t -> outcome UploadPartOutput.t;
  api_complete : CompleteMultipartUploadRequest.t -> outcome CompleteMultipartUploadOutput.t;
  api_abort : AbortMultipartUploadRequest.t -> outcome unit
}.

(** An uploaded part has the number it was requested with. *)
Class MultipartApiLaws `{MultipartApi} : Prop := {
  api_part_number : forall r out, api_upload_part r = Ok out ->
    UploadPartOutput.part_number out = UploadPartRequest.part_number r
}.

(** ** The source *)

Inductive PreparedMultipartSource : Type :=
| PreparedMultipartBytes (bytes : string)
| PreparedMultipartFile (snapshot : FileSnapshot).

Definition cancelled : S3Error.t := S3Error.cancellation "multipart upload was cancelled".
Definition transfer_timeout : S3Error.t :=
  S3Error.timeout TimeoutPhase.Operation "managed multipart upload exceeded its transfer deadline".

Definition source_length (source : PreparedMultipartSource) : outcome Z :=
  match source with
  | PreparedMultipartBytes bytes =>
      ok_or (try_from U64_MAX (slen bytes))
        (S3Error.configuration "multipart byte length does not fit in u64")
  | PreparedMultipartFile snapshot => Ok (snapshot_length snapshot)
  end.

Definition part_count (source : PreparedMultipartSource) (part_size : Z) : outcome Z :=
  let? length := source_length source in
  if length =? 0
  then Err (S3Error.configuration "managed multipart uploads require a non-empty source")
  else
    let count := div_ceil length part_size in
    if PartNumber.MAX <? count
    then Err (S3Error.configuration "multipart source exceeds the configured 10,000-part limit")
    else ok_or (try_from U16_MAX count)
           (S3Error.configuration "multipart part count does not fit in u16").

Definition read_part (source : PreparedMultipartSource) (part_size part_number : Z)
  : outcome string :=
  let? offset := ok_or (checked_mul U64_MAX (part_number - 1) part_size)
                   (S3Error.integrity "multipart part offset overflow") in
  let? total := source_length source in
  let? remaining := ok_or (checked_sub total offset)
                      (S3Error.integrity "multipart part offset exceeds source length") in
  let length := Z.min remaining part_size in
  let? length_usize := ok_or (try_from USIZE_MAX length)
                         (S3Error.configuration "multipart part size does not fit in usize") in
  match source with
  | PreparedMultipartBytes bytes =>
      let? start := ok_or (try_from USIZE_MAX offset)
                      (S3Error.configuration "multipart byte offset does not fit in usize") in
      Ok (str_take length_usize (str_drop start bytes))
  | PreparedMultipartFile snapshot => read_range snapshot offset length_usize
  end.

Section prepare.
Context `{Primitives}.
Definition PreparedMultipartSource_prepare (source : MultipartUploadSource)
  : outcome PreparedMultipartSource :=
  match source with
  | MultipartBytes bytes => Ok (PreparedMultipartBytes bytes)
  | MultipartFile fs => result_map PreparedMultipartFile (FileSnapshot_create fs false)
  end.
End prepare.

(** ** One part *)

Record PartUploadContext `{Http} : Type := {
  ctx_key : ObjectKey.t;
  ctx_upload_id : UploadId.t;
  ctx_source : PreparedMultipartSource;
  ctx_part_size : Z;
  ctx_checksum_algorithm : option ChecksumAlgorithm.t;
  ctx_headers : HeaderMap
}.

Section parts.
Context `{Http} `{Primitives} `{Base64} `{!MultipartApi}.

(** The request for one part; [late] tells the parts whose checksum outlasts
the transfer deadline. *)
Definition part_request (context : PartUploadContext) (late : Z -> bool) (part_number : Z)
  : outcome UploadPartRequest.t :=
  let? body := read_part (ctx_source context) (ctx_part_size context) part_number in
  let? number := ok_or (PartNumber.new part_number)
                   (S3Error.integrity "generated multipart part number is invalid") in
  let? checksum :=
    match ctx_checksum_algorithm context with
    | Some algorithm =>
        if late part_number then Err transfer_timeout
        else map_err (fun e => S3Error.unsupported (ChecksumCalculationError_display e))
               (calculate_cooperatively algorithm body)
    | None => Ok Checksum.default
    end in
  Ok (UploadPartRequest.with_headers
        (UploadPartRequest_with_checksum
           (UploadPartRequest.new (ctx_key context) (ctx_upload_id context) number
              (SourceBytes body)) checksum)
        (ctx_headers context)).

Definition upload_one_part (context : PartUploadContext) (late : Z -> bool) (part_number : Z)
  : outcome CompletedPart.t :=
  let? request := part_request context late part_number in
  let? output := api_upload_part request in
  map_err (fun e => S3Error.invalid_response (MultipartError.display e))
    (result_map (fun part => CompletedPart.with_checksum part (UploadPartOutput.checksum output))
       (CompletedPart.new (PartNumber.get (UploadPartOutput.part_number output))
          (UploadPartOutput.e_tag output))).

(** ** The scheduler *)

(** What a wait ends with: a cancellation, the transfer deadline, or one of the
pending parts, by its position among them. *)
Inductive wait_event : Type := WaitCancelled | WaitDeadline | WaitPart (position : nat).

(** Part numbers: the next one, those in flight, those ever started. *)
Record Scheduler : Type := {
  next_part : Z;
  pending : list Z;
  started : list Z;
  upload : MultipartUpload.t
}.

Definition ManagedUploadFailure : Type := S3Error.t * list Z.

(** The inner loop; [concurrency] iterations are enough for it. *)
Fixpoint fill (fuel : nat) (count concurrency : Z) (s : Scheduler) : Scheduler :=
  match fuel with
  | O => s
  | S fuel =>
      if (Z.of_nat (List.length (pending s)) <? concurrency) && (next_part s <=? count)
      then fill fuel count concurrency
             {| next_part := next_part s + 1; pending := pending s ++ [next_part s];
                started := started s ++ [next_part s]; upload := upload s |}
      else s
  end.

(** [pending.next()], as the outcome of the part and what stays pending. *)
Definition complete_next (context : PartUploadContext) (late : Z -> bool) (event : wait_event)
    (pending : list Z) : outcome CompletedPart.t * list Z :=
  match event with
  | WaitCancelled => (Err cancelled, pending)
  | WaitDeadline => (Err transfer_timeout, pending)
  | WaitPart position =>
      match pending !! position with
      | Some part_number => (upload_one_part context late part_number, delete position pending)
      | None => (Err (S3Error.integrity "multipart scheduler lost an in-flight part"), pending)
      end
  end.

(** [upload_parts]: the parts started, and the upload, or the primary error with
the parts left in flight; [None] when the events run out while it waits. *)
Fixpoint upload_loop (context : PartUploadContext) (late : Z -> bool) (count concurrency : Z)
    (events : list wait_event) (s : Scheduler)
  : option (Scheduler * result ManagedUploadFailure MultipartUpload.t) :=
  let s := fill (Z.to_nat concurrency) count concurrency s in
  match pending s with
  | [] => Some (s, Ok (upload s))
  | _ :: _ =>
      match events with
      | [] => None
      | event :: events =>
          match complete_next context late event (pending s) with
          | (Err primary, rest) => Some (s, Err (primary, rest))
          | (Ok completed, rest) =>
              match MultipartUpload.record_part (upload s) completed with
              | Err error =>
                  Some (s, Err (S3Error.integrity (MultipartError.display error), rest))
              | Ok u =>
                  upload_loop context late count concurrency events
                    {| next_part := next_part s; pending := rest; started := started s;
                       upload := u |}
              end
          end
      end
  end.

Definition Scheduler_new (context : PartUploadContext) : Scheduler :=
  {| next_part := 1; pending := []; started := [];
     upload := MultipartUpload.new (ctx_key context) (ctx_upload_id context) |}.

Definition upload_parts (context : PartUploadContext) (late : Z -> bool) (count concurrency : Z)
    (events : list wait_event)
  : option (Scheduler * result ManagedUploadFailure MultipartUpload.t) :=
  upload_loop context late count concurrency events (Scheduler_new context).

(** [quiesce_part_requests]: whether each wait settled a request in time. The
result is the quiesce failure; [None] while it waits. *)
Definition quiesce_timeout : S3Error.t :=
  S3Error.timeout TimeoutPhase.Operation
    "multipart cleanup could not quiesce in-flight part requests".

Fixpoint quiesce_part_requests (pending : list Z) (settled : list bool) : option (option S3Error.t) :=
  match pending, settled with
  | [], _ => Some None
  | _ :: _, [] => None
  | _ :: _, false :: _ => Some (Some quiesce_timeout)
  | _ :: pending, true :: settled => quiesce_part_requests pending settled
  end.

(** ** Cleaning up *)

Definition attach_cleanup_failure (primary : S3Error.t) (cleanup : outcome unit) : S3Error.t :=
  match cleanup with
  | Ok _ => primary
  | Err cleanup => S3Error.with_cleanup_failure primary cleanup
  end.

(** The service calls made, in order. *)
Inductive service_call : Type :=
| CallCreate (r : CreateMultipartUploadRequest.t)
| CallPart (part_number : Z)
| CallComplete (r : CompleteMultipartUploadRequest.t)
| CallAbort (r : AbortMultipartUploadRequest.t).

Definition abort_request (key : ObjectKey.t) (upload_id : UploadId.t) (headers : HeaderMap)
  : AbortMultipartUploadRequest.t :=
  AbortMultipartUploadRequest.with_headers (AbortMultipartUploadRequest.new key upload_id) headers.

Definition fail_with_abort (key : ObjectKey.t) (upload_id : UploadId.t) (headers : HeaderMap)
    (primary : S3Error.t) (quiesce_failure : option S3Error.t)
  : list service_call * outcome CompleteMultipartUploadOutput.t :=
  let request := abort_request key upload_id headers in
  let cleanup := match api_abort request, quiesce_failure with
                 | Ok _, None => Ok tt
                 | Err error, None => Err error
                 | Ok _, Some error => Err error
                 | Err abort, Some quiesce => Err (S3Error.with_cleanup_failure abort quiesce)
                 end in
  ([CallAbort request], Err (attach_cleanup_failure primary cleanup)).

(** ** The whole upload *)

(** What happens to an upload besides the answers of the service. *)
Record UploadCircumstances : Type := {
  cancelled_preparing : bool;
  preparing_elapsed : bool;
  cancelled_before_create : bool;
  late_checksums : Z -> bool;
  wait_events : list wait_event;
  settlements : list bool;
  cancelled_completing : bool
}.

Definition create_request (request : ManagedMultipartUploadRequest.t)
  : CreateMultipartUploadRequest.t :=
  CreateMultipartUploadRequest.Mk (ManagedMultipartUploadRequest.key request)
    (ManagedMultipartUploadRequest.content_type request)
    (ManagedMultipartUploadRequest.user_metadata request)
    (ManagedMultipartUploadRequest.checksum_algorithm request) None
    (ManagedMultipartHeaders.create (ManagedMultipartUploadRequest.headers request)).

Definition part_context (request : ManagedMultipartUploadRequest.t) (upload_id : UploadId.t)
    (source : PreparedMultipartSource) : PartUploadContext :=
  {| ctx_key := ManagedMultipartUploadRequest.key request; ctx_upload_id := upload_id;
     ctx_source := source;
     ctx_part_size := MultipartOptions.part_size (ManagedMultipartUploadRequest.options request);
     ctx_checksum_algorithm := ManagedMultipartUploadRequest.checksum_algorithm request;
     ctx_headers := ManagedMultipartHeaders.upload_part
                      (ManagedMultipartUploadRequest.headers request) |}.

(** Completing an upload whose parts are all there. *)
Definition complete_upload (request : ManagedMultipartUploadRequest.t) (upload_id : UploadId.t)
    (env : UploadCircumstances) (u : MultipartUpload.t)
  : list service_call * outcome CompleteMultipartUploadOutput.t :=
  let headers := ManagedMultipartUploadRequest.headers request in
  let key := ManagedMultipartUploadRequest.key request in
  let abort := fail_with_abort key upload_id (ManagedMultipartHeaders.abort headers) in
  match CompleteMultipartUploadRequest.new (MultipartUpload.key u) (MultipartUpload.upload_id u)
          (MultipartUpload.completed_parts u) with
  | Err error => abort (S3Error.integrity (MultipartError.display error)) None
  | Ok completion =>
      let completion := CompleteMultipartUploadRequest.with_headers completion
                          (ManagedMultipartHeaders.complete headers) in
      match (if cancelled_completing env then Err cancelled else api_complete completion) with
      | Ok output => ([CallComplete completion], Ok output)
      | Err primary =>
          let (calls, r) := abort primary None in (CallComplete completion :: calls, r)
      end
  end.

(** [run_multipart_upload]: the service calls and the outcome. *)
Definition run_multipart_upload (request : ManagedMultipartUploadRequest.t)
    (env : UploadCircumstances)
  : option (list service_call * outcome CompleteMultipartUploadOutput.t) :=
  let options := ManagedMultipartUploadRequest.options request in
  let headers := ManagedMultipartUploadRequest.headers request in
  let key := ManagedMultipartUploadRequest.key request in
  match
    let? source :=
      if cancelled_preparing env then Err cancelled
      else if preparing_elapsed env then Err transfer_timeout
      else PreparedMultipartSource_prepare (ManagedMultipartUploadRequest.source request) in
    let? count := part_count source (MultipartOptions.part_size options) in
    if cancelled_before_create env then Err cancelled else Ok (source, count)
  with
  | Err e => Some ([], Err e)
  | Ok (source, count) =>
      match api_create (create_request request) with
      | Err e => Some ([CallCreate (create_request request)], Err e)
      | Ok created =>
          let upload_id := CreateMultipartUploadOutput.upload_id created in
          r ← upload_parts (part_context request upload_id source) (late_checksums env) count
                (MultipartOptions.concurrency options) (wait_events env);
          let (s, r) := r : Scheduler * result ManagedUploadFailure MultipartUpload.t in
          let calls := CallCreate (create_request request) :: (CallPart <$> started s) in
          match r with
          | Ok u =>
              let (more, r) := complete_upload request upload_id env u in Some (calls ++ more, r)
          | Err (primary, rest) =>
              quiesce_failure ← quiesce_part_requests rest (settlements env);
              let (more, r) := fail_with_abort key upload_id (ManagedMultipartHeaders.abort headers)
                                 primary quiesce_failure in
              Some (calls ++ more, r)
          end
      end
  end.
End parts.

(** ** Lemmas: the parts *)

Definition source_content (source : PreparedMultipartSource) : string :=
  match source with
  | PreparedMultipartBytes bytes => bytes
  | PreparedMultipartFile snapshot => content snapshot
  end.

(** A prepared source is its content; only [part_count] bounds bytes in memory. *)
Definition source_ok (source : PreparedMultipartSource) : Prop :=
  match source with
  | PreparedMultipartBytes _ => True
  | PreparedMultipartFile snapshot =>
      snapshot_length snapshot = slen (content snapshot) /\ readable snapshot = Ok tt
  end.

Lemma prepare_ok `{Primitives} src p : PreparedMultipartSource_prepare src = Ok p -> source_ok p.
Proof.
  unfold PreparedMultipartSource_prepare. destruct src as [b|fs]; [intros; by inv_ok|].
  destruct (FileSnapshot_create fs false) as [s|] eqn:E; cbn; intros; inv_ok.
  apply snapshot_spec in E as (? & _ & ? & _). done.
Qed.

Lemma source_length_ok p n : source_ok p -> source_length p = Ok n -> n = slen (source_content p).
Proof.
  destruct p as [b|s]; cbn.
  - unfold try_from. destruct (slen b <=? U64_MAX); cbn; intros; by inv_ok.
  - intros [-> _]. intros; by inv_ok.
Qed.

Lemma str_drop_end n s : slen s <= n -> str_drop n s = "".
Proof.
  intros Hn. pose proof (str_take_drop n s) as E. rewrite str_take_all in E by done.
  apply (app_inj_l s). by rewrite E, app_nil_r_str.
Qed.

Lemma part_count_ok p ps n : source_ok p -> 0 < ps -> part_count p ps = Ok n ->
  let l := slen (source_content p) in
  0 < l /\ source_length p = Ok l /\ 1 <= n <= 10000 /\ (n - 1) * ps < l <= n * ps.
Proof.
  intros Hs Hp Hc. unfold part_count in Hc. destruct (source_length p) as [l|] eqn:El; [|done].
  apply source_length_ok in El as E; [|done]. subst l. cbv zeta.
  pose proof (slen_nonneg (source_content p)).
  destruct (Z.eqb_spec (slen (source_content p)) 0); [done|].
  destruct (Z.ltb_spec PartNumber.MAX (div_ceil (slen (source_content p)) ps)); [done|].
  unfold try_from in Hc. destruct (_ <=? U16_MAX); cbn in Hc; [|done]. inv_ok.
  pose proof (div_ceil_bounds (slen (source_content p)) ps Hp ltac:(lia)).
  unfold PartNumber.MAX in *. split_and!; try done; lia.
Qed.

Section partition.
Variables (p : PreparedMultipartSource) (ps n : Z).
Hypotheses (Hok : source_ok p) (Hps : 0 < ps <= MAX_PART_SIZE) (Hn : part_count p ps = Ok n).
Notation s := (source_content p).

(** Part [k] is the bytes from [(k - 1) * ps] on, at most [ps] of them. *)
Lemma read_part_spec k : 1 <= k <= n ->
  let off := (k - 1) * ps in
  read_part p ps k = Ok (str_take (Z.min (slen s - off) ps) (str_drop off s)) /\
  0 <= off < slen s.
Proof using Hok Hps Hn.
  intros Hk. cbv zeta. destruct (part_count_ok _ _ _ Hok (proj1 Hps) Hn) as (Hl & El & Hc & Hb).
  unfold MAX_PART_SIZE in *. pose proof (slen_nonneg s).
  assert (Ho : 0 <= (k - 1) * ps < slen s) by nia.
  assert (Hm : (k - 1) * ps <= U64_MAX) by (unfold U64_MAX; nia).
  split; [|exact Ho]. unfold read_part, checked_mul, checked_sub. rewrite El.
  rewrite (proj2 (Z.leb_le _ _) Hm). cbn [ok_or].
  rewrite (proj2 (Z.leb_le ((k - 1) * ps) (slen s))) by lia. cbn [ok_or].
  unfold try_from. rewrite (proj2 (Z.leb_le (Z.min (slen s - (k - 1) * ps) ps) USIZE_MAX))
    by (unfold USIZE_MAX; lia). cbn [ok_or].
  destruct p as [b|sn]; cbn [source_content] in *.
  - rewrite (proj2 (Z.leb_le ((k - 1) * ps) USIZE_MAX)) by (unfold USIZE_MAX, U64_MAX in *; lia).
    done.
  - destruct Hok as [_ Hr]. unfold read_range, io. rewrite Hr. cbn [map_err].
    rewrite (proj2 (Z.eqb_eq _ _)); [done|].
    rewrite str_take_length, str_drop_length by lia. lia.
Qed.

Lemma part_slice off : 0 <= off < slen s ->
  str_take (Z.min (slen s - off) ps) (str_drop off s) +:+ str_drop (off + ps) s = str_drop off s.
Proof using Hps.
  intros Ho. rewrite <- (str_take_drop (Z.min (slen s - off) ps) (str_drop off s)) at 2. f_equal.
  rewrite str_drop_drop by lia. destruct (Z.leb_spec ps (slen s - off)).
  - f_equal. lia.
  - rewrite !str_drop_end by lia. done.
Qed.

Lemma read_parts_from m k : 1 <= k -> k - 1 + Z.of_nat m = n ->
  exists parts, try_map (read_part p ps) (seqZ k (Z.of_nat m)) = Ok parts /\
    str_concat parts = str_drop ((k - 1) * ps) s /\ List.length parts = m /\
    Forall (fun b => 0 < slen b <= ps) parts /\
    (forall i b, parts !! i = Some b -> (S i < m)%nat -> slen b = ps).
Proof using Hok Hps Hn.
  destruct (part_count_ok _ _ _ Hok (proj1 Hps) Hn) as (Hl & _ & Hc & Hb).
  revert k. induction m as [|m IH]; intros k Hk Hm.
  { exists []. cbn. split_and!; try done. symmetry. apply str_drop_end. nia. }
  destruct (IH (k + 1)) as (parts & Et & Ec & El & Hf & Hi); [lia..|].
  destruct (read_part_spec k ltac:(lia)) as [Er Ho].
  rewrite seqZ_cons by lia. replace (Z.pred (Z.of_nat (S m))) with (Z.of_nat m) by lia.
  replace (Z.succ k) with (k + 1) by lia. cbn [try_map]. rewrite Er, Et. eexists. split; [done|].
  set (off := (k - 1) * ps) in *. replace ((k + 1 - 1) * ps) with (off + ps) in Ec by (subst off; lia).
  cbn [str_concat List.length]. rewrite Ec, part_slice, El by done.
  assert (Hs : slen (str_take (Z.min (slen s - off) ps) (str_drop off s)) = Z.min (slen s - off) ps).
  { rewrite str_take_length, str_drop_length by lia. lia. }
  split_and!; [done..| |].
  - constructor; [|done]. rewrite Hs. lia.
  - intros [|i] b; cbn; [|intros; eapply Hi; [done|lia]]. intros [= <-] Hi1. rewrite Hs.
    assert (off + ps <= slen s); [|lia]. subst off. nia.
Qed.
End partition.

(** ** Lemmas: the scheduler *)

Section scheduler.
Set Default Proof Using "Type*".
Context `{Http} `{Primitives} `{Base64} `{!MultipartApi} `{!MultipartApiLaws}.
Variables (context : PartUploadContext) (late : Z -> bool) (count concurrency : Z).
Hypotheses (Hcount : 1 <= count <= 10000) (Hconc : 1 <= concurrency).

(** A recorded part is the answer to the request for its number. *)
Definition uploaded (part : CompletedPart.t) : Prop :=
  upload_one_part context late (part_no part) = Ok part.

Record sched_ok (s : Scheduler) : Prop := {
  ok_next : 1 <= next_part s <= count + 1;
  ok_started : started s = seqZ 1 (next_part s - 1);
  ok_parts : pending s ++ (part_no <$> MultipartUpload.completed_parts (upload s)) ≡ₚ started s;
  ok_flight : Z.of_nat (List.length (pending s)) <= concurrency;
  ok_ascending : ascending (MultipartUpload.completed_parts (upload s));
  ok_uploaded : Forall uploaded (MultipartUpload.completed_parts (upload s));
  ok_identity : MultipartUpload.key (upload s) = ctx_key context /\
                MultipartUpload.upload_id (upload s) = ctx_upload_id context
}.

Lemma sched_new_ok : sched_ok (Scheduler_new context).
Proof. split; cbn; try done; try lia. constructor. Qed.

Lemma fill_ok fuel s : sched_ok s -> sched_ok (fill fuel count concurrency s).
Proof.
  revert s. induction fuel as [|fuel IH]; intros s Hs; [done|]. cbn [fill].
  destruct (_ && _) eqn:G; [|done]. apply IH. bools. destruct Hs as [Hn Hst Hp Hf Ha Hu Hi].
  assert (E : seqZ 1 (next_part s + 1 - 1) = seqZ 1 (next_part s - 1) ++ [next_part s]).
  { replace (next_part s + 1 - 1) with ((next_part s - 1) + 1) by lia.
    rewrite seqZ_app by lia. f_equal. rewrite seqZ_cons, seqZ_nil by lia. f_equal. lia. }
  split; cbn [next_part pending started upload]; try done; [lia| | |].
  - by rewrite E, Hst.
  - rewrite <- Hp. rewrite <- !app_assoc. apply Permutation_app_head. apply Permutation_app_comm.
  - rewrite length_app. cbn. lia.
Qed.

(** After filling, parts are only left over when the window is full. *)
Lemma fill_full fuel s :
  concurrency - Z.of_nat (List.length (pending s)) <= Z.of_nat fuel ->
  let s' := fill fuel count concurrency s in
  count < next_part s' \/ concurrency <= Z.of_nat (List.length (pending s')).
Proof.
  revert s. induction fuel as [|fuel IH]; intros s Hf; cbn [fill]; [right; lia|].
  destruct (_ && _) eqn:G.
  - apply IH. cbn [pending]. rewrite length_app. cbn [List.length]. lia.
  - apply andb_false_iff in G as [G|G]; bools; lia.
Qed.

Lemma PartNumber_new_get v n : PartNumber.new v = Some n -> PartNumber.get n = v.
Proof.
  unfold PartNumber.new. destruct (v =? 0); [done|]. destruct (v <=? _); [|done]. by intros [= <-].
Qed.

Lemma upload_one_part_number k part : upload_one_part context late k = Ok part -> part_no part = k.
Proof.
  unfold upload_one_part. destruct (part_request context late k) as [r|] eqn:Er; [|done].
  destruct (api_upload_part r) as [out|] eqn:Eo; [|done]. apply api_part_number in Eo. rewrite Eo.
  assert (Hk : PartNumber.get (UploadPartRequest.part_number r) = k).
  { unfold part_request in Er. destruct (read_part _ _ _); [|done].
    destruct (PartNumber.new k) as [m|] eqn:Em; cbn [ok_or] in Er; [|done].
    apply PartNumber_new_get in Em.
    destruct (match ctx_checksum_algorithm context with Some _ => _ | None => _ end); [|done].
    injection Er as <-. done. }
  rewrite Hk. unfold CompletedPart.new. destruct (PartNumber.new k) as [m|] eqn:Em; [|done].
  apply PartNumber_new_get in Em. cbn [ok_or]. destruct (trim_is_empty _); [done|].
  intros Hp. injection Hp as <-. exact Em.
Qed.

(** Recording an answer: the part was pending, so it is not a duplicate. *)
Lemma record_ok s i k part :
  sched_ok s -> pending s !! i = Some k -> upload_one_part context late k = Ok part ->
  exists u, MultipartUpload.record_part (upload s) part = Ok u /\
    sched_ok {| next_part := next_part s; pending := delete i (pending s); started := started s;
                upload := u |} /\
    List.length (MultipartUpload.completed_parts u)
      = S (List.length (MultipartUpload.completed_parts (upload s))).
Proof.
  intros [Hn Hst Hp Hf Ha Hu Hi] Hk Hpart. pose proof (upload_one_part_number _ _ Hpart) as Hno.
  unfold MultipartUpload.record_part.
  pose proof (insert_part_spec part _ Ha) as R.
  pose proof (delete_Permutation _ _ _ Hk) as D.
  assert (Hlen : (List.length (delete i (pending s)) <= List.length (pending s))%nat)
    by (rewrite length_delete by eauto; lia).
  set (d := delete i (pending s)) in *. clearbody d.
  destruct (MultipartUpload.insert_part part _) as [parts|e].
  - destruct R as [Ra Rp]. eexists. split; [done|]. split.
    2:{ cbn. by rewrite Rp. }
    split; cbn [next_part pending started upload MultipartUpload.completed_parts
                MultipartUpload.key MultipartUpload.upload_id]; try done.
    + rewrite <- Hp, Rp, D, fmap_cons, Hno. cbn. symmetry. apply Permutation_middle.
    + lia.
    + rewrite Rp. constructor; [|done]. red. by rewrite Hno.
  - destruct R as [_ (q & Hq & E)%Exists_exists]. exfalso.
    assert (N : NoDup (started s)) by (rewrite Hst; apply NoDup_seqZ). rewrite <- Hp, D in N.
    cbn in N. apply NoDup_cons in N as [N _]. apply N. apply elem_of_app. right.
    apply list_elem_of_fmap. exists q. split; [congruence|done].
Qed.

(** What the loop returns. *)
Definition upload_result (s : Scheduler) (r : result ManagedUploadFailure MultipartUpload.t) : Prop :=
  match r with
  | Ok u => u = upload s /\ pending s = [] /\ next_part s = count + 1
  | Err (_, rest) => rest ⊆+ pending s
  end.

Lemma upload_loop_ok events s s' r : sched_ok s ->
  upload_loop context late count concurrency events s = Some (s', r) ->
  sched_ok s' /\ upload_result s' r.
Proof.
  revert s. induction events as [|event events IH]; intros s Hs Hl; cbn [upload_loop] in Hl;
    apply (fill_ok (Z.to_nat concurrency)) in Hs as Hf;
    pose proof (fill_full (Z.to_nat concurrency) s ltac:(lia)) as Hfull;
    cbv zeta in Hfull; set (s1 := fill _ count concurrency s) in *;
    (destruct (pending s1) as [|k0 ks] eqn:Ep; 
      [injection Hl as <- <-; split; [done|]; red; split_and!; try done; destruct Hf; cbn in *; lia|]).
  { done. }
  rewrite <- Ep in Hl. destruct (complete_next context late event (pending s1)) as [c rest] eqn:Ec.
  assert (Hrest : (c = Err cancelled \/ c = Err transfer_timeout \/
      c = Err (S3Error.integrity "multipart scheduler lost an in-flight part")) /\ rest = pending s1
    \/ exists i k, pending s1 !! i = Some k /\ c = upload_one_part context late k /\
                   rest = delete i (pending s1)).
  { unfold complete_next in Ec. destruct event as [| |i]; [injection Ec as <- <-; auto..|].
    destruct (pending s1 !! i) as [k|] eqn:Ek; injection Ec as <- <-; [|auto]. right. by exists i, k. }
  destruct c as [part|e].
  - destruct Hrest as [[[?|[?|?]] _]|(i & k & Hk & Hpart & ->)]; [done..|].
    destruct (record_ok _ _ _ _ Hf Hk (eq_sym Hpart)) as (u & Eu & Hu & _). rewrite Eu in Hl.
    by eapply IH.
  - injection Hl as <- <-. split; [done|]. red.
    destruct Hrest as [[_ ->]|(i & k & _ & _ & ->)]; [done|]. apply sublist_submseteq, sublist_delete.
Qed.

(** Why the loop stopped with an error: the first event that is not a part done
well. [done] are the parts recorded before it, [rest] those left in flight. *)
Definition upload_stopped (started : list Z) (events : list wait_event) (done rest : list Z)
    (e : S3Error.t) : Prop :=
  Forall (fun event => exists i, event = WaitPart i) (take (List.length done) events) /\
  Forall (fun k => exists part, upload_one_part context late k = Ok part) done /\
  match events !! List.length done with
  | Some WaitCancelled => done ++ rest ≡ₚ started /\
      e = S3Error.cancellation "multipart upload was cancelled"
  | Some WaitDeadline => done ++ rest ≡ₚ started /\
      e = S3Error.timeout TimeoutPhase.Operation
            "managed multipart upload exceeded its transfer deadline"
  | Some (WaitPart i) =>
      (exists k, upload_one_part context late k = Err e /\ done ++ k :: rest ≡ₚ started) \/
      (List.length rest <= i)%nat /\ done ++ rest ≡ₚ started /\
      e = S3Error.integrity "multipart scheduler lost an in-flight part"
  | None => False
  end.

Lemma complete_next_stopped s before event events e rest : sched_ok s ->
  Forall (fun event => exists i, event = WaitPart i) before ->
  List.length before = List.length (MultipartUpload.completed_parts (upload s)) ->
  complete_next context late event (pending s) = (Err e, rest) ->
  upload_stopped (started s) (before ++ event :: events)
    (part_no <$> MultipartUpload.completed_parts (upload s)) rest e.
Proof.
  intros Hs Hb Hl Hc. unfold upload_stopped. rewrite length_fmap, <- Hl.
  rewrite take_app_length, list_lookup_middle by done. split; [done|].
  pose proof (ok_parts _ Hs) as Hp. rewrite Permutation_app_comm in Hp. split.
  { apply Forall_fmap. eapply Forall_impl; [apply (ok_uploaded _ Hs)|]. intros part Hu.
    exists part. exact Hu. }
  unfold complete_next in Hc. destruct event as [| |i]; [injection Hc as <- <-; by split..|].
  destruct (pending s !! i) as [k|] eqn:Ek; injection Hc as Hk <-.
  - left. exists k. split; [done|]. rewrite <- Hp.
    apply Permutation_app_head. symmetry. by apply delete_Permutation.
  - right. apply lookup_ge_None in Ek. split_and!; done.
Qed.

Lemma fill_keeps_upload fuel s : upload (fill fuel count concurrency s) = upload s.
Proof.
  revert s. induction fuel as [|fuel IH]; intros s; cbn [fill]; [done|].
  destruct (_ && _); [|done]. by rewrite IH.
Qed.

(** One turn of the loop: it is done, or it stops, or it records a part. *)
Lemma upload_loop_stops events before s s' e rest : sched_ok s ->
  Forall (fun event => exists i, event = WaitPart i) before ->
  List.length before = List.length (MultipartUpload.completed_parts (upload s)) ->
  upload_loop context late count concurrency events s = Some (s', Err (e, rest)) ->
  exists done, upload_stopped (started s') (before ++ events) done rest e.
Proof.
  revert before s. induction events as [|event events IH]; intros before s Hs Hb Hl Hr;
    cbn [upload_loop] in Hr; apply (fill_ok (Z.to_nat concurrency)) in Hs as Hf;
    rewrite <- (fill_keeps_upload (Z.to_nat concurrency)) in Hl;
    set (s1 := fill _ count concurrency s) in *; destruct (pending s1) as [|k0 ks] eqn:Ep; try done.
  rewrite <- Ep in Hr.
  destruct (complete_next context late event (pending s1)) as [[part|e1] rest1] eqn:Ec.
  - unfold complete_next in Ec. destruct event as [| |i]; [done..|].
    destruct (pending s1 !! i) as [k|] eqn:Ek; [|done]. injection Ec as Hpart <-.
    destruct (record_ok _ _ _ _ Hf Ek Hpart) as (u & Eu & Hu & Hlen). rewrite Eu in Hr.
    replace (before ++ WaitPart i :: events) with ((before ++ [WaitPart i]) ++ events)
      by by rewrite <- app_assoc.
    eapply IH; [exact Hu| |..|exact Hr].
    + apply Forall_app. split; [done|]. repeat constructor. by exists i.
    + cbn [upload]. rewrite length_app, Hlen, Hl. cbn. lia.
  - injection Hr as <- <- <-. eexists. by eapply complete_next_stopped.
Qed.

(** As many events as there are parts are enough. *)
Lemma upload_loop_some events s : sched_ok s ->
  count - Z.of_nat (List.length (MultipartUpload.completed_parts (upload s)))
    <= Z.of_nat (List.length events) ->
  is_Some (upload_loop context late count concurrency events s).
Proof.
  revert s. induction events as [|event events IH]; intros s Hs Hl; cbn [upload_loop];
    apply (fill_ok (Z.to_nat concurrency)) in Hs as Hf;
    pose proof (fill_keeps_upload (Z.to_nat concurrency) s) as Eu;
    set (s1 := fill _ count concurrency s) in *;
    destruct (pending s1) as [|k0 ks] eqn:Ep; try done.
  - exfalso. destruct Hf as [Hn Hst Hp _ _ _ _]. rewrite Ep, Hst in Hp.
    apply Permutation_length in Hp.
    rewrite length_app, length_seqZ, length_fmap, Eu in Hp. cbn [List.length] in Hp, Hl. lia.
  - rewrite <- Ep. destruct (complete_next context late event (pending s1)) as [[part|e] rest] eqn:Ec;
      [|done].
    unfold complete_next in Ec. destruct event as [| |i]; [done..|].
    destruct (pending s1 !! i) as [k|] eqn:Ek; [|done]. injection Ec as Hpart <-.
    destruct (record_ok _ _ _ _ Hf Ek Hpart) as (u & -> & Hu & Hlen). apply IH; [done|].
    cbn [upload]. rewrite Hlen, Eu. cbn [List.length] in Hl. lia.
Qed.

Lemma upload_parts_none events : upload_parts context late count concurrency events = None ->
  Z.of_nat (List.length events) < count.
Proof.
  intros E. destruct (Z.lt_ge_cases (Z.of_nat (List.length events)) count) as [?|G]; [done|].
  destruct (upload_loop_some events _ sched_new_ok) as [x Ex]; [|unfold upload_parts in E; congruence].
  unfold Scheduler_new, MultipartUpload.new.
  cbn [upload MultipartUpload.completed_parts List.length]. lia.
Qed.

Lemma finished_parts s : sched_ok s -> pending s = [] -> next_part s = count + 1 ->
  started s = seqZ 1 count /\
  part_no <$> MultipartUpload.completed_parts (upload s) = seqZ 1 count.
Proof.
  intros [Hn Hst Hp _ Ha _ _] E N. rewrite N in Hst. replace (count + 1 - 1) with count in Hst by lia.
  split; [done|]. rewrite E, Hst in Hp. cbn in Hp.
  eapply (StronglySorted_unique_strong Z.lt); [..|exact Hp].
  - intros x y _ _ L1 L2. lia.
  - clear -Ha. induction Ha as [|p l S IH F]; cbn; constructor; [done|]. by apply Forall_fmap.
  - rewrite <- (Z2Nat.id count) by lia. generalize (Z.to_nat count) as m. intros m. clear.
    generalize 1. induction m as [|m IH]; intros a; [rewrite seqZ_nil by lia; constructor|].
    rewrite seqZ_cons by lia. replace (Z.pred (Z.of_nat (S m))) with (Z.of_nat m) by lia.
    constructor; [apply IH|]. apply Forall_forall. intros x Hx. apply elem_of_seqZ in Hx. lia.
Qed.
End scheduler.

(** ** Lemmas: the whole upload *)

Definition options_ok (o : MultipartOptions.t) : Prop :=
  MIN_PART_SIZE <= MultipartOptions.part_size o <= MAX_PART_SIZE /\
  1 <= MultipartOptions.concurrency o <= MAX_CONCURRENCY.

Lemma quiesce_some pending settled :
  (List.length pending <= List.length settled)%nat ->
  is_Some (quiesce_part_requests pending settled).
Proof.
  revert settled. induction pending as [|k pending IH]; intros [|[] settled] Hl; cbn in *;
    try done; [lia|]. apply IH. lia.
Qed.

Section managed.
Set Default Proof Using "Type*".
Context `{Http} `{Primitives} `{Base64} `{!MultipartApi} `{!MultipartApiLaws}.
Variables (request : ManagedMultipartUploadRequest.t) (env : UploadCircumstances).
Notation options := (ManagedMultipartUploadRequest.options request).
Notation key := (ManagedMultipartUploadRequest.key request).
(** The two requests that do not depend on the parts, spelled out. *)
Notation creation :=
  (CreateMultipartUploadRequest.Mk key (ManagedMultipartUploadRequest.content_type request)
     (ManagedMultipartUploadRequest.user_metadata request)
     (ManagedMultipartUploadRequest.checksum_algorithm request) None
     (ManagedMultipartHeaders.create (ManagedMultipartUploadRequest.headers request))).
Notation abort_of id :=
  (AbortMultipartUploadRequest.Mk key id
     (ManagedMultipartHeaders.abort (ManagedMultipartUploadRequest.headers request))).

(** What came before the upload was created. *)
Definition managed_prepared (source : PreparedMultipartSource) (count : Z)
    (created : CreateMultipartUploadOutput.t) : Prop :=
  cancelled_preparing env = false /\ preparing_elapsed env = false /\
  PreparedMultipartSource_prepare (ManagedMultipartUploadRequest.source request) = Ok source /\
  part_count source (MultipartOptions.part_size options) = Ok count /\
  cancelled_before_create env = false /\
  api_create creation = Ok created.

(** The completion of an upload: all its parts, each the answer to its request. *)
Definition managed_completion (source : PreparedMultipartSource) (count : Z)
    (created : CreateMultipartUploadOutput.t) (completion : CompleteMultipartUploadRequest.t) : Prop :=
  let id := CreateMultipartUploadOutput.upload_id created in
  CompleteMultipartUploadRequest.key completion = key /\
  CompleteMultipartUploadRequest.upload_id completion = id /\
  CompleteMultipartUploadRequest.headers completion
    = ManagedMultipartHeaders.complete (ManagedMultipartUploadRequest.headers request) /\
  part_no <$> CompleteMultipartUploadRequest.completed_parts completion = seqZ 1 count /\
  Forall (uploaded (part_context request id source) (late_checksums env))
    (CompleteMultipartUploadRequest.completed_parts completion).

(** A success: every part was uploaded once, and all of them were completed. *)
Definition managed_success (calls : list service_call) (output : CompleteMultipartUploadOutput.t)
  : Prop :=
  exists source count created completion,
    managed_prepared source count created /\ managed_completion source count created completion /\
    cancelled_completing env = false /\ api_complete completion = Ok output /\
    calls = CallCreate creation :: (CallPart <$> seqZ 1 count)
            ++ [CallComplete completion].

(** The errors before anything was asked of the service, the first that applies. *)
Definition managed_not_started (e : S3Error.t) : Prop :=
  if cancelled_preparing env then e = S3Error.cancellation "multipart upload was cancelled"
  else if preparing_elapsed env
  then e = S3Error.timeout TimeoutPhase.Operation
             "managed multipart upload exceeded its transfer deadline"
  else match PreparedMultipartSource_prepare (ManagedMultipartUploadRequest.source request) with
       | Err error => e = error
       | Ok source =>
           match part_count source (MultipartOptions.part_size options) with
           | Err error => e = error
           | Ok _ => cancelled_before_create env = true /\
               e = S3Error.cancellation "multipart upload was cancelled"
           end
       end.

(** [e] is [primary] in every field but the cleanup failure. That one tells the
abort's own failure and the parts in flight that did not settle in time, and is
left as it is when there is neither. *)
Definition reported_failure (primary : S3Error.t) (abort : outcome unit) (quiesced : bool)
    (e : S3Error.t) : Prop :=
  let unsettled := S3Error.timeout TimeoutPhase.Operation
    "multipart cleanup could not quiesce in-flight part requests" in
  S3Error.category e = S3Error.category primary /\ S3Error.code e = S3Error.code primary /\
  S3Error.status e = S3Error.status primary /\ S3Error.message e = S3Error.message primary /\
  S3Error.request_id e = S3Error.request_id primary /\
  S3Error.host_id e = S3Error.host_id primary /\
  S3Error.retry_classification e = S3Error.retry_classification primary /\
  S3Error.timeout_phase e = S3Error.timeout_phase primary /\
  S3Error.server_time e = S3Error.server_time primary /\
  S3Error.clock_skew e = S3Error.clock_skew primary /\
  S3Error.source e = S3Error.source primary /\ S3Error.attempts e = S3Error.attempts primary /\
  S3Error.retry_stop_reason e = S3Error.retry_stop_reason primary /\
  match abort, quiesced with
  | Ok _, true => S3Error.cleanup_failure e = S3Error.cleanup_failure primary
  | Ok _, false => S3Error.cleanup_failure e = Some unsettled
  | Err a, true => S3Error.cleanup_failure e = Some a
  | Err a, false => exists both, S3Error.cleanup_failure e = Some both /\
      S3Error.category both = S3Error.category a /\ S3Error.message both = S3Error.message a /\
      S3Error.cleanup_failure both = Some unsettled
  end.

(** A failure: nothing was created, or the upload was aborted, last and once, and
the error is the one that stopped it: the wait's, or the completion's. *)
Definition managed_failure (calls : list service_call) (e : S3Error.t) : Prop :=
  (calls = [] /\ managed_not_started e) \/
  (calls = [CallCreate creation] /\ api_create creation = Err e) \/
  exists source count created parts completing primary quiesced,
    let id := CreateMultipartUploadOutput.upload_id created in
    managed_prepared source count created /\
    calls = CallCreate creation :: (CallPart <$> seqZ 1 parts) ++ completing
            ++ [CallAbort (abort_of id)] /\
    reported_failure primary (api_abort (abort_of id)) quiesced e /\
    ((completing = [] /\ parts <= count /\ exists done rest,
        upload_stopped (part_context request id source) (late_checksums env) (seqZ 1 parts)
          (wait_events env) done rest primary /\
        quiesced = forallb (fun b => b) (take (List.length rest) (settlements env))) \/
     (parts = count /\ quiesced = true /\ exists completion,
        completing = [CallComplete completion] /\
        managed_completion source count created completion /\
        if cancelled_completing env
        then primary = S3Error.cancellation "multipart upload was cancelled"
        else api_complete completion = Err primary)).

Lemma quiesced_spec pending settled q : quiesce_part_requests pending settled = Some q ->
  q = if forallb (fun b => b) (take (List.length pending) settled) then None else Some quiesce_timeout.
Proof.
  revert settled. induction pending as [|k pending IH]; intros [|[] settled] E; cbn in E;
    try done; [by injection E as <-..| |by injection E as <-].
  by apply IH.
Qed.

Lemma fail_with_abort_ok id primary (quiesced : bool) : exists e,
  fail_with_abort key id (ManagedMultipartHeaders.abort (ManagedMultipartUploadRequest.headers request))
    primary (if quiesced then None else Some quiesce_timeout)
    = ([CallAbort (abort_of id)], Err e) /\
  reported_failure primary (api_abort (abort_of id)) quiesced e.
Proof.
  unfold fail_with_abort, reported_failure. change (abort_request _ _ _) with (abort_of id).
  eexists. split; [done|].
  destruct (api_abort (abort_of id)) as [[]|a], quiesced;
    cbn [attach_cleanup_failure]; split_and!; try done.
  by exists (S3Error.with_cleanup_failure a quiesce_timeout).
Qed.

Lemma complete_upload_ok id u calls r : complete_upload request id env u = (calls, r) ->
  MultipartUpload.completed_parts u <> [] -> ascending (MultipartUpload.completed_parts u) ->
  exists completion,
    CompleteMultipartUploadRequest.key completion = MultipartUpload.key u /\
    CompleteMultipartUploadRequest.upload_id completion = MultipartUpload.upload_id u /\
    CompleteMultipartUploadRequest.headers completion
      = ManagedMultipartHeaders.complete (ManagedMultipartUploadRequest.headers request) /\
    CompleteMultipartUploadRequest.completed_parts completion = MultipartUpload.completed_parts u /\
    match r with
    | Ok output => calls = [CallComplete completion] /\
        cancelled_completing env = false /\ api_complete completion = Ok output
    | Err e => calls = [CallComplete completion; CallAbort (abort_of id)] /\ exists primary,
        reported_failure primary (api_abort (abort_of id)) true e /\
        if cancelled_completing env then primary = cancelled
        else api_complete completion = Err primary
    end.
Proof.
  intros Hc Hne Ha. unfold complete_upload, CompleteMultipartUploadRequest.new in Hc.
  rewrite (ascending_valid _ Hne Ha) in Hc.
  set (completion := CompleteMultipartUploadRequest.with_headers _ _) in Hc. exists completion.
  split_and!; try done.
  destruct (if cancelled_completing env then _ else _) as [out|primary] eqn:Ea.
  - injection Hc as <- <-. by destruct (cancelled_completing env).
  - match type of Hc with context [fail_with_abort ?k ?i ?h ?p _] =>
      destruct (fail_with_abort_ok i p true) as (e & E & Hq) end.
    rewrite E in Hc. injection Hc as <- <-. split; [done|]. exists primary. split; [done|].
    destruct (cancelled_completing env); [by injection Ea as <-|done].
Qed.

(** Once the upload is created: completed, or stopped and aborted. *)
Lemma created_outcome source count created (Hopt : options_ok options) :
  managed_prepared source count created ->
  let id := CreateMultipartUploadOutput.upload_id created in
  match upload_parts (part_context request id source) (late_checksums env) count
          (MultipartOptions.concurrency options) (wait_events env) with
  | Some (s, Ok u) => MultipartUpload.completed_parts u <> [] /\
      ascending (MultipartUpload.completed_parts u) /\
      MultipartUpload.key u = key /\ MultipartUpload.upload_id u = id /\
      started s = seqZ 1 count /\ part_no <$> MultipartUpload.completed_parts u = seqZ 1 count /\
      Forall (uploaded (part_context request id source) (late_checksums env))
        (MultipartUpload.completed_parts u)
  | Some (s, Err (primary, rest)) => started s = seqZ 1 (next_part s - 1) /\
      next_part s - 1 <= count /\ Z.of_nat (List.length rest) <= 64 /\
      exists done, upload_stopped (part_context request id source) (late_checksums env)
        (started s) (wait_events env) done rest primary
  | None => Z.of_nat (List.length (wait_events env)) < 10000
  end.
Proof.
  intros (_ & _ & Ep & Ec & _). cbv zeta. destruct Hopt as [Hps Hconc].
  unfold MIN_PART_SIZE, MAX_CONCURRENCY in *. pose proof (prepare_ok _ _ Ep) as Hok.
  destruct (part_count_ok source (MultipartOptions.part_size options) count Hok ltac:(lia) Ec)
    as (_ & _ & Hcount & _).
  set (context := part_context request _ source). set (late := late_checksums env).
  set (conc := MultipartOptions.concurrency options) in *.
  pose proof (sched_new_ok context late count conc Hcount (proj1 Hconc)) as Hnew.
  destruct (upload_parts context late count conc (wait_events env)) as [[s r]|] eqn:Eu.
  2:{ apply upload_parts_none in Eu; [lia|done|apply Hconc]. }
  pose proof Eu as Eu'.
  apply (upload_loop_ok context late count conc Hcount (proj1 Hconc)) in Eu as [Hs Hr]; [|exact Hnew].
  destruct r as [u|[primary rest]].
  - destruct Hr as (-> & Hpend & Hnext).
    destruct (finished_parts context late count conc Hcount (proj1 Hconc) s Hs Hpend Hnext)
      as [Hst Hparts]. destruct (ok_identity _ _ _ _ _ Hs) as [Hk Hid].
    split_and!; [|apply Hs|exact Hk|exact Hid|exact Hst|exact Hparts|apply Hs].
    intros E. rewrite E in Hparts. apply (f_equal List.length) in Hparts.
    rewrite length_seqZ in Hparts. cbn in Hparts. lia.
  - pose proof (ok_flight _ _ _ _ _ Hs). pose proof (ok_next _ _ _ _ _ Hs).
    apply submseteq_length in Hr. split_and!; [apply Hs|lia|lia|].
    exact (upload_loop_stops context late count conc Hcount (proj1 Hconc) _ [] _ _ _ _ Hnew
             (Forall_nil_2 _) eq_refl Eu').
Qed.

Lemma run_managed (Hopt : options_ok options) :
  match run_multipart_upload request env with
  | Some (calls, Ok output) => managed_success calls output
  | Some (calls, Err e) => managed_failure calls e
  | None => Z.of_nat (List.length (wait_events env)) < 10000 \/
            Z.of_nat (List.length (settlements env)) < 64
  end.
Proof.
  unfold run_multipart_upload.
  destruct (_ : outcome (PreparedMultipartSource * Z)) as [[source count]|e] eqn:Es.
  2:{ left. split; [done|]. unfold managed_not_started. destruct (cancelled_preparing env);
        [by injection Es|]. destruct (preparing_elapsed env); [by injection Es|].
      destruct (PreparedMultipartSource_prepare _); [|by injection Es].
      destruct (part_count _ _); [|by injection Es].
      destruct (cancelled_before_create env); [by injection Es|done]. }
  destruct (api_create (create_request request)) as [created|e] eqn:Ecr; [|right; left; done].
  assert (Hp : managed_prepared source count created).
  { unfold managed_prepared. destruct (cancelled_preparing env); [done|].
    destruct (preparing_elapsed env); [done|].
    destruct (PreparedMultipartSource_prepare _) as [src|]; [|done].
    destruct (part_count src _) as [n|] eqn:En; [|done]. destruct (cancelled_before_create env); [done|].
    injection Es as -> ->. done. }
  pose proof (created_outcome _ _ _ Hopt Hp) as R. cbv zeta in R.
  destruct (upload_parts _ _ _ _ _) as [[s [u|[primary rest]]]|]; cbn [mbind option_bind]; [..|by left].
  - destruct R as (Hne & Ha & Hk & Hid & Hst & Hno & Hu).
    destruct (complete_upload request _ env u) as [more r] eqn:Ecu.
    destruct (complete_upload_ok _ _ _ _ Ecu Hne Ha) as (completion & Ek & Ei & Eh & Ecp & Er).
    assert (Hc : managed_completion source count created completion)
      by (unfold managed_completion; rewrite Ek, Ei, Eh, Ecp; done).
    rewrite Hst. destruct r as [output|e].
    + destruct Er as (-> & Hcan & Hcomp). by exists source, count, created, completion.
    + destruct Er as (-> & primary & Hrep & Hprim). right; right.
      exists source, count, created, count, [CallComplete completion], primary, true.
      split_and!; try done. right. split_and!; try done. by exists completion.
  - destruct R as (Hst & Hn & Hlen & stopped & Hstop).
    destruct (quiesce_part_requests rest (settlements env)) as [q|] eqn:Eq; cbn [mbind option_bind].
    2:{ right. destruct (Z.lt_ge_cases (Z.of_nat (List.length (settlements env))) 64) as [?|G]; [done|].
        destruct (quiesce_some rest (settlements env)) as [x Ex]; [lia|congruence]. }
    apply quiesced_spec in Eq as ->.
    destruct (fail_with_abort_ok (CreateMultipartUploadOutput.upload_id created) primary
      (forallb (fun b => b) (take (List.length rest) (settlements env)))) as (e & -> & Hrep).
    right; right. exists source, count, created, (next_part s - 1), [], primary,
      (forallb (fun b => b) (take (List.length rest) (settlements env))).
    split_and!; [done|by rewrite Hst|exact Hrep|]. left. split_and!; [done..|].
    exists stopped, rest. rewrite <- Hst. done.
Qed.
End managed.

(** ** Properties *)

(** C22. The parts are a partition of the source. A prepared source of [n] parts
reads back, part by part, as its bytes: the parts are in the service's limits of
1 to 10,000, none is empty or longer than the part size, only the last is
shorter, and their concatenation is the source. *)
Theorem parts_partition `{Primitives} (request : MultipartUploadSource)
  (source : PreparedMultipartSource) (part_size count : Z)
  (Hprepared : PreparedMultipartSource_prepare request = Ok source)
  (Hsize : 0 < part_size <= MAX_PART_SIZE)
  (Hcount : part_count source part_size = Ok count) :
  1 <= count <= 10000 /\
  exists parts, try_map (read_part source part_size) (seqZ 1 count) = Ok parts /\
    str_concat parts = source_content source /\ Z.of_nat (List.length parts) = count /\
    Forall (fun b => 0 < slen b <= part_size) parts /\
    (forall i b, parts !! i = Some b -> (S i < List.length parts)%nat -> slen b = part_size).
Proof.
  apply prepare_ok in Hprepared as Hok.
  destruct (part_count_ok _ _ _ Hok (proj1 Hsize) Hcount) as (_ & _ & Hc & _). split; [exact Hc|].
  destruct (read_parts_from source part_size count Hok Hsize Hcount (Z.to_nat count) 1)
    as (parts & Et & Ec & El & Hf & Hi); [lia..|].
  rewrite Z2Nat.id in Et by lia. exists parts. rewrite El. split_and!; try done; [|lia].
  rewrite Ec. by destruct (source_content source).
Qed.

(** C17. The scheduler uploads every part once, within its window. Whatever
finishes in whatever order, and wherever the loop stops, parts have been started
in order, once each, at most [concurrency] are in flight, and a success has
recorded exactly the parts 1 to [count], in ascending order, each as the answer
to its own request; and the loop ends after at most [count] completions. *)
Theorem upload_parts_exact `{MultipartApiLaws} `{Primitives} `{Base64}
  (context : PartUploadContext) (late : Z -> bool) (count concurrency : Z)
  (events : list wait_event) (Hcount : 1 <= count <= 10000) (Hconcurrency : 1 <= concurrency) :
  match upload_parts context late count concurrency events with
  | Some (s, r) =>
      Z.of_nat (List.length (pending s)) <= concurrency /\
      started s = seqZ 1 (next_part s - 1) /\ next_part s - 1 <= count /\
      match r with
      | Ok u => pending s = [] /\ started s = seqZ 1 count /\
          part_no <$> MultipartUpload.completed_parts u = seqZ 1 count /\
          Forall (uploaded context late) (MultipartUpload.completed_parts u)
      | Err (_, rest) => rest ⊆+ pending s
      end
  | None => Z.of_nat (List.length events) < count
  end.
Proof.
  pose proof (sched_new_ok context late count concurrency Hcount Hconcurrency) as Hnew.
  destruct (upload_parts context late count concurrency events) as [[s r]|] eqn:E.
  - apply (upload_loop_ok context late count concurrency Hcount Hconcurrency) in E as [Hs Hr]; [|done].
    pose proof (ok_next _ _ _ _ _ Hs). split_and!; [apply Hs|apply Hs|lia|].
    destruct r as [u|[primary rest]]; [|exact Hr]. destruct Hr as (-> & Hp & Hn).
    destruct (finished_parts context late count concurrency Hcount Hconcurrency s Hs Hp Hn).
    split_and!; try done. apply Hs.
  - by eapply upload_parts_none.
Qed.

(** C3. A managed upload completes or cleans up, and tells why. When it succeeds,
the upload was created, each part was started once and all of them, no more, were
completed. When it fails before the upload was created, nothing was sent, or only
the create, and the error is that of the first step that failed. When it fails
afterwards, the abort of that upload is its last call, made once, and the error is
what stopped it, in every field: the cancellation, the deadline, the failure of
the very part that was waited for, or the failure of the completion; only its
cleanup failure may differ, and tells the failure of the abort and the parts that
did not settle in time. It waits only while its parts have not settled. *)
Theorem managed_upload_outcome `{MultipartApiLaws} `{Primitives} `{Base64}
  (request : ManagedMultipartUploadRequest.t) (env : UploadCircumstances)
  (Hoptions : options_ok (ManagedMultipartUploadRequest.options request)) :
  match run_multipart_upload request env with
  | Some (calls, Ok output) => managed_success request env calls output
  | Some (calls, Err e) => managed_failure request env calls e
  | None => Z.of_nat (List.length (wait_events env)) < 10000 \/
            Z.of_nat (List.length (settlements env)) < 64
  end.
Proof. by apply run_managed. Qed.

(** ** A sample service: parts get their number as entity tag; the third fails *)

#[local] Existing Instance assoc_http.
#[local] Existing Instance sample_primitives.
#[local] Instance sample_base64 : Base64 := { base64_encode s := s; base64_decode s := Some s }.
#[local] Instance sample_api : MultipartApi := {
  api_create r := Ok (CreateMultipartUploadOutput.new None (CreateMultipartUploadRequest.key r)
                        (UploadId.Mk "id") None None);
  api_upload_part r :=
    if PartNumber.get (UploadPartRequest.part_number r) =? 3 then Err (S3Error.transport "io")
    else Ok (UploadPartOutput.Mk (UploadPartRequest.part_number r)
               (to_string (PartNumber.get (UploadPartRequest.part_number r))) Checksum.default
               RequestIds.default);
  api_complete r := Ok (CompleteMultipartUploadOutput.Mk None None None None None Checksum.default
                          RequestIds.default);
  api_abort r := Ok tt
}.
#[local] Instance sample_api_laws : MultipartApiLaws.
Proof.
  split. intros r out E. unfold api_upload_part, sample_api in E. destruct (_ =? 3); [done|].
  exact (eq_sym (f_equal (fun x => match x with Ok o => UploadPartOutput.part_number o
                                   | Err _ => PartNumber.Mk 0 end) E)).
Qed.

Lemma parts_partition_witness :
  PreparedMultipartSource_prepare (MultipartBytes "abcdefghij")
    = Ok (PreparedMultipartBytes "abcdefghij") /\
  part_count (PreparedMultipartBytes "abcdefghij") 4 = Ok 3 /\
  exists parts, try_map (read_part (PreparedMultipartBytes "abcdefghij") 4) (seqZ 1 3) = Ok parts /\
    str_concat parts = "abcdefghij" /\ Z.of_nat (List.length parts) = 3 /\
    Forall (fun b => 0 < slen b <= 4) parts /\
    (forall i b, parts !! i = Some b -> (S i < List.length parts)%nat -> slen b = 4).
Proof.
  split; [reflexivity|]. split; [reflexivity|].
  apply (parts_partition (MultipartBytes "abcdefghij") (PreparedMultipartBytes "abcdefghij") 4 3);
    [reflexivity|unfold MAX_PART_SIZE; lia|reflexivity].
Defined.

Definition sample_context : PartUploadContext :=
  {| ctx_key := ObjectKey.Mk "k"; ctx_upload_id := UploadId.Mk "id";
     ctx_source := PreparedMultipartBytes "abcdefghij"; ctx_part_size := 4;
     ctx_checksum_algorithm := Some ChecksumAlgorithm.Crc32; ctx_headers := hm_empty |}.

(** Two parts in flight; the second finishes first, the third fails. *)
Lemma upload_parts_exact_witness :
  match upload_parts sample_context (fun _ => false) 3 2 [WaitPart 1; WaitPart 1; WaitPart 0] with
  | Some (s, r) =>
      Z.of_nat (List.length (pending s)) <= 2 /\ started s = seqZ 1 (next_part s - 1)
  | None => Z.of_nat (List.length [WaitPart 1; WaitPart 1; WaitPart 0]) < 3
  end.
Proof.
  pose proof (upload_parts_exact sample_context (fun _ => false) 3 2
                [WaitPart 1; WaitPart 1; WaitPart 0] ltac:(lia) ltac:(lia)) as E.
  destruct (upload_parts sample_context (fun _ => false) 3 2 [WaitPart 1; WaitPart 1; WaitPart 0])
    as [[s r]|].
  - destruct E as (E1 & E2 & _). exact (conj E1 E2).
  - exact E.
Defined.

Definition sample_upload : ManagedMultipartUploadRequest.t :=
  ManagedMultipartUploadRequest.Mk (ObjectKey.Mk "k") (MultipartBytes "abc") None []
    (MultipartOptions.Mk MIN_PART_SIZE 4 (from_secs 60) (from_secs 30)) None
    ManagedMultipartHeaders.default.
Definition sample_circumstances (events : list wait_event) : UploadCircumstances :=
  {| cancelled_preparing := false; preparing_elapsed := false; cancelled_before_create := false;
     late_checksums := fun _ => false; wait_events := events; settlements := [true];
     cancelled_completing := false |}.

(** An upload of one part that succeeds, and one that is cancelled and aborted. *)
Example sample_upload_calls :
  fst <$> run_multipart_upload sample_upload (sample_circumstances [WaitPart 0])
  = Some [CallCreate (create_request sample_upload); CallPart 1;
          CallComplete (CompleteMultipartUploadRequest.Mk (ObjectKey.Mk "k") (UploadId.Mk "id")
            [CompletedPart.Mk (PartNumber.Mk 1) "1" Checksum.default] hm_empty)] /\
  fst <$> run_multipart_upload sample_upload (sample_circumstances [WaitCancelled])
  = Some [CallCreate (create_request sample_upload); CallPart 1;
          CallAbort (abort_request (ObjectKey.Mk "k") (UploadId.Mk "id") hm_empty)].
Proof. split; reflexivity. Qed.

Lemma managed_upload_outcome_witness :
  match run_multipart_upload sample_upload (sample_circumstances [WaitCancelled]) with
  | Some (calls, Ok output) =>
      managed_success sample_upload (sample_circumstances [WaitCancelled]) calls output
  | Some (calls, Err e) =>
      managed_failure sample_upload (sample_circumstances [WaitCancelled]) calls e
  | None => Z.of_nat (List.length [WaitCancelled]) < 10000 \/ Z.of_nat (List.length [true]) < 64
  end.
Proof.
  apply (managed_upload_outcome sample_upload (sample_circumstances [WaitCancelled])).
  repeat split; vm_compute; discriminate.
Defined.
