(* ===== verification/Owned.v ===== *)
(** The task that owns a managed upload ([multipart_upload],
[OwnedMultipartTask] and [Cancellation] of [src/client/multipart_upload.rs]):
the caller's future and the spawned worker, interleaved over their shared
cancellation flag. *)

From S2P Require Import Prelude Text Errors SigV4 Http Types Stream Records Crc Multipart.
From stdpp Require Import options.
Local Open Scope Z_scope.

(** ** The worker, between its awaits *)

Inductive worker `{Http} : Type :=
| Preparing
| Prepared (source : PreparedMultipartSource) (count : Z)
| Creating (source : PreparedMultipartSource) (count : Z)
| Uploading (upload_id : UploadId.t) (source : PreparedMultipartSource) (count : Z) (s : Scheduler)
| Quiescing (upload_id : UploadId.t) (primary : S3Error.t) (pending : list Z)
| Completing (upload_id : UploadId.t) (completion : CompleteMultipartUploadRequest.t)
| Aborting (upload_id : UploadId.t) (primary : S3Error.t) (quiesce_failure : option S3Error.t)
| Finished (r : outcome CompleteMultipartUploadOutput.t)
| Killed (error : string).

(** What wakes the worker: its cancellation, a deadline, or what it awaits (with
several parts in flight, the one at this position). *)
Inductive wake : Type := WakeCancelled | WakeElapsed | WakeReady (position : nat).

Inductive owner : Type :=
| Awaiting
| Dropped
| Returned (r : outcome CompleteMultipartUploadOutput.t).

(** The shared cancellation flag is the value of the [watch] channel. *)
Record OwnedMultipartTask `{Http} : Type := {
  cancellation : bool;
  future : owner;
  handle : worker;
  calls : list service_call
}.

Section task.
Context `{Http} `{Primitives} `{Base64} `{!MultipartApi}.
Variables (request : ManagedMultipartUploadRequest.t) (late : Z -> bool).
Notation options := (ManagedMultipartUploadRequest.options request).
Notation headers := (ManagedMultipartUploadRequest.headers request).
Notation key := (ManagedMultipartUploadRequest.key request).
Notation concurrency := (MultipartOptions.concurrency options).

(** [fail_with_abort] sends its request, then awaits the answer. *)
Definition start_abort (upload_id : UploadId.t) (primary : S3Error.t)
    (quiesce_failure : option S3Error.t) : worker * list service_call :=
  (Aborting upload_id primary quiesce_failure,
   [CallAbort (abort_request key upload_id (ManagedMultipartHeaders.abort headers))]).

(** From a finished scheduler to the awaited completion. *)
Definition start_completion (upload_id : UploadId.t) (u : MultipartUpload.t)
  : worker * list service_call :=
  match CompleteMultipartUploadRequest.new (MultipartUpload.key u) (MultipartUpload.upload_id u)
          (MultipartUpload.completed_parts u) with
  | Err error => start_abort upload_id (S3Error.integrity (MultipartError.display error)) None
  | Ok completion =>
      let completion := CompleteMultipartUploadRequest.with_headers completion
                          (ManagedMultipartHeaders.complete headers) in
      (Completing upload_id completion, [CallComplete completion])
  end.

(** The head of the loop of [upload_parts]: start parts, then return or wait. *)
Definition start_parts (upload_id : UploadId.t) (source : PreparedMultipartSource) (count : Z)
    (s : Scheduler) : worker * list service_call :=
  let s' := fill (Z.to_nat concurrency) count concurrency s in
  let sent := CallPart <$> drop (List.length (started s)) (started s') in
  match pending s' with
  | [] => let (w, more) := start_completion upload_id (upload s') in (w, sent ++ more)
  | _ :: _ => (Uploading upload_id source count s', sent)
  end.

(** A wait of [upload_parts] that ends. *)
Definition after_wait (upload_id : UploadId.t) (source : PreparedMultipartSource) (count : Z)
    (s : Scheduler) (event : wait_event) : worker * list service_call :=
  match complete_next (part_context request upload_id source) late event (pending s) with
  | (Err primary, rest) => (Quiescing upload_id primary rest, [])
  | (Ok completed, rest) =>
      match MultipartUpload.record_part (upload s) completed with
      | Err error =>
          (Quiescing upload_id (S3Error.integrity (MultipartError.display error)) rest, [])
      | Ok u =>
          start_parts upload_id source count
            {| next_part := next_part s; pending := rest; started := started s; upload := u |}
      end
  end.

(** One step of the worker and the service calls it sends; [None] when it is not
waiting for this. Preparation looks at the cancellation first, an upload in
creation not at all. *)
Definition advance (cancellation : bool) (w : worker) (k : wake)
  : option (worker * list service_call) :=
  match w, k with
  | Preparing, WakeCancelled =>
      if cancellation then Some (Finished (Err cancelled), []) else None
  | Preparing, WakeElapsed =>
      if cancellation then None else Some (Finished (Err transfer_timeout), [])
  | Preparing, WakeReady _ =>
      if cancellation then None
      else Some (match
                   let? source :=
                     PreparedMultipartSource_prepare (ManagedMultipartUploadRequest.source request) in
                   let? count := part_count source (MultipartOptions.part_size options) in
                   Ok (source, count)
                 with
                 | Err e => (Finished (Err e), [])
                 | Ok (source, count) => (Prepared source count, [])
                 end)
  | Prepared source count, WakeReady _ =>
      Some (if cancellation then (Finished (Err cancelled), [])
            else (Creating source count, [CallCreate (create_request request)]))
  | Creating source count, WakeReady _ =>
      Some match api_create (create_request request) with
           | Err e => (Finished (Err e), [])
           | Ok created =>
               let upload_id := CreateMultipartUploadOutput.upload_id created in
               start_parts upload_id source count
                 (Scheduler_new (part_context request upload_id source))
           end
  | Uploading upload_id source count s, WakeCancelled =>
      if cancellation then Some (after_wait upload_id source count s WaitCancelled) else None
  | Uploading upload_id source count s, WakeElapsed =>
      Some (after_wait upload_id source count s WaitDeadline)
  | Uploading upload_id source count s, WakeReady position =>
      Some (after_wait upload_id source count s (WaitPart position))
  | Quiescing upload_id primary [], WakeReady _ => Some (start_abort upload_id primary None)
  | Quiescing upload_id primary (_ :: rest), WakeReady _ =>
      Some (Quiescing upload_id primary rest, [])
  | Quiescing upload_id primary (_ :: _), WakeElapsed =>
      Some (start_abort upload_id primary (Some quiesce_timeout))
  | Completing upload_id completion, WakeReady _ =>
      Some match api_complete completion with
           | Ok output => (Finished (Ok output), [])
           | Err primary => start_abort upload_id primary None
           end
  | Completing upload_id completion, WakeCancelled =>
      if cancellation then Some (start_abort upload_id cancelled None) else None
  | Aborting upload_id primary quiesce_failure, WakeReady _ =>
      Some (Finished (fail_with_abort key upload_id (ManagedMultipartHeaders.abort headers)
                        primary quiesce_failure).2, [])
  | _, _ => None
  end.

(** ** The caller's future *)

(** [OwnedMultipartTask::poll]: [JoinHandle] gives the worker's result, or the
error of a task that the runtime dropped. *)
Definition poll_task (w : worker) : option (outcome CompleteMultipartUploadOutput.t) :=
  match w with
  | Finished r => Some r
  | Killed error => Some (Err (S3Error.transport error))
  | _ => None
  end.

(** [Cancellation::cancel], the body of [drop]. *)
Definition cancel (t : OwnedMultipartTask) : OwnedMultipartTask :=
  {| cancellation := true;
     future := match future t with Awaiting => Dropped | o => o end;
     handle := handle t; calls := calls t |}.

Inductive action : Type :=
| Wake (k : wake)
| Poll
| Drop
| Shutdown (error : string).

(** One action of the worker, the caller or the runtime. *)
Definition act (t : OwnedMultipartTask) (a : action) : option OwnedMultipartTask :=
  match a with
  | Wake k =>
      '(w, sent) ← advance (cancellation t) (handle t) k;
      Some {| cancellation := cancellation t; future := future t; handle := w;
              calls := calls t ++ sent |}
  | Poll =>
      match future t with
      | Awaiting =>
          Some {| cancellation := cancellation t;
                  future := match poll_task (handle t) with
                            | Some r => Returned r
                            | None => Awaiting
                            end;
                  handle := handle t; calls := calls t |}
      | _ => None
      end
  | Drop => match future t with Dropped => None | _ => Some (cancel t) end
  | Shutdown error =>
      match handle t with
      | Finished _ | Killed _ => None
      | _ => Some {| cancellation := cancellation t; future := future t; handle := Killed error;
                     calls := calls t |}
      end
  end.

Fixpoint act_all (actions : list action) (t : OwnedMultipartTask) : option OwnedMultipartTask :=
  match actions with
  | [] => Some t
  | a :: actions => t ← act t a; act_all actions t
  end.

(** The steps of the worker among some actions. *)
Fixpoint wakes (actions : list action) : Z :=
  match actions with
  | [] => 0
  | Wake _ :: actions => 1 + wakes actions
  | _ :: actions => wakes actions
  end.

(** [multipart_upload], up to its first poll: without a runtime there is no task. *)
Definition multipart_upload (runtime : result string unit) : outcome OwnedMultipartTask :=
  let? _ := map_err S3Error.transport runtime in
  Ok {| cancellation := false; future := Awaiting; handle := Preparing; calls := [] |}.
End task.

(** ** Lemmas *)

(** The circumstances of an upload that was created. *)
Definition created_circumstances (late : Z -> bool) (events : list wait_event)
    (settled : list bool) (completing : bool) : UploadCircumstances :=
  {| cancelled_preparing := false; preparing_elapsed := false; cancelled_before_create := false;
     late_checksums := late; wait_events := events; settlements := settled;
     cancelled_completing := completing |}.

Definition undisturbed (events : list wait_event) : Prop := Forall (.≠ WaitCancelled) events.

(** No cancellation among the circumstances. *)
Definition uncancelled (env : UploadCircumstances) : Prop :=
  cancelled_preparing env = false /\ cancelled_before_create env = false /\
  undisturbed (wait_events env) /\ cancelled_completing env = false.

Lemma undisturbed_nil : undisturbed [].
Proof. constructor. Qed.

Lemma created_uncancelled late events settled :
  undisturbed events -> uncancelled (created_circumstances late events settled false).
Proof. by repeat split. Qed.

Create HintDb owned.
#[export] Hint Resolve undisturbed_nil created_uncancelled : owned.

Section owned.
Set Default Proof Using "Type*".
Context `{Http} `{Primitives} `{Base64} `{!MultipartApi} `{!MultipartApiLaws}.
Variables (request : ManagedMultipartUploadRequest.t) (late : Z -> bool).
Notation options := (ManagedMultipartUploadRequest.options request).
Notation headers := (ManagedMultipartUploadRequest.headers request).
Notation key := (ManagedMultipartUploadRequest.key request).
Notation concurrency := (MultipartOptions.concurrency options).
Notation loop id source count :=
  (upload_loop (part_context request id source) late count concurrency).
Notation sched id source count :=
  (sched_ok (part_context request id source) late count concurrency).
Notation full count := (fill (Z.to_nat concurrency) count concurrency).
Notation abort id primary q :=
  (fail_with_abort key id (ManagedMultipartHeaders.abort headers) primary q).
Hypothesis Hoptions : options_ok options.

Definition prepared (source : PreparedMultipartSource) (count : Z) : Prop :=
  PreparedMultipartSource_prepare (ManagedMultipartUploadRequest.source request) = Ok source /\
  part_count source (MultipartOptions.part_size options) = Ok count.

Definition created_as (id : UploadId.t) (source : PreparedMultipartSource) (count : Z) : Prop :=
  prepared source count /\ exists created, api_create (create_request request) = Ok created /\
    id = CreateMultipartUploadOutput.upload_id created.

Definition sent (s : Scheduler) : list service_call :=
  CallCreate (create_request request) :: (CallPart <$> started s).

(** These calls and this result are those of the worker's program. *)
Definition explained (cs : list service_call) (r : outcome CompleteMultipartUploadOutput.t)
    (quiet : Prop) : Prop :=
  exists env, run_multipart_upload request env = Some (cs, r) /\ late_checksums env = late /\
    (quiet -> uncancelled env).

(** The scheduler the loop has reached after some events. *)
Definition reached (id : UploadId.t) (source : PreparedMultipartSource) (count : Z) (s : Scheduler)
  : Prop :=
  sched id source count s /\ exists events, undisturbed events /\
    forall more, loop id source count (events ++ more) (Scheduler_new (part_context request id source))
                 = loop id source count more s.

Definition failed_with (id : UploadId.t) (primary : S3Error.t) (rest : list Z)
    (cs : list service_call) (quiet : Prop) : Prop :=
  exists source count events s pend settled, created_as id source count /\ cs = sent s /\
    upload_parts (part_context request id source) late count concurrency events
      = Some (s, Err (primary, pend)) /\
    (forall more, quiesce_part_requests pend (settled ++ more) = quiesce_part_requests rest more) /\
    (quiet -> undisturbed events) /\ Z.of_nat (List.length rest) <= MAX_CONCURRENCY.

Definition stage (w : worker) (cs : list service_call) (quiet : Prop) : Prop :=
  match w with
  | Preparing => cs = []
  | Prepared source count => cs = [] /\ prepared source count
  | Creating source count => cs = [CallCreate (create_request request)] /\ prepared source count
  | Uploading id source count s =>
      created_as id source count /\ cs = sent s /\ pending s <> [] /\ sched id source count s /\
      exists s0, s = full count s0 /\ reached id source count s0
  | Quiescing id primary rest => failed_with id primary rest cs quiet
  | Completing id completion =>
      exists source count events s u c, created_as id source count /\
        upload_parts (part_context request id source) late count concurrency events
          = Some (s, Ok u) /\ undisturbed events /\
        CompleteMultipartUploadRequest.new (MultipartUpload.key u) (MultipartUpload.upload_id u)
          (MultipartUpload.completed_parts u) = Ok c /\
        completion = CompleteMultipartUploadRequest.with_headers c
                       (ManagedMultipartHeaders.complete headers) /\
        cs = sent s ++ [CallComplete completion]
  | Aborting id primary q => explained cs (abort id primary q).2 quiet
  | Finished r => explained cs r quiet
  | Killed _ => True
  end.

(** A bound on the steps that the worker has left. *)
Definition steps_left (w : worker) : Z :=
  match w with
  | Preparing => 10070
  | Prepared _ _ => 10069
  | Creating _ _ => 10068
  | Uploading _ _ _ s => 10067 - Z.of_nat (List.length (MultipartUpload.completed_parts (upload s)))
  | Quiescing _ _ rest => Z.of_nat (List.length rest) + 2
  | Completing _ _ => 2
  | Aborting _ _ _ => 1
  | Finished _ | Killed _ => 0
  end.

Lemma prepared_count source count : prepared source count -> 1 <= count <= 10000.
Proof.
  intros [Hp Hc]. apply prepare_ok in Hp. destruct Hoptions as [L _]. unfold MIN_PART_SIZE in L.
  apply part_count_ok in Hc as (_ & _ & R & _); [exact R|exact Hp|lia].
Qed.

Lemma concurrency_bounds : 1 <= concurrency <= 64.
Proof. destruct Hoptions as [_ L]. unfold MAX_CONCURRENCY in L. lia. Qed.

Lemma sched_completed id source count s : 1 <= count <= 10000 -> sched id source count s ->
  Z.of_nat (List.length (pending s))
    + Z.of_nat (List.length (MultipartUpload.completed_parts (upload s))) <= 10000.
Proof.
  intros L [Hn Hst Hp _ _ _ _]. apply Permutation_length in Hp.
  rewrite Hst, length_app, length_fmap, length_seqZ in Hp. lia.
Qed.

Lemma fill_upload count fuel s : upload (fill fuel count concurrency s) = upload s.
Proof.
  revert s. induction fuel as [|fuel IH]; intros s; cbn [fill]; [done|].
  destruct (_ && _); [|done]. by rewrite IH.
Qed.

Lemma fill_started count fuel s : exists more, started (fill fuel count concurrency s) = started s ++ more.
Proof.
  revert s. induction fuel as [|fuel IH]; intros s; cbn [fill]; [exists []; by rewrite app_nil_r|].
  destruct (_ && _); [|exists []; by rewrite app_nil_r].
  destruct (IH {| next_part := next_part s + 1; pending := pending s ++ [next_part s];
                  started := started s ++ [next_part s]; upload := upload s |}) as [more E].
  exists (next_part s :: more). rewrite E. cbn. by rewrite <- app_assoc.
Qed.

(** The calls of a filled scheduler. *)
Lemma sent_full count s :
  sent (full count s)
  = sent s ++ (CallPart <$> drop (List.length (started s)) (started (full count s))).
Proof.
  destruct (fill_started count (Z.to_nat concurrency) s) as [more E]. unfold sent.
  rewrite E, drop_app_length, fmap_app. done.
Qed.

(** The program of the worker, once the upload exists. *)
Lemma run_created id source count events settled completing :
  created_as id source count ->
  let env := created_circumstances late events settled completing in
  match upload_parts (part_context request id source) late count concurrency events with
  | Some (s, Ok u) =>
      run_multipart_upload request env
        = let (more, r) := complete_upload request id env u in Some (sent s ++ more, r)
  | Some (s, Err (primary, rest)) =>
      forall q, quiesce_part_requests rest settled = Some q ->
        run_multipart_upload request env
          = Some (sent s ++ (abort id primary q).1, (abort id primary q).2)
  | None => True
  end.
Proof.
  intros [[Hp Hc] (created & Hcr & ->)] env. subst env. unfold run_multipart_upload.
  cbn [created_circumstances cancelled_preparing preparing_elapsed cancelled_before_create
       late_checksums wait_events settlements].
  rewrite Hp, Hc, Hcr. destruct (upload_parts _ _ _ _ _) as [[s [u|[primary rest]]]|]; [..|done];
    cbn [mbind option_bind]; [done|]. intros q ->. cbn [mbind option_bind].
  by destruct (fail_with_abort _ _ _ _ _).
Qed.

Lemma start_abort_ok id primary q cs (quiet : Prop) w more :
  start_abort request id primary q = (w, more) ->
  explained (cs ++ (abort id primary q).1) (abort id primary q).2 quiet ->
  stage w (cs ++ more) quiet /\ 0 <= steps_left w <= 1.
Proof. unfold start_abort. intros [= <- <-] He. split; [exact He|cbn; lia]. Qed.

(** A completed scheduler goes on to the completion, or to the abort. *)
Lemma start_completion_ok id source count events s u (quiet : Prop) w more :
  created_as id source count -> undisturbed events ->
  upload_parts (part_context request id source) late count concurrency events = Some (s, Ok u) ->
  start_completion request id u = (w, more) ->
  stage w (sent s ++ more) quiet /\ 0 <= steps_left w <= 2.
Proof.
  intros Hcr Hev Hup Hst. unfold start_completion in Hst.
  destruct (CompleteMultipartUploadRequest.new _ _ _) as [c|e] eqn:En.
  - injection Hst as <- <-. split; [|cbn; lia]. exists source, count, events, s, u, c. done.
  - apply start_abort_ok with (cs := sent s) (quiet := quiet) in Hst;
      [destruct Hst; split; [done|lia]|].
    exists (created_circumstances late events [] false). split; [|done].
    pose proof (run_created id source count events [] false Hcr) as R. cbv zeta in R.
    rewrite Hup in R. rewrite R. unfold complete_upload. rewrite En. done.
Qed.

(** The loop runs on: it stops with the upload or waits with a full window. *)
Lemma start_parts_ok id source count s (quiet : Prop) w more :
  created_as id source count -> reached id source count s ->
  start_parts request id source count s = (w, more) ->
  stage w (sent s ++ more) quiet /\
  0 <= steps_left w <= 10067 - Z.of_nat (List.length (MultipartUpload.completed_parts (upload s))).
Proof.
  intros Hcr Hs Hst. pose proof (prepared_count _ _ (proj1 Hcr)) as Hcount.
  pose proof concurrency_bounds as Hconc. destruct Hs as (Hok & events & Hev & Hloop).
  pose proof (fill_ok _ _ _ _ Hcount (proj1 Hconc) (Z.to_nat concurrency) _ Hok) as Hf.
  pose proof (sched_completed _ _ _ _ Hcount Hf) as Hlen. rewrite fill_upload in Hlen.
  unfold start_parts in Hst. destruct (pending (full count s)) as [|k ks] eqn:Ep.
  - destruct (start_completion request id (upload (full count s))) as [w' m] eqn:Ec.
    injection Hst as <- <-. rewrite app_assoc, <- sent_full.
    eapply start_completion_ok in Ec as [Hw Hb]; [split; [exact Hw|cbn in Hlen; lia]|done|exact Hev|].
    unfold upload_parts. rewrite <- (app_nil_r events), Hloop. cbn [upload_loop]. by rewrite Ep.
  - injection Hst as <- <-. rewrite <- sent_full. split; [|cbn; rewrite fill_upload; lia].
    split; [done|]. split; [done|]. split; [by rewrite Ep|]. split; [done|].
    exists s. split; [done|]. split; [done|]. by exists events.
Qed.

(** A wait of the scheduler that ends. *)
Lemma after_wait_ok id source count s event (quiet : Prop) w more :
  stage (Uploading id source count s) (sent s) quiet -> (quiet -> event <> WaitCancelled) ->
  after_wait request late id source count s event = (w, more) ->
  stage w (sent s ++ more) quiet /\ 0 <= steps_left w < steps_left (Uploading id source count s).
Proof.
  intros (Hcr & _ & Hp & Hok & s0 & -> & _ & events & Hev & Hloop) Hq Hw.
  pose proof (prepared_count _ _ (proj1 Hcr)) as Hcount. pose proof concurrency_bounds as Hconc.
  pose proof (sched_completed _ _ _ _ Hcount Hok) as Hlen.
  pose proof (ok_flight _ _ _ _ _ Hok) as Hfl.
  set (s := full count s0) in *.
  assert (Hstep : forall more, loop id source count (events ++ event :: more)
            (Scheduler_new (part_context request id source))
          = match complete_next (part_context request id source) late event (pending s) with
            | (Err primary, rest) => Some (s, Err (primary, rest))
            | (Ok completed, rest) =>
                match MultipartUpload.record_part (upload s) completed with
                | Err error =>
                    Some (s, Err (S3Error.integrity (MultipartError.display error), rest))
                | Ok u => loop id source count more
                    {| next_part := next_part s; pending := rest; started := started s; upload := u |}
                end
            end).
  { intros more'. rewrite Hloop. cbn [upload_loop]. fold s. by destruct (pending s). }
  unfold after_wait in Hw.
  destruct (complete_next _ late event (pending s)) as [[part|primary] rest] eqn:Ec.
  - unfold complete_next in Ec. destruct event as [| |i]; [done..|].
    destruct (pending s !! i) as [k|] eqn:Ek; [|done]. injection Ec as Hpart <-.
    destruct (record_ok _ late _ _ Hcount (proj1 Hconc) _ _ _ _ Hok Ek Hpart) as (u & Eu & Hu & Hl).
    rewrite Eu in Hw, Hstep. apply start_parts_ok with (quiet := quiet) in Hw as [Hst Hb]; [|done|].
    + split; [exact Hst|]. cbn [upload steps_left] in *. lia.
    + split; [exact Hu|]. exists (events ++ [WaitPart i]). split.
      * apply Forall_app. by split; [|constructor].
      * intros more'. rewrite <- app_assoc. apply Hstep.
  - injection Hw as <- <-. rewrite app_nil_r.
    assert (Hl : (List.length rest <= List.length (pending s))%nat).
    { unfold complete_next in Ec. destruct event as [| |i]; [by injection Ec as _ <-..|].
      destruct (pending s !! i) as [k|] eqn:Ek; injection Ec as _ <-; [|done].
      rewrite length_delete by eauto. lia. }
    split; [|cbn; lia].
    exists source, count, (events ++ [event]), s, rest, []. split_and!; try done.
    + unfold upload_parts. rewrite (Hstep []). done.
    + intros Q. apply Forall_app. split; [done|]. constructor; [by apply Hq|done].
    + unfold MAX_CONCURRENCY. lia.
Qed.

Lemma explained_nil env r quiet :
  run_multipart_upload request env = Some ([], r) -> late_checksums env = late ->
  (quiet -> uncancelled env) -> explained ([] ++ []) r quiet.
Proof. intros R L U. by exists env. Qed.

(** The waits before the upload is created. *)
Lemma preparing_ok c k (quiet : Prop) w more : (quiet -> c = false) ->
  advance request late c Preparing k = Some (w, more) ->
  stage w ([] ++ more) quiet /\ 0 <= steps_left w < 10070.
Proof.
  intros Hq Ha. destruct k as [| |i]; cbn [advance] in Ha; (destruct c; [|]); try done.
  - injection Ha as <- <-. split; [|cbn; lia].
    exists {| cancelled_preparing := true; preparing_elapsed := false;
              cancelled_before_create := false; late_checksums := late; wait_events := [];
              settlements := []; cancelled_completing := false |}.
    split; [done|]. split; [done|]. intros Q. by apply Hq in Q.
  - injection Ha as <- <-. split; [|cbn; lia].
    exists {| cancelled_preparing := false; preparing_elapsed := true;
              cancelled_before_create := false; late_checksums := late; wait_events := [];
              settlements := []; cancelled_completing := false |}.
    split; [done|]. split; [done|]. intros _. split_and!; auto with owned.
  - destruct (PreparedMultipartSource_prepare _) as [source|e] eqn:Ep;
      [destruct (part_count source _) as [count|e] eqn:Ec|]; injection Ha as <- <-;
      (split; [|cbn; lia]); [done|..];
      (exists (created_circumstances late [] [] false); split; [|split; [done|]; auto with owned]);
      unfold run_multipart_upload; cbn [created_circumstances cancelled_preparing preparing_elapsed];
      rewrite Ep; [by rewrite Ec|done].
Qed.

Lemma prepared_ok source count c k (quiet : Prop) w more : (quiet -> c = false) ->
  prepared source count -> advance request late c (Prepared source count) k = Some (w, more) ->
  stage w ([] ++ more) quiet /\ 0 <= steps_left w < 10069.
Proof.
  intros Hq [Hp Hc] Ha. destruct k as [| |i]; cbn [advance] in Ha; try done.
  apply (inj Some) in Ha. destruct c; injection Ha as <- <-; (split; [|cbn; lia]); [|done].
  exists {| cancelled_preparing := false; preparing_elapsed := false;
            cancelled_before_create := true; late_checksums := late; wait_events := [];
            settlements := []; cancelled_completing := false |}.
  split; [|split; [done|]; intros Q; by apply Hq in Q].
  unfold run_multipart_upload. cbn [cancelled_preparing preparing_elapsed cancelled_before_create].
  by rewrite Hp, Hc.
Qed.

Lemma creating_ok source count c k (quiet : Prop) w more :
  prepared source count -> advance request late c (Creating source count) k = Some (w, more) ->
  stage w ([CallCreate (create_request request)] ++ more) quiet /\ 0 <= steps_left w < 10068.
Proof.
  intros Hp Ha. destruct k as [| |i]; cbn [advance] in Ha; try done. apply (inj Some) in Ha.
  destruct (api_create (create_request request)) as [created|e] eqn:Ecr.
  - set (id := CreateMultipartUploadOutput.upload_id created) in *.
    assert (Hcr : created_as id source count) by (split; [done|]; by exists created).
    pose proof (prepared_count _ _ Hp) as Hcount. pose proof concurrency_bounds as Hconc.
    eapply start_parts_ok with (quiet := quiet) in Ha as [Hs Hb]; [|done|].
    + split; [exact Hs|cbn [Scheduler_new upload] in Hb; cbn in Hb; lia].
    + split; [apply sched_new_ok; [exact Hcount|lia]|]. exists []. by split; [constructor|].
  - injection Ha as <- <-. split; [|cbn; lia].
    exists (created_circumstances late [] [] false). split; [|split; [done|]; auto with owned].
    destruct Hp as [Hp Hc]. unfold run_multipart_upload.
    cbn [created_circumstances cancelled_preparing preparing_elapsed cancelled_before_create].
    by rewrite Hp, Hc, Ecr.
Qed.

(** The waits of the cleanup. *)
Lemma failed_explained id primary rest q cs settled (quiet : Prop) :
  failed_with id primary rest cs quiet -> quiesce_part_requests rest settled = Some q ->
  explained (cs ++ (abort id primary q).1) (abort id primary q).2 quiet.
Proof.
  intros (source & count & events & s & pend & before & Hcr & -> & Hup & Hqu & Hev & _) Hq.
  pose proof (run_created id source count events (before ++ settled) false Hcr) as R.
  cbv zeta in R. rewrite Hup in R. rewrite <- Hqu in Hq. apply R in Hq.
  exists (created_circumstances late events (before ++ settled) false). split; [exact Hq|].
  split; [done|]. intros Q. split_and!; try done. by apply Hev.
Qed.

Lemma quiescing_ok id primary rest cs c k (quiet : Prop) w more :
  failed_with id primary rest cs quiet ->
  advance request late c (Quiescing id primary rest) k = Some (w, more) ->
  stage w (cs ++ more) quiet /\ 0 <= steps_left w < Z.of_nat (List.length rest) + 2.
Proof.
  intros Hf Ha. destruct rest as [|n rest], k as [| |i]; cbn [advance] in Ha; try done;
    apply (inj Some) in Ha.
  - eapply start_abort_ok in Ha as [Hs Hb]; [split; [exact Hs|cbn; lia]|].
    by eapply failed_explained with (settled := []) in Hf.
  - eapply start_abort_ok in Ha as [Hs Hb]; [split; [exact Hs|cbn [List.length]; lia]|].
    by eapply failed_explained with (settled := [false]) in Hf.
  - injection Ha as <- <-. split; [|cbn; lia]. rewrite app_nil_r.
    destruct Hf as (source & count & events & s & pend & before & Hcr & Hcs & Hup & Hqu & Hev & Hl).
    exists source, count, events, s, pend, (before ++ [true]). split_and!; try done.
    + intros more'. by rewrite <- app_assoc, Hqu.
    + cbn [List.length] in Hl. lia.
Qed.

Lemma completing_ok id completion cs c k (quiet : Prop) w more : (quiet -> c = false) ->
  stage (Completing id completion) cs quiet ->
  advance request late c (Completing id completion) k = Some (w, more) ->
  stage w (cs ++ more) quiet /\ 0 <= steps_left w < 2.
Proof.
  intros Hq (source & count & events & s & u & cp & Hcr & Hup & Hev & En & -> & ->) Ha.
  assert (R : forall completing,
      let env := created_circumstances late events [] completing in
      run_multipart_upload request env
        = let (more, r) := complete_upload request id env u in Some (sent s ++ more, r)).
  { intros completing. pose proof (run_created id source count events [] completing Hcr) as R.
    cbv zeta in R. by rewrite Hup in R. }
  unfold complete_upload in R. rewrite En in R. cbn [cancelled_completing created_circumstances] in R.
  set (completion := CompleteMultipartUploadRequest.with_headers cp _) in *.
  destruct k as [| |i]; cbn [advance] in Ha; try done.
  - destruct c; [|done]. apply (inj Some) in Ha.
    eapply start_abort_ok in Ha as [Hs Hb]; [split; [exact Hs|lia]|].
    exists (created_circumstances late events [] true). split; [|split; [done|]; intros Q; by apply Hq in Q].
    rewrite (R true), <- app_assoc. cbn [app]. by destruct (abort id cancelled None).
  - apply (inj Some) in Ha. specialize (R false). cbv zeta iota in R.
    destruct (api_complete completion) as [output|primary] eqn:Ea.
    + injection Ha as <- <-. split; [|cbn; lia].
      exists (created_circumstances late events [] false). rewrite app_nil_r.
      split; [exact R|]. split; [done|]. auto with owned.
    + eapply start_abort_ok in Ha as [Hs Hb]; [split; [exact Hs|lia]|].
      exists (created_circumstances late events [] false). split; [|split; [done|]; auto with owned].
      rewrite R, <- app_assoc. cbn [app]. by destruct (abort id primary None).
Qed.

(** One step of the worker. *)
Lemma advance_ok w cs c k (quiet : Prop) w' more : (quiet -> c = false) ->
  stage w cs quiet -> advance request late c w k = Some (w', more) ->
  stage w' (cs ++ more) quiet /\ 0 <= steps_left w' < steps_left w.
Proof.
  intros Hq Hs Ha. destruct w as [|source count|source count|id source count s|id primary rest
    |id completion|id primary q|r|e].
  - rewrite Hs. by eapply preparing_ok in Ha.
  - destruct Hs as [-> Hp]. by eapply prepared_ok in Ha.
  - destruct Hs as [-> Hp]. by eapply creating_ok in Ha.
  - assert (Hcs : cs = sent s) by apply Hs. subst cs.
    destruct k as [| |i]; cbn [advance] in Ha; [destruct c; [|done]|..]; apply (inj Some) in Ha;
      (eapply after_wait_ok in Ha; [exact Ha|exact Hs|]); intros Q; [by apply Hq in Q|done..].
  - by eapply quiescing_ok in Ha.
  - by eapply completing_ok in Ha.
  - destruct k as [| |i]; cbn [advance] in Ha; try done. injection Ha as <- <-.
    rewrite app_nil_r. split; [exact Hs|cbn; lia].
  - done.
  - done.
Qed.

(** The worker is never stuck. *)
Lemma advance_some w cs c quiet : stage w cs quiet -> 0 < steps_left w ->
  is_Some (advance request late c w (WakeReady 0)) \/ is_Some (advance request late c w WakeCancelled).
Proof.
  intros Hs Hl.
  destruct w as [| | | |id primary [|n rest]| | | |]; cbn [advance steps_left] in *;
    try lia; try (left; done). destruct c; [by right|by left].
Qed.

(** What holds whatever the caller, the worker and the runtime have done. *)
Definition task_ok (t : OwnedMultipartTask) : Prop :=
  stage (handle t) (calls t) (future t <> Dropped) /\
  match future t with
  | Awaiting => cancellation t = false
  | Dropped => cancellation t = true
  | Returned r => poll_task (handle t) = Some r
  end.

Lemma stage_quiet w cs (quiet quiet' : Prop) :
  stage w cs quiet -> (quiet' -> quiet) -> stage w cs quiet'.
Proof.
  assert (E : forall cs r, explained cs r quiet -> (quiet' -> quiet) -> explained cs r quiet').
  { intros cs' r (env & R & L & U) Hq. exists env. split; [done|]. split; [done|]. auto. }
  intros Hs Hq. destruct w; cbn [stage] in *; try done; [|by eapply E..].
  destruct Hs as (source & count & events & s & pend & before & Hf).
  exists source, count, events, s, pend, before. intuition.
Qed.

Lemma stage_steps w cs quiet : stage w cs quiet -> 0 <= steps_left w.
Proof.
  destruct w; cbn [stage steps_left]; try lia. intros (Hcr & _ & _ & Hok & _).
  pose proof (sched_completed _ _ _ _ (prepared_count _ _ (proj1 Hcr)) Hok). lia.
Qed.

(** A worker that steps has no result, so that no future has returned it. *)
Lemma advance_unfinished c w k x : advance request late c w k = Some x -> poll_task w = None.
Proof. by destruct w. Qed.

Lemma act_ok t a t' : task_ok t -> act request late t a = Some t' ->
  task_ok t' /\ steps_left (handle t') + wakes [a] <= steps_left (handle t).
Proof.
  intros [Hs Hf] Ha. pose proof (stage_steps _ _ _ Hs) as Hpos. unfold task_ok.
  destruct a as [k| | |e]; cbn [act wakes] in *.
  - destruct (advance request late (cancellation t) (handle t) k) as [[w more]|] eqn:E; [|done].
    injection Ha as <-. cbn [handle calls future cancellation].
    apply advance_unfinished in E as Hn.
    apply advance_ok with (cs := calls t) (quiet := future t <> Dropped) in E as [Hw Hb]; [..|done].
    + split; [|lia]. split; [exact Hw|]. destruct (future t); [done..|]. by rewrite Hn in Hf.
    + destruct (future t); [done..|]. by rewrite Hn in Hf.
  - destruct (future t) eqn:Ef; [|done..]. injection Ha as <-. cbn [handle calls future cancellation].
    split; [|lia]. destruct (poll_task (handle t)) as [r|] eqn:Ep; (split; [|done]);
      (eapply stage_quiet; [exact Hs|done]).
  - assert (Hc : Some (cancel t) = Some t') by (by destruct (future t)). injection Hc as <-.
    unfold cancel. cbn [handle calls future cancellation]. split; [|lia].
    destruct (future t); (split; [|done]); (eapply stage_quiet; [exact Hs|done]).
  - assert (Hc : Some {| cancellation := cancellation t; future := future t; handle := Killed e;
                         calls := calls t |} = Some t' /\ poll_task (handle t) = None)
      by (by destruct (handle t)).
    destruct Hc as [Hc Hn]. injection Hc as <-. cbn [handle calls future cancellation].
    split; [|cbn [steps_left]; lia]. split; [done|].
    destruct (future t); [done..|]. by rewrite Hn in Hf.
Qed.

Lemma act_all_ok actions t t' : task_ok t -> act_all request late actions t = Some t' ->
  task_ok t' /\ steps_left (handle t') + wakes actions <= steps_left (handle t).
Proof.
  revert t. induction actions as [|a actions IH]; intros t Ht Ha; cbn [act_all] in Ha.
  - injection Ha as <-. cbn. split; [done|lia].
  - destruct (act request late t a) as [t1|] eqn:E; [|done]. apply act_ok in E as [Ht1 B1]; [|done].
    apply IH in Ha as [Ht2 B2]; [|done]. split; [done|]. destruct a; cbn [wakes] in *; lia.
Qed.

Lemma new_task_ok :
  task_ok {| cancellation := false; future := Awaiting; handle := Preparing; calls := [] |}.
Proof. by split. Qed.
End owned.

(** ** Properties *)

(** C21. A managed upload is cleaned up whoever drops it. For every sequence of
actions of the worker, the caller and the runtime: the worker takes at most
10,070 steps and is never stuck before it has a result; the calls it has made
and the result it has are those of [run_multipart_upload], in circumstances that
hold a cancellation only when the caller dropped the future; and what the future
returns is this result, or the error of a worker that the runtime shut down. *)
Theorem owned_upload_refines `{MultipartApiLaws} `{Primitives} `{Base64}
  (request : ManagedMultipartUploadRequest.t) (late : Z -> bool) (actions : list action)
  (t0 t : OwnedMultipartTask)
  (Hoptions : options_ok (ManagedMultipartUploadRequest.options request))
  (Hstart : multipart_upload (Ok tt) = Ok t0)
  (Hrun : act_all request late actions t0 = Some t) :
  wakes actions <= 10070 /\
  (poll_task (handle t) = None -> exists k, is_Some (act request late t (Wake k))) /\
  (forall r, handle t = Finished r -> exists env,
     run_multipart_upload request env = Some (calls t, r) /\ late_checksums env = late /\
     (future t <> Dropped -> uncancelled env)) /\
  (forall r, future t = Returned r ->
     handle t = Finished r \/ exists e, handle t = Killed e /\ r = Err (S3Error.transport e)).
Proof.
  injection Hstart as <-. apply (act_all_ok _ _ Hoptions) in Hrun as [[Hs Hf] Hb];
    [|by apply new_task_ok].
  pose proof (stage_steps _ _ Hoptions _ _ _ Hs) as Hpos. split_and!.
  - cbn [handle steps_left] in Hb. lia.
  - intros Hn. cbn [act]. destruct (advance_some request late Hoptions _ _ (cancellation t) _ Hs)
      as [[[w m] E]|[[w m] E]].
    + destruct (handle t); cbn [steps_left poll_task] in *; try done; try lia.
      destruct Hs as (Hcr & _ & Hp & Hok & _).
      pose proof (sched_completed _ _ Hoptions _ _ _ _ (prepared_count _ Hoptions _ _ (proj1 Hcr)) Hok).
      lia.
    + exists (WakeReady 0). by rewrite E.
    + exists WakeCancelled. by rewrite E.
  - intros r Hr. rewrite Hr in Hs. exact Hs.
  - intros r Hr. rewrite Hr in Hf. destruct (handle t); cbn in Hf; try done; injection Hf as <-;
      [by left|right; by eexists].
Qed.

(** ** A sample task: the caller drops it while its part is in flight *)

#[local] Existing Instance assoc_http.
#[local] Existing Instance sample_primitives.
#[local] Existing Instance sample_base64.
#[local] Existing Instance sample_api.
#[local] Existing Instance sample_api_laws.

Definition sample_actions : list action :=
  [Wake (WakeReady 0); Poll; Wake (WakeReady 0); Wake (WakeReady 0); Poll; Drop;
   Wake WakeCancelled; Wake (WakeReady 0); Wake (WakeReady 0); Wake (WakeReady 0)].

Definition sample_start : OwnedMultipartTask :=
  {| cancellation := false; future := Awaiting; handle := Preparing; calls := [] |}.
Definition sample_end : OwnedMultipartTask :=
  {| cancellation := true; future := Dropped; handle := Finished (Err cancelled);
     calls := [CallCreate (create_request sample_upload); CallPart 1;
               CallAbort (abort_request (ObjectKey.Mk "k") (UploadId.Mk "id") hm_empty)] |}.

Lemma owned_upload_refines_witness :
  act_all sample_upload (fun _ => false) sample_actions sample_start = Some sample_end /\
  exists env, run_multipart_upload sample_upload env = Some (calls sample_end, Err cancelled).
Proof.
  assert (Ea : act_all sample_upload (fun _ => false) sample_actions sample_start
               = Some sample_end) by reflexivity.
  split; [exact Ea|].
  destruct (owned_upload_refines sample_upload (fun _ => false) sample_actions sample_start
              sample_end) as (_ & _ & F & _).
  - repeat split; vm_compute; discriminate.
  - reflexivity.
  - exact Ea.
  - destruct (F _ eq_refl) as (env & R & _). exact (ex_intro _ env R).
Defined.

(** The wait of [upload_parts] is unbiased: with the flag raised, a part that is
ready may still be taken first, and the next part is then started. *)
#[local] Notation one_at_a_time :=
  (ManagedMultipartUploadRequest.Mk (ObjectKey.Mk "k") (MultipartBytes "abc") None []
     (MultipartOptions.Mk MIN_PART_SIZE 1 (from_secs 60) (from_secs 30)) None
     ManagedMultipartHeaders.default).

Example part_started_when_cancelled :
  snd <$> advance one_at_a_time (fun _ => false) true
    (Uploading (UploadId.Mk "id") (PreparedMultipartBytes "abc") 2
       {| next_part := 2; pending := [1]; started := [1];
          upload := MultipartUpload.new (ObjectKey.Mk "k") (UploadId.Mk "id") |}) (WakeReady 0)
  = Some [CallPart 2].
Proof. reflexivity. Qed.
