(* ===== verification/Assembly.v ===== *)
(** What a managed upload leaves at the service: the calls of
[run_multipart_upload] ([src/client/multipart_upload.rs]) are replayed on a
store that behaves as S3 documents its multipart operations. The store is a
parameter with laws; the parts take effect there in any order. *)

From S2P Require Import Prelude Text Errors SigV4 Http Types Stream Records Crc Multipart.
From stdpp Require Import options.
Local Open Scope Z_scope.

(** ** The service's store

What a request does to it may depend on everything in the request; the laws say
what S3 documents of the requests it answers with success, and that only a
completion writes an object. *)
Class MultipartStore `{Http} : Type := {
  store : Type;
  stored_part : store -> UploadId.t -> PartNumber.t -> option (string * string);
  stored_object : store -> ObjectKey.t -> option string;
  take_create : CreateMultipartUploadRequest.t -> store -> store;
  take_part : UploadPartRequest.t -> store -> store;
  take_complete : CompleteMultipartUploadRequest.t -> store -> store;
  take_abort : AbortMultipartUploadRequest.t -> store -> store
}.

Class MultipartStoreLaws `{MultipartApi} `{!MultipartStore} : Prop := {
  create_objects r st k : stored_object (take_create r st) k = stored_object st k;
  part_objects r st k : stored_object (take_part r st) k = stored_object st k;
  abort_objects r st k : stored_object (take_abort r st) k = stored_object st k;
  complete_objects r st k : k <> CompleteMultipartUploadRequest.key r ->
    stored_object (take_complete r st) k = stored_object st k;
  part_stored r out b st : api_upload_part r = Ok out -> UploadPartRequest.body r = SourceBytes b ->
    stored_part (take_part r st) (UploadPartRequest.upload_id r) (UploadPartRequest.part_number r)
    = Some (UploadPartOutput.e_tag out, b);
  part_others r st id n : n <> UploadPartRequest.part_number r ->
    stored_part (take_part r st) id n = stored_part st id n;
  complete_assembles r out contents st : api_complete r = Ok out ->
    Forall2 (fun part b =>
        stored_part st (CompleteMultipartUploadRequest.upload_id r) (CompletedPart.part_number part)
        = Some (CompletedPart.e_tag part, b))
      (CompleteMultipartUploadRequest.completed_parts r) contents ->
    stored_object (take_complete r st) (CompleteMultipartUploadRequest.key r)
    = Some (str_concat contents);
  complete_all_or_nothing r contents st :
    Forall2 (fun part b =>
        stored_part st (CompleteMultipartUploadRequest.upload_id r) (CompletedPart.part_number part)
        = Some (CompletedPart.e_tag part, b))
      (CompleteMultipartUploadRequest.completed_parts r) contents ->
    stored_object (take_complete r st) (CompleteMultipartUploadRequest.key r)
      = stored_object st (CompleteMultipartUploadRequest.key r) \/
    stored_object (take_complete r st) (CompleteMultipartUploadRequest.key r)
      = Some (str_concat contents);
  abort_discards r st n : api_abort r = Ok tt ->
    stored_part (take_abort r st) (AbortMultipartUploadRequest.upload_id r) n = None
}.

(** ** Replaying the calls *)

Section replay.
Context `{Http} `{Primitives} `{Base64} `{!MultipartApi} `{!MultipartStore}.
Variables (request : ManagedMultipartUploadRequest.t) (env : UploadCircumstances).

(** The request that [CallPart n] stands for. *)
Definition part_sent (n : Z) : option UploadPartRequest.t :=
  match PreparedMultipartSource_prepare (ManagedMultipartUploadRequest.source request),
        api_create (create_request request) with
  | Ok source, Ok created =>
      match part_request (part_context request (CreateMultipartUploadOutput.upload_id created) source)
              (late_checksums env) n with
      | Ok r => Some r
      | Err _ => None
      end
  | _, _ => None
  end.

Definition take (st : store) (call : service_call) : store :=
  match call with
  | CallCreate r => take_create r st
  | CallPart n => match part_sent n with Some r => take_part r st | None => st end
  | CallComplete r => take_complete r st
  | CallAbort r => take_abort r st
  end.

(** Parts are in flight together; the other calls are made one at a time, the
create before the parts and the last ones when the parts have settled. *)
Definition part_call (call : service_call) : option Z :=
  match call with CallPart n => Some n | _ => None end.
Definition is_create (call : service_call) : bool :=
  match call with CallCreate _ => true | _ => false end.
Definition is_closing (call : service_call) : bool :=
  match call with CallComplete _ | CallAbort _ => true | _ => false end.

Definition effects (calls : list service_call) (order : list Z) : list service_call :=
  List.filter is_create calls ++ (CallPart <$> order) ++ List.filter is_closing calls.

Definition after (calls : list service_call) (order : list Z) (st : store) : store :=
  fold_left take (effects calls order) st.
End replay.

(** ** Lemmas *)

Section lemmas.
Set Default Proof Using "Type*".
Context `{Http} `{Primitives} `{Base64} `{!MultipartApi} `{!MultipartStore} `{!MultipartStoreLaws}.
Variables (request : ManagedMultipartUploadRequest.t) (env : UploadCircumstances).
Notation options := (ManagedMultipartUploadRequest.options request).
Notation key := (ManagedMultipartUploadRequest.key request).
Notation takes := (fold_left (take request env)).

Lemma part_calls_objects order st k :
  stored_object (takes (CallPart <$> order) st) k = stored_object st k.
Proof.
  revert st. induction order as [|n order IH]; intros st; [done|]. cbn. rewrite IH.
  destruct (part_sent request env n); [|done]. apply part_objects.
Qed.

Lemma closing_calls_objects calls st k : (forall r, CallComplete r ∉ calls) ->
  stored_object (takes (List.filter is_closing calls) st) k = stored_object st k.
Proof.
  revert st. induction calls as [|c calls IH]; intros st Hc; [done|].
  assert (Hc' : forall r, CallComplete r ∉ calls) by (intros r Hr; apply (Hc r); by constructor).
  cbn [List.filter]. destruct c as [r|n|r|r]; cbn [is_closing fold_left]; [by apply IH..| |].
  - destruct (Hc r). by constructor.
  - rewrite IH by done. apply abort_objects.
Qed.

Lemma create_calls_objects calls st k :
  stored_object (takes (List.filter is_create calls) st) k = stored_object st k.
Proof.
  revert st. induction calls as [|c calls IH]; intros st; [done|]. cbn [List.filter].
  destruct c; cbn [is_create fold_left]; rewrite IH; [apply create_objects|done..].
Qed.

Lemma after_objects calls order st k : (forall r, CallComplete r ∉ calls) ->
  stored_object (after request env calls order st) k = stored_object st k.
Proof.
  intros Hc. unfold after, effects. rewrite !fold_left_app.
  by rewrite closing_calls_objects, part_calls_objects, create_calls_objects.
Qed.

(** What part [n] of the upload [id] is once its request took effect. *)
Definition stores (id : UploadId.t) (n : Z) (stored : string * string) : Prop :=
  exists r out b, part_sent request env n = Some r /\ api_upload_part r = Ok out /\
    UploadPartRequest.upload_id r = id /\ PartNumber.get (UploadPartRequest.part_number r) = n /\
    UploadPartRequest.body r = SourceBytes b /\ stored = (UploadPartOutput.e_tag out, b).

Lemma PartNumber_get_inj m n : PartNumber.get m = PartNumber.get n -> m = n.
Proof. destruct m, n. cbn. congruence. Qed.

Lemma part_calls_stored id order st : NoDup order ->
  (forall n, n ∈ order -> exists stored, stores id n stored) ->
  forall n stored, PartNumber.get n ∈ order -> stores id (PartNumber.get n) stored ->
    stored_part (takes (CallPart <$> order) st) id n = Some stored.
Proof.
  revert st. induction order as [|m order IH] using rev_ind; intros st Hd Hall n stored Hn Hs.
  { by apply elem_of_nil in Hn. }
  apply NoDup_app in Hd as (Hd & Hm & _).
  rewrite fmap_app, fold_left_app. cbn.
  destruct (decide (PartNumber.get n = m)) as [<-|Hne].
  - destruct Hs as (r & out & b & -> & Ha & <- & Hr & Hb & ->). apply PartNumber_get_inj in Hr as <-.
    by apply part_stored.
  - destruct (Hall m) as (other & r & out & b & -> & Ha & Hi & Hr & _).
    { apply elem_of_app. right. by apply list_elem_of_singleton. }
    rewrite part_others by congruence. apply IH; [done| |..|done].
    + intros k Hk. apply Hall. apply elem_of_app. by left.
    + apply elem_of_app in Hn as [?|Hn]; [done|]. by apply list_elem_of_singleton in Hn.
Qed.

(** A recorded part is what its own request stored. *)
Lemma uploaded_stores source created part :
  PreparedMultipartSource_prepare (ManagedMultipartUploadRequest.source request) = Ok source ->
  api_create (create_request request) = Ok created ->
  uploaded (part_context request (CreateMultipartUploadOutput.upload_id created) source)
    (late_checksums env) part ->
  exists b, read_part source (MultipartOptions.part_size options) (part_no part) = Ok b /\
    stores (CreateMultipartUploadOutput.upload_id created) (part_no part)
      (CompletedPart.e_tag part, b).
Proof.
  intros Hp Hc. unfold uploaded, upload_one_part, stores, part_sent. rewrite Hp, Hc.
  destruct (part_request _ _ _) as [r|] eqn:Er; [|done].
  destruct (api_upload_part r) as [out|] eqn:Eo; [|done]. intros Hpart.
  unfold part_request in Er. cbn [part_context ctx_source ctx_part_size] in Er.
  destruct (read_part _ _ _) as [b|]; [|done].
  destruct (PartNumber.new (part_no part)) as [m|] eqn:Em; cbn [ok_or] in Er; [|done].
  apply PartNumber_new_get in Em.
  destruct (match ctx_checksum_algorithm _ with Some _ => _ | None => _ end); [|done].
  injection Er as <-. exists b. split; [done|]. eexists _, out, b. split_and!; try done.
  unfold CompletedPart.new in Hpart. destruct (PartNumber.new (PartNumber.get _)); [|done].
  cbn [ok_or] in Hpart. destruct (trim_is_empty _); [done|]. by injection Hpart as <-.
Qed.

Lemma filter_part_calls f l : (forall n, f (CallPart n) = false) ->
  List.filter f (CallPart <$> l) = [].
Proof. intros Hf. induction l as [|n l IH]; cbn; [done|]. by rewrite Hf. Qed.

Lemma part_calls_fmap (l : list Z) : omap part_call (CallPart <$> l) = l.
Proof. induction l as [|n l IH]; cbn; [done|]. f_equal. exact IH. Qed.

(** The parts of the upload are the pieces of the source, as they were stored. *)
Lemma parts_contents source count created completed :
  options_ok options ->
  PreparedMultipartSource_prepare (ManagedMultipartUploadRequest.source request) = Ok source ->
  part_count source (MultipartOptions.part_size options) = Ok count ->
  api_create (create_request request) = Ok created ->
  part_no <$> completed = seqZ 1 count ->
  Forall (uploaded (part_context request (CreateMultipartUploadOutput.upload_id created) source)
            (late_checksums env)) completed ->
  exists contents, str_concat contents = source_content source /\
    Forall2 (fun part b => stores (CreateMultipartUploadOutput.upload_id created) (part_no part)
                             (CompletedPart.e_tag part, b)) completed contents.
Proof.
  intros [Hps _] Hp Hc Hcr Hno Hup. pose proof (prepare_ok _ _ Hp) as Hok.
  assert (Hsize : 0 < MultipartOptions.part_size options <= MAX_PART_SIZE)
    by (unfold MIN_PART_SIZE in Hps; lia).
  destruct (part_count_ok _ _ _ Hok (proj1 Hsize) Hc) as (_ & _ & Hn & _).
  destruct (read_parts_from source _ count Hok Hsize Hc (Z.to_nat count) 1)
    as (contents & Et & Ec & _); [lia..|].
  exists contents. split; [rewrite Ec; by destruct (source_content source)|].
  rewrite Z2Nat.id, <- Hno in Et by lia. apply try_map_ok, Forall2_fmap_l in Et.
  clear Hno Ec. induction Et as [|part b completed contents Hr Et IH]; [constructor|].
  apply Forall_cons in Hup as [Hu Hup]. constructor; [|by apply IH].
  destruct (uploaded_stores _ _ _ Hp Hcr Hu) as (b' & Hb & Hs). unfold compose in Hr. rewrite Hb in Hr. by injection Hr as <-.
Qed.

(** When the parts have taken effect, in any order, those a completion lists are
stored, and are the pieces of the source. *)
Lemma completion_stored source count created completion order st (Hopt : options_ok options) :
  managed_prepared request env source count created ->
  managed_completion request env source count created completion -> order ≡ₚ seqZ 1 count ->
  exists contents, str_concat contents = source_content source /\
    Forall2 (fun part b =>
        stored_part (takes (CallPart <$> order) st)
          (CompleteMultipartUploadRequest.upload_id completion) (CompletedPart.part_number part)
        = Some (CompletedPart.e_tag part, b))
      (CompleteMultipartUploadRequest.completed_parts completion) contents.
Proof.
  intros (_ & _ & Hp & Hc & _ & Hcr) (_ & Hid & _ & Hno & Hup) Ho. rewrite Hid.
  destruct (parts_contents _ _ _ _ Hopt Hp Hc Hcr Hno Hup) as (contents & <- & Hst).
  exists contents. split; [done|].
  assert (Hd : NoDup order) by (rewrite Ho; apply NoDup_seqZ).
  rewrite <- Hno in Ho.
  assert (Hall : forall n, n ∈ order ->
    exists stored, stores (CreateMultipartUploadOutput.upload_id created) n stored).
  { intros n. rewrite Ho, list_elem_of_fmap. intros (part & -> & Hin).
    rewrite Forall_forall in Hup. destruct (uploaded_stores _ _ _ Hp Hcr (Hup _ Hin)) as (b & _ & Hb).
    by exists (CompletedPart.e_tag part, b). }
  clear Hno Hup.
  assert (Hin : forall part, part ∈ CompleteMultipartUploadRequest.completed_parts completion ->
    part_no part ∈ order).
  { intros part Hpart. rewrite Ho. apply list_elem_of_fmap. by exists part. }
  clear Ho. induction Hst as [|part b parts contents Hs Hst IH]; [constructor|].
  constructor; [|apply IH; intros; apply Hin; by constructor].
  apply part_calls_stored; try done. apply (Hin part). by constructor.
Qed.

(** The calls of an upload that was created, as they take effect. *)
Lemma after_split r parts closing order st :
  List.filter is_create closing = [] -> List.filter is_closing closing = closing ->
  after request env (CallCreate r :: (CallPart <$> parts) ++ closing) order st
  = takes closing (takes (CallPart <$> order) (take_create r st)).
Proof.
  intros Hn Hc. unfold after, effects. cbn [List.filter is_create is_closing].
  rewrite !List.filter_app, !filter_part_calls, Hn, Hc by done. cbn [app fold_left take].
  by rewrite fold_left_app.
Qed.

Lemma part_calls_omap r parts closing : omap part_call closing = [] ->
  omap part_call (CallCreate r :: (CallPart <$> parts) ++ closing) = parts.
Proof.
  intros Hc. cbn [omap list_omap part_call]. change (list_omap _ _ part_call) with (omap part_call).
  by rewrite omap_app, part_calls_fmap, Hc, app_nil_r.
Qed.

Lemma after_success calls output order st (Hopt : options_ok options) :
  managed_success request env calls output -> order ≡ₚ omap part_call calls ->
  exists source, PreparedMultipartSource_prepare (ManagedMultipartUploadRequest.source request)
                   = Ok source /\
    stored_object (after request env calls order st) key = Some (source_content source) /\
    forall k, k <> key -> stored_object (after request env calls order st) k = stored_object st k.
Proof.
  intros (source & count & created & completion & Hp & Hc & _ & Ha & ->) Ho.
  rewrite part_calls_omap in Ho by done. exists source. split; [apply Hp|].
  rewrite after_split by done. cbn [fold_left take]. pose proof Hc as (Hk & _).
  change (CreateMultipartUploadRequest.Mk _ _ _ _ _ _) with (create_request request). split.
  - destruct (completion_stored _ _ _ _ order (take_create (create_request request) st) Hopt Hp Hc Ho)
      as (contents & <- & Hst).
    rewrite <- Hk. by apply (complete_assembles _ output).
  - intros k Hne. rewrite complete_objects by congruence.
    by rewrite part_calls_objects, create_objects.
Qed.

(** Whatever became of an upload that failed, its object is whole or untouched. *)
Lemma after_failure_objects calls e order st (Hopt : options_ok options) :
  managed_failure request env calls e -> order ≡ₚ omap part_call calls ->
  (forall k, k <> key -> stored_object (after request env calls order st) k = stored_object st k) /\
  (stored_object (after request env calls order st) key = stored_object st key \/
   (exists r, CallComplete r ∈ calls) /\ exists source,
     PreparedMultipartSource_prepare (ManagedMultipartUploadRequest.source request) = Ok source /\
     stored_object (after request env calls order st) key = Some (source_content source)).
Proof.
  assert (Hno : (forall r, CallComplete r ∉ calls) -> forall k,
    stored_object (after request env calls order st) k = stored_object st k)
    by (intros; by apply after_objects).
  intros [[-> _]|[[-> _]|F]] Ho.
  { split; [|left]; intros; apply Hno; intros r Hr; by apply elem_of_nil in Hr. }
  { split; [|left]; intros; apply Hno; intros r Hr; by apply list_elem_of_singleton in Hr. }
  destruct F as (source & count & created & parts & completing & primary & q & Hp & -> & _ & Hc).
  destruct Hc as [(-> & _)|(-> & _ & completion & -> & Hc & _)].
  - cbn [app] in *. split; [|left]; intros; apply Hno; intros r Hr;
      rewrite elem_of_cons, elem_of_app, list_elem_of_fmap, list_elem_of_singleton in Hr; naive_solver.
  - clear Hno. cbn [app] in *. rewrite part_calls_omap in Ho by done.
    rewrite after_split by done. cbn [fold_left take]. pose proof Hc as (Hk & _).
    change (CreateMultipartUploadRequest.Mk _ _ _ _ _ _) with (create_request request). split.
    { intros k Hne. rewrite abort_objects, complete_objects by congruence.
      by rewrite part_calls_objects, create_objects. }
    rewrite abort_objects. set (st0 := take_create (create_request request) st) in *.
    destruct (completion_stored _ _ _ _ order st0 Hopt Hp Hc Ho) as (contents & E & Hst).
    rewrite <- Hk. destruct (complete_all_or_nothing _ _ _ Hst) as [-> | ->].
    + left. rewrite part_calls_objects. apply create_objects.
    + right. split; [|exists source; by rewrite E; split; [apply Hp|]].
      exists completion. rewrite elem_of_cons, elem_of_app. right; right. by constructor.
Qed.

(** A confirmed clean-up discards what the parts had stored. *)
Lemma after_failure calls e order st created n :
  managed_failure request env calls e -> api_create (create_request request) = Ok created ->
  calls <> [] -> S3Error.cleanup_failure e = None ->
  stored_part (after request env calls order st) (CreateMultipartUploadOutput.upload_id created) n
  = None.
Proof.
  unfold create_request. intros [[-> _]|[[-> Hc]|F]] Hc' Hne He; [done|congruence|].
  destruct F as (source & count & cr & parts & completing & primary & q & Hp & -> & Hrep & _).
  pose proof Hp as (_ & _ & _ & _ & _ & Hcr). rewrite Hcr in Hc'. injection Hc' as ->.
  assert (Ha : api_abort (AbortMultipartUploadRequest.Mk key (CreateMultipartUploadOutput.upload_id created)
      (ManagedMultipartHeaders.abort (ManagedMultipartUploadRequest.headers request))) = Ok tt).
  { repeat apply proj2 in Hrep. rewrite He in Hrep.
    destruct (api_abort _) as [[]|], q; naive_solver. }
  unfold after, effects. rewrite !fold_left_app.
  rewrite app_comm_cons, app_assoc, (List.filter_app is_closing), fold_left_app.
  by apply (abort_discards (AbortMultipartUploadRequest.Mk _ _ _)).
Qed.
End lemmas.

(** ** Properties *)

(** C4. A managed upload stores the source, or leaves the object as it was. Replay
its calls on the service, the parts in any order. After a success the object under
the key is the source, every byte of it in its place. After a failure it is what
it was before, or, only when the completion had been asked for and was carried out
although its answer was lost or the upload was cancelled, the whole source: never
a part of it. In both cases no other object changed, and after a failure no part
of the upload is left unless the error reports a failed clean-up. It waits only
while its parts have not settled. *)
Theorem managed_upload_stores `{MultipartApiLaws} `{!MultipartStore} `{!MultipartStoreLaws}
  `{Primitives} `{Base64}
  (request : ManagedMultipartUploadRequest.t) (env : UploadCircumstances)
  (Hoptions : options_ok (ManagedMultipartUploadRequest.options request)) :
  match run_multipart_upload request env with
  | Some (calls, r) => forall order st, order ≡ₚ omap part_call calls ->
      let after := after request env calls order st in
      match r with
      | Ok _ => exists source,
          PreparedMultipartSource_prepare (ManagedMultipartUploadRequest.source request) = Ok source /\
          stored_object after (ManagedMultipartUploadRequest.key request)
            = Some (source_content source) /\
          forall k, k <> ManagedMultipartUploadRequest.key request ->
            stored_object after k = stored_object st k
      | Err e =>
          (forall k, k <> ManagedMultipartUploadRequest.key request ->
             stored_object after k = stored_object st k) /\
          (stored_object after (ManagedMultipartUploadRequest.key request)
             = stored_object st (ManagedMultipartUploadRequest.key request) \/
           (exists r, CallComplete r ∈ calls) /\ exists source,
             PreparedMultipartSource_prepare (ManagedMultipartUploadRequest.source request)
               = Ok source /\
             stored_object after (ManagedMultipartUploadRequest.key request)
               = Some (source_content source)) /\
          (S3Error.cleanup_failure e = None -> calls <> [] ->
           forall created n, api_create (create_request request) = Ok created ->
             stored_part after (CreateMultipartUploadOutput.upload_id created) n = None)
      end
  | None => Z.of_nat (List.length (wait_events env)) < 10000 \/
            Z.of_nat (List.length (settlements env)) < 64
  end.
Proof.
  pose proof (run_managed request env Hoptions) as R.
  destruct (run_multipart_upload request env) as [[calls [output|e]]|]; [..|exact R];
    intros order st Ho.
  - by eapply after_success.
  - destruct (after_failure_objects request env calls e order st Hoptions R Ho) as [Hk Hw].
    split_and!; [exact Hk|exact Hw|]. intros. by eapply after_failure.
Qed.

(** ** A sample store *)

#[local] Existing Instance assoc_http.
#[local] Existing Instance sample_primitives.
#[local] Existing Instance sample_base64.
#[local] Existing Instance sample_api.
#[local] Existing Instance sample_api_laws.

Record SampleStore : Type := {
  sample_parts : UploadId.t -> Z -> option (string * string);
  sample_objects : ObjectKey.t -> option string
}.
Definition sample_part_content (st : SampleStore) (id : UploadId.t) (part : CompletedPart.t)
  : option string :=
  '(e_tag, b) ← sample_parts st id (part_no part);
  if decide (e_tag = CompletedPart.e_tag part) then Some b else None.
#[local] Instance sample_store : MultipartStore := {
  store := SampleStore;
  stored_part st id n := sample_parts st id (PartNumber.get n);
  stored_object := sample_objects;
  take_create r st := st;
  take_part r st :=
    match api_upload_part r, UploadPartRequest.body r with
    | Ok out, SourceBytes b =>
        {| sample_parts id n :=
             if bool_decide (id = UploadPartRequest.upload_id r)
                && (n =? PartNumber.get (UploadPartRequest.part_number r))
             then Some (UploadPartOutput.e_tag out, b) else sample_parts st id n;
           sample_objects := sample_objects st |}
    | _, _ => st
    end;
  take_complete r st :=
    match mapM (sample_part_content st (CompleteMultipartUploadRequest.upload_id r))
            (CompleteMultipartUploadRequest.completed_parts r) with
    | Some contents =>
        {| sample_parts := sample_parts st;
           sample_objects k := if decide (k = CompleteMultipartUploadRequest.key r)
                               then Some (str_concat contents) else sample_objects st k |}
    | None => st
    end;
  take_abort r st :=
    {| sample_parts id n := if decide (id = AbortMultipartUploadRequest.upload_id r) then None
                            else sample_parts st id n;
       sample_objects := sample_objects st |}
}.
Lemma sample_contents st id parts contents :
  Forall2 (fun part b => sample_parts st id (part_no part) = Some (CompletedPart.e_tag part, b))
    parts contents ->
  mapM (sample_part_content st id) parts = Some contents.
Proof.
  intros Hc. apply mapM_Some. eapply Forall2_impl; [exact Hc|]. intros part b E.
  unfold sample_part_content. rewrite E. cbn. by rewrite decide_True.
Qed.

Lemma sample_completes r contents st :
  Forall2 (fun part b =>
      stored_part st (CompleteMultipartUploadRequest.upload_id r) (CompletedPart.part_number part)
      = Some (CompletedPart.e_tag part, b))
    (CompleteMultipartUploadRequest.completed_parts r) contents ->
  stored_object (take_complete r st) (CompleteMultipartUploadRequest.key r)
  = Some (str_concat contents).
Proof.
  intros Hc. cbn. rewrite (sample_contents _ _ _ _ Hc). cbn. by rewrite decide_True.
Qed.

#[local] Instance sample_store_laws : MultipartStoreLaws.
Proof.
  split; cbn [take_create take_part take_complete take_abort stored_part stored_object sample_store].
  - done.
  - intros r st k. destruct (api_upload_part r); [|done]. by destruct (UploadPartRequest.body r).
  - done.
  - intros r st k Hk. destruct (mapM _ _); [|done]. cbn. by rewrite decide_False.
  - intros r out b st -> ->. cbn. by rewrite bool_decide_true, Z.eqb_refl.
  - intros r st id n Hn. destruct (api_upload_part r); [|done].
    destruct (UploadPartRequest.body r); [|done..]. cbn.
    destruct (Z.eqb_spec (PartNumber.get n) (PartNumber.get (UploadPartRequest.part_number r))) as [E|_];
      [by apply PartNumber_get_inj in E|]. by rewrite andb_false_r.
  - intros r out contents st _ Hc. by apply sample_completes.
  - intros r contents st Hc. right. by apply sample_completes.
  - intros r st n _. cbn. by rewrite decide_True.
Qed.

Definition sample_empty : SampleStore :=
  {| sample_parts _ _ := None; sample_objects _ := None |}.

Lemma managed_upload_stores_witness :
  stored_object (after sample_upload (sample_circumstances [WaitPart 0])
    [CallCreate (create_request sample_upload); CallPart 1;
     CallComplete (CompleteMultipartUploadRequest.Mk (ObjectKey.Mk "k") (UploadId.Mk "id")
       [CompletedPart.Mk (PartNumber.Mk 1) "1" Checksum.default] hm_empty)] [1] sample_empty)
    (ObjectKey.Mk "k") = Some "abc".
Proof.
  pose proof (managed_upload_stores sample_upload (sample_circumstances [WaitPart 0])
                ltac:(repeat split; vm_compute; discriminate)) as S.
  assert (E : run_multipart_upload sample_upload (sample_circumstances [WaitPart 0]) =
    Some ([CallCreate (create_request sample_upload); CallPart 1;
     CallComplete (CompleteMultipartUploadRequest.Mk (ObjectKey.Mk "k") (UploadId.Mk "id")
       [CompletedPart.Mk (PartNumber.Mk 1) "1" Checksum.default] hm_empty)],
     Ok (CompleteMultipartUploadOutput.Mk None None None None None Checksum.default
           RequestIds.default))) by reflexivity.
  rewrite E in S. destruct (S [1] sample_empty) as (source & Hs & Ho & _); [reflexivity|].
  injection Hs as <-. exact Ho.
Defined.
