(* ===== verification/Headers.v ===== *)
(** The headers of object and multipart requests and responses
([src/client/object/headers/request.rs], [.../response.rs] and
[src/client/multipart/headers.rs]). Adding a generated header to a request fails
when the caller's headers already have it. *)

From S2P Require Import Prelude Text Errors Canonical SigV4 Http Types Stream Records Credentials.
From S2P Require Import Request Crc.
From stdpp Require Import options.
Local Open Scope Z_scope.

(** [for x in l { f(&mut headers, x)?; }]. *)
Fixpoint try_fold {E A B} (f : A -> B -> result E A) (l : list B) (a : A) : result E A :=
  match l with
  | [] => Ok a
  | b :: l => let? a := f a b in try_fold f l a
  end.

(** ** [object/headers/request.rs] *)

Section requests.
Context `{Http} `{Primitives} `{Base64} `{HttpText}.

Definition sha256_base64 (b : PreparedBody) : string := base64_encode (body_sha256 b).

Definition insert_upload_checksum (headers : HeaderMap) (algorithm : option ChecksumAlgorithm.t)
    (body : PreparedBody) : outcome HeaderMap :=
  match algorithm with
  | None => Ok headers
  | Some ChecksumAlgorithm.Sha256 =>
      let? headers := insert_header headers "x-amz-sdk-checksum-algorithm" "SHA256" in
      insert_header headers "x-amz-checksum-sha256" (sha256_base64 body)
  | Some _ => Err (S3Error.unsupported
                     "the selected upload checksum algorithm is not implemented")
  end.

Definition format_http_date (value : Z) : string := fmt_http_date value.

Definition insert_conditions (headers : HeaderMap) (conditions : Conditions.t) (prefix : string)
  : outcome HeaderMap :=
  let? headers := insert_optional_named_header headers (prefix +:+ "if-match")
                    (Conditions.if_match conditions) in
  let? headers := insert_optional_named_header headers (prefix +:+ "if-none-match")
                    (Conditions.if_none_match conditions) in
  let? headers :=
    match Conditions.if_modified_since conditions with
    | Some value =>
        insert_named_header headers (prefix +:+ "if-modified-since") (format_http_date value)
    | None => Ok headers
    end in
  match Conditions.if_unmodified_since conditions with
  | Some value =>
      insert_named_header headers (prefix +:+ "if-unmodified-since") (format_http_date value)
  | None => Ok headers
  end.

Definition insert_user_metadata (headers : HeaderMap) (metadata : list (string * string))
  : outcome HeaderMap :=
  try_fold (fun headers '(name, value) =>
              insert_named_header headers ("x-amz-meta-" +:+ name) value) metadata headers.

Definition optional_query (name : string) (value : option string) : list QueryParam :=
  match value with Some value => [qp name value] | None => [] end.

Definition push_optional_query (query : list QueryParam) (name : string)
    (value : option string) : list QueryParam :=
  match value with Some value => query ++ [qp name value] | None => query end.

(** [percent_encode], appending to [output]. *)
Fixpoint percent_encode (bytes : string) (preserve_slash : bool) (output : string) : string :=
  match bytes with
  | EmptyString => output
  | String c bytes =>
      percent_encode bytes preserve_slash
        (if is_ascii_alphanumeric c || one_of "-._~" c || (preserve_slash && Ascii.eqb c "/")
         then output +:+ String c ""
         else output +:+ String "%" (String (hex_at HEX_UPPER (Z.shiftr (byte c) 4))
                                       (String (hex_at HEX_UPPER (Z.land (byte c) 15)) "")))
  end.

Definition copy_source_header (source : CopySource.t) : string :=
  let output := percent_encode (CopySource.bucket source) false "/" in
  let output := percent_encode (ObjectKey.as_str (CopySource.key source)) true (output +:+ "/") in
  match CopySource.version_id source with
  | Some version_id => percent_encode version_id false (output +:+ "?versionId=")
  | None => output
  end.
End requests.

(** ** [object/headers/response.rs] *)

Section responses.
Context `{Http} `{Base64} `{HttpText}.

Definition response_header_value (value : HeaderValue) : outcome string :=
  ok_or (hv_to_str value) (S3Error.invalid_response "S3 returned a non-text response header").

Definition response_header (headers : HeaderMap) (name : string) : outcome (option string) :=
  transpose (response_header_value <$> hm_get headers name).

Definition parse_u64_value (value : HeaderValue) : outcome Z :=
  ok_or (hv_to_str value ≫= parse_uint U64_MAX)
    (S3Error.invalid_response "S3 returned an invalid content length").

Definition parse_http_date_value (value : HeaderValue) : outcome Z :=
  let invalid := S3Error.invalid_response "S3 returned an invalid HTTP date" in
  let? value := ok_or (hv_to_str value) invalid in
  ok_or (parse_http_date value) invalid.

Definition parse_checksum (headers : HeaderMap) : outcome Checksum.t :=
  let? crc32 := response_header headers "x-amz-checksum-crc32" in
  let? crc32c := response_header headers "x-amz-checksum-crc32c" in
  let? crc64_nvme := response_header headers "x-amz-checksum-crc64nvme" in
  let? sha1 := response_header headers "x-amz-checksum-sha1" in
  let? sha256 := response_header headers "x-amz-checksum-sha256" in
  Ok (Checksum.Mk crc32 crc32c crc64_nvme sha1 sha256).

Definition parse_request_ids (headers : HeaderMap) : outcome RequestIds.t :=
  let? request_id := response_header headers "x-amz-request-id" in
  let? host_id := response_header headers "x-amz-id-2" in
  Ok (RequestIds.Mk request_id host_id).

Definition parse_object_metadata (headers : HeaderMap) : outcome ObjectMetadata.t :=
  let? content_length := transpose (parse_u64_value <$> hm_get headers "content-length") in
  let? content_length := ok_or content_length
    (S3Error.invalid_response "S3 omitted the content-length header") in
  let? last_modified := transpose (parse_http_date_value <$> hm_get headers "last-modified") in
  let? user_metadata :=
    try_fold (fun metadata '(name, value) =>
      match strip_prefix "x-amz-meta-" name with
      | Some suffix =>
          let? value := response_header_value value in
          Ok (btree_insert suffix value metadata)
      | None => Ok metadata
      end) (hm_iter headers) [] in
  let? e_tag := response_header headers "etag" in
  let? content_type := response_header headers "content-type" in
  let? version_id := response_header headers "x-amz-version-id" in
  let? checksum := parse_checksum headers in
  let? request_ids := parse_request_ids headers in
  Ok (ObjectMetadata.Mk e_tag content_length content_type last_modified version_id user_metadata
        checksum request_ids).

Definition verified_download_sha256 (headers : HeaderMap) : outcome (option string) :=
  let? encoded := response_header headers "x-amz-checksum-sha256" in
  match encoded with
  | None => Ok None
  | Some encoded =>
      let? checksum_type := response_header headers "x-amz-checksum-type" in
      if match checksum_type with
         | Some checksum_type => negb (String.eqb checksum_type "FULL_OBJECT")
         | None => false
         end
      then Ok None
      else
        let? decoded := ok_or (base64_decode encoded)
          (S3Error.invalid_response "S3 returned an invalid base64 SHA-256 checksum") in
        if slen decoded =? 32 then Ok (Some decoded)
        else Err (S3Error.invalid_response
                    "S3 returned a SHA-256 checksum with an invalid length")
  end.

Definition option_or {A} (a b : option A) : option A :=
  match a with Some _ => a | None => b end.

Definition merge_checksum (target headers : Checksum.t) : Checksum.t :=
  Checksum.Mk (option_or (Checksum.crc32 headers) (Checksum.crc32 target))
    (option_or (Checksum.crc32c headers) (Checksum.crc32c target))
    (option_or (Checksum.crc64_nvme headers) (Checksum.crc64_nvme target))
    (option_or (Checksum.sha1 headers) (Checksum.sha1 target))
    (option_or (Checksum.sha256 headers) (Checksum.sha256 target)).

Definition parse_bool_header (headers : HeaderMap) (name : string) : outcome (option bool) :=
  let? value := response_header headers name in
  match value with
  | None => Ok None
  | Some value =>
      if String.eqb value "true" then Ok (Some true)
      else if String.eqb value "false" then Ok (Some false)
      else Err (S3Error.invalid_response "S3 returned an invalid boolean response header")
  end.

Definition parse_content_range (headers : HeaderMap) : outcome (option (Z * Z * option Z)) :=
  let invalid := S3Error.invalid_response "S3 returned an invalid content-range header" in
  let? value := response_header headers "content-range" in
  match value with
  | None => Ok None
  | Some value =>
      let? remainder := ok_or (strip_prefix "bytes " value) invalid in
      let? (range, complete) := ok_or (split_once "/" remainder) invalid in
      let? (start, end_) := ok_or (split_once "-" range) invalid in
      let? start := ok_or (parse_uint U64_MAX start) invalid in
      let? end_ := ok_or (parse_uint U64_MAX end_) invalid in
      if end_ <? start then Err invalid
      else
        let? complete :=
          if String.eqb complete "*" then Ok None
          else
            let? complete := ok_or (parse_uint U64_MAX complete) invalid in
            if complete <=? end_
            then Err (S3Error.invalid_response
                        "S3 returned an inconsistent content-range header")
            else Ok (Some complete) in
        Ok (Some (start, end_, complete))
  end.
End responses.

(** ** [multipart/headers.rs] *)

Definition checksum_algorithm_name (algorithm : ChecksumAlgorithm.t) : string :=
  match algorithm with
  | ChecksumAlgorithm.Crc32 => "CRC32" | ChecksumAlgorithm.Crc32c => "CRC32C"
  | ChecksumAlgorithm.Crc64Nvme => "CRC64NVME" | ChecksumAlgorithm.Sha1 => "SHA1"
  | ChecksumAlgorithm.Sha256 => "SHA256"
  end.

(** The value of a base64 character. *)
Definition base64_value (c : ascii) : option Z :=
  if is_ascii_uppercase c then Some (byte c - 65)
  else if is_ascii_lowercase c then Some (byte c - 97 + 26)
  else if is_ascii_digit c then Some (byte c - 48 + 52)
  else if Ascii.eqb c "+" then Some 62
  else if Ascii.eqb c "/" then Some 63
  else None.

(** [u8::trailing_zeros]. *)
Fixpoint trailing_zeros_go (fuel : nat) (value : Z) : Z :=
  match fuel with
  | O => 0
  | S fuel => if Z.odd value then 0 else 1 + trailing_zeros_go fuel (Z.shiftr value 1)
  end.
Definition trailing_zeros (value : Z) : Z := trailing_zeros_go 8 value.

(** [digest_length] is a constant of the caller, 4, 8, 20 or 32. *)
Definition valid_base64_digest (value : string) (digest_length : Z) : bool :=
  let encoded_length := div_ceil digest_length 3 * 4 in
  if negb (slen value =? encoded_length) then false
  else
    let padding := if digest_length mod 3 =? 0 then 0 else if digest_length mod 3 =? 1 then 2 else 1 in
    let data_length := encoded_length - padding in
    if negb (str_all (fun c => is_ascii_alphanumeric c || one_of "+/" c) (str_take data_length value))
       || negb (str_all (fun c => Ascii.eqb c "=") (str_drop data_length value))
    then false
    else
      match String.get (Z.to_nat (data_length - 1)) value ≫= base64_value with
      | None => false
      | Some last =>
          if padding =? 0 then true
          else if padding =? 1 then 2 <=? trailing_zeros last
          else 4 <=? trailing_zeros last
      end.

Section multipart.
Context `{Http}.

Definition create_headers (request : CreateMultipartUploadRequest.t) : outcome HeaderMap :=
  let? headers := request_headers (CreateMultipartUploadRequest.headers request) in
  let? headers := insert_optional_header headers "content-type"
                    (CreateMultipartUploadRequest.content_type request) in
  let? headers := insert_optional_header headers "x-amz-checksum-algorithm"
                    (checksum_algorithm_name <$>
                       CreateMultipartUploadRequest.checksum_algorithm request) in
  let? headers := insert_optional_header headers "x-amz-checksum-type"
                    (ChecksumType.as_str <$> CreateMultipartUploadRequest.checksum_type request) in
  try_fold (fun headers '(name, value) =>
    if is_empty name then Err (S3Error.configuration "user metadata names cannot be empty")
    else
      let? name := ok_or (hn_from_bytes ("x-amz-meta-" +:+ name))
        (S3Error.configuration "user metadata name is not a valid HTTP header") in
      insert_header headers name value)
    (CreateMultipartUploadRequest.user_metadata request) headers.

Definition insert_checksum (headers : HeaderMap) (name : string) (value : option string)
    (digest_length : Z) : outcome HeaderMap :=
  match value with
  | None => Ok headers
  | Some value =>
      if negb (valid_base64_digest value digest_length)
      then Err (S3Error.configuration "checksum is not valid standard base64 for its algorithm")
      else insert_header headers name value
  end.

Definition checksum_headers (checksum : Checksum.t) (headers : HeaderMap) : outcome HeaderMap :=
  let? headers := request_headers headers in
  let? headers := insert_checksum headers "x-amz-checksum-crc32" (Checksum.crc32 checksum) 4 in
  let? headers := insert_checksum headers "x-amz-checksum-crc32c" (Checksum.crc32c checksum) 4 in
  let? headers :=
    insert_checksum headers "x-amz-checksum-crc64nvme" (Checksum.crc64_nvme checksum) 8 in
  let? headers := insert_checksum headers "x-amz-checksum-sha1" (Checksum.sha1 checksum) 20 in
  insert_checksum headers "x-amz-checksum-sha256" (Checksum.sha256 checksum) 32.

Definition optional_header (headers : HeaderMap) (name : string) : outcome (option string) :=
  transpose
    ((fun value =>
        ok_or (value ← hv_to_str value;
               if negb (is_empty value) && (slen value <=? 2048)
                  && str_all (fun c => negb (is_ascii_control c)) value
               then Some value else None)
          (S3Error.invalid_response "S3 returned an invalid response header"))
     <$> hm_get headers name).

Definition required_header (headers : HeaderMap) (name missing_message : string) : outcome string :=
  let? value := optional_header headers name in
  ok_or value (S3Error.invalid_response missing_message).

Definition optional_checksum_header (headers : HeaderMap) (name : string) (digest_length : Z)
  : outcome (option string) :=
  let? value := optional_header headers name in
  if match value with Some value => negb (valid_base64_digest value digest_length)
     | None => false end
  then Err (S3Error.invalid_response "S3 returned a malformed checksum header")
  else Ok value.

Definition response_checksums (headers : HeaderMap) : outcome Checksum.t :=
  let? crc32 := optional_checksum_header headers "x-amz-checksum-crc32" 4 in
  let? crc32c := optional_checksum_header headers "x-amz-checksum-crc32c" 4 in
  let? crc64_nvme := optional_checksum_header headers "x-amz-checksum-crc64nvme" 8 in
  let? sha1 := optional_checksum_header headers "x-amz-checksum-sha1" 20 in
  let? sha256 := optional_checksum_header headers "x-amz-checksum-sha256" 32 in
  Ok (Checksum.Mk crc32 crc32c crc64_nvme sha1 sha256).

Definition diagnostic_header (headers : HeaderMap) (name : string) : option string :=
  value ← hm_get_str headers name;
  if negb (is_empty value) && (slen value <=? 1024)
     && str_all (fun c => negb (is_ascii_control c)) value
  then Some value else None.

Definition request_ids (headers : HeaderMap) : RequestIds.t :=
  RequestIds.Mk (diagnostic_header headers "x-amz-request-id")
    (diagnostic_header headers "x-amz-id-2").
End multipart.

(** ** Base64 (RFC 4648), the reference for [valid_base64_digest] *)

Definition BASE64_ALPHABET : string :=
  "ABCDEFGHIJKLMNOPQRSTUVWXYZabcdefghijklmnopqrstuvwxyz0123456789+/".
Definition base64_char (x : Z) : ascii := hex_at BASE64_ALPHABET x.

Fixpoint base64_reference (s : string) : string :=
  match s with
  | EmptyString => EmptyString
  | String a EmptyString =>
      String (base64_char (byte a / 4)) (String (base64_char (byte a mod 4 * 16)) "==")
  | String a (String b EmptyString) =>
      String (base64_char (byte a / 4))
        (String (base64_char (byte a mod 4 * 16 + byte b / 16))
           (String (base64_char (byte b mod 16 * 4)) "="))
  | String a (String b (String c s)) =>
      String (base64_char (byte a / 4))
        (String (base64_char (byte a mod 4 * 16 + byte b / 16))
           (String (base64_char (byte b mod 16 * 4 + byte c / 64))
              (String (base64_char (byte c mod 64)) (base64_reference s))))
  end.

Definition is_base64 (c : ascii) : bool := is_ascii_alphanumeric c || one_of "+/" c.

Lemma forallb_range (f : Z -> bool) n x :
  forallb f (seqZ 0 n) = true -> 0 <= x < n -> f x = true.
Proof. intros F Hx. rewrite forallb_forall in F. apply F, list_elem_of_In, elem_of_seqZ. lia. Qed.

(** [f x] of the [x] below 64 in the context, by evaluation. *)
Ltac by_range f F :=
  match goal with Hx : 0 <= ?x < 64 |- _ =>
    assert (F : f x = true) by (apply (forallb_range f 64); [vm_compute; reflexivity|lia]);
    cbv beta in F end.

Lemma base64_value_char x : 0 <= x < 64 -> base64_value (base64_char x) = Some x.
Proof.
  intros Hx. by_range (fun x => bool_decide (base64_value (base64_char x) = Some x)) F.
  by apply bool_decide_eq_true in F.
Qed.

Lemma base64_value_spec c x : base64_value c = Some x <-> 0 <= x < 64 /\ c = base64_char x.
Proof.
  split; [|intros [? ->]; by apply base64_value_char].
  assert (F : match base64_value c with
              | Some y => (0 <=? y) && (y <? 64) && Ascii.eqb c (base64_char y)
              | None => true end = true) by all_bytes c.
  intros E. rewrite E in F. apply andb_true_iff in F as [F Fc%Ascii.eqb_eq]. bools. split; [lia|done].
Qed.

Lemma is_base64_value c : is_base64 c = true <-> exists x, base64_value c = Some x.
Proof.
  assert (F : is_base64 c = match base64_value c with Some _ => true | None => false end)
    by all_bytes c.
  rewrite F. destruct (base64_value c); split; try done; [by eauto|by intros [? ?]].
Qed.

Lemma trailing_zeros_spec x : 0 <= x < 64 ->
  (2 <=? trailing_zeros x) = (x mod 4 =? 0) /\ (4 <=? trailing_zeros x) = (x mod 16 =? 0).
Proof.
  intros Hx. by_range (fun x => Bool.eqb (2 <=? trailing_zeros x) (x mod 4 =? 0)
    && Bool.eqb (4 <=? trailing_zeros x) (x mod 16 =? 0)) F.
  apply andb_true_iff in F as [F1%eqb_prop F2%eqb_prop]. done.
Qed.

(** The three pieces of the check: length, characters and the last one. *)
Definition base64_padding (n : Z) : Z := if n mod 3 =? 0 then 0 else if n mod 3 =? 1 then 2 else 1.
Definition base64_tail (n : Z) (last : option Z) : bool :=
  match last with
  | None => false
  | Some last => if base64_padding n =? 0 then true
                 else if base64_padding n =? 1 then 2 <=? trailing_zeros last
                 else 4 <=? trailing_zeros last
  end.

Lemma valid_base64_split v n :
  valid_base64_digest v n =
  let l := div_ceil n 3 * 4 in
  let d := l - base64_padding n in
  (slen v =? l) && (str_all is_base64 (str_take d v) && str_all (fun c => Ascii.eqb c "=") (str_drop d v)
  && base64_tail n (String.get (Z.to_nat (d - 1)) v ≫= base64_value)).
Proof.
  unfold valid_base64_digest, base64_tail. cbv zeta.
  destruct (slen v =? div_ceil n 3 * 4); [|done]. cbn [negb andb]. fold (base64_padding n).
  change (fun c => is_ascii_alphanumeric c || one_of "+/" c) with is_base64.
  destruct (str_all is_base64 _), (str_all (fun c => Ascii.eqb c "=") _); done.
Qed.

Lemma base64_counts n : 1 <= n ->
  div_ceil (3 + n) 3 = 1 + div_ceil n 3 /\ base64_padding (3 + n) = base64_padding n /\
  1 <= div_ceil n 3 /\ 0 <= base64_padding n <= 2.
Proof.
  intros Hn. unfold base64_padding.
  assert (Em : (3 + n) mod 3 = n mod 3)
    by (replace (3 + n) with (n + 1 * 3) by lia; apply Z.mod_add; lia).
  pose proof (div_ceil_bounds n 3 ltac:(lia) ltac:(lia)) as (_ & _ & Hd). rewrite Em.
  split_and!; try lia; try (destruct (n mod 3 =? 0), (n mod 3 =? 1); lia).
  unfold div_ceil. replace (3 + n + 3 - 1) with (n + 3 - 1 + 1 * 3) by lia.
  rewrite Z.div_add by lia. lia.
Qed.

Lemma str_take_S n c s : 0 < n -> str_take n (String c s) = String c (str_take (n - 1) s).
Proof. intros Hn. cbn [str_take]. by rewrite (proj2 (Z.leb_gt _ _) Hn). Qed.

Lemma str_drop_S n c s : 0 < n -> str_drop n (String c s) = str_drop (n - 1) s.
Proof. intros Hn. cbn [str_drop]. by rewrite (proj2 (Z.leb_gt _ _) Hn). Qed.

(** Four characters in front are three bytes more. *)
Lemma valid_base64_group c1 c2 c3 c4 v n : 1 <= n ->
  valid_base64_digest (String c1 (String c2 (String c3 (String c4 v)))) (3 + n)
  = is_base64 c1 && (is_base64 c2 && (is_base64 c3 && is_base64 c4)) && valid_base64_digest v n.
Proof.
  intros Hn. destruct (base64_counts n Hn) as (Ed & Ep & Hd & Hp).
  rewrite !valid_base64_split. cbv zeta. unfold base64_tail. rewrite Ed, Ep, !slen_cons.
  set (p := base64_padding n) in *. set (k := div_ceil n 3) in *.
  replace ((1 + k) * 4 - p) with (4 + (k * 4 - p)) by lia. set (d := k * 4 - p) in *.
  assert (Hd2 : 2 <= d) by lia.
  rewrite !str_take_S, !str_drop_S by lia. replace (4 + d - 1 - 1 - 1 - 1) with d by lia.
  replace (Z.to_nat (4 + d - 1)) with (S (S (S (S (Z.to_nat (d - 1)))))) by lia.
  cbn [String.get str_all].
  replace (1 + (1 + (1 + (1 + slen v))) =? (1 + k) * 4) with (slen v =? k * 4)
    by (destruct (Z.eqb_spec (slen v) (k * 4)), (Z.eqb_spec (1 + (1 + (1 + (1 + slen v)))) ((1 + k) * 4)); lia).
  destruct (is_base64 c1), (is_base64 c2), (is_base64 c3), (is_base64 c4); cbn [andb];
    rewrite ?andb_false_r; done.
Qed.

Lemma base64_char_is x : 0 <= x < 64 -> is_base64 (base64_char x) = true.
Proof. intros Hx. apply is_base64_value. exists x. by apply base64_value_char. Qed.

Lemma is_base64_char c : is_base64 c = true -> exists x, 0 <= x < 64 /\ c = base64_char x.
Proof. intros [x Hx]%is_base64_value. exists x. by apply base64_value_spec. Qed.

(** Four characters are three bytes. *)
Lemma base64_group x1 x2 x3 x4 :
  0 <= x1 < 64 -> 0 <= x2 < 64 -> 0 <= x3 < 64 -> 0 <= x4 < 64 ->
  exists a b c, x1 = byte a / 4 /\ x2 = byte a mod 4 * 16 + byte b / 16 /\
    x3 = byte b mod 16 * 4 + byte c / 64 /\ x4 = byte c mod 64.
Proof.
  intros H1 H2 H3 H4.
  exists (chr (x1 * 4 + x2 / 16)), (chr (x2 mod 16 * 16 + x3 / 4)), (chr (x3 mod 4 * 64 + x4)).
  rewrite !byte_chr by (Z.to_euclidean_division_equations; lia).
  split_and!; Z.to_euclidean_division_equations; lia.
Qed.

Lemma base64_group_range a b c :
  0 <= byte a / 4 < 64 /\ 0 <= byte a mod 4 * 16 + byte b / 16 < 64 /\
  0 <= byte b mod 16 * 4 + byte c / 64 < 64 /\ 0 <= byte c mod 64 < 64 /\
  0 <= byte a mod 4 * 16 < 64 /\ 0 <= byte b mod 16 * 4 < 64.
Proof.
  pose proof (byte_range a). pose proof (byte_range b). pose proof (byte_range c).
  split_and!; Z.to_euclidean_division_equations; lia.
Qed.

(** The last one or two bytes: the check on four characters, laid out. *)
Definition last_one (c1 c2 c3 c4 : ascii) : bool :=
  true && ((is_base64 c1 && (is_base64 c2 && true))
           && (Ascii.eqb c3 "=" && (Ascii.eqb c4 "=" && true)) && base64_tail 1 (base64_value c2)).
Definition last_two (c1 c2 c3 c4 : ascii) : bool :=
  true && ((is_base64 c1 && (is_base64 c2 && (is_base64 c3 && true)))
           && (Ascii.eqb c4 "=" && true) && base64_tail 2 (base64_value c3)).
Definition last_three (c1 c2 c3 c4 : ascii) : bool :=
  true && ((is_base64 c1 && (is_base64 c2 && (is_base64 c3 && (is_base64 c4 && true))))
           && true && base64_tail 3 (base64_value c4)).

#[local] Notation four c1 c2 c3 c4 := (String c1 (String c2 (String c3 (String c4 "")))).

Lemma valid_last c1 c2 c3 c4 :
  valid_base64_digest (four c1 c2 c3 c4) 1 = last_one c1 c2 c3 c4 /\
  valid_base64_digest (four c1 c2 c3 c4) 2 = last_two c1 c2 c3 c4 /\
  valid_base64_digest (four c1 c2 c3 c4) 3 = last_three c1 c2 c3 c4.
Proof. rewrite !valid_base64_split. repeat split. Qed.

Lemma valid_length v n : valid_base64_digest v n = true -> slen v = div_ceil n 3 * 4.
Proof. rewrite valid_base64_split. intros V. by apply andb_true_iff in V as [V%Z.eqb_eq _]. Qed.

(** A text of at least four characters. *)
Lemma four_chars v : 4 <= slen v ->
  exists c1 c2 c3 c4 w, v = String c1 (String c2 (String c3 (String c4 w))) /\ slen w = slen v - 4.
Proof.
  intros L. destruct v as [|c1 [|c2 [|c3 [|c4 w]]]]; rewrite ?slen_cons in L;
    change (slen "") with 0 in L; try lia.
  exists c1, c2, c3, c4, w. split; [done|]. rewrite !slen_cons. lia.
Qed.

Ltac base64_at c x :=
  match goal with E : is_base64 c = true |- _ =>
    let R := fresh "R" in apply is_base64_char in E as (x & R & ->) end.
Ltac padding_at c :=
  match goal with E : c = "="%char |- _ => rewrite E; clear E end.
Ltac euclid := Z.to_euclidean_division_equations; lia.

Lemma base64_tail_1 x : 0 <= x < 64 -> base64_tail 1 (Some x) = (x mod 16 =? 0).
Proof. intros R. exact (proj2 (trailing_zeros_spec x R)). Qed.
Lemma base64_tail_2 x : 0 <= x < 64 -> base64_tail 2 (Some x) = (x mod 4 =? 0).
Proof. intros R. exact (proj1 (trailing_zeros_spec x R)). Qed.

Lemma last_one_spec c1 c2 c3 c4 : last_one c1 c2 c3 c4 = true <->
  exists a, String c1 (String c2 (String c3 (String c4 ""))) = base64_reference (String a "").
Proof.
  unfold last_one. cbn [andb]. rewrite !andb_true_r. split.
  - intros V. bools. base64_at c1 x. base64_at c2 x0. padding_at c3. padding_at c4.
    rewrite base64_value_char, base64_tail_1 in * by done. bools. exists (chr (x * 4 + x0 / 16)). cbn [base64_reference]. rewrite byte_chr by euclid.
    repeat f_equal; euclid.
  - intros [a E]. cbn [base64_reference] in E. injection E as -> -> -> ->.
    destruct (base64_group_range a a a) as (R1 & _ & _ & _ & R2 & _).
    rewrite !base64_char_is, base64_value_char, base64_tail_1 by done. cbn. by rewrite Z.mod_mul.
Qed.

Lemma last_two_spec c1 c2 c3 c4 : last_two c1 c2 c3 c4 = true <->
  exists a b, String c1 (String c2 (String c3 (String c4 "")))
              = base64_reference (String a (String b "")).
Proof.
  unfold last_two. cbn [andb]. rewrite !andb_true_r. split.
  - intros V. bools. base64_at c1 x. base64_at c2 x0. base64_at c3 x1. padding_at c4.
    rewrite base64_value_char, base64_tail_2 in * by done. bools.
    exists (chr (x * 4 + x0 / 16)), (chr (x0 mod 16 * 16 + x1 / 4)). cbn [base64_reference].
    rewrite !byte_chr by euclid. repeat f_equal; euclid.
  - intros (a & b & E). cbn [base64_reference] in E. injection E as -> -> -> ->.
    destruct (base64_group_range a b a) as (R1 & R2 & _ & _ & _ & R3).
    rewrite !base64_char_is, base64_value_char, base64_tail_2 by done. cbn.
    rewrite Z.mod_mul by lia. done.
Qed.

Lemma last_three_spec c1 c2 c3 c4 : last_three c1 c2 c3 c4 = true <->
  exists a b c, String c1 (String c2 (String c3 (String c4 "")))
                = base64_reference (String a (String b (String c ""))).
Proof.
  unfold last_three. cbn [andb]. rewrite !andb_true_r. split.
  - intros V. bools. base64_at c1 x. base64_at c2 x0. base64_at c3 x1. base64_at c4 x2.
    destruct (base64_group x x0 x1 x2) as (a & b & c & E); [done..|].
    exists a, b, c. cbn [base64_reference]. by destruct E as (-> & -> & -> & ->).
  - intros (a & b & c & E). cbn [base64_reference] in E. injection E as -> -> -> ->.
    destruct (base64_group_range a b c) as (R1 & R2 & R3 & R4 & _).
    by rewrite !base64_char_is, base64_value_char by done.
Qed.

Lemma string_length_cases (d : string) n : slen d = 3 + n -> 0 <= n ->
  exists a b c w, d = String a (String b (String c w)) /\ slen w = n.
Proof.
  intros L Hn. destruct d as [|a [|b [|c w]]]; rewrite ?slen_cons in L;
    change (slen "") with 0 in L; try lia.
  exists a, b, c, w. split; [done|]. lia.
Qed.

(** The base cases: digests of one, two and three bytes. *)
Lemma valid_base64_small v n : 1 <= n <= 3 -> valid_base64_digest v n = true <->
  exists d, slen d = n /\ v = base64_reference d.
Proof.
  intros Hn. assert (Hc : div_ceil n 3 = 1).
  { assert (n = 1 \/ n = 2 \/ n = 3) as [-> | [-> | ->]] by lia; done. }
  split.
  - intros V. apply valid_length in V as L. rewrite Hc in L.
    destruct (four_chars v ltac:(lia)) as (c1 & c2 & c3 & c4 & w & -> & Lw).
    assert (w = "") as -> by (apply slen_zero; lia). destruct (valid_last c1 c2 c3 c4) as (E1 & E2 & E3).
    assert (n = 1 \/ n = 2 \/ n = 3) as [-> | [-> | ->]] by lia.
    + rewrite E1 in V. apply last_one_spec in V as [a ->]. by exists (String a "").
    + rewrite E2 in V. apply last_two_spec in V as (a & b & ->). by exists (String a (String b "")).
    + rewrite E3 in V. apply last_three_spec in V as (a & b & c & ->).
      by exists (String a (String b (String c ""))).
  - intros (d & Ld & ->). destruct d as [|a [|b [|c [|e w]]]]; rewrite ?slen_cons in Ld;
      change (slen "") with 0 in Ld; try lia; try (pose proof (slen_nonneg w); lia);
      cbn [base64_reference].
    + replace n with 1 by lia. rewrite (proj1 (valid_last _ _ _ _)). apply last_one_spec. by exists a.
    + replace n with 2 by lia. rewrite (proj1 (proj2 (valid_last _ _ _ _))).
      apply last_two_spec. by exists a, b.
    + replace n with 3 by lia. rewrite (proj2 (proj2 (valid_last _ _ _ _))).
      apply last_three_spec. by exists a, b, c.
Qed.

Lemma valid_base64_step v n : 1 <= n ->
  (forall w, valid_base64_digest w n = true <-> exists d, slen d = n /\ w = base64_reference d) ->
  valid_base64_digest v (3 + n) = true <-> exists d, slen d = 3 + n /\ v = base64_reference d.
Proof.
  intros Hn IH. destruct (base64_counts n Hn) as (Hc & _ & Hd & _). split.
  - intros V. apply valid_length in V as L. rewrite Hc in L.
    destruct (four_chars v ltac:(lia)) as (c1 & c2 & c3 & c4 & w & -> & _).
    rewrite valid_base64_group in V by done. apply andb_true_iff in V as [V W].
    apply IH in W as (d & Ld & ->). bools.
    base64_at c1 x1. base64_at c2 x2. base64_at c3 x3. base64_at c4 x4.
    destruct (base64_group x1 x2 x3 x4) as (a & b & c & E); [done..|].
    exists (String a (String b (String c d))). rewrite !slen_cons. split; [lia|].
    cbn [base64_reference]. by destruct E as (-> & -> & -> & ->).
  - intros (d & Ld & ->). destruct (string_length_cases d n Ld ltac:(lia)) as (a & b & c & w & -> & Lw).
    cbn [base64_reference]. rewrite valid_base64_group by done.
    destruct (base64_group_range a b c) as (R1 & R2 & R3 & R4 & _).
    rewrite !base64_char_is by done. cbn [andb]. apply IH. by exists w.
Qed.

Lemma valid_base64_all k v n : 1 <= n <= 3 + 3 * Z.of_nat k ->
  valid_base64_digest v n = true <-> exists d, slen d = n /\ v = base64_reference d.
Proof.
  revert v n. induction k as [|k IH]; intros v n Hn; [apply valid_base64_small; lia|].
  destruct (Z.leb_spec n 3); [apply valid_base64_small; lia|].
  replace n with (3 + (n - 3)) by lia. apply valid_base64_step; [lia|]. intros w. apply IH. lia.
Qed.

(** ** Lemmas: the caller's headers *)

Section kept.
Set Default Proof Using "Type*".
Context `{HttpLaws} `{Primitives} `{Base64} `{HttpText}.

(** [m'] has the headers of [m], with their values, and may have others, whose
names are in lower case too. *)
Definition extends (m m' : HeaderMap) : Prop :=
  (forall k, hm_get_all m k <> [] -> hm_get_all m' k = hm_get_all m k) /\
  (lower_named m -> lower_named m').

Lemma extends_refl m : extends m m.
Proof. by split. Qed.

Lemma extends_trans m1 m2 m3 : extends m1 m2 -> extends m2 m3 -> extends m1 m3.
Proof. intros [H12 L12] [H23 L23]. split; [|tauto]. intros k Hk. rewrite H23; rewrite H12; done. Qed.

Lemma insert_header_extends m n v m' : to_ascii_lowercase n = n ->
  insert_header m n v = Ok m' -> extends m m'.
Proof.
  unfold insert_header, hm_contains, hm_get. intros Hn Hi.
  destruct (head (hm_get_all m n)) eqn:Eh; [done|]. destruct (hv_from_str v); [|done]. cbn in Hi. inv_ok.
  split; [|by apply lower_named_insert]. intros k Hk.
  apply hm_get_all_insert_ne. intros ->. by destruct (hm_get_all m k).
Qed.

Lemma insert_optional_extends m n v m' : to_ascii_lowercase n = n ->
  insert_optional_header m n v = Ok m' -> extends m m'.
Proof. destruct v; cbn; [apply insert_header_extends|]. intros; inv_ok. apply extends_refl. Qed.

Lemma insert_named_extends m n v m' : insert_named_header m n v = Ok m' -> extends m m'.
Proof.
  unfold insert_named_header. destruct (hn_from_bytes n) eqn:E; [|done].
  apply insert_header_extends. by eapply hn_from_bytes_lower.
Qed.

Lemma insert_optional_named_extends m n v m' :
  insert_optional_named_header m n v = Ok m' -> extends m m'.
Proof. destruct v; cbn; [apply insert_named_extends|]. intros; inv_ok. apply extends_refl. Qed.

Lemma try_fold_extends {B} (f : HeaderMap -> B -> outcome HeaderMap) l m m' :
  (forall m b m', f m b = Ok m' -> extends m m') -> try_fold f l m = Ok m' -> extends m m'.
Proof.
  intros Hf. revert m. induction l as [|b l IH]; intros m Hl; cbn in Hl.
  - inv_ok. apply extends_refl.
  - destruct (f m b) as [m1|] eqn:E; [|done]. eapply extends_trans; [by eapply Hf|by apply IH].
Qed.

Lemma request_headers_ok m m' : request_headers m = Ok m' -> m' = m.
Proof.
  unfold request_headers. generalize PROTECTED_HEADERS as l. induction l as [|n l IH]; cbn; intros E.
  - by inv_ok.
  - destruct (hm_contains m n); [done|]. auto.
Qed.

Lemma request_headers_none m m' k : request_headers m = Ok m' -> k ∈ PROTECTED_HEADERS ->
  hm_get_all m k = [].
Proof.
  unfold request_headers. generalize PROTECTED_HEADERS as l. induction l as [|n l IH]; cbn; intros E Hk.
  - by apply elem_of_nil in Hk.
  - unfold hm_contains, hm_get in E. destruct (head (hm_get_all m n)) eqn:Eh; [done|].
    apply elem_of_cons in Hk as [->|Hk]; [by destruct (hm_get_all m n)|auto].
Qed.

Lemma insert_conditions_extends m c p m' : insert_conditions m c p = Ok m' -> extends m m'.
Proof.
  unfold insert_conditions. intros Hc.
  destruct (insert_optional_named_header m _ _) as [m1|] eqn:E1; [|done].
  destruct (insert_optional_named_header m1 _ _) as [m2|] eqn:E2; [|done].
  eapply extends_trans; [by eapply insert_optional_named_extends|].
  eapply extends_trans; [by eapply insert_optional_named_extends|].
  destruct (Conditions.if_modified_since c) as [t|];
    [destruct (insert_named_header m2 _ _) as [m3|] eqn:E3; [|done];
     eapply extends_trans; [by eapply insert_named_extends|]|];
    (destruct (Conditions.if_unmodified_since c) as [u|];
     [by eapply insert_named_extends|inv_ok; apply extends_refl]).
Qed.

Lemma insert_user_metadata_extends m l m' : insert_user_metadata m l = Ok m' -> extends m m'.
Proof. apply try_fold_extends. intros ? [] ?. apply insert_named_extends. Qed.

Lemma insert_upload_checksum_extends m a b m' : insert_upload_checksum m a b = Ok m' -> extends m m'.
Proof.
  unfold insert_upload_checksum. destruct a as [[]|]; try done; [|intros; inv_ok; apply extends_refl].
  destruct (insert_header m _ _) as [m1|] eqn:E; [|done]. intros E2.
  eapply extends_trans; (eapply insert_header_extends; [|eassumption]; reflexivity).
Qed.

Lemma create_headers_extends r m' : create_headers r = Ok m' ->
  extends (CreateMultipartUploadRequest.headers r) m'.
Proof.
  unfold create_headers. intros Hc. destruct (request_headers _) as [m0|] eqn:E0; [|done].
  apply request_headers_ok in E0 as ->.
  destruct (insert_optional_header _ "content-type" _) as [m1|] eqn:E1; [|done].
  destruct (insert_optional_header m1 _ _) as [m2|] eqn:E2; [|done].
  destruct (insert_optional_header m2 _ _) as [m3|] eqn:E3; [|done].
  apply insert_optional_extends in E1, E2, E3; try reflexivity.
  eapply extends_trans; [exact E1|]. eapply extends_trans; [exact E2|].
  eapply extends_trans; [exact E3|]. eapply try_fold_extends; [|exact Hc].
  intros m [n v] m4. cbn. destruct (is_empty n); [done|].
  destruct (hn_from_bytes _) eqn:E; [|done]. apply insert_header_extends.
  by eapply hn_from_bytes_lower.
Qed.

Lemma insert_checksum_extends m n v l m' : to_ascii_lowercase n = n ->
  insert_checksum m n v l = Ok m' -> extends m m'.
Proof.
  intros Hn. unfold insert_checksum. destruct v; [|intros; inv_ok; apply extends_refl].
  destruct (negb _); [done|]. by apply insert_header_extends.
Qed.

Lemma checksum_headers_extends c m m' : checksum_headers c m = Ok m' -> extends m m'.
Proof.
  unfold checksum_headers. intros Hc. destruct (request_headers m) as [m0|] eqn:E0; [|done].
  apply request_headers_ok in E0 as ->.
  destruct (insert_checksum m _ _ _) as [m1|] eqn:E1; [|done].
  destruct (insert_checksum m1 _ _ _) as [m2|] eqn:E2; [|done].
  destruct (insert_checksum m2 _ _ _) as [m3|] eqn:E3; [|done].
  destruct (insert_checksum m3 _ _ _) as [m4|] eqn:E4; [|done].
  apply insert_checksum_extends in E1, E2, E3, E4, Hc; try reflexivity.
  do 4 (eapply extends_trans; [eassumption|]). exact Hc.
Qed.
End kept.

(** ** Properties *)

(** C11. The digest check accepts exactly base64. For a digest of [n] bytes,
[valid_base64_digest] accepts the base64 of the [n]-byte strings and nothing
else: no other length, no character or padding out of place, and no last
character with bits set that the digest does not have. *)
Theorem valid_base64_digest_exact (value : string) (n : Z) (Hn : 1 <= n) :
  valid_base64_digest value n = true <->
  exists digest, slen digest = n /\ value = base64_reference digest.
Proof. apply (valid_base64_all (Z.to_nat n)). lia. Qed.

Lemma valid_base64_digest_exact_witness :
  valid_base64_digest "AQIDBA==" 4 = true /\
  exists digest, slen digest = 4 /\ "AQIDBA==" = base64_reference digest.
Proof.
  assert (V : valid_base64_digest "AQIDBA==" 4 = true) by (vm_compute; reflexivity).
  split; [exact V|]. apply (valid_base64_digest_exact "AQIDBA==" 4); [lia|exact V].
Defined.
