(* ===== verification/Calls.v ===== *)
(** Service calls: the methods that every operation of [src/client] uses to talk
to S3 ([src/client/request/execute.rs], [response.rs]), over the state that the
operations of a client share. An operation is a function of that state, as a
small state and error monad. *)

From S2P Require Import Prelude Text Errors Canonical SigV4 Endpoint Http Retry Quota Types.
From S2P Require Import Stream Xml Records Protocol Response Credentials Config Request Execute.
From S2P Require Import Headers.
From stdpp Require Import options.
Local Open Scope Z_scope.

(** What one exchange with S3 meets: the clock when the loop over the attempts
begins, and each attempt's circumstances. *)
Record Exchange `{Http} `{HttpUri} `{World} : Type := {
  ex_started : Z;
  ex_attempts : list Attempt
}.

(** What a call meets besides: the clock when its deadline is fixed and whether
preparing its body outlasts it. *)
Record Call `{Http} `{HttpUri} `{World} : Type := {
  call_now : Z;
  body_elapsed : bool;
  exchange : Exchange
}.

(** The shared retry quota, with all the requests handed over and all the
events so far. *)
Record Session `{Http} `{HttpUri} `{World} : Type := {
  shared_quota : RetryQuota;
  wire : list (EndpointUrl * string * Request);
  observed : list RequestEvent.t
}.

(** [None] is a panic or an exchange that is not over. *)
Definition Service `{Http} `{HttpUri} `{World} (A : Type) : Type :=
  Session -> option (Session * outcome A).

Section monad.
Context `{Http} `{HttpUri} `{World}.
Definition fallible {A} (r : outcome A) : Service A := fun s => Some (s, r).
Definition service_bind {A B} (m : Service A) (k : A -> Service B) : Service B := fun s =>
  r ← m s;
  match r with
  | (s, Ok a) => k a s
  | (s, Err e) => Some (s, Err e)
  end.

(** A result that may be a panic. *)
Definition unless_panic {A} (r : option (outcome A)) : Service A := fun s => o ← r; Some (s, o).
End monad.

(** The [?] and [.await?] operators of an operation. *)
Notation "'let!' x ':=' m 'in' k" :=
  (service_bind m (fun x => k)) (at level 10, x pattern, m at level 100, k at level 200) : s3_scope.
Notation "'return!' r" := (fallible r) (at level 10) : s3_scope.

Section calls.
Context `{Http} `{HttpUri} `{World} `{Primitives} `{Documents} `{HttpText}.

(** [self.deadline()]. *)
Definition client_deadline (c : S3Client) (now : Z) : OperationDeadline :=
  OperationDeadline_new now (S3Config.operation_timeout (config c)).

Definition after_exchange (s : Session) (st : Execution) : Session :=
  {| shared_quota := quota st; wire := wire s ++ sent st; observed := observed s ++ events st |}.

Definition call_signed (c : S3Client) (method : string) (target : EndpointUrl)
    (query : list QueryParam) (headers : HeaderMap) (body : option PreparedBody)
    (deadline : OperationDeadline) (x : Exchange) : Service Response := fun s =>
  r ← send_signed c method target query headers body deadline (ex_started x) (ex_attempts x)
        (shared_quota s);
  Some (after_exchange s r.1, r.2).

Definition call_signed_xml (c : S3Client) (method : string) (target : EndpointUrl)
    (query : list QueryParam) (headers : HeaderMap) (body : option PreparedBody)
    (deadline : OperationDeadline) (maximum : Z)
    (embedded_error : string -> Z -> result ProtocolError.t (option ParsedS3Error.t))
    (x : Exchange) : Service CollectedSignedResponse := fun s =>
  r ← send_signed_collected_xml c method target query headers body deadline maximum embedded_error
        (ex_started x) (ex_attempts x) (shared_quota s);
  Some (after_exchange s r.1, r.2).

(** [S3Client::collect_response] and [S3Client::drain_success_response]. *)
Definition call_collect (c : S3Client) (r : Response) (maximum : Z) (deadline : OperationDeadline)
  : Service string := fun s =>
  o ← collect_response (size_upper r) (collect_start r) (frames r) maximum
        (S3Config.idle_body_timeout (config c)) (at_ deadline);
  Some (s, o).

Definition call_drain (c : S3Client) (r : Response) (deadline : OperationDeadline)
  : Service unit := fun s =>
  o ← drain_success_response (size_upper r) (collect_start r) (frames r)
        (S3Config.idle_body_timeout (config c)) (at_ deadline);
  Some (s, o).

(** [map_err(protocol_error)]. *)
Definition parsed {A} (r : result ProtocolError.t A) : outcome A := map_err protocol_error r.
End calls.

(** ** Reasoning about service calls *)

Section predicates.
Set Default Proof Using "Type*".
Context `{Http} `{HttpUri} `{World}.

(** Every request a service call hands over satisfies [P]. *)
Definition sends_only {A} (P : EndpointUrl * string * Request -> Prop) (m : Service A) : Prop :=
  forall s s' o, m s = Some (s', o) -> exists new, wire s' = wire s ++ new /\ Forall P new.

Lemma sends_only_fallible {A} P (r : outcome A) : sends_only P (fallible r).
Proof. intros s s' o [= <- _]. exists []. by rewrite app_nil_r. Qed.

Lemma sends_only_bind {A B} P (m : Service A) (k : A -> Service B) :
  sends_only P m -> (forall a, sends_only P (k a)) -> sends_only P (service_bind m k).
Proof.
  intros Hm Hk s s' o E. unfold service_bind in E. destruct (m s) as [[s1 r]|] eqn:E1; [|done].
  destruct (Hm _ _ _ E1) as (n1 & W1 & F1). cbn in E. destruct r as [a|e].
  - destruct (Hk a _ _ _ E) as (n2 & W2 & F2). exists (n1 ++ n2).
    rewrite W2, W1, app_assoc. split; [done|]. by apply Forall_app.
  - injection E as <- _. by exists n1.
Qed.

Lemma sends_only_fallible_bind {A B} P (r : outcome A) (k : A -> Service B) :
  (forall a, r = Ok a -> sends_only P (k a)) -> sends_only P (service_bind (fallible r) k).
Proof.
  intros Hk s s' o E. unfold service_bind, fallible in E. cbn in E. destruct r as [a|e].
  - by apply (Hk a eq_refl _ _ _ E).
  - injection E as <- _. exists []. by rewrite app_nil_r.
Qed.

Lemma sends_only_weaken {A} (P Q : _ -> Prop) (m : Service A) :
  (forall x, P x -> Q x) -> sends_only P m -> sends_only Q m.
Proof.
  intros Hpq Hm s s' o E. destruct (Hm _ _ _ E) as (n & W & F). exists n. split; [done|].
  by eapply Forall_impl.
Qed.

Lemma sends_only_and {A} (P Q : EndpointUrl * string * Request -> Prop) (m : Service A) :
  sends_only P m -> sends_only Q m -> sends_only (fun x => P x /\ Q x) m.
Proof.
  intros Hp Hq s s' o E. destruct (Hp _ _ _ E) as (new & W & Fp), (Hq _ _ _ E) as (new' & W' & Fq).
  rewrite W in W'. apply app_inv_head in W' as <-. exists new. split; [done|].
  apply Forall_and. done.
Qed.

Lemma sends_only_unless_panic {A} P (r : option (outcome A)) : sends_only P (unless_panic r).
Proof.
  intros s s' o E. destruct r; [|done]. injection E as <- _. exists []. by rewrite app_nil_r.
Qed.

(** A service call that gives a result, with [Q] of what it succeeds with. *)
Definition returns {A} (Q : A -> Prop) (m : Service A) : Prop :=
  forall s, exists s' o, m s = Some (s', o) /\ forall a, o = Ok a -> Q a.

Lemma returns_fallible {A} (Q : A -> Prop) r : (forall a, r = Ok a -> Q a) -> returns Q (fallible r).
Proof. intros Hq s. by exists s, r. Qed.

Lemma returns_unless_panic {A} (r : option (outcome A)) : is_Some r ->
  returns (fun _ => True) (unless_panic r).
Proof. intros [o ->] s. by exists s, o. Qed.

Lemma returns_bind {A B} (Q : A -> Prop) (R : B -> Prop) (m : Service A) (k : A -> Service B) :
  returns Q m -> (forall a, Q a -> returns R (k a)) -> returns R (service_bind m k).
Proof.
  intros Hm Hk s. destruct (Hm s) as (s1 & [a|e] & E & Hq); unfold service_bind; rewrite E; cbn.
  - by apply Hk, Hq.
  - by exists s1, (Err e).
Qed.

Lemma returns_any {A} (r : outcome A) : returns (fun _ => True) (fallible r).
Proof. by apply returns_fallible. Qed.

Lemma returns_pure_bind {A B} (R : B -> Prop) (r : outcome A) (k : A -> Service B) :
  (forall a, returns R (k a)) -> returns R (service_bind (fallible r) k).
Proof. intros Hk. eapply returns_bind; [apply returns_any|auto]. Qed.
End predicates.

Section bodies.
Set Default Proof Using "Type*".
Context `{Http} `{HttpUri} `{World} `{Primitives} `{Documents} `{HttpText}.
Variable c : S3Client.

Lemma sends_only_collect P r maximum deadline : sends_only P (call_collect c r maximum deadline).
Proof.
  intros s s' o E. unfold call_collect in E. destruct (collect_response _ _ _ _ _ _); [|done].
  injection E as <- _. exists []. by rewrite app_nil_r.
Qed.

Lemma sends_only_drain P r deadline : sends_only P (call_drain c r deadline).
Proof.
  intros s s' o E. unfold call_drain in E. destruct (drain_success_response _ _ _ _ _); [|done].
  injection E as <- _. exists []. by rewrite app_nil_r.
Qed.

(** The body of a response arrives or times out, whatever the bound. *)
Definition arrives (deadline : OperationDeadline) (r : Response) : Prop :=
  forall maximum, is_Some (collect_response (size_upper r) (collect_start r) (frames r) maximum
                    (S3Config.idle_body_timeout (config c)) (at_ deadline)).

(** An exchange with as many attempts as may be made, whose bodies arrive. *)
Definition settles (deadline : OperationDeadline) (x : Exchange) : Prop :=
  max_attempts (policy c) <= Z.of_nat (List.length (ex_attempts x)) /\
  Forall (fun env => forall request timeout r,
    http_client env request timeout = Answered r -> arrives deadline r) (ex_attempts x).

Definition call_settles (x : Call) : Prop :=
  settles (client_deadline c (call_now x)) (exchange x).

Lemma returns_collect r maximum deadline : arrives deadline r ->
  returns (fun _ => True) (call_collect c r maximum deadline).
Proof.
  intros Ha s. unfold call_collect. destruct (Ha maximum) as [o ->]. cbn. by do 2 eexists.
Qed.

Lemma returns_drain r deadline : arrives deadline r ->
  returns (fun _ => True) (call_drain c r deadline).
Proof.
  intros Ha s. unfold call_drain, drain_success_response. destruct (Ha DRAIN_MAXIMUM) as [o ->].
  cbn. by do 2 eexists.
Qed.
End bodies.

(** ** Headers that signing and transport leave alone *)

Section kept.
Set Default Proof Using "Type*".
Context `{HttpLaws} `{HttpUri} `{World} `{Primitives}.

Lemma protected_ne k n : k ∉ PROTECTED_HEADERS -> n ∈ PROTECTED_HEADERS -> n <> k.
Proof. intros Hk Hn ->. by apply Hk. Qed.

Lemma set_header_get_ne n v m h h' k : set_header n v m h = Ok h' -> n <> k ->
  hm_get_all h' k = hm_get_all h k.
Proof. intros (w & _ & _ & ->)%set_header_ok Hne. by apply hm_get_all_insert_ne. Qed.

Lemma signed_headers_kept out h h' k : signed_headers out h = Ok h' ->
  k ∉ ["authorization"; "x-amz-date"; "x-amz-security-token"] -> hm_get_all h' k = hm_get_all h k.
Proof.
  intros Hs Hk. rewrite !not_elem_of_cons in Hk. destruct Hk as (Ka & Kd & Kt & _).
  unfold signed_headers in Hs.
  destruct (set_header "authorization" _ _ _) as [ha|] eqn:Ea; [|done].
  destruct (set_header "x-amz-date" _ _ _) as [hd|] eqn:Ed; [|done].
  rewrite <- (set_header_get_ne _ _ _ _ _ k Ea), <- (set_header_get_ne _ _ _ _ _ k Ed) by congruence.
  destruct (security_token out); [|by inv_ok]. eapply set_header_get_ne; [exact Hs|congruence].
Qed.

Lemma with_user_agent_get t rq k : hm_get_all (rq_headers rq) k <> [] ->
  hm_get_all (rq_headers (with_user_agent t rq)) k = hm_get_all (rq_headers rq) k.
Proof.
  intros Hk. cbn. unfold hm_contains, hm_get.
  destruct (head (hm_get_all (rq_headers rq) "user-agent")) eqn:E; [done|].
  apply hm_get_all_insert_ne. intros <-. by destruct (hm_get_all _ _).
Qed.

End kept.

(** ** What the requests of a service call have in common *)

Section requests.
Set Default Proof Using "Type*".
Context `{HttpLaws} `{HttpUri} `{World} `{Primitives} `{Documents} `{HttpText}.
Variable c : S3Client.
Hypothesis Hpolicy : 1 <= max_attempts (policy c) <= U32_MAX.

(** A request for [home], or for [home] at another authority, with the given
method and, apart from the protected ones, the given headers. *)
Definition carries (method : string) (home : EndpointUrl) (h : HeaderMap)
    (x : EndpointUrl * string * Request) : Prop :=
  rq_method x.2 = method /\ rq_uri x.2 = request_uri x.1.1 /\
  scheme x.1.1 = scheme home /\ path_and_query x.1.1 = path_and_query home /\
  forall k, k ∉ PROTECTED_HEADERS -> hm_get_all h k <> [] ->
    hm_get_all (rq_headers x.2) k = hm_get_all h k.

Ltac protected_member := solve [repeat (first [by left | right])].

Lemma signed_headers_get out h h' k : signed_headers out h = Ok h' -> k ∉ PROTECTED_HEADERS ->
  hm_get_all h' k = hm_get_all h k.
Proof.
  intros Hs Hk. eapply signed_headers_kept; [exact Hs|]. intros Hn. apply Hk. revert Hn.
  rewrite !elem_of_cons. unfold PROTECTED_HEADERS. rewrite !elem_of_cons. tauto.
Qed.

Lemma signed_for_carries op x : signed_for c op x ->
  rq_method x.2 = op_method op /\ rq_uri x.2 = request_uri x.1.1 /\
  forall k, k ∉ PROTECTED_HEADERS -> hm_get_all (op_headers op) k <> [] ->
    hm_get_all (rq_headers x.2) k = hm_get_all (op_headers op) k.
Proof.
  intros (m & b & rq & left & Hs & -> & _).
  apply signed_request_ok in Hs as (cr & h & owned & signed & b' & Hh & _ & _ & _ & _ & Hr & _ & E).
  apply (f_equal rq_method) in E as Em. apply (f_equal rq_uri) in E as Eu.
  split; [exact Em|]. split; [exact Eu|]. intros k Hk Hne.
  apply unsigned_headers_ok in Hh as (_ & _ & _ & Hh). cbn [si_headers] in Hh.
  assert (Ek : hm_get_all (rq_headers rq) k = hm_get_all (op_headers op) k).
  { rewrite (signed_headers_get _ _ _ _ Hr Hk).
    apply Hh; apply not_eq_sym, (protected_ne k); try done; protected_member. }
  rewrite with_user_agent_get; [exact Ek|]. by rewrite Ek.
Qed.

(** A request of an operation on [target] with [query]. *)
Definition addressed (method : string) (target : EndpointUrl) (query : list QueryParam)
    (h : HeaderMap) (x : EndpointUrl * string * Request) : Prop :=
  exists home, with_query target (canonical_query query) = Ok home /\ carries method home h x.

Lemma inner_addressed method target query headers body deadline mode started envs q st r :
  send_signed_inner c method target query headers body deadline mode started envs q = Some (st, r) ->
  Forall (addressed method target query headers) (sent st).
Proof.
  unfold send_signed_inner. intros Hrun. destruct (with_query target _) as [home|e] eqn:Ew.
  2:{ by injection Hrun as <- _. }
  set (op := operation method query headers body deadline mode started) in Hrun.
  pose proof (execution_live c op home (S3Config.region (config c)) body q Hpolicy) as Hl.
  apply (attempts_ok c op home (S3Config.region (config c)) Hpolicy) in Hrun as [[_ _ _ Ht Hq] _];
    [|exact Hl].
  eapply Forall_impl; [exact Hq|]. intros x [Hx Hw]. exists home. split; [done|].
  apply signed_for_carries in Hx as (Hm & Hu & Hh). red. split_and!; try done.
  - destruct Hw as [->|[D ->]]; [done|]. rewrite D in Ht. destruct Ht as (a & _ & Ha).
    cbn. by apply with_authority_ok in Ha as [-> _].
  - destruct Hw as [->|[D ->]]; [done|]. rewrite D in Ht. destruct Ht as (a & _ & Ha).
    cbn. by apply with_authority_ok in Ha as [_ ->].
Qed.

Lemma sends_only_signed method target query headers body deadline x :
  sends_only (addressed method target query headers)
    (call_signed c method target query headers body deadline x).
Proof.
  intros s s' o E. unfold call_signed, send_signed in E.
  destruct (send_signed_inner _ _ _ _ _ _ _ _ _ _ _) as [[st r]|] eqn:Ei; [|done].
  apply inner_addressed in Ei. exists (sent st). destruct r as [[]|]; cbn in E; try done;
    by injection E as <- _.
Qed.

Lemma sends_only_signed_xml method target query headers body deadline maximum embedded x :
  sends_only (addressed method target query headers)
    (call_signed_xml c method target query headers body deadline maximum embedded x).
Proof.
  intros s s' o E. unfold call_signed_xml, send_signed_collected_xml in E.
  destruct (send_signed_inner _ _ _ _ _ _ _ _ _ _ _) as [[st r]|] eqn:Ei; [|done].
  apply inner_addressed in Ei. exists (sent st). destruct r as [[]|]; cbn in E; try done;
    by injection E as <- _.
Qed.

(** The caller's own headers, in a request of an operation on a key. *)
Definition for_caller (method : string) (key : option string) (query : list QueryParam)
    (caller : HeaderMap) (x : EndpointUrl * string * Request) : Prop :=
  exists target home, operation_target c key = Ok target /\
    with_query target (canonical_query query) = Ok home /\
    rq_method x.2 = method /\ rq_uri x.2 = request_uri x.1.1 /\
    scheme x.1.1 = scheme home /\ path_and_query x.1.1 = path_and_query home /\
    forall k, hm_get_all caller k <> [] ->
      k ∉ PROTECTED_HEADERS /\ hm_get_all (rq_headers x.2) k = hm_get_all caller k.

Lemma request_headers_free m m' k : request_headers m = Ok m' -> hm_get_all m k <> [] ->
  k ∉ PROTECTED_HEADERS.
Proof. intros Hm Hk Hp. apply Hk. by eapply request_headers_none. Qed.

Lemma for_caller_addressed method key target query h caller caller' x :
  operation_target c key = Ok target -> request_headers caller = Ok caller' -> extends caller h ->
  addressed method target query h x -> for_caller method key query caller x.
Proof.
  intros Ht Hc He (home & Hw & Hm & Hu & Hs & Hp & Hh). exists target, home. split_and!; try done.
  intros k Hk. pose proof (request_headers_free _ _ _ Hc Hk) as Hf. split; [done|].
  destruct He as [He _]. rewrite Hh; [by apply He|done|]. by rewrite He.
Qed.

End requests.

(** ** Service calls that come to an end *)

Section totality.
Set Default Proof Using "Type*".
Context `{Http} `{HttpUri} `{World} `{Primitives} `{Documents} `{HttpText}.
Variable c : S3Client.
Hypothesis Hpolicy : 1 <= max_attempts (policy c) <= U32_MAX.

Lemma inner_result method target query headers body deadline mode x q : settles c deadline x ->
  exists st r,
    send_signed_inner c method target query headers body deadline mode (ex_started x)
      (ex_attempts x) q = Some (st, r) /\
    forall y, r = Ok y ->
      mode_matches (operation method query headers body deadline mode (ex_started x)) y /\
      from_client (ex_attempts x) y.
Proof.
  intros [Hn Hb]. unfold send_signed_inner. destruct (with_query target _) as [home|e]; [|do 2 eexists; done].
  set (op := operation method query headers body deadline mode (ex_started x)).
  pose proof (execution_live c op home (S3Config.region (config c)) body q Hpolicy) as Hl.
  assert (Hb' : Forall (bodies_arrive c op) (ex_attempts x)).
  { eapply Forall_impl; [exact Hb|]. intros env He request timeout r maximum Ha. by eapply He. }
  destruct (attempts_some c op home _ Hpolicy (ex_attempts x) _ Hl Hb') as [[st r] E]; [cbn; lia|].
  exists st, r. split; [exact E|]. intros y ->. split.
  - by apply (attempts_ok c op home (S3Config.region (config c)) Hpolicy) in E as [_ Hm].
  - eapply attempts_from_client; [exact Hpolicy|exact E].
Qed.

Lemma returns_signed method target query headers body deadline x : settles c deadline x ->
  returns (arrives c deadline) (call_signed c method target query headers body deadline x).
Proof.
  intros Hx s. unfold call_signed, send_signed.
  destruct (inner_result method target query headers body deadline Streaming x (shared_quota s) Hx)
    as (st & r & -> & Hr). cbn. destruct r as [y|e]; [|do 2 eexists; done].
  destruct (Hr y eq_refl) as [Hm Hc]. destruct y as [r|r]; [|done].
  do 2 eexists. split; [done|]. intros a [= <-].
  destruct Hc as (env & rq & t & He & Ha). destruct Hx as [_ Hb].
  rewrite Forall_forall in Hb. by eapply Hb.
Qed.

(** What is collected is no embedded error, so [unreachable!] is not reached. *)
Lemma returns_signed_xml method target query headers body deadline maximum embedded x :
  settles c deadline x ->
  returns (fun r => embedded (collected_body r) maximum = Ok None)
    (call_signed_xml c method target query headers body deadline maximum embedded x).
Proof.
  intros Hx s. unfold call_signed_xml, send_signed_collected_xml.
  destruct (inner_result method target query headers body deadline (CollectedXml maximum embedded) x
              (shared_quota s) Hx) as (st & r & -> & Hr).
  cbn. destruct r as [y|e]; [|do 2 eexists; done].
  destruct (Hr y eq_refl) as [Hm Hc]. destruct y as [r|r]; [done|].
  do 2 eexists. split; [done|]. by intros a [= <-].
Qed.
End totality.

(** ** A stand-in for S3 *)

#[local] Existing Instance sample_uri.
#[local] Existing Instance assoc_http.
#[local] Existing Instance assoc_http_laws.
#[local] Existing Instance sample_primitives.
#[local] Existing Instance sample_signing_world.

(** Documents by the body's first characters. *)
Definition service_documents : Documents := {|
  documents_xml := {|
    read_events body := [Ok (Start
      (if String.eqb (str_take 5 body) "parts" then "ListPartsResult"
       else if String.eqb (str_take 4 body) "copy" then "CopyObjectResult"
       else if String.eqb (str_take 4 body) "done" then "CompleteMultipartUploadResult"
       else if String.eqb (str_take 6 body) "create" then "InitiateMultipartUploadResult"
       else if String.eqb (str_take 5 body) "error" then "Error" else "ListBucketResult"))];
    utf8_error _ := "utf-8" |};
  de_error _ := Err "none";
  de_list body :=
    if String.eqb body "page one"
    then Ok (ListBucketDocument.Mk (Some "url") [] [] true (Some "token") None)
    else Ok (ListBucketDocument.Mk (Some "url") [] [] false None None);
  de_delete _ := Err "none";
  de_parts body :=
    if String.eqb body "parts one"
    then Ok (ListPartsDocument.Mk [PartDocument.Mk 2 "a" None 5 Checksum.default] true (Some 2)
               None None)
    else Ok (ListPartsDocument.Mk [PartDocument.Mk 7 "b" None 1 Checksum.default] false None
               None None);
  de_create _ := Ok (CreateDocument.Mk None "k" "upload" None None);
  de_complete _ := Ok (CompleteResultDocument.Mk None None None (Some "e") Checksum.default);
  de_copy _ := Ok (CopyResultDocument.Mk (Some "e") None Checksum.default);
  de_uploads _ := Err "none";
  se_complete parts := ((fun p => to_string (CompletedPartDocument.part_number p)) <$> parts, None);
  se_delete _ := ([], None);
  fmt_error := "fmt";
  parse_rfc3339 _ := Err "time"
|}.
#[local] Existing Instance service_documents.
#[local] Existing Instance sample_text.

Definition sample_frame (f : frame_result) : frame_wait :=
  {| at_operation_check := 0; at_idle_check := 0; frame := f; at_reset := 0 |}.

(** An exchange whose every attempt is answered with the body, in one frame. *)
Definition answering (status : Z) (headers : list (string * string)) (body : string) : Exchange :=
  {| ex_started := 0;
     ex_attempts := replicate 4
       {| at_start := 0; signing := sample_moment; signing_elapsed := false; at_ready := 0;
          http_client := fun _ _ => Answered
            {| status := status; rsp_headers := headers : HeaderMap; size_upper := None;
               collect_start := 0; frames := [sample_frame (FrameData body); sample_frame NoFrame] |};
          wall_clock := 0; at_redirect := 0; at_failure := 0; at_retry := 0;
          fastrand := fun _ => 0; others := fun q => q |} |}.

Lemma answering_settles c deadline status headers body : max_attempts (policy c) <= 4 ->
  settles c deadline (answering status headers body).
Proof.
  intros Hm. split; [exact Hm|]. repeat constructor; intros rq t r [= <-] maximum;
    unfold collect_response; cbn; repeat case_match; by eexists.
Qed.

Definition answered_call (status : Z) (headers : list (string * string)) (body : string) : Call :=
  {| call_now := 0; body_elapsed := false; exchange := answering status headers body |}.

Definition sample_session : Session :=
  {| shared_quota := RetryQuota_new; wire := []; observed := [] |}.

Lemma sample_client_attempts : max_attempts (policy sample_client) <= 4.
Proof. by vm_compute. Qed.
