(* ===== verification/Objects.v ===== *)
(** The object operations ([src/client/object/operations.rs]): put, get, head,
delete, batch delete and copy. Each builds its headers and query, makes one
signed exchange and reads the response. MD5 is the md-5 crate's, a parameter. *)

From S2P Require Import Prelude Text Errors Canonical SigV4 Endpoint Http Retry Quota Types.
From S2P Require Import Stream Download Xml Records Protocol Response Credentials Config Request.
From S2P Require Import Execute Crc Headers Calls.
From stdpp Require Import options.
Local Open Scope Z_scope.

Class Md5 : Type := { md5 : string -> string }.

(** The body and metadata of a download that has begun. *)
Record GetObjectOutput : Type := {
  go_metadata : ObjectMetadata.t;
  go_body : ResponseStream;
  go_content_range : option (Z * Z * option Z)
}.

(** [into_data_stream().map_err(classify_response_body_error)]: [pauses] tells
how many polls find nothing before each frame. *)
Fixpoint data_stream (pauses : nat -> nat) (i : nat) (waits : list frame_wait)
  : list download_item :=
  match waits with
  | [] => []
  | w :: waits =>
      repeat Waiting (pauses i) ++
      match frame w with
      | FrameData bytes => Data bytes :: data_stream pauses (S i) waits
      | FrameError e => [Broken (classify_response_body_error e)]
      | FrameTrailers => data_stream pauses (S i) waits
      | NoFrame | TimedOut => []
      end
  end.

Section objects.
Context `{Http} `{HttpUri} `{World} `{Primitives} `{Documents} `{HttpText} `{Base64} `{Md5}.
Variable c : S3Client.

Definition maximum_xml : Z := S3Config.max_xml_response_size (config c).

Definition put_headers (request : PutObjectRequest.t) (prepared : PreparedBody)
  : outcome HeaderMap :=
  let? headers := request_headers (PutObjectRequest.headers request) in
  let? headers := insert_optional_header headers "content-type"
                    (PutObjectRequest.content_type request) in
  let? headers := insert_conditions headers (PutObjectRequest.conditions request) "" in
  let? headers := insert_user_metadata headers (PutObjectRequest.user_metadata request) in
  insert_upload_checksum headers (PutObjectRequest.checksum_algorithm request) prepared.

Definition put_output (headers : HeaderMap) : outcome PutObjectOutput.t :=
  let? e_tag := response_header headers "etag" in
  let? version_id := response_header headers "x-amz-version-id" in
  let? checksum := parse_checksum headers in
  let? request_ids := parse_request_ids headers in
  Ok (PutObjectOutput.Mk e_tag version_id checksum request_ids).

Definition put_object (request : PutObjectRequest.t) (x : Call) : Service PutObjectOutput.t :=
  let deadline := client_deadline c (call_now x) in
  let! prepared := return! (prepare_body (body_elapsed x) (PutObjectRequest.body request)) in
  let! headers := return! (put_headers request prepared) in
  let! target := return! (operation_target c
                            (Some (ObjectKey.as_str (PutObjectRequest.key request)))) in
  let! response := call_signed c "PUT" target [] headers (Some prepared) deadline (exchange x) in
  let! _ := call_collect c response maximum_xml deadline in
  return! (put_output (rsp_headers response)).

(** [get_object], which fixes its deadline after the headers; [streaming] is the
clock when the stream is made. *)
Definition get_headers (request : GetObjectRequest.t) : outcome HeaderMap :=
  let? headers := request_headers (GetObjectRequest.headers request) in
  let? headers := insert_conditions headers (GetObjectRequest.conditions request) "" in
  let? headers := insert_header headers "x-amz-checksum-mode" "ENABLED" in
  match GetObjectRequest.range request with
  | Some range => insert_header headers "range" (ByteRange.to_header_value range)
  | None => Ok headers
  end.

Definition get_output (response : Response) (deadline : OperationDeadline) (streaming : Z)
    (pauses : nat -> nat) : outcome GetObjectOutput :=
  let headers := rsp_headers response in
  let? metadata := parse_object_metadata headers in
  let? content_range := parse_content_range headers in
  let? sha256 := verified_download_sha256 headers in
  let expected_sha256 := match content_range with None => sha256 | Some _ => None end in
  let? expected_length := transpose (parse_u64_value <$> hm_get headers "content-length") in
  Ok {| go_metadata := metadata;
        go_body := with_deadline streaming (data_stream pauses 0 (frames response))
                     expected_length expected_sha256
                     (S3Config.idle_body_timeout (config c)) (at_ deadline);
        go_content_range := content_range |}.

Definition get_object (request : GetObjectRequest.t) (x : Call) (streaming : Z)
    (pauses : nat -> nat) : Service GetObjectOutput :=
  let! headers := return! (get_headers request) in
  let query := optional_query "versionId" (GetObjectRequest.version_id request) in
  let! target := return! (operation_target c
                            (Some (ObjectKey.as_str (GetObjectRequest.key request)))) in
  let deadline := client_deadline c (call_now x) in
  let! response := call_signed c "GET" target query headers None deadline (exchange x) in
  return! (get_output response deadline streaming pauses).

Definition head_headers (request : HeadObjectRequest.t) : outcome HeaderMap :=
  let? headers := request_headers (HeadObjectRequest.headers request) in
  let? headers := insert_conditions headers (HeadObjectRequest.conditions request) "" in
  insert_header headers "x-amz-checksum-mode" "ENABLED".

Definition head_object (request : HeadObjectRequest.t) (x : Call) : Service ObjectMetadata.t :=
  let! headers := return! (head_headers request) in
  let query := optional_query "versionId" (HeadObjectRequest.version_id request) in
  let! target := return! (operation_target c
                            (Some (ObjectKey.as_str (HeadObjectRequest.key request)))) in
  let deadline := client_deadline c (call_now x) in
  let! response := call_signed c "HEAD" target query headers None deadline (exchange x) in
  let! metadata := return! (parse_object_metadata (rsp_headers response)) in
  let! _ := call_collect c response maximum_xml deadline in
  return! (Ok metadata).

Definition delete_headers (request : DeleteObjectRequest.t) : outcome HeaderMap :=
  let? headers := request_headers (DeleteObjectRequest.headers request) in
  insert_optional_header headers "if-match" (DeleteObjectRequest.if_match request).

Definition delete_output (headers : HeaderMap) : outcome DeleteObjectOutput.t :=
  let? delete_marker := parse_bool_header headers "x-amz-delete-marker" in
  let? version_id := response_header headers "x-amz-version-id" in
  let? request_ids := parse_request_ids headers in
  Ok (DeleteObjectOutput.Mk (default false delete_marker) version_id request_ids).

Definition delete_object (request : DeleteObjectRequest.t) (x : Call)
  : Service DeleteObjectOutput.t :=
  let! headers := return! (delete_headers request) in
  let query := optional_query "versionId" (DeleteObjectRequest.version_id request) in
  let! target := return! (operation_target c
                            (Some (ObjectKey.as_str (DeleteObjectRequest.key request)))) in
  let deadline := client_deadline c (call_now x) in
  let! response := call_signed c "DELETE" target query headers None deadline (exchange x) in
  let! _ := call_collect c response maximum_xml deadline in
  return! (delete_output (rsp_headers response)).

Definition delete_objects_headers (request : DeleteObjectsRequest.t) (xml : string)
  : outcome HeaderMap :=
  let? headers := request_headers (DeleteObjectsRequest.headers request) in
  let? headers := insert_header headers "content-type" "application/xml" in
  insert_header headers "content-md5" (base64_encode (md5 xml)).

Definition delete_objects_output (headers : HeaderMap) (body : string)
  : outcome DeleteObjectsOutput.t :=
  let? output := parsed (parse_delete_objects body maximum_xml) in
  let? request_ids := parse_request_ids headers in
  Ok (DeleteObjectsOutput.Mk (DeleteObjectsOutput.deleted output)
        (DeleteObjectsOutput.errors output) request_ids).

Definition delete_objects (request : DeleteObjectsRequest.t) (x : Call)
  : Service DeleteObjectsOutput.t :=
  let deadline := client_deadline c (call_now x) in
  let! xml := return! (parsed (serialize_delete_objects request maximum_xml)) in
  let! prepared := return! (prepare_body (body_elapsed x) (SourceBytes xml)) in
  let! headers := return! (delete_objects_headers request xml) in
  let! target := return! (operation_target c None) in
  let! response := call_signed c "POST" target [qp "delete" ""] headers (Some prepared) deadline
                     (exchange x) in
  let! body := call_collect c response maximum_xml deadline in
  return! (delete_objects_output (rsp_headers response) body).

Definition copy_embedded_error (body : string) (maximum : Z)
  : result ProtocolError.t (option ParsedS3Error.t) :=
  let? response := parse_copy_object body maximum in
  Ok (match response with CopyComplete _ => None | CopyEmbeddedError error => Some error end).

Definition copy_headers (request : CopyObjectRequest.t) : outcome HeaderMap :=
  let? headers := request_headers (CopyObjectRequest.headers request) in
  let? headers := insert_header headers "x-amz-copy-source"
                    (copy_source_header (CopyObjectRequest.source request)) in
  let? headers := insert_conditions headers (CopyObjectRequest.source_conditions request)
                    "x-amz-copy-source-" in
  match CopyObjectRequest.metadata request with
  | CopyMetadataDirective.Copy => Ok headers
  | CopyMetadataDirective.Replace content_type user_metadata =>
      let? headers := insert_optional_header headers "content-type" content_type in
      let? headers := insert_user_metadata headers user_metadata in
      insert_header headers "x-amz-metadata-directive" "REPLACE"
  end.

(** [None] is the [unreachable!] of an embedded error after the exchange. *)
Definition copy_output (response : CollectedSignedResponse)
  : option (outcome CopyObjectOutput.t) :=
  match parsed (parse_copy_object (collected_body response) maximum_xml) with
  | Err e => Some (Err e)
  | Ok (CopyEmbeddedError _) => None
  | Ok (CopyComplete output) =>
      Some (let headers := collected_headers response in
            let? version_id := response_header headers "x-amz-version-id" in
            let? request_ids := parse_request_ids headers in
            let? checksum := parse_checksum headers in
            Ok (CopyObjectOutput.Mk (CopyObjectOutput.e_tag output)
                  (CopyObjectOutput.last_modified output) version_id
                  (merge_checksum (CopyObjectOutput.checksum output) checksum) request_ids))
  end.

Definition copy_object (request : CopyObjectRequest.t) (x : Call) : Service CopyObjectOutput.t :=
  let! headers := return! (copy_headers request) in
  let! target := return! (operation_target c
                            (Some (ObjectKey.as_str (CopyObjectRequest.destination request)))) in
  let deadline := client_deadline c (call_now x) in
  let! response := call_signed_xml c "PUT" target [] headers None deadline maximum_xml
                     copy_embedded_error (exchange x) in
  unless_panic (copy_output response).
End objects.
