(* ===== verification/Parts.v ===== *)
(** The multipart operations ([src/client/multipart/operations.rs], [copy.rs]
and [query.rs]): creating, uploading a part, completing, aborting and listing,
and how they provide the service calls of a managed upload. *)

From S2P Require Import Prelude Text Errors Canonical SigV4 Endpoint Http Retry Quota Types.
From S2P Require Import Stream Xml Records Protocol Response Credentials Config Request.
From S2P Require Import Execute Crc Multipart Headers Calls.
From stdpp Require Import options.
Local Open Scope Z_scope.

(** ** [query.rs] *)

Definition create_query : list QueryParam := [qp "uploads" ""].

Definition upload_query (upload_id : UploadId.t) : list QueryParam :=
  [qp "uploadId" (UploadId.as_str upload_id)].

Definition upload_part_query (part_number : Z) (upload_id : UploadId.t) : list QueryParam :=
  [qp "partNumber" (to_string part_number); qp "uploadId" (UploadId.as_str upload_id)].

Definition list_parts_query `{Http} (request : ListPartsRequest.t) : list QueryParam :=
  let query := [qp "max-parts" (to_string (PageSize.get (ListPartsRequest.max_parts request)));
                qp "uploadId" (UploadId.as_str (ListPartsRequest.upload_id request))] in
  match ListPartsRequest.part_number_marker request with
  | Some marker => query ++ [qp "part-number-marker" (to_string (PartNumber.get marker))]
  | None => query
  end.

Definition list_query `{Http} (request : ListMultipartUploadsRequest.t)
  : outcome (list QueryParam) :=
  if bool_decide (is_Some (ListMultipartUploadsRequest.upload_id_marker request))
     && bool_decide (ListMultipartUploadsRequest.key_marker request = None)
  then Err (S3Error.configuration "an upload-ID marker requires a key marker")
  else
    let query := push_optional_query create_query "delimiter"
                   (ListMultipartUploadsRequest.delimiter request) in
    let query := push_optional_query query "key-marker"
                   (ListMultipartUploadsRequest.key_marker request) in
    let query := query ++ [qp "max-uploads"
                   (to_string (PageSize.get (ListMultipartUploadsRequest.max_uploads request)))] in
    let query := push_optional_query query "prefix"
                   (ListMultipartUploadsRequest.prefix request) in
    Ok (push_optional_query query "upload-id-marker"
          (UploadId.as_str <$> ListMultipartUploadsRequest.upload_id_marker request)).

Section parts.
Context `{Http} `{HttpUri} `{World} `{Primitives} `{Documents} `{HttpText} `{Base64}.
Variable c : S3Client.

Definition maximum_document : Z := S3Config.max_xml_response_size (config c).

(** ** [operations.rs]; each operation with the deadline it is given *)

Definition create_multipart_upload_with_deadline (request : CreateMultipartUploadRequest.t)
    (deadline : OperationDeadline) (x : Exchange) : Service CreateMultipartUploadOutput.t :=
  let! target := return! (operation_target c
                   (Some (ObjectKey.as_str (CreateMultipartUploadRequest.key request)))) in
  let! headers := return! (create_headers request) in
  let! response := call_signed c "POST" target create_query headers None deadline x in
  let! body := call_collect c response maximum_document deadline in
  return!
    (let? output := parsed (parse_create_multipart_upload body maximum_document) in
     Ok (CreateMultipartUploadOutput.Mk (CreateMultipartUploadOutput.bucket output)
           (CreateMultipartUploadOutput.key output) (CreateMultipartUploadOutput.upload_id output)
           (CreateMultipartUploadOutput.checksum_algorithm output)
           (CreateMultipartUploadOutput.checksum_type output)
           (request_ids (rsp_headers response)))).

Definition create_multipart_upload (request : CreateMultipartUploadRequest.t) (x : Call)
  : Service CreateMultipartUploadOutput.t :=
  create_multipart_upload_with_deadline request (client_deadline c (call_now x)) (exchange x).

Definition upload_part_output (part_number : PartNumber.t) (headers : HeaderMap)
  : outcome UploadPartOutput.t :=
  let? e_tag := required_header headers "etag" "upload-part response has no usable ETag" in
  let? checksum := response_checksums headers in
  Ok (UploadPartOutput.Mk part_number e_tag checksum (request_ids headers)).

Definition upload_part_with_deadline (request : UploadPartRequest.t) (deadline : OperationDeadline)
    (elapsed : bool) (x : Exchange) : Service UploadPartOutput.t :=
  let! target := return! (operation_target c
                   (Some (ObjectKey.as_str (UploadPartRequest.key request)))) in
  let query := upload_part_query (PartNumber.get (UploadPartRequest.part_number request))
                 (UploadPartRequest.upload_id request) in
  let! headers := return! (checksum_headers (UploadPartRequest.checksum request)
                             (UploadPartRequest.headers request)) in
  let! body := return! (prepare_body elapsed (UploadPartRequest.body request)) in
  let! response := call_signed c "PUT" target query headers (Some body) deadline x in
  let! _ := call_drain c response deadline in
  return! (upload_part_output (UploadPartRequest.part_number request) (rsp_headers response)).

Definition upload_part (request : UploadPartRequest.t) (x : Call) : Service UploadPartOutput.t :=
  upload_part_with_deadline request (client_deadline c (call_now x)) (body_elapsed x) (exchange x).

Definition complete_multipart_embedded_error (body : string) (maximum : Z)
  : result ProtocolError.t (option ParsedS3Error.t) :=
  let? response := parse_complete_multipart_upload body maximum in
  Ok (match response with
      | CompleteMultipart _ => None
      | CompleteEmbeddedError error => Some error
      end).

(** [None] is the [unreachable!] of an embedded error after the exchange. *)
Definition complete_output (response : CollectedSignedResponse)
  : option (outcome CompleteMultipartUploadOutput.t) :=
  let headers := collected_headers response in
  match optional_header headers "x-amz-version-id" with
  | Err e => Some (Err e)
  | Ok version_id =>
      match parsed (parse_complete_multipart_upload (collected_body response) maximum_document) with
      | Err e => Some (Err e)
      | Ok (CompleteEmbeddedError _) => None
      | Ok (CompleteMultipart output) =>
          Some (Ok (CompleteMultipartUploadOutput.Mk (CompleteMultipartUploadOutput.location output)
                  (CompleteMultipartUploadOutput.bucket output)
                  (CompleteMultipartUploadOutput.key output)
                  (CompleteMultipartUploadOutput.e_tag output) version_id
                  (CompleteMultipartUploadOutput.checksum output) (request_ids headers)))
      end
  end.

Definition document_headers (headers : HeaderMap) : outcome HeaderMap :=
  let? headers := request_headers headers in
  insert_header headers "content-type" "application/xml".

Definition complete_multipart_upload_with_deadline (request : CompleteMultipartUploadRequest.t)
    (deadline : OperationDeadline) (elapsed : bool) (x : Exchange)
  : Service CompleteMultipartUploadOutput.t :=
  let! target := return! (operation_target c
                   (Some (ObjectKey.as_str (CompleteMultipartUploadRequest.key request)))) in
  let query := upload_query (CompleteMultipartUploadRequest.upload_id request) in
  let! document := return! (parsed (serialize_complete_multipart_upload request maximum_document)) in
  let! body := return! (prepare_body elapsed (SourceBytes document)) in
  let! headers := return! (document_headers (CompleteMultipartUploadRequest.headers request)) in
  let! response := call_signed_xml c "POST" target query headers (Some body) deadline
                     maximum_document complete_multipart_embedded_error x in
  unless_panic (complete_output response).

Definition complete_multipart_upload (request : CompleteMultipartUploadRequest.t) (x : Call)
  : Service CompleteMultipartUploadOutput.t :=
  complete_multipart_upload_with_deadline request (client_deadline c (call_now x)) (body_elapsed x)
    (exchange x).

Definition abort_multipart_upload_with_deadline (request : AbortMultipartUploadRequest.t)
    (deadline : OperationDeadline) (x : Exchange) : Service RequestIds.t :=
  let! target := return! (operation_target c
                   (Some (ObjectKey.as_str (AbortMultipartUploadRequest.key request)))) in
  let query := upload_query (AbortMultipartUploadRequest.upload_id request) in
  let! headers := return! (request_headers (AbortMultipartUploadRequest.headers request)) in
  let! response := call_signed c "DELETE" target query headers None deadline x in
  let! _ := call_drain c response deadline in
  return! (Ok (request_ids (rsp_headers response))).

Definition abort_multipart_upload (request : AbortMultipartUploadRequest.t) (x : Call)
  : Service RequestIds.t :=
  abort_multipart_upload_with_deadline request (client_deadline c (call_now x)) (exchange x).

Definition uploads_output (output : ListMultipartUploadsOutput.t) (ids : RequestIds.t)
  : ListMultipartUploadsOutput.t :=
  ListMultipartUploadsOutput.Mk (ListMultipartUploadsOutput.uploads output)
    (ListMultipartUploadsOutput.common_prefixes output)
    (ListMultipartUploadsOutput.is_truncated output)
    (ListMultipartUploadsOutput.next_key_marker output)
    (ListMultipartUploadsOutput.next_upload_id_marker output) ids.

Definition list_multipart_uploads_with_deadline (request : ListMultipartUploadsRequest.t)
    (deadline : OperationDeadline) (x : Exchange) : Service ListMultipartUploadsOutput.t :=
  let! target := return! (operation_target c None) in
  let! query := return! (list_query request) in
  let! headers := return! (request_headers (ListMultipartUploadsRequest.headers request)) in
  let! response := call_signed c "GET" target query headers None deadline x in
  let! body := call_collect c response maximum_document deadline in
  return!
    (let? output := parsed (parse_list_multipart_uploads body maximum_document) in
     Ok (uploads_output output (request_ids (rsp_headers response)))).

Definition list_multipart_uploads (request : ListMultipartUploadsRequest.t) (x : Call)
  : Service ListMultipartUploadsOutput.t :=
  list_multipart_uploads_with_deadline request (client_deadline c (call_now x)) (exchange x).

(** ** [copy.rs] *)

Definition upload_part_copy_embedded_error (body : string) (maximum : Z)
  : result ProtocolError.t (option ParsedS3Error.t) :=
  let? response := parse_upload_part_copy body maximum in
  Ok (match response with
      | PartCopyComplete _ => None
      | PartCopyEmbeddedError error => Some error
      end).

Definition part_copy_headers (request : UploadPartCopyRequest.t) : outcome HeaderMap :=
  let? headers := request_headers (UploadPartCopyRequest.headers request) in
  let? headers := insert_header headers "x-amz-copy-source"
                    (copy_source_header (UploadPartCopyRequest.source request)) in
  let? headers :=
    match UploadPartCopyRequest.source_range request with
    | Some range =>
        insert_header headers "x-amz-copy-source-range" (CopyPartRange.header_value range)
    | None => Ok headers
    end in
  insert_conditions headers (UploadPartCopyRequest.source_conditions request)
    "x-amz-copy-source-".

Definition part_copy_output (request : UploadPartCopyRequest.t)
    (response : CollectedSignedResponse) : option (outcome UploadPartCopyOutput.t) :=
  match parsed (parse_upload_part_copy (collected_body response) maximum_document) with
  | Err e => Some (Err e)
  | Ok (PartCopyEmbeddedError _) => None
  | Ok (PartCopyComplete result) =>
      Some (Ok (UploadPartCopyOutput.Mk (UploadPartCopyRequest.part_number request)
                  (cp_e_tag result) (cp_last_modified result) (cp_checksum result)
                  (request_ids (collected_headers response))))
  end.

Definition upload_part_copy (request : UploadPartCopyRequest.t) (x : Call)
  : Service UploadPartCopyOutput.t :=
  let! headers := return! (part_copy_headers request) in
  let! target := return! (operation_target c
                   (Some (ObjectKey.as_str (UploadPartCopyRequest.destination request)))) in
  let query := upload_part_query (PartNumber.get (UploadPartCopyRequest.part_number request))
                 (UploadPartCopyRequest.upload_id request) in
  let deadline := client_deadline c (call_now x) in
  let! response := call_signed_xml c "PUT" target query headers None deadline maximum_document
                     upload_part_copy_embedded_error (exchange x) in
  unless_panic (part_copy_output request response).
End parts.

(** ** The service calls of a managed upload

The client's own operations, each at its moment, provide the interface that the
managed upload is written against. *)

Section api.
Set Default Proof Using "Type*".
Context `{Http} `{HttpUri} `{World} `{Primitives} `{Documents} `{HttpText} `{Base64}.

(** When a call is made: the session, the deadline it is given, whether its body
outlasts it, and the exchange. *)
Record Moment : Type := {
  m_session : Session;
  m_deadline : OperationDeadline;
  m_elapsed : bool;
  m_exchange : Exchange
}.

(** The outcome; a call that is not over is one that was dropped. *)
Definition outcome_at {A} (m : Service A) (s : Session) : outcome A :=
  match m s with
  | Some (_, r) => r
  | None => Err Multipart.cancelled
  end.

Definition client_multipart_api (c : S3Client) (creating completing aborting : Moment)
    (uploading : PartNumber.t -> Moment) : MultipartApi := {|
  api_create request :=
    outcome_at (create_multipart_upload_with_deadline c request (m_deadline creating)
                  (m_exchange creating)) (m_session creating);
  api_upload_part request :=
    let m := uploading (UploadPartRequest.part_number request) in
    outcome_at (upload_part_with_deadline c request (m_deadline m) (m_elapsed m) (m_exchange m))
      (m_session m);
  api_complete request :=
    outcome_at (complete_multipart_upload_with_deadline c request (m_deadline completing)
                  (m_elapsed completing) (m_exchange completing)) (m_session completing);
  api_abort request :=
    result_map (fun _ => tt)
      (outcome_at (abort_multipart_upload_with_deadline c request (m_deadline aborting)
                     (m_exchange aborting)) (m_session aborting))
|}.

(** [Q] of whatever a service call succeeds with. *)
Definition yields {A} (Q : A -> Prop) (m : Service A) : Prop :=
  forall s s' a, m s = Some (s', Ok a) -> Q a.

Lemma yields_bind {A B} (Q : B -> Prop) (m : Service A) (k : A -> Service B) :
  (forall a, yields Q (k a)) -> yields Q (service_bind m k).
Proof.
  intros Hk s s' b E. unfold service_bind in E. destruct (m s) as [[s1 [a|e]]|]; [|done..].
  by eapply Hk.
Qed.

Lemma yields_fallible {A} (Q : A -> Prop) r : (forall a, r = Ok a -> Q a) -> yields Q (fallible r).
Proof. intros Hr s s' a [= _ E]. by apply Hr. Qed.

Lemma upload_part_yields c request deadline elapsed x :
  yields (fun out => UploadPartOutput.part_number out = UploadPartRequest.part_number request)
    (upload_part_with_deadline c request deadline elapsed x).
Proof.
  unfold upload_part_with_deadline. repeat (apply yields_bind; intros ?). apply yields_fallible.
  intros out E. unfold upload_part_output in E. destruct (required_header _ _ _); [|done].
  destruct (response_checksums _); [|done]. by injection E as <-.
Qed.

#[export] Instance client_multipart_laws c creating completing aborting uploading :
  @MultipartApiLaws _ (client_multipart_api c creating completing aborting uploading).
Proof.
  split. intros r out E. cbn in E. unfold outcome_at in E.
  destruct (upload_part_with_deadline _ _ _ _ _ _) as [[s' [o|e]]|] eqn:U; [|done..].
  injection E as <-. by apply upload_part_yields in U.
Qed.
End api.
