(* ===== verification/Listing.v ===== *)
(** Listings ([src/client/object/listing.rs] and
[src/client/multipart/listing.rs]): one page of objects, parts or uploads, and
the loops that follow the page tokens under one deadline, which refuse a missing
or repeated token and stop at a page bound. *)

From S2P Require Import Prelude Text Errors Canonical SigV4 Endpoint Http Retry Quota Types.
From S2P Require Import Stream Xml Records Protocol Response Credentials Config Request.
From S2P Require Import Execute Crc Headers Calls Parts.
From stdpp Require Import gmap.
From stdpp Require Import options.
Local Open Scope Z_scope.

(** ** One page *)

Definition page_bound_error : S3Error.t :=
  S3Error.configuration "maximum listing page count must be greater than zero".

Definition validate_page_bound (maximum_pages : Z) : outcome unit :=
  if maximum_pages =? 0 then Err page_bound_error else Ok tt.

Definition page_limit_error (operation : string) : S3Error.t :=
  S3Error.new ErrorCategory.OversizedResponse
    (operation +:+ " exceeded the configured page limit") RetryClassification.Never.

Section pages.
Context `{Http} `{HttpUri} `{World} `{Primitives} `{Documents} `{HttpText} `{Base64}.
Variable c : S3Client.

Definition list_objects_v2_query (request : ListObjectsV2Request.t) : list QueryParam :=
  let query := [qp "list-type" "2";
                qp "max-keys" (to_string (PageSize.get (ListObjectsV2Request.max_keys request)));
                qp "encoding-type" "url"] in
  let query := push_optional_query query "prefix" (ListObjectsV2Request.prefix request) in
  let query := push_optional_query query "delimiter" (ListObjectsV2Request.delimiter request) in
  let query := push_optional_query query "continuation-token"
                 (ListObjectsV2Request.continuation_token request) in
  let query := push_optional_query query "start-after"
                 (ObjectKey.as_str <$> ListObjectsV2Request.start_after request) in
  if ListObjectsV2Request.fetch_owner request then query ++ [qp "fetch-owner" "true"] else query.

Definition objects_output (output : ListObjectsV2Output.t) (ids : RequestIds.t)
  : ListObjectsV2Output.t :=
  ListObjectsV2Output.Mk (ListObjectsV2Output.objects output)
    (ListObjectsV2Output.common_prefixes output) (ListObjectsV2Output.is_truncated output)
    (ListObjectsV2Output.next_continuation_token output) (ListObjectsV2Output.key_count output) ids.

Definition list_objects_v2_with_deadline (request : ListObjectsV2Request.t)
    (deadline : OperationDeadline) (x : Exchange) : Service ListObjectsV2Output.t :=
  let! target := return! (operation_target c None) in
  let! headers := return! (request_headers (ListObjectsV2Request.headers request)) in
  let! response := call_signed c "GET" target (list_objects_v2_query request) headers None deadline x in
  let! body := call_collect c response (maximum_document c) deadline in
  return!
    (let? output := parsed (parse_list_objects_v2 body (maximum_document c)) in
     let? ids := parse_request_ids (rsp_headers response) in
     Ok (objects_output output ids)).

Definition list_objects_v2 (request : ListObjectsV2Request.t) (x : Call)
  : Service ListObjectsV2Output.t :=
  list_objects_v2_with_deadline request (client_deadline c (call_now x)) (exchange x).

Definition parts_output (output : ListPartsOutput.t) (ids : RequestIds.t) : ListPartsOutput.t :=
  ListPartsOutput.Mk (ListPartsOutput.parts output) (ListPartsOutput.is_truncated output)
    (ListPartsOutput.next_part_number_marker output) (ListPartsOutput.checksum_algorithm output)
    (ListPartsOutput.checksum_type output) ids.

Definition list_parts_with_deadline (request : ListPartsRequest.t) (deadline : OperationDeadline)
    (x : Exchange) : Service ListPartsOutput.t :=
  let! target := return! (operation_target c
                   (Some (ObjectKey.as_str (ListPartsRequest.key request)))) in
  let! headers := return! (request_headers (ListPartsRequest.headers request)) in
  let! response := call_signed c "GET" target (list_parts_query request) headers None deadline x in
  let! body := call_collect c response (maximum_document c) deadline in
  return!
    (let? output := parsed (parse_list_parts body (maximum_document c)) in
     Ok (parts_output output (request_ids (rsp_headers response)))).

Definition list_parts (request : ListPartsRequest.t) (x : Call) : Service ListPartsOutput.t :=
  list_parts_with_deadline request (client_deadline c (call_now x)) (exchange x).
End pages.

(** ** Following the pages

The three loops differ in what they fetch and in how a page names the next. *)

Record Pager `{Http} `{HttpUri} `{World} (Req Page Token : Type) `{Countable Token} : Type := {
  fetch : Req -> OperationDeadline -> Exchange -> Service Page;
  first_token : Req -> option Token;
  truncated : Page -> bool;
  next_token : Page -> outcome Token;
  goes_back : Req -> Token -> bool;
  repeated_error : S3Error.t;
  advance_to : Req -> Token -> Req;
  limit_error : S3Error.t
}.
Arguments fetch {_ _ _ _ _ _ _ _}.
Arguments first_token {_ _ _ _ _ _ _ _}.
Arguments truncated {_ _ _ _ _ _ _ _}.
Arguments next_token {_ _ _ _ _ _ _ _}.
Arguments goes_back {_ _ _ _ _ _ _ _}.
Arguments repeated_error {_ _ _ _ _ _ _ _}.
Arguments advance_to {_ _ _ _ _ _ _ _}.
Arguments limit_error {_ _ _ _ _ _ _ _}.

Section paginate.
Context `{Http} `{HttpUri} `{World} {Req Page Token : Type} `{Countable Token}.
Variable p : Pager Req Page Token.

(** The loop [for _ in 0..maximum_pages], with one exchange per page. *)
Fixpoint pages_loop (n : nat) (request : Req) (deadline : OperationDeadline) (xs : list Exchange)
    (seen : gset Token) (pages : list Page) : Service (list Page) :=
  match n with
  | O => return! (Err (limit_error p))
  | S n =>
      match xs with
      | [] => fun _ => None
      | x :: xs =>
          let! page := fetch p request deadline x in
          let pages := pages ++ [page] in
          if negb (truncated p page) then return! (Ok pages)
          else
            let! next := return! (next_token p page) in
            if goes_back p request next || bool_decide (next ∈ seen)
            then return! (Err (repeated_error p))
            else pages_loop n (advance_to p request next) deadline xs ({[next]} ∪ seen) pages
      end
  end.

Definition list_all (request : Req) (maximum_pages : Z) (deadline : OperationDeadline)
    (xs : list Exchange) : Service (list Page) :=
  let! _ := return! (validate_page_bound maximum_pages) in
  pages_loop (Z.to_nat maximum_pages) request deadline xs
    (match first_token p request with Some token => {[token]} | None => ∅ end) [].
End paginate.

Section listings.
Context `{Http} `{HttpUri} `{World} `{Primitives} `{Documents} `{HttpText} `{Base64}.
Variable c : S3Client.

Definition objects_pager : Pager ListObjectsV2Request.t ListObjectsV2Output.t string := {|
  fetch := list_objects_v2_with_deadline c;
  first_token := ListObjectsV2Request.continuation_token;
  truncated := ListObjectsV2Output.is_truncated;
  next_token page := ok_or (ListObjectsV2Output.next_continuation_token page)
    (S3Error.invalid_response "truncated listing response omitted its continuation token");
  goes_back _ _ := false;
  repeated_error := S3Error.invalid_response "listing response repeated a continuation token";
  advance_to request next :=
    ListObjectsV2Request.Mk (ListObjectsV2Request.prefix request)
      (ListObjectsV2Request.delimiter request) (Some next) None
      (ListObjectsV2Request.max_keys request) (ListObjectsV2Request.fetch_owner request)
      (ListObjectsV2Request.headers request);
  limit_error := page_limit_error "listing"
|}.

Definition list_objects_v2_all (request : ListObjectsV2Request.t) (maximum_pages now : Z)
    (xs : list Exchange) : Service (list ListObjectsV2Output.t) :=
  list_all objects_pager request maximum_pages (client_deadline c now) xs.

Definition parts_pager : Pager ListPartsRequest.t ListPartsOutput.t Z := {|
  fetch := list_parts_with_deadline c;
  first_token request := PartNumber.get <$> ListPartsRequest.part_number_marker request;
  truncated := ListPartsOutput.is_truncated;
  next_token page := ok_or (PartNumber.get <$> ListPartsOutput.next_part_number_marker page)
    (S3Error.invalid_response "truncated ListParts response omitted its next marker");
  goes_back request next :=
    match ListPartsRequest.part_number_marker request with
    | Some current => next <=? PartNumber.get current
    | None => false
    end;
  repeated_error := S3Error.invalid_response "ListParts response returned a non-advancing marker";
  advance_to request next :=
    ListPartsRequest.Mk (ListPartsRequest.key request) (ListPartsRequest.upload_id request)
      (Some (PartNumber.Mk next)) (ListPartsRequest.max_parts request)
      (ListPartsRequest.headers request);
  limit_error := page_limit_error "ListParts"
|}.

Definition list_parts_all (request : ListPartsRequest.t) (maximum_pages now : Z)
    (xs : list Exchange) : Service (list ListPartsOutput.t) :=
  list_all parts_pager request maximum_pages (client_deadline c now) xs.

(** The markers of an upload listing: a key and an upload identifier. *)
Definition uploads_pager
  : Pager ListMultipartUploadsRequest.t ListMultipartUploadsOutput.t (string * option string) := {|
  fetch := list_multipart_uploads_with_deadline c;
  first_token request :=
    (fun key => (key, UploadId.as_str <$> ListMultipartUploadsRequest.upload_id_marker request))
      <$> ListMultipartUploadsRequest.key_marker request;
  truncated := ListMultipartUploadsOutput.is_truncated;
  next_token page :=
    let? next_key := ok_or (ListMultipartUploadsOutput.next_key_marker page)
      (S3Error.invalid_response "truncated multipart-upload listing omitted its next key marker") in
    Ok (next_key, UploadId.as_str <$> ListMultipartUploadsOutput.next_upload_id_marker page);
  goes_back _ _ := false;
  repeated_error :=
    S3Error.invalid_response "multipart-upload listing repeated its pagination markers";
  advance_to request next :=
    ListMultipartUploadsRequest.Mk (ListMultipartUploadsRequest.prefix request)
      (ListMultipartUploadsRequest.delimiter request) (Some next.1) (UploadId.Mk <$> next.2)
      (ListMultipartUploadsRequest.max_uploads request)
      (ListMultipartUploadsRequest.headers request);
  limit_error := page_limit_error "multipart-upload listing"
|}.

Definition list_multipart_uploads_all (request : ListMultipartUploadsRequest.t)
    (maximum_pages now : Z) (xs : list Exchange) : Service (list ListMultipartUploadsOutput.t) :=
  list_all uploads_pager request maximum_pages (client_deadline c now) xs.
End listings.

(** ** What a whole listing is

Told without the loop: [get] fetches a page with one exchange, [more] and
[token_of] read it, and [continues] says of the request for a page that it goes on
from a token; [backward] tokens are refused, and so are those of [first] and those
already followed. *)

Section outcomes.
Context `{Http} `{HttpUri} `{World} {Req Page Token : Type}.
Variables (get : Req -> Exchange -> Service Page) (more : Page -> bool)
  (token_of : Page -> option Token) (continues : Req -> Token -> Req -> Prop)
  (backward : Req -> Token -> Prop).

(** The truncated pages that were followed, each fetched in the session the one
before left and by the request that goes on from its token. *)
Inductive followed : Req -> list Exchange -> Session -> list Page -> list Token ->
    Req -> list Exchange -> Session -> Prop :=
| followed_none request xs s : followed request xs s [] [] request xs s
| followed_page request x xs s s1 page token next pages tokens last xs' s' :
    get request x s = Some (s1, Ok page) -> more page = true -> token_of page = Some token ->
    continues request token next -> followed next xs s1 pages tokens last xs' s' ->
    followed request (x :: xs) s (page :: pages) (token :: tokens) last xs' s'.

Record listing_errors : Type := {
  at_limit : S3Error.t; on_repetition : S3Error.t; on_missing : S3Error.t
}.
Variable errors : listing_errors.

(** How a listing of at most [n] more pages ends. *)
Definition listing_ends (n : nat) (first : list Token) (request : Req) (xs : list Exchange)
    (s s' : Session) (r : outcome (list Page)) : Prop :=
  match r with
  | Ok pages => exists front final tokens last x xs' s1,
      pages = front ++ [final] /\ (List.length front < n)%nat /\ NoDup (first ++ tokens) /\
      followed request xs s front tokens last (x :: xs') s1 /\
      get last x s1 = Some (s', Ok final) /\ more final = false
  | Err e => exists front tokens last xs' s1,
      NoDup (first ++ tokens) /\ followed request xs s front tokens last xs' s1 /\
      ((List.length front = n /\ s' = s1 /\ e = at_limit errors) \/
       (List.length front < n)%nat /\ exists x xs'', xs' = x :: xs'' /\
         (get last x s1 = Some (s', Err e) \/
          exists page, get last x s1 = Some (s', Ok page) /\ more page = true /\
            match token_of page with
            | None => e = on_missing errors
            | Some token =>
                (token ∈ first ++ tokens \/ backward last token) /\ e = on_repetition errors
            end))
  end.

Definition listing_outcome (maximum_pages : Z) (first : option Token) (request : Req)
    (xs : list Exchange) (s s' : Session) (r : outcome (list Page)) : Prop :=
  if maximum_pages =? 0
  then s' = s /\
       r = Err (S3Error.configuration "maximum listing page count must be greater than zero")
  else listing_ends (Z.to_nat maximum_pages) (option_list first) request xs s s' r.

Lemma listing_ends_page n first request x xs s s1 page token next s' r :
  get request x s = Some (s1, Ok page) -> more page = true -> token_of page = Some token ->
  continues request token next -> listing_ends n (first ++ [token]) next xs s1 s' r ->
  listing_ends (S n) first request (x :: xs) s s'
    (match r with Ok pages => Ok (page :: pages) | Err e => Err e end).
Proof.
  intros Hg Hm Ht Hc. destruct r as [pages|e]; cbn [listing_ends].
  - intros (front & final & tokens & last & x' & xs' & s2 & -> & Hl & Hd & Hf & Hlast).
    exists (page :: front), final, (token :: tokens), last, x', xs', s2.
    rewrite <- app_assoc in Hd. split_and!; [done|cbn; lia|exact Hd| |apply Hlast..].
    by eapply followed_page.
  - intros (front & tokens & last & xs' & s2 & Hd & Hf & He).
    exists (page :: front), (token :: tokens), last, xs', s2. rewrite <- app_assoc in Hd, He.
    split_and!; [exact Hd|by eapply followed_page|]. cbn [List.length app] in *.
    destruct He as [(<- & He)|(Hl & He)]; [by left|right; split; [lia|exact He]].
Qed.
End outcomes.

(** ** Lemmas *)

Section chains.
Set Default Proof Using "Type*".
Context `{Http} `{HttpUri} `{World} `{Primitives} `{Documents} `{HttpText}.
Context {Req Page Token : Type} `{Countable Token}.
Variables (p : Pager Req Page Token) (deadline : OperationDeadline).

Section loop.
Variables (token_of : Page -> option Token) (continues : Req -> Token -> Req -> Prop)
  (backward : Req -> Token -> Prop) (missing : S3Error.t).
Hypotheses
  (Hnext : forall page, next_token p page = ok_or (token_of page) missing)
  (Hgoes : forall request token, goes_back p request token = true -> backward request token)
  (Hadvance : forall request token, goes_back p request token = false ->
     continues request token (advance_to p request token)).

Notation ends := (listing_ends (fun request => fetch p request deadline) (truncated p) token_of
  continues backward {| at_limit := limit_error p; on_repetition := repeated_error p;
                        on_missing := missing |}).

Lemma pages_loop_ends n first request xs (seen : gset Token) pages s s' r : NoDup first ->
  (forall t, t ∈ seen <-> t ∈ first) ->
  pages_loop p n request deadline xs seen pages s = Some (s', r) ->
  exists r', ends n first request xs s s' r' /\
    r = match r' with Ok new => Ok (pages ++ new) | Err e => Err e end.
Proof using Hnext Hgoes Hadvance.
  revert first request xs seen pages s. induction n as [|n IH];
    intros first request xs seen pages s Hd Hs Hl.
  { injection Hl as <- <-. exists (Err (limit_error p)). split; [|done].
    exists [], [], request, xs, s. rewrite app_nil_r. split_and!; [done|constructor|by left]. }
  destruct xs as [|x xs]; [done|]. cbn [pages_loop] in Hl. unfold service_bind at 1 in Hl.
  destruct (fetch p request deadline x s) as [[s1 [page|e]]|] eqn:Ef; cbn in Hl; [| |done].
  2:{ injection Hl as <- <-. exists (Err e). split; [|done].
      exists [], [], request, (x :: xs), s. rewrite app_nil_r. split_and!; [done|constructor|].
      right. split; [cbn; lia|]. exists x, xs. by split; [|left]. }
  destruct (truncated p page) eqn:Et; cbn [negb] in Hl.
  2:{ injection Hl as <- <-. exists (Ok [page]). split; [|done].
      exists [], page, [], request, x, xs, s. rewrite app_nil_r.
      split_and!; [done|cbn; lia|done|constructor|done..]. }
  unfold service_bind, fallible in Hl. cbn in Hl. rewrite Hnext in Hl.
  assert (Hstop : forall e, s1 = s' -> r = Err e ->
      (match token_of page with
       | None => e = missing
       | Some token => (token ∈ first \/ backward request token) /\ e = repeated_error p end) ->
      exists r', ends (S n) first request (x :: xs) s s' r' /\
        r = match r' with Ok new => Ok (pages ++ new) | Err e => Err e end).
  { intros e <- -> He. exists (Err e). split; [|done].
    exists [], [], request, (x :: xs), s. rewrite app_nil_r. split_and!; [done|constructor|].
    right. split; [cbn; lia|]. exists x, xs. split; [done|]. right. by exists page. }
  destruct (token_of page) as [token|] eqn:Ek; cbn [ok_or] in Hl.
  2:{ injection Hl as <- <-. by apply (Hstop missing). }
  destruct (goes_back p request token) eqn:Eg; cbn [orb] in Hl.
  { injection Hl as <- <-. apply (Hstop (repeated_error p)); [done..|].
    split; [right; by apply Hgoes|done]. }
  case_bool_decide as Es.
  { injection Hl as <- <-. apply (Hstop (repeated_error p)); [done..|].
    split; [left; by apply Hs|done]. }
  clear Hstop. apply (IH (first ++ [token])) in Hl as (r' & He & ->).
  - eexists. split; [eapply listing_ends_page; try done; by apply Hadvance|].
    destruct r'; [by rewrite <- app_assoc|done].
  - apply NoDup_app. split_and!; [done| |by apply NoDup_singleton].
    intros t Ht Ht'. apply list_elem_of_singleton in Ht' as ->. by apply Es, Hs.
  - intros t. rewrite elem_of_union, elem_of_singleton, elem_of_app, list_elem_of_singleton, Hs. tauto.
Qed.

Lemma list_all_outcome request maximum xs s s' r :
  list_all p request maximum deadline xs s = Some (s', r) ->
  listing_outcome (fun request => fetch p request deadline) (truncated p) token_of
    continues backward {| at_limit := limit_error p; on_repetition := repeated_error p;
                          on_missing := missing |}
    maximum (first_token p request) request xs s s' r.
Proof using Hnext Hgoes Hadvance.
  unfold list_all, listing_outcome, service_bind, fallible, validate_page_bound.
  destruct (Z.eqb_spec maximum 0) as [->|]; cbn [mbind option_bind]; [by intros [= <- <-]|].
  intros Hl. apply (pages_loop_ends _ (option_list (first_token p request))) in Hl as (r' & He & ->).
  - by destruct r'.
  - destruct (first_token p request); cbn; [apply NoDup_singleton|apply NoDup_nil_2].
  - intros t. destruct (first_token p request); cbn; set_solver.
Qed.
End loop.

Variable c : S3Client.
Hypothesis fetch_returns : forall request x, settles c deadline x ->
  returns (fun _ => True) (fetch p request deadline x).

Lemma list_all_returns request maximum xs : Forall (settles c deadline) xs ->
  maximum <= Z.of_nat (List.length xs) ->
  returns (fun _ => True) (list_all p request maximum deadline xs).
Proof.
  intros Hx Hn. apply returns_pure_bind. intros _. 
  assert (Hm : (Z.to_nat maximum <= List.length xs)%nat) by lia. clear Hn.
  match goal with |- returns _ (pages_loop _ _ _ _ _ ?seen ?pages) =>
    generalize pages as pages0; generalize seen as seen0 end. revert request xs Hx Hm.
  induction (Z.to_nat maximum) as [|n IH]; intros request xs Hx Hm seen pages; [apply returns_any|].
  destruct xs as [|x xs]; [cbn in Hm; lia|]. inversion_clear Hx as [|? ? Hx1 Hx2]. cbn [pages_loop].
  eapply returns_bind; [by apply fetch_returns|]. intros page _.
  destruct (negb (truncated p page)); [apply returns_any|].
  apply returns_pure_bind. intros next. destruct (_ || _); [apply returns_any|].
  apply IH; [done|]. cbn in Hm. lia.
Qed.
End chains.

(** ** The pages of this client *)

Section fetches.
Set Default Proof Using "Type*".
Context `{Http} `{HttpUri} `{World} `{Primitives} `{Documents} `{HttpText} `{Base64}.
Variable c : S3Client.
Hypothesis Hpolicy : 1 <= max_attempts (policy c) <= U32_MAX.

(** One signed exchange whose body is collected and parsed. *)
Lemma page_returns {A} method target query headers body deadline x maximum
  (parse : Response -> string -> outcome A) : settles c deadline x ->
  returns (fun _ => True)
    (let! response := call_signed c method target query headers body deadline x in
     let! b := call_collect c response maximum deadline in
     return! (parse response b)).
Proof.
  intros Hx. eapply returns_bind; [by apply returns_signed|]. intros r Hr.
  eapply returns_bind; [by apply returns_collect|]. intros b _. apply returns_any.
Qed.

Lemma list_objects_page_returns request deadline x : settles c deadline x ->
  returns (fun _ => True) (list_objects_v2_with_deadline c request deadline x).
Proof.
  intros Hx. do 2 (apply returns_pure_bind; intros ?).
  by apply (page_returns _ _ _ _ _ _ _ _ (fun response body => _)).
Qed.

Lemma list_parts_page_returns request deadline x : settles c deadline x ->
  returns (fun _ => True) (list_parts_with_deadline c request deadline x).
Proof.
  intros Hx. do 2 (apply returns_pure_bind; intros ?).
  by apply (page_returns _ _ _ _ _ _ _ _ (fun response body => _)).
Qed.

Lemma list_uploads_page_returns request deadline x : settles c deadline x ->
  returns (fun _ => True) (list_multipart_uploads_with_deadline c request deadline x).
Proof.
  intros Hx. do 3 (apply returns_pure_bind; intros ?).
  by apply (page_returns _ _ _ _ _ _ _ _ (fun response body => _)).
Qed.

End fetches.

(** ** The requests that go on from a token *)

Section continuations.
Context `{Http}.

(** The continuation token, and no start key: the rest is the request's. *)
Definition continues_objects (request : ListObjectsV2Request.t) (token : string)
    (next : ListObjectsV2Request.t) : Prop :=
  qp "continuation-token" token ∈ list_objects_v2_query next /\
  ListObjectsV2Request.continuation_token next = Some token /\
  ListObjectsV2Request.start_after next = None /\
  ListObjectsV2Request.prefix next = ListObjectsV2Request.prefix request /\
  ListObjectsV2Request.delimiter next = ListObjectsV2Request.delimiter request /\
  ListObjectsV2Request.max_keys next = ListObjectsV2Request.max_keys request /\
  ListObjectsV2Request.fetch_owner next = ListObjectsV2Request.fetch_owner request /\
  ListObjectsV2Request.headers next = ListObjectsV2Request.headers request.

(** The marker, which lies after the one of the request. *)
Definition continues_parts (request : ListPartsRequest.t) (marker : Z)
    (next : ListPartsRequest.t) : Prop :=
  qp "part-number-marker" (to_string marker) ∈ list_parts_query next /\
  ListPartsRequest.part_number_marker next = Some (PartNumber.Mk marker) /\
  (forall before, ListPartsRequest.part_number_marker request = Some before ->
     PartNumber.get before < marker) /\
  ListPartsRequest.key next = ListPartsRequest.key request /\
  ListPartsRequest.upload_id next = ListPartsRequest.upload_id request /\
  ListPartsRequest.max_parts next = ListPartsRequest.max_parts request /\
  ListPartsRequest.headers next = ListPartsRequest.headers request.
End continuations.

Lemma advance_objects `{Http} `{HttpUri} `{World} `{Primitives} `{Documents} `{HttpText}
  (c : S3Client) request token :
  continues_objects request token (advance_to (objects_pager c) request token).
Proof.
  split; [|done]. unfold list_objects_v2_query, push_optional_query.
  assert (Ht : forall q, qp "continuation-token" token ∈ q ++ [qp "continuation-token" token])
    by (intros q; apply elem_of_app; right; by constructor).
  cbn [objects_pager advance_to ListObjectsV2Request.continuation_token
       ListObjectsV2Request.start_after fmap option_fmap option_map].
  case_match; [|apply Ht]. apply elem_of_app. left. apply Ht.
Qed.

Lemma advance_parts `{Http} `{HttpUri} `{World} `{Primitives} `{Documents} `{HttpText}
  (c : S3Client) request marker : goes_back (parts_pager c) request marker = false ->
  continues_parts request marker (advance_to (parts_pager c) request marker).
Proof.
  intros Hg. split_and!; try done.
  - unfold list_parts_query. cbn. rewrite !elem_of_cons. auto.
  - intros before E. cbn in Hg. rewrite E in Hg. lia.
Qed.

(** ** Properties *)

(** C16. A whole object listing is its pages, followed to the end. With the
exchanges of [maximum_pages] pages that settle, [list_objects_v2_all] gives a
result. Its pages, at most [maximum_pages] of them, are those fetched one after
the other, each by the request that sends the continuation token of the page
before and is otherwise the caller's; all but the last are truncated, the last is
not, and no token is followed twice. An error is the zero bound; the page limit,
after that many truncated pages; the failure of the next page's own fetch; or an
invalid response, when a truncated page has no token, or one followed before. *)
Theorem list_objects_v2_all_pages `{Http} `{HttpUri} `{World} `{Primitives} `{Documents}
  `{HttpText} (c : S3Client) (request : ListObjectsV2Request.t) (maximum_pages now : Z)
  (xs : list Exchange) (s : Session) (deadline := client_deadline c now)
  (Hpolicy : 1 <= max_attempts (policy c) <= U32_MAX)
  (Hpages : 0 <= maximum_pages <= Z.of_nat (List.length xs))
  (Hsettle : Forall (settles c deadline) xs) :
  exists s' r, list_objects_v2_all c request maximum_pages now xs s = Some (s', r) /\
    listing_outcome (fun request => list_objects_v2_with_deadline c request deadline)
      ListObjectsV2Output.is_truncated ListObjectsV2Output.next_continuation_token
      continues_objects (fun _ _ => False)
      {| at_limit := S3Error.new ErrorCategory.OversizedResponse
           "listing exceeded the configured page limit" RetryClassification.Never;
         on_repetition :=
           S3Error.invalid_response "listing response repeated a continuation token";
         on_missing := S3Error.invalid_response
           "truncated listing response omitted its continuation token" |}
      maximum_pages (ListObjectsV2Request.continuation_token request) request xs s s' r.
Proof.
  destruct (list_all_returns (objects_pager c) deadline c
    (fun request x => list_objects_page_returns c Hpolicy request deadline x)
    request maximum_pages xs Hsettle ltac:(lia) s) as (s' & r & E & _).
  exists s', r. split; [exact E|].
  apply (list_all_outcome (objects_pager c) deadline ListObjectsV2Output.next_continuation_token
    continues_objects (fun _ _ => False) (S3Error.invalid_response
           "truncated listing response omitted its continuation token")) in E; [exact E|done..|].
  intros. apply advance_objects.
Qed.

(** C33. A whole part listing is its pages, followed forwards. With the exchanges of
[maximum_pages] pages that settle, [list_parts_all] gives a result. Its pages, at
most [maximum_pages] of them, are those fetched one after the other, each by the
request that sends the marker of the page before, strictly above the marker of
that page's own request; all but the last are truncated. An error is the zero
bound; the page limit, after that many truncated pages; the failure of the next
page's own fetch; or an invalid response, when a truncated page has no marker, or
one that was followed before or does not advance. *)
Theorem list_parts_all_ascending `{Http} `{HttpUri} `{World} `{Primitives} `{Documents}
  `{HttpText} (c : S3Client) (request : ListPartsRequest.t) (maximum_pages now : Z)
  (xs : list Exchange) (s : Session) (deadline := client_deadline c now)
  (Hpolicy : 1 <= max_attempts (policy c) <= U32_MAX)
  (Hpages : 0 <= maximum_pages <= Z.of_nat (List.length xs))
  (Hsettle : Forall (settles c deadline) xs) :
  exists s' r, list_parts_all c request maximum_pages now xs s = Some (s', r) /\
    listing_outcome (fun request => list_parts_with_deadline c request deadline)
      ListPartsOutput.is_truncated
      (fun page => PartNumber.get <$> ListPartsOutput.next_part_number_marker page)
      continues_parts
      (fun request marker => exists before,
         ListPartsRequest.part_number_marker request = Some before /\
         marker <= PartNumber.get before)
      {| at_limit := S3Error.new ErrorCategory.OversizedResponse
           "ListParts exceeded the configured page limit" RetryClassification.Never;
         on_repetition :=
           S3Error.invalid_response "ListParts response returned a non-advancing marker";
         on_missing := S3Error.invalid_response
           "truncated ListParts response omitted its next marker" |}
      maximum_pages (PartNumber.get <$> ListPartsRequest.part_number_marker request)
      request xs s s' r.
Proof.
  destruct (list_all_returns (parts_pager c) deadline c
    (fun request x => list_parts_page_returns c Hpolicy request deadline x)
    request maximum_pages xs Hsettle ltac:(lia) s) as (s' & r & E & _).
  exists s', r. split; [exact E|].
  apply (list_all_outcome (parts_pager c) deadline
    (fun page => PartNumber.get <$> ListPartsOutput.next_part_number_marker page) continues_parts
    (fun request marker => exists before,
       ListPartsRequest.part_number_marker request = Some before /\ marker <= PartNumber.get before)
    (S3Error.invalid_response "truncated ListParts response omitted its next marker")) in E;
    [exact E|done| |].
  - intros req token Hg. cbn in Hg. destruct (ListPartsRequest.part_number_marker req) as [m|]; [|done].
    exists m. split; [done|lia].
  - intros. by apply advance_parts.
Qed.

#[local] Existing Instance sample_uri.
#[local] Existing Instance assoc_http.
#[local] Existing Instance sample_primitives.
#[local] Existing Instance sample_signing_world.
#[local] Existing Instance service_documents.
#[local] Existing Instance sample_text.

#[local] Notation objects_exchanges :=
  [answering 200 [] "page one"; answering 200 [] "page two"; answering 200 [] "page three"].
#[local] Notation objects_run :=
  (list_objects_v2_all sample_client ListObjectsV2Request.default 3 0 objects_exchanges
     sample_session).

Lemma list_objects_v2_all_pages_witness :
  match objects_run with
  | Some (_, Ok pages) => List.length pages = 2%nat /\
      exists front final tokens last x xs s1, pages = front ++ [final] /\ NoDup tokens /\
        followed (fun request => list_objects_v2_with_deadline sample_client request
                                   (client_deadline sample_client 0))
          ListObjectsV2Output.is_truncated ListObjectsV2Output.next_continuation_token
          continues_objects ListObjectsV2Request.default objects_exchanges sample_session
          front tokens last (x :: xs) s1
  | _ => False
  end.
Proof.
  destruct (list_objects_v2_all_pages sample_client ListObjectsV2Request.default 3 0
    objects_exchanges sample_session sample_policy) as (s' & r & E & Hr).
  - by vm_compute.
  - do 3 (constructor; [apply answering_settles, sample_client_attempts|]). constructor.
  - assert (Hl : match objects_run with
                 | Some (_, Ok pages) => (List.length pages =? 2)%nat | _ => false end = true)
      by (vm_compute; reflexivity).
    rewrite E in Hl |- *. destruct r as [pages|e]; [|discriminate Hl].
    split; [apply Nat.eqb_eq; exact Hl|].
    destruct Hr as (front & final & tokens & last & x & xs & s1 & Hp & _ & Hd & Hf & _).
    exists front, final, tokens, last, x, xs, s1. exact (conj Hp (conj Hd Hf)).
Defined.

#[local] Notation sample_parts_request :=
  (ListPartsRequest.new (ObjectKey.Mk "k") (UploadId.Mk "upload")).
#[local] Notation parts_exchanges := [answering 200 [] "parts one"; answering 200 [] "parts two"].
#[local] Notation parts_run :=
  (list_parts_all sample_client sample_parts_request 2 0 parts_exchanges sample_session).

Lemma list_parts_all_ascending_witness :
  match parts_run with
  | Some (_, Ok pages) => List.length pages = 2%nat /\
      exists front final markers last x xs s1, pages = front ++ [final] /\ NoDup markers /\
        followed (fun request => list_parts_with_deadline sample_client request
                                   (client_deadline sample_client 0))
          ListPartsOutput.is_truncated
          (fun page => PartNumber.get <$> ListPartsOutput.next_part_number_marker page)
          continues_parts sample_parts_request parts_exchanges sample_session
          front markers last (x :: xs) s1
  | _ => False
  end.
Proof.
  destruct (list_parts_all_ascending sample_client sample_parts_request 2 0
    parts_exchanges sample_session sample_policy) as (s' & r & E & Hr).
  - by vm_compute.
  - do 2 (constructor; [apply answering_settles, sample_client_attempts|]). constructor.
  - assert (Hl : match parts_run with
                 | Some (_, Ok pages) => (List.length pages =? 2)%nat | _ => false end = true)
      by (vm_compute; reflexivity).
    rewrite E in Hl |- *. destruct r as [pages|e]; [|discriminate Hl].
    split; [apply Nat.eqb_eq; exact Hl|].
    destruct Hr as (front & final & markers & last & x & xs & s1 & Hp & _ & Hd & Hf & _).
    exists front, final, markers, last, x, xs, s1. exact (conj Hp (conj Hd Hf)).
Defined.
