(* ===== verification/Operations.v ===== *)
(** What the operations of a client have in common: the requests they hand over
and that they come to an end. *)

From S2P Require Import Prelude Text Errors Canonical SigV4 Endpoint Http Retry Quota Types.
From S2P Require Import Stream Download Xml Records Protocol Response Credentials Config Request.
From S2P Require Import Execute Crc Multipart Headers Calls Objects Parts Listing.
From stdpp Require Import options.
Local Open Scope Z_scope.

(** ** The headers the operations build *)

Section built.
Set Default Proof Using "Type*".
Context `{HttpLaws} `{Primitives} `{Base64} `{HttpText}.

(** Headers made from the caller's, which name no protected header. *)
Definition built (caller h : HeaderMap) : Prop :=
  (exists m, request_headers caller = Ok m) /\ extends caller h.

Lemma built_start caller m : request_headers caller = Ok m -> built caller m.
Proof. intros E. split; [by exists m|]. apply request_headers_ok in E as ->. apply extends_refl. Qed.

Lemma built_step caller m m' : extends m m' -> built caller m -> built caller m'.
Proof. intros E [Hr He]. split; [done|]. by eapply extends_trans. Qed.

Lemma built_insert_header caller m n v m' : insert_header m n v = Ok m' ->
  to_ascii_lowercase n = n -> built caller m -> built caller m'.
Proof. intros E Hn. eapply built_step, insert_header_extends, E. exact Hn. Qed.
Lemma built_insert_optional caller m n v m' : insert_optional_header m n v = Ok m' ->
  to_ascii_lowercase n = n -> built caller m -> built caller m'.
Proof. intros E Hn. eapply built_step, insert_optional_extends, E. exact Hn. Qed.
Lemma built_insert_conditions caller m cond p m' :
  insert_conditions m cond p = Ok m' -> built caller m -> built caller m'.
Proof. intros E. eapply built_step, insert_conditions_extends, E. Qed.
Lemma built_insert_metadata caller m l m' :
  insert_user_metadata m l = Ok m' -> built caller m -> built caller m'.
Proof. intros E. eapply built_step, insert_user_metadata_extends, E. Qed.
Lemma built_insert_upload_checksum caller m a b m' :
  insert_upload_checksum m a b = Ok m' -> built caller m -> built caller m'.
Proof. intros E. eapply built_step, insert_upload_checksum_extends, E. Qed.

Create HintDb headers.
#[local] Hint Resolve built_start built_insert_header built_insert_optional built_insert_conditions
  built_insert_metadata built_insert_upload_checksum : headers.
#[local] Hint Extern 1 (to_ascii_lowercase _ = _) => reflexivity : headers.

(** Follow the builder to its end, then chain its insertions. *)
Ltac builds E :=
  repeat match type of E with (match ?m with Ok _ => _ | Err _ => _ end) = Ok _ =>
    let F := fresh "F" in destruct m eqn:F; [|discriminate E] end;
  repeat case_match; simplify_eq; eauto 12 with headers.

Lemma put_headers_built r b h : put_headers r b = Ok h -> built (PutObjectRequest.headers r) h.
Proof. unfold put_headers. intros E. builds E. Qed.
Lemma get_headers_built r h : get_headers r = Ok h -> built (GetObjectRequest.headers r) h.
Proof. unfold get_headers. intros E. builds E. Qed.
Lemma head_headers_built r h : head_headers r = Ok h -> built (HeadObjectRequest.headers r) h.
Proof. unfold head_headers. intros E. builds E. Qed.
Lemma delete_headers_built r h : delete_headers r = Ok h -> built (DeleteObjectRequest.headers r) h.
Proof. unfold delete_headers. intros E. builds E. Qed.
Lemma delete_objects_headers_built `{Md5} r x h : delete_objects_headers r x = Ok h ->
  built (DeleteObjectsRequest.headers r) h.
Proof. unfold delete_objects_headers. intros E. builds E. Qed.
Lemma copy_headers_built r h : copy_headers r = Ok h -> built (CopyObjectRequest.headers r) h.
Proof. unfold copy_headers. intros E. builds E. Qed.
Lemma part_copy_headers_built r h : part_copy_headers r = Ok h ->
  built (UploadPartCopyRequest.headers r) h.
Proof. unfold part_copy_headers. intros E. builds E. Qed.
Lemma document_headers_built m h : document_headers m = Ok h -> built m h.
Proof. unfold document_headers. intros E. builds E. Qed.
Lemma create_headers_built r h : create_headers r = Ok h ->
  built (CreateMultipartUploadRequest.headers r) h.
Proof.
  intros E. split; [|by apply create_headers_extends]. unfold create_headers in E.
  destruct (request_headers _) as [m|]; [by exists m|done].
Qed.
Lemma checksum_headers_built k m h : checksum_headers k m = Ok h -> built m h.
Proof.
  intros E. split; [|by eapply checksum_headers_extends]. unfold checksum_headers in E.
  destruct (request_headers _) as [m'|]; [by exists m'|done].
Qed.
End built.

(** ** The requests the operations hand over *)

(** What holds of the requests of every service call, of its method, key, query and
caller's headers, holds of those of every operation. *)
Section callers.
Set Default Proof Using "Type*".
Context `{HttpLaws} `{HttpUri} `{World} `{Primitives} `{Documents} `{HttpText} `{Base64} `{Md5}.
Variable c : S3Client.
Variable P : string -> option string -> list QueryParam -> HeaderMap ->
             EndpointUrl * string * Request -> Prop.
Hypothesis sends_signed : forall method key query caller h target body deadline x,
  operation_target c key = Ok target -> built caller h ->
  sends_only (P method key query caller) (call_signed c method target query h body deadline x).
Hypothesis sends_signed_xml :
  forall method key query caller h target body deadline maximum embedded x,
  operation_target c key = Ok target -> built caller h ->
  sends_only (P method key query caller)
    (call_signed_xml c method target query h body deadline maximum embedded x).

Create HintDb built.
#[local] Hint Resolve put_headers_built get_headers_built head_headers_built delete_headers_built
  delete_objects_headers_built copy_headers_built part_copy_headers_built document_headers_built
  create_headers_built checksum_headers_built built_start : built.

(** Through an operation to its exchange. *)
Ltac sends :=
  repeat first
    [ apply sends_only_fallible | apply sends_only_unless_panic | apply sends_only_collect
    | apply sends_only_drain | apply sends_only_fallible_bind; intros ? ?
    | apply sends_only_bind; [|intros ?]
    | eapply sends_signed; [eassumption|solve [eauto with built]]
    | eapply sends_signed_xml; [eassumption|solve [eauto with built]] ].

Lemma put_object_sends r x :
  sends_only (P "PUT" (Some (ObjectKey.as_str (PutObjectRequest.key r))) []
                (PutObjectRequest.headers r)) (put_object c r x).
Proof. unfold put_object. sends. Qed.

Lemma get_object_sends r x now pauses :
  sends_only (P "GET" (Some (ObjectKey.as_str (GetObjectRequest.key r)))
                (optional_query "versionId" (GetObjectRequest.version_id r))
                (GetObjectRequest.headers r)) (get_object c r x now pauses).
Proof. unfold get_object. sends. Qed.

Lemma head_object_sends r x :
  sends_only (P "HEAD" (Some (ObjectKey.as_str (HeadObjectRequest.key r)))
                (optional_query "versionId" (HeadObjectRequest.version_id r))
                (HeadObjectRequest.headers r)) (head_object c r x).
Proof. unfold head_object. sends. Qed.

Lemma delete_object_sends r x :
  sends_only (P "DELETE" (Some (ObjectKey.as_str (DeleteObjectRequest.key r)))
                (optional_query "versionId" (DeleteObjectRequest.version_id r))
                (DeleteObjectRequest.headers r)) (delete_object c r x).
Proof. unfold delete_object. sends. Qed.

Lemma delete_objects_sends r x :
  sends_only (P "POST" None [qp "delete" ""] (DeleteObjectsRequest.headers r))
    (delete_objects c r x).
Proof. unfold delete_objects. sends. Qed.

Lemma copy_object_sends r x :
  sends_only (P "PUT" (Some (ObjectKey.as_str (CopyObjectRequest.destination r))) []
                (CopyObjectRequest.headers r)) (copy_object c r x).
Proof. unfold copy_object. sends. Qed.

Lemma create_multipart_upload_sends r x :
  sends_only (P "POST" (Some (ObjectKey.as_str (CreateMultipartUploadRequest.key r)))
                create_query (CreateMultipartUploadRequest.headers r))
    (create_multipart_upload c r x).
Proof. unfold create_multipart_upload, create_multipart_upload_with_deadline. sends. Qed.

Lemma upload_part_sends r x :
  sends_only (P "PUT" (Some (ObjectKey.as_str (UploadPartRequest.key r)))
                (upload_part_query (PartNumber.get (UploadPartRequest.part_number r))
                   (UploadPartRequest.upload_id r)) (UploadPartRequest.headers r))
    (upload_part c r x).
Proof. unfold upload_part, upload_part_with_deadline. sends. Qed.

Lemma upload_part_copy_sends r x :
  sends_only (P "PUT" (Some (ObjectKey.as_str (UploadPartCopyRequest.destination r)))
                (upload_part_query (PartNumber.get (UploadPartCopyRequest.part_number r))
                   (UploadPartCopyRequest.upload_id r)) (UploadPartCopyRequest.headers r))
    (upload_part_copy c r x).
Proof. unfold upload_part_copy. sends. Qed.

Lemma complete_multipart_upload_sends r x :
  sends_only (P "POST" (Some (ObjectKey.as_str (CompleteMultipartUploadRequest.key r)))
                (upload_query (CompleteMultipartUploadRequest.upload_id r))
                (CompleteMultipartUploadRequest.headers r)) (complete_multipart_upload c r x).
Proof. unfold complete_multipart_upload, complete_multipart_upload_with_deadline. sends. Qed.

Lemma abort_multipart_upload_sends r x :
  sends_only (P "DELETE" (Some (ObjectKey.as_str (AbortMultipartUploadRequest.key r)))
                (upload_query (AbortMultipartUploadRequest.upload_id r))
                (AbortMultipartUploadRequest.headers r)) (abort_multipart_upload c r x).
Proof. unfold abort_multipart_upload, abort_multipart_upload_with_deadline. sends. Qed.

Lemma list_parts_sends r x :
  sends_only (P "GET" (Some (ObjectKey.as_str (ListPartsRequest.key r)))
                (list_parts_query r) (ListPartsRequest.headers r)) (list_parts c r x).
Proof. unfold list_parts, list_parts_with_deadline. sends. Qed.

Lemma list_objects_v2_sends r x :
  sends_only (P "GET" None (list_objects_v2_query r) (ListObjectsV2Request.headers r))
    (list_objects_v2 c r x).
Proof. unfold list_objects_v2, list_objects_v2_with_deadline. sends. Qed.

Lemma list_multipart_uploads_sends r x :
  sends_only (P "GET" None (match list_query r with Ok query => query | Err _ => [] end)
                (ListMultipartUploadsRequest.headers r)) (list_multipart_uploads c r x).
Proof.
  unfold list_multipart_uploads, list_multipart_uploads_with_deadline.
  apply sends_only_fallible_bind. intros target Ht.
  apply sends_only_fallible_bind. intros query Hq. rewrite Hq. sends.
Qed.
End callers.

(** ** Operations that come to an end *)

Section endings.
Set Default Proof Using "Type*".
Context `{Http} `{HttpUri} `{World} `{Primitives} `{Documents} `{HttpText} `{Base64} `{Md5}.
Variable c : S3Client.

(** After an exchange without an embedded error, the document is no error. *)
Lemma copy_output_some r : copy_embedded_error (collected_body r) (maximum_xml c) = Ok None ->
  is_Some (copy_output c r).
Proof.
  unfold copy_embedded_error, copy_output, parsed.
  by destruct (parse_copy_object _ _) as [[|]|].
Qed.

Lemma complete_output_some r :
  complete_multipart_embedded_error (collected_body r) (maximum_document c) = Ok None ->
  is_Some (complete_output c r).
Proof.
  unfold complete_multipart_embedded_error, complete_output, parsed.
  destruct (optional_header _ _); [|done].
  by destruct (parse_complete_multipart_upload _ _) as [[|]|].
Qed.

Lemma part_copy_output_some q r :
  upload_part_copy_embedded_error (collected_body r) (maximum_document c) = Ok None ->
  is_Some (part_copy_output c q r).
Proof.
  unfold upload_part_copy_embedded_error, part_copy_output, parsed.
  by destruct (parse_upload_part_copy _ _) as [[|]|].
Qed.

Hypothesis Hpolicy : 1 <= max_attempts (policy c) <= U32_MAX.

(** Through an operation to its end. *)
Ltac settle :=
  repeat first
    [ apply returns_any
    | apply returns_pure_bind; intros ?
    | eapply returns_bind; [apply returns_signed; assumption|intros ? ?]
    | eapply returns_bind; [apply returns_signed_xml; assumption|intros ? ?]
    | eapply returns_bind; [apply returns_collect; assumption|intros ? _]
    | eapply returns_bind; [apply returns_drain; assumption|intros ? _]
    | apply returns_unless_panic ].

Lemma put_object_returns r x : call_settles c x -> returns (fun _ => True) (put_object c r x).
Proof. intros Hx. unfold put_object. settle. Qed.
Lemma get_object_returns r x now pauses : call_settles c x ->
  returns (fun _ => True) (get_object c r x now pauses).
Proof. intros Hx. unfold get_object. settle. Qed.
Lemma head_object_returns r x : call_settles c x -> returns (fun _ => True) (head_object c r x).
Proof. intros Hx. unfold head_object. settle. Qed.
Lemma delete_object_returns r x : call_settles c x -> returns (fun _ => True) (delete_object c r x).
Proof. intros Hx. unfold delete_object. settle. Qed.
Lemma delete_objects_returns r x : call_settles c x ->
  returns (fun _ => True) (delete_objects c r x).
Proof. intros Hx. unfold delete_objects. settle. Qed.
Lemma copy_object_returns r x : call_settles c x -> returns (fun _ => True) (copy_object c r x).
Proof. intros Hx. unfold copy_object. settle. by apply copy_output_some. Qed.
Lemma create_multipart_upload_returns r x : call_settles c x ->
  returns (fun _ => True) (create_multipart_upload c r x).
Proof.
  intros Hx. unfold create_multipart_upload, create_multipart_upload_with_deadline. settle.
Qed.
Lemma upload_part_returns r x : call_settles c x -> returns (fun _ => True) (upload_part c r x).
Proof. intros Hx. unfold upload_part, upload_part_with_deadline. settle. Qed.
Lemma upload_part_copy_returns r x : call_settles c x ->
  returns (fun _ => True) (upload_part_copy c r x).
Proof. intros Hx. unfold upload_part_copy. settle. by apply part_copy_output_some. Qed.
Lemma complete_multipart_upload_returns r x : call_settles c x ->
  returns (fun _ => True) (complete_multipart_upload c r x).
Proof.
  intros Hx. unfold complete_multipart_upload, complete_multipart_upload_with_deadline. settle.
  by apply complete_output_some.
Qed.
Lemma abort_multipart_upload_returns r x : call_settles c x ->
  returns (fun _ => True) (abort_multipart_upload c r x).
Proof.
  intros Hx. unfold abort_multipart_upload, abort_multipart_upload_with_deadline. settle.
Qed.
End endings.

(** ** The operations of a client, as one type *)

Inductive op `{Http} : Type :=
| PutObject (r : PutObjectRequest.t)
| GetObject (r : GetObjectRequest.t)
| HeadObject (r : HeadObjectRequest.t)
| DeleteObject (r : DeleteObjectRequest.t)
| DeleteObjects (r : DeleteObjectsRequest.t)
| CopyObject (r : CopyObjectRequest.t)
| ListObjectsV2 (r : ListObjectsV2Request.t)
| CreateMultipartUpload (r : CreateMultipartUploadRequest.t)
| UploadPart (r : UploadPartRequest.t)
| UploadPartCopy (r : UploadPartCopyRequest.t)
| CompleteMultipartUpload (r : CompleteMultipartUploadRequest.t)
| AbortMultipartUpload (r : AbortMultipartUploadRequest.t)
| ListParts (r : ListPartsRequest.t)
| ListMultipartUploads (r : ListMultipartUploadsRequest.t).

Section op.
Context `{Http} `{HttpUri} `{World} `{Primitives} `{Documents} `{HttpText} `{Base64} `{Md5}.

(** The operation, less its output; a download is run up to its stream. *)
Definition run_op (c : S3Client) (o : op) (x : Call) : Service unit :=
  match o with
  | PutObject r => let! _ := put_object c r x in return! (Ok tt)
  | GetObject r => let! _ := get_object c r x (call_now x) (fun _ => O) in return! (Ok tt)
  | HeadObject r => let! _ := head_object c r x in return! (Ok tt)
  | DeleteObject r => let! _ := delete_object c r x in return! (Ok tt)
  | DeleteObjects r => let! _ := delete_objects c r x in return! (Ok tt)
  | CopyObject r => let! _ := copy_object c r x in return! (Ok tt)
  | ListObjectsV2 r => let! _ := list_objects_v2 c r x in return! (Ok tt)
  | CreateMultipartUpload r => let! _ := create_multipart_upload c r x in return! (Ok tt)
  | UploadPart r => let! _ := upload_part c r x in return! (Ok tt)
  | UploadPartCopy r => let! _ := upload_part_copy c r x in return! (Ok tt)
  | CompleteMultipartUpload r => let! _ := complete_multipart_upload c r x in return! (Ok tt)
  | AbortMultipartUpload r => let! _ := abort_multipart_upload c r x in return! (Ok tt)
  | ListParts r => let! _ := list_parts c r x in return! (Ok tt)
  | ListMultipartUploads r => let! _ := list_multipart_uploads c r x in return! (Ok tt)
  end.

(** The S3 API: method, key and query of each operation. *)
Definition api_method (o : op) : string :=
  match o with
  | GetObject _ | ListObjectsV2 _ | ListParts _ | ListMultipartUploads _ => "GET"
  | HeadObject _ => "HEAD"
  | PutObject _ | CopyObject _ | UploadPart _ | UploadPartCopy _ => "PUT"
  | DeleteObjects _ | CreateMultipartUpload _ | CompleteMultipartUpload _ => "POST"
  | DeleteObject _ | AbortMultipartUpload _ => "DELETE"
  end.

Definition api_key (o : op) : option string :=
  ObjectKey.as_str <$>
  match o with
  | PutObject r => Some (PutObjectRequest.key r)
  | GetObject r => Some (GetObjectRequest.key r)
  | HeadObject r => Some (HeadObjectRequest.key r)
  | DeleteObject r => Some (DeleteObjectRequest.key r)
  | CopyObject r => Some (CopyObjectRequest.destination r)
  | DeleteObjects _ | ListObjectsV2 _ | ListMultipartUploads _ => None
  | CreateMultipartUpload r => Some (CreateMultipartUploadRequest.key r)
  | UploadPart r => Some (UploadPartRequest.key r)
  | UploadPartCopy r => Some (UploadPartCopyRequest.destination r)
  | CompleteMultipartUpload r => Some (CompleteMultipartUploadRequest.key r)
  | AbortMultipartUpload r => Some (AbortMultipartUploadRequest.key r)
  | ListParts r => Some (ListPartsRequest.key r)
  end.

Definition version_query (v : option string) : list QueryParam :=
  match v with Some v => [qp "versionId" v] | None => [] end.
Definition part_query (n : PartNumber.t) (id : UploadId.t) : list QueryParam :=
  [qp "partNumber" (to_string (PartNumber.get n)); qp "uploadId" (UploadId.as_str id)].

Definition api_query (o : op) : list QueryParam :=
  match o with
  | PutObject _ | CopyObject _ => []
  | GetObject r => version_query (GetObjectRequest.version_id r)
  | HeadObject r => version_query (HeadObjectRequest.version_id r)
  | DeleteObject r => version_query (DeleteObjectRequest.version_id r)
  | DeleteObjects _ => [qp "delete" ""]
  | ListObjectsV2 r => list_objects_v2_query r
  | CreateMultipartUpload _ => [qp "uploads" ""]
  | UploadPart r => part_query (UploadPartRequest.part_number r) (UploadPartRequest.upload_id r)
  | UploadPartCopy r =>
      part_query (UploadPartCopyRequest.part_number r) (UploadPartCopyRequest.upload_id r)
  | CompleteMultipartUpload r =>
      [qp "uploadId" (UploadId.as_str (CompleteMultipartUploadRequest.upload_id r))]
  | AbortMultipartUpload r =>
      [qp "uploadId" (UploadId.as_str (AbortMultipartUploadRequest.upload_id r))]
  | ListParts r => list_parts_query r
  | ListMultipartUploads r => match list_query r with Ok query => query | Err _ => [] end
  end.

Definition caller_headers (o : op) : HeaderMap :=
  match o with
  | PutObject r => PutObjectRequest.headers r
  | GetObject r => GetObjectRequest.headers r
  | HeadObject r => HeadObjectRequest.headers r
  | DeleteObject r => DeleteObjectRequest.headers r
  | DeleteObjects r => DeleteObjectsRequest.headers r
  | CopyObject r => CopyObjectRequest.headers r
  | ListObjectsV2 r => ListObjectsV2Request.headers r
  | CreateMultipartUpload r => CreateMultipartUploadRequest.headers r
  | UploadPart r => UploadPartRequest.headers r
  | UploadPartCopy r => UploadPartCopyRequest.headers r
  | CompleteMultipartUpload r => CompleteMultipartUploadRequest.headers r
  | AbortMultipartUpload r => AbortMultipartUploadRequest.headers r
  | ListParts r => ListPartsRequest.headers r
  | ListMultipartUploads r => ListMultipartUploadsRequest.headers r
  end.
End op.

(** ** Lemmas: the requests of any operation *)

Section requests.
Set Default Proof Using "Type*".
Context `{HttpLaws} `{HttpUri} `{World} `{Primitives} `{Documents} `{HttpText} `{Base64} `{Md5}.
Variable c : S3Client.

Lemma run_op_sends (P : string -> option string -> list QueryParam -> HeaderMap ->
                        EndpointUrl * string * Request -> Prop) :
  (forall method key query caller h target body deadline x,
     operation_target c key = Ok target -> built caller h ->
     sends_only (P method key query caller) (call_signed c method target query h body deadline x)) ->
  (forall method key query caller h target body deadline maximum embedded x,
     operation_target c key = Ok target -> built caller h ->
     sends_only (P method key query caller)
       (call_signed_xml c method target query h body deadline maximum embedded x)) ->
  forall o x, sends_only (P (api_method o) (api_key o) (api_query o) (caller_headers o)) (run_op c o x).
Proof.
  intros Hs Hx o x. destruct o; (apply sends_only_bind; [|intros _; apply sends_only_fallible]).
  - by apply put_object_sends.
  - by apply get_object_sends.
  - by apply head_object_sends.
  - by apply delete_object_sends.
  - by apply delete_objects_sends.
  - by apply copy_object_sends.
  - by apply list_objects_v2_sends.
  - by apply create_multipart_upload_sends.
  - by apply upload_part_sends.
  - by apply upload_part_copy_sends.
  - by apply complete_multipart_upload_sends.
  - by apply abort_multipart_upload_sends.
  - by apply list_parts_sends.
  - by apply list_multipart_uploads_sends.
Qed.

Lemma run_op_for_caller (Hpolicy : 1 <= max_attempts (policy c) <= U32_MAX) o x :
  sends_only (for_caller c (api_method o) (api_key o) (api_query o) (caller_headers o)) (run_op c o x).
Proof.
  apply (run_op_sends (for_caller c)).
  - intros * Ht [[m Hm] He]. eapply sends_only_weaken; [|by apply sends_only_signed]. intros y.
    by eapply for_caller_addressed.
  - intros * Ht [[m Hm] He]. eapply sends_only_weaken; [|by apply sends_only_signed_xml]. intros y.
    by eapply for_caller_addressed.
Qed.
End requests.

(** ** Properties *)

(** C12. The requests of an operation are its own. Every request that an
operation hands to the HTTP client has the method of the S3 API, goes to the URL
of the operation's key with exactly its query, or to the same scheme, path and
query at the redirected authority, and carries every header of the caller with
the caller's values, none of which is a header that signing or transport owns. *)
Theorem operations_send_their_own `{HttpLaws} `{HttpUri} `{World} `{Primitives} `{Documents}
  `{HttpText} `{Base64} `{Md5} (c : S3Client) (o : op) (x : Call) (s s' : Session)
  (r : outcome unit)
  (Hpolicy : 1 <= max_attempts (policy c) <= U32_MAX)
  (Hrun : run_op c o x s = Some (s', r)) :
  exists new, wire s' = wire s ++ new /\
    Forall (for_caller c (api_method o) (api_key o) (api_query o) (caller_headers o)) new.
Proof. by eapply run_op_for_caller in Hrun. Qed.

(** C25. Every operation comes to an end. With the exchange of as many attempts
as the policy allows, whose bodies arrive or time out, every operation returns,
with an output or an error: no [unreachable!] branch is reached. *)
Theorem operations_return `{Http} `{HttpUri} `{World} `{Primitives} `{Documents} `{HttpText}
  `{Base64} `{Md5} (c : S3Client) (o : op) (x : Call) (s : Session)
  (Hpolicy : 1 <= max_attempts (policy c) <= U32_MAX) (Hsettle : call_settles c x) :
  exists s' r, run_op c o x s = Some (s', r).
Proof.
  assert (Hr : returns (fun _ => True) (run_op c o x)).
  2:{ destruct (Hr s) as (s' & r & E & _). by exists s', r. }
  destruct o; (eapply returns_bind; [|intros ? _; apply returns_any]).
  - by apply put_object_returns.
  - by apply get_object_returns.
  - by apply head_object_returns.
  - by apply delete_object_returns.
  - by apply delete_objects_returns.
  - by apply copy_object_returns.
  - by apply list_objects_page_returns.
  - by apply create_multipart_upload_returns.
  - by apply upload_part_returns.
  - by apply upload_part_copy_returns.
  - by apply complete_multipart_upload_returns.
  - by apply abort_multipart_upload_returns.
  - by apply list_parts_page_returns.
  - by apply list_uploads_page_returns.
Qed.

#[local] Existing Instance sample_uri.
#[local] Existing Instance assoc_http.
#[local] Existing Instance assoc_http_laws.
#[local] Existing Instance sample_primitives.
#[local] Existing Instance sample_signing_world.
#[local] Existing Instance service_documents.
#[local] Existing Instance sample_text.
#[local] Instance sample_base64 : Base64 :=
  {| base64_encode := base64_reference; base64_decode _ := None |}.
#[local] Instance sample_md5 : Md5 := {| md5 s := str_take 16 s |}.

#[local] Notation sample_delete :=
  (DeleteObject (DeleteObjectRequest.Mk (ObjectKey.Mk "a") (Some "v1") None
     ([("x-caller", "1")] : @HeaderMap assoc_http))).
#[local] Notation delete_run :=
  (run_op sample_client sample_delete (answered_call 204 [] "") sample_session).

Lemma operations_send_their_own_witness :
  match delete_run with
  | Some (s', Ok _) => List.length (wire s') = 1%nat /\
      exists new, wire s' = [] ++ new /\
        Forall (for_caller sample_client "DELETE" (Some "a") [qp "versionId" "v1"]
                  ([("x-caller", "1")] : @HeaderMap assoc_http)) new
  | _ => False
  end.
Proof.
  assert (Hl : match delete_run with
               | Some (s', Ok _) => (List.length (wire s') =? 1)%nat | _ => false end = true)
    by (vm_compute; reflexivity).
  destruct delete_run as [[s' r]|] eqn:E; [|discriminate Hl].
  pose proof (operations_send_their_own sample_client sample_delete (answered_call 204 [] "")
    sample_session s' r sample_policy E) as Hn.
  destruct r as [u|e]; [|discriminate Hl]. split; [apply Nat.eqb_eq; exact Hl|exact Hn].
Defined.

Lemma operations_return_witness :
  exists s' r, run_op sample_client
    (CompleteMultipartUpload (CompleteMultipartUploadRequest.Mk (ObjectKey.Mk "a") (UploadId.Mk "u")
       [CompletedPart.Mk (PartNumber.Mk 1) "e" Checksum.default] ([] : @HeaderMap assoc_http)))
    (answered_call 200 [] "done") sample_session = Some (s', r).
Proof.
  apply operations_return; [exact sample_policy|].
  apply answering_settles, sample_client_attempts.
Defined.
