(* ===== verification/Delivery.v ===== *)
(** What an upload puts on the wire, end to end: from the body of a request of
[src/client/object/operations.rs] or [multipart/operations.rs], through its
preparation ([src/stream/upload.rs]) and every attempt
([src/client/request/execute.rs]), to the bytes the transport polls and the
headers that describe them. *)

From S2P Require Import Prelude Text Errors Canonical SigV4 Endpoint Http Retry Quota Types.
From S2P Require Import Stream Xml Records Protocol Response Credentials Config Request Execute.
From S2P Require Import Crc Headers Calls Objects Parts Operations.
From stdpp Require Import options.
Local Open Scope Z_scope.

(** ** One request of an upload *)

Section uploads.
Set Default Proof Using "Type*".
Context `{HttpLaws} `{HttpUri} `{World} `{Primitives} `{Documents} `{HttpText}.

(** The body and the headers that describe it are those of the prepared body. *)
Definition carries_body (b : PreparedBody) (x : EndpointUrl * string * Request) : Prop :=
  (request_body b).1 = Ok (rq_body x.2) /\
  hm_get_all (rq_headers x.2) "content-length" = [hv_from_u64 (body_length b)] /\
  exists digest, hm_get_all (rq_headers x.2) "x-amz-content-sha256" = [digest] /\
    hv_bytes digest = sha256_hex b.

(** All requests of an upload: a body that cannot be replayed is in one at most. *)
Definition uploads_body (b : PreparedBody) (new : list (EndpointUrl * string * Request)) : Prop :=
  Forall (carries_body b) new /\ (is_replayable b = false -> (List.length new <= 1)%nat).

Lemma request_body_kept b : is_replayable b = true -> (request_body b).2 = b.
Proof. unfold is_replayable, request_body. by destruct (source b). Qed.

Section execution.
Variables (c : S3Client) (op : Operation) (b : PreparedBody).
Hypothesis Hattempts : 1 <= max_attempts (policy c) <= U32_MAX.
Hypothesis Hreplayable : op_replayable op = is_replayable b.
Hypothesis Hhash : op_payload_hash op = sha256_hex b.

Lemma signed_request_carries p moment st request left handed result client :
  body st = Some b ->
  signed_request p moment (signed_input op st) = (Ok request, left) ->
  send (transport c) client request = (handed, result : outcome Response) ->
  left = Some (request_body b).2 /\
  forall x, handed = Some x.2 -> carries_body b x.
Proof.
  intros Hb Hs Hsend.
  apply signed_request_ok in Hs as (cr & h & owned & signed & t & Hu & _ & _ & _ & _ & Hh & Hbody & E).
  unfold signed_input, attempt_body in Hbody. cbn [si_body] in Hbody. rewrite Hb in Hbody.
  destruct (request_body b) as [rb rest] eqn:Er. injection Hbody as -> <-. split; [done|].
  intros x Hx. unfold send in Hsend. destruct (permitted_scheme _ _); [|by injection Hsend as <- _].
  injection Hsend as <- _. injection Hx as Hx. apply unsigned_headers_ok in Hu as (_ & Hd & Hl & _).
  destruct Hd as (digest & Hd & Hdb). specialize (Hl b Hb).
  assert (K : forall k v, k ∉ ["authorization"; "x-amz-date"; "x-amz-security-token"] ->
            hm_get_all h k = [v] -> hm_get_all (rq_headers x.2) k = [v]).
  { intros k v Hk Hv. rewrite <- (signed_headers_kept _ _ _ _ Hh Hk) in Hv. rewrite <- Hx.
    rewrite with_user_agent_get; [done|]. by rewrite Hv. }
  red. rewrite Er. split_and!.
  - rewrite <- Hx. cbn [fst with_user_agent rq_body]. by rewrite E.
  - apply K; [set_solver|done].
  - exists digest. split; [apply K; [set_solver|done]|]. by rewrite Hdb.
Qed.

Lemma schedule_retry_continues env st e ra st' :
  schedule_retry c op env st e ra = Continue st' -> body st' = body st.
Proof.
  unfold schedule_retry, stop_with. intros Hs. repeat case_match; by simplify_eq.
Qed.

Lemma follow_redirect_continues st region authority st' :
  follow_redirect c op st region authority = Continue st' -> body st' = body st.
Proof. unfold follow_redirect. intros Hs. repeat case_match; by simplify_eq. Qed.

(** One attempt: what it sends carries the body, which is kept for the next. *)
Lemma attempt_carries env home region st s :
  exec_live c op home region st -> body st = Some b -> Forall (carries_body b) (sent st) ->
  attempt c op env st = Some s ->
  match s with
  | Continue st' => body st' = Some b /\ Forall (carries_body b) (sent st')
  | Return st' _ => Forall (carries_body b) (sent st')
  end.
Proof.
  intros Hl Hb Hf Ha. pose proof (attempt_ok c op home region Hattempts env st s Hl Ha) as Hok.
  destruct (attempt_cases c op Hattempts _ _ _ Ha)
    as [(st' & e & -> & _ & Hs & _)|(rq & left & handed & result & timeout & v & Hsig & Hsend & _ & ->)];
    [by rewrite Hs|].
  destruct (signed_request_carries _ _ _ _ _ _ _ _ Hb Hsig Hsend) as [-> Hx].
  set (st1 := judging c op env (Some (request_body b).2) handed st) in *.
  assert (Hf1 : Forall (carries_body b) (sent st1)).
  { cbn. destruct handed as [x|]; [|exact Hf]. apply Forall_app. split; [exact Hf|].
    apply Forall_singleton. by apply Hx. }
  assert (Hkeep : forall st', body st' = body st1 -> sent st' = sent st1 ->
    exec_live c op home region st' -> attempts_completed st' = attempts_completed st + 1 ->
    body st' = Some b /\ Forall (carries_body b) (sent st')).
  { intros st' Hb' Hs' Hlive Hn. rewrite Hb', Hs'. split; [|exact Hf1]. cbn.
    rewrite request_body_kept; [done|]. destruct (is_replayable b) eqn:R; [done|].
    destruct Hlive as [_ _ Ho]. rewrite (Ho Hreplayable) in Hn.
    destruct Hl as [[Hc _ _ _ _] _ _]. lia. }
  destruct v as [r|rg a|e ra].
  - exact Hf1.
  - destruct (follow_redirect c op st1 rg a) as [st'|st' r] eqn:E.
    + destruct Hok as [Hlive Hn]. apply Hkeep; try done; [by eapply follow_redirect_continues|].
      unfold follow_redirect in E. by destruct (with_authority _ _); simplify_eq.
    + unfold follow_redirect in E. destruct (with_authority _ _); by simplify_eq.
  - destruct (schedule_retry_cases c op Hattempts env st1 e ra)
      as [(st' & reason & E & Hcore & _)|(st' & delay & E & Hcore & _)];
      rewrite E in *; destruct Hcore as (_ & Hs & _); [by rewrite Hs|].
    destruct Hok as [Hlive Hn]. apply Hkeep; try done. by eapply schedule_retry_continues.
Qed.

Lemma attempts_carry envs home region st st' r :
  exec_live c op home region st -> body st = Some b -> Forall (carries_body b) (sent st) ->
  attempts c op envs st = Some (st', r) -> Forall (carries_body b) (sent st').
Proof.
  revert st. induction envs as [|env envs IH]; intros st Hl Hb Hf Ha; [done|]. cbn [attempts] in Ha.
  destruct (attempt c op env st) as [s|] eqn:E; [|done]. cbn in Ha.
  pose proof (attempt_ok c op home region Hattempts env st s Hl E) as Hok.
  eapply attempt_carries in E; [|done..]. destruct s as [st1|st1 r1].
  - destruct E, Hok. by eapply IH.
  - by injection Ha as <- _.
Qed.
End execution.

(** A signed call with a body uploads it. *)
Lemma inner_uploads c method target query headers b deadline mode started envs q st r :
  1 <= max_attempts (policy c) <= U32_MAX ->
  send_signed_inner c method target query headers (Some b) deadline mode started envs q
    = Some (st, r) -> uploads_body b (sent st).
Proof.
  intros Hpolicy Hrun. unfold send_signed_inner in Hrun.
  destruct (with_query target _) as [home|e]; [|injection Hrun as <- _; split; [constructor|cbn; lia]].
  set (op := operation method query headers (Some b) deadline mode started) in Hrun.
  pose proof (execution_live c op home (S3Config.region (config c)) (Some b) q Hpolicy) as Hl.
  split.
  - eapply (attempts_carry c op b Hpolicy); [done|done|exact Hl|done|constructor|exact Hrun].
  - intros R. apply (attempts_ok c op home (S3Config.region (config c)) Hpolicy) in Hrun
      as [[_ Ho Hs _ _] _]; [|exact Hl]. specialize (Ho R). lia.
Qed.
End uploads.

(** ** Service calls that send one upload *)

Section service.
Set Default Proof Using "Type*".
Context `{Http} `{HttpUri} `{World}.

(** All that a service call sends, together, satisfies [P]. *)
Definition sends {A} (P : list (EndpointUrl * string * Request) -> Prop) (m : Service A) : Prop :=
  forall s s' o, m s = Some (s', o) -> exists new, wire s' = wire s ++ new /\ P new.

Lemma sends_pure_bind {A B} P (r : outcome A) (k : A -> Service B) :
  P [] -> (forall a, r = Ok a -> sends P (k a)) -> sends P (service_bind (fallible r) k).
Proof.
  intros Hn Hk s s' o E. unfold service_bind, fallible in E. cbn in E. destruct r as [a|e].
  - by apply (Hk a eq_refl _ _ _ E).
  - injection E as <- _. exists []. by rewrite app_nil_r.
Qed.

Lemma sends_silent_bind {A B} P (m : Service A) (k : A -> Service B) :
  sends P m -> (forall a, sends (.= []) (k a)) -> sends P (service_bind m k).
Proof.
  intros Hm Hk s s' o E. unfold service_bind in E. destruct (m s) as [[s1 r]|] eqn:E1; [|done].
  destruct (Hm _ _ _ E1) as (new & W & F). cbn in E. destruct r as [a|e].
  - destruct (Hk a _ _ _ E) as (n2 & W2 & ->). rewrite app_nil_r in W2. exists new.
    by rewrite W2, W.
  - injection E as <- _. by exists new.
Qed.

Lemma silent {A} (m : Service A) : sends_only (fun _ => False) m -> sends (.= []) m.
Proof.
  intros Hm s s' o E. destruct (Hm _ _ _ E) as (new & W & F). exists new. split; [done|].
  destruct new; [done|]. by inversion F.
Qed.
End service.

(** ** The uploads of the API *)

(** The body that the caller gives to an operation. *)
Definition upload_source `{Http} (o : op) : option UploadSource :=
  match o with
  | PutObject r => Some (PutObjectRequest.body r)
  | UploadPart r => Some (UploadPartRequest.body r)
  | _ => None
  end.

Section delivered.
Set Default Proof Using "Type*".
Context `{HttpLaws} `{HttpUri} `{World} `{Primitives} `{Documents} `{HttpText} `{Base64} `{Md5}.

(** The headers of a body of this length and digest. *)
Definition described (length : Z) (digest : string) (x : EndpointUrl * string * Request) : Prop :=
  hm_get_all (rq_headers x.2) "content-length" = [hv_from_u64 length] /\
  exists v, hm_get_all (rq_headers x.2) "x-amz-content-sha256" = [v] /\
    hv_bytes v = hex_encode digest.

(** Polled often enough, the body sends these bytes and ends. *)
Definition delivers (bytes : string) (x : EndpointUrl * string * Request) : Prop :=
  described (slen bytes) (sha256 bytes) x /\
  exists polls, forall n, (polls < n)%nat ->
    (send_body n (rq_body x.2)).1 = (bytes, Some (Ok tt)).

(** The bytes read from a file, up to its end. *)
Fixpoint file_bytes (reads : list (result string string)) : string :=
  match reads with
  | Ok buffer :: reads => if slen buffer =? 0 then "" else buffer +:+ file_bytes reads
  | _ => ""
  end.

Definition delivered (s : UploadSource) (new : list (EndpointUrl * string * Request)) : Prop :=
  match s with
  | SourceStream items length digest =>
      (List.length new <= 1)%nat /\
      Forall (fun x => rq_body x.2 = TransportBody_new items length digest /\
                       described length digest x) new
  | SourceBytes bytes => Forall (delivers bytes) new
  | SourceFile fs => Forall (delivers (file_bytes (io_reads fs))) new
  end.

Lemma copy_loop_bytes write reads n copied n' c :
  copy_loop write reads n copied = Ok (n', c) -> c = copied +:+ file_bytes reads.
Proof.
  revert n copied. induction reads as [|r reads IH]; intros n copied Hc; cbn [copy_loop] in Hc.
  { inv_ok. by rewrite app_nil_r_str. }
  unfold io in Hc. destruct r as [buffer|e]; cbn [map_err file_bytes] in *; [|done].
  destruct (slen buffer =? 0); [inv_ok; by rewrite app_nil_r_str|].
  steps_in Hc. apply IH in Hc as ->. by rewrite app_assoc_str.
Qed.

Lemma snapshot_bytes fs hash s : FileSnapshot_create fs hash = Ok s ->
  content s = file_bytes (io_reads fs).
Proof.
  unfold FileSnapshot_create. intros Hs. steps_in Hs; cbn [content].
  all: match goal with E : copy_loop _ _ 0 "" = Ok _ |- _ => by apply copy_loop_bytes in E end.
Qed.

(** The bytes that a replayable body delivers. *)
Definition source_bytes (s : UploadSource) : string :=
  match s with
  | SourceBytes bytes => bytes
  | SourceFile fs => file_bytes (io_reads fs)
  | SourceStream items _ _ => stream_bytes items
  end.

Lemma prepared_bytes s b t : prepare s = Ok b -> is_replayable b = true ->
  request_body b = (Ok t, b) -> pending_bytes (stream t) (final_chunk t) = source_bytes s.
Proof.
  intros Hp R Hb. destruct s as [v|fs|items length digest]; cbn in Hp.
  - steps_in Hp. inv_ok. cbn in Hb. injection Hb as <-. apply app_nil_r_str.
  - unfold prepare_file in Hp. destruct (FileSnapshot_create fs true) as [sn|] eqn:C; [|done].
    apply snapshot_bytes in C as Hc. apply snapshot_spec in C as (Hl & _ & Ho & Hd).
    rewrite Hd in Hp. cbn [ok_or] in Hp. inv_ok. unfold request_body in Hb. cbn [source] in Hb.
    rewrite Ho in Hb. injection Hb as <-. unfold pending_bytes, snapshot_stream.
    cbn [TransportBody_new stream final_chunk body_length default source_bytes].
    rewrite stream_bytes_chunks, chunks_concat, Hl, str_take_all by lia. by rewrite Hc.
  - by inv_ok.
Qed.

Lemma uploads_delivered s b new : prepare s = Ok b -> uploads_body b new -> delivered s new.
Proof.
  intros Hp [Hf Hn].
  assert (R : is_replayable b = true -> Forall (delivers (source_bytes s)) new).
  { intros R. destruct (prepared_deliverable s b Hp R) as (t & bytes & Hb & Hl & Hd & D & E).
    rewrite (prepared_bytes s b t Hp R Hb) in E. rewrite <- E in Hl, Hd.
    eapply Forall_impl; [exact Hf|]. intros x (Hbody & Hlen & v & Hv & Hhash).
    rewrite Hb in Hbody. injection Hbody as Hbody. rewrite Hl in Hlen.
    unfold sha256_hex in Hhash. rewrite Hd in Hhash. split; [split; [done|by exists v]|].
    exists (List.length (stream t) + 1)%nat. intros n Hn'.
    rewrite <- Hbody, <- (prepared_bytes s b t Hp R Hb). by apply send_body_delivers. }
  destruct s as [v|fs|items length digest]; cbn in Hp.
  - apply R. steps_in Hp. by inv_ok.
  - apply R. unfold prepare_file in Hp. steps_in Hp. by inv_ok.
  - inv_ok. split; [by apply Hn|]. eapply Forall_impl; [exact Hf|].
    intros x (Hbody & Hlen & v & Hv & Hhash). cbn in Hbody. injection Hbody as Hbody.
    split; [done|]. split; [done|]. by exists v.
Qed.

Lemma delivered_nil s : delivered s [].
Proof. destruct s; cbn; [constructor..|split; [lia|constructor]]. Qed.

Lemma sends_signed c method target query headers b deadline x :
  1 <= max_attempts (policy c) <= U32_MAX ->
  sends (uploads_body b) (call_signed c method target query headers (Some b) deadline x).
Proof.
  intros Hpolicy s s' o E. unfold call_signed, send_signed in E.
  destruct (send_signed_inner _ _ _ _ _ _ _ _ _ _ _) as [[st r]|] eqn:Ei; [|done].
  apply inner_uploads in Ei; [|done]. exists (sent st).
  destruct r as [[]|]; cbn in E; try done; by injection E as <- _.
Qed.

(** A prepared body in a signed call, and the rest of the operation silent. *)
Lemma sends_prepared {A} c elapsed source method target query headers deadline x
  (k : Response -> Service A) b :
  1 <= max_attempts (policy c) <= U32_MAX -> prepare_body elapsed source = Ok b ->
  (forall r, sends (.= []) (k r)) ->
  sends (delivered source)
    (service_bind (call_signed c method target query headers (Some b) deadline x) k).
Proof.
  intros Hpolicy Hp Hk. apply sends_silent_bind; [|exact Hk]. intros s s' o E.
  destruct (sends_signed _ _ _ _ _ _ _ _ Hpolicy _ _ _ E) as (new & W & U). exists new.
  split; [done|]. unfold prepare_body in Hp. destruct elapsed; [done|].
  by eapply uploads_delivered.
Qed.

Lemma put_object_delivers c r x : 1 <= max_attempts (policy c) <= U32_MAX ->
  sends (delivered (PutObjectRequest.body r)) (put_object c r x).
Proof.
  intros Hpolicy. unfold put_object. cbv zeta.
  apply sends_pure_bind; [apply delivered_nil|intros b Hb].
  do 2 (apply sends_pure_bind; [apply delivered_nil|intros ? _]).
  eapply sends_prepared; [done|exact Hb|]. intros response. apply silent.
  apply sends_only_bind; [apply sends_only_collect|intros ?; apply sends_only_fallible].
Qed.

Lemma upload_part_delivers c r x : 1 <= max_attempts (policy c) <= U32_MAX ->
  sends (delivered (UploadPartRequest.body r)) (upload_part c r x).
Proof.
  intros Hpolicy. unfold upload_part, upload_part_with_deadline. cbv zeta.
  do 2 (apply sends_pure_bind; [apply delivered_nil|intros ? _]).
  apply sends_pure_bind; [apply delivered_nil|intros b Hb].
  eapply sends_prepared; [done|exact Hb|]. intros response. apply silent.
  apply sends_only_bind; [apply sends_only_drain|intros ?; apply sends_only_fallible].
Qed.
End delivered.

(** ** Properties *)

(** C5. What is uploaded is what was given. Whatever S3 answers and however
often it is sent again, every request of an object or part upload describes, by
its content length and its payload digest, and delivers, when it is polled,
exactly the bytes the caller gave, or those read from the file when it was
prepared, the same at every attempt; a caller's stream is handed on as it is,
with the caller's length and digest, in one request at most. *)
Theorem uploads_deliver `{HttpLaws} `{HttpUri} `{World} `{Primitives} `{Documents} `{HttpText}
  `{Base64} `{Md5} (c : S3Client) (o : op) (source : UploadSource) (x : Call) (s s' : Session)
  (r : outcome unit)
  (Hpolicy : 1 <= max_attempts (policy c) <= U32_MAX)
  (Hsource : upload_source o = Some source)
  (Hrun : run_op c o x s = Some (s', r)) :
  exists new, wire s' = wire s ++ new /\ delivered source new.
Proof.
  revert s s' r Hrun. change (sends (delivered source) (run_op c o x)).
  destruct o; try discriminate Hsource; injection Hsource as <-; cbn [run_op];
    (apply sends_silent_bind; [|intros _; apply silent, sends_only_fallible]).
  - by apply put_object_delivers.
  - by apply upload_part_delivers.
Qed.

(** ** A put that S3 refuses until the attempts are exhausted *)

#[local] Existing Instance sample_uri.
#[local] Existing Instance assoc_http.
#[local] Existing Instance assoc_http_laws.
#[local] Existing Instance sample_primitives.
#[local] Existing Instance sample_signing_world.
#[local] Existing Instance service_documents.
#[local] Existing Instance sample_text.
#[local] Instance sample_base64 : Base64 :=
  {| base64_encode := base64_reference; base64_decode _ := None |}.
#[local] Instance sample_md5 : Md5 := {| md5 s := str_take 16 s |}.

#[local] Notation sample_put :=
  (PutObject (PutObjectRequest.new (ObjectKey.Mk "a") (SourceBytes "hello"))).
#[local] Notation put_run :=
  (run_op sample_client sample_put (answered_call 503 [] "") sample_session).

Lemma uploads_deliver_witness :
  match put_run with
  | Some (s', Err _) => List.length (wire s') = 4%nat /\
      exists new, wire s' = [] ++ new /\ delivered (SourceBytes "hello") new
  | _ => False
  end.
Proof.
  assert (Hl : match put_run with
               | Some (s', Err _) => (List.length (wire s') =? 4)%nat | _ => false end = true)
    by (vm_compute; reflexivity).
  destruct put_run as [[s' r]|] eqn:E; [|discriminate Hl].
  pose proof (uploads_deliver sample_client sample_put (SourceBytes "hello")
    (answered_call 503 [] "") sample_session s' r sample_policy eq_refl E) as Hn.
  destruct r as [u|e]; [discriminate Hl|]. split; [apply Nat.eqb_eq; exact Hl|exact Hn].
Defined.
