(* ===== verification/Presign.v ===== *)
(** Presigned URLs ([src/client/presign.rs]): the query that [SigV4] signs for
one key, with the credentials' lifetime checked against the URL's. *)

From S2P Require Import Prelude Text Errors Canonical SigV4 Endpoint Http Types Stream Records.
From S2P Require Import Credentials Config Request Execute.
From stdpp Require Import options.
Local Open Scope Z_scope.

(** [operation/types.rs]; secret when it is shown. *)
Module PresignedUrl.
Record t : Type := new { expose : string }.
Definition into_exposed (u : t) : string := expose u.
End PresignedUrl.

(** [time::Duration::try_from], then [OffsetDateTime::checked_add]. *)
Definition url_expiry (now expires : Z) : option Z :=
  if as_secs expires <=? I64_MAX
  then if now + expires <=? OFFSET_DATE_TIME_MAX then Some (now + expires) else None
  else None.

(** The URL would outlive the credentials. *)
Definition outlives (credentials : Credentials.t) (expires_at : option Z) : bool :=
  match Credentials.expires_at credentials with
  | Some credential_expiry =>
      match expires_at with
      | Some url_expiry => credential_expiry <=? url_expiry
      | None => true
      end
  | None => false
  end.

Definition lifetime_error : S3Error.t :=
  S3Error.new ErrorCategory.Authentication
    "presigned URL lifetime must end before the credentials expire" RetryClassification.Never.

Definition presigning_failed : S3Error.t :=
  S3Error.with_source
    (S3Error.new ErrorCategory.Authentication "presigned URL generation failed"
       RetryClassification.Never)
    "s3_wire::signing::request::types::SigningError".

Section presign.
Context `{Http} `{HttpUri} `{World} `{Primitives}.
Variable c : S3Client.

Definition presigning_request (method : string) (target : EndpointUrl) (query : list QueryParam)
    (expires : Z) : PresigningRequest :=
  {| ps_method := method; ps_uri_path := Encoded (path_and_query target); ps_query := query;
     ps_headers := [hdr "host" (authority target)]; ps_expires := expires;
     ps_payload_hash := None |}.

(** [presign]: [w] is the world the provider answers in, [now] the clock. *)
Definition presign (method : string) (key : ObjectKey.t) (query : list QueryParam) (expires : Z)
    (w : world) (now : Z) : outcome PresignedUrl.t :=
  let? target := operation_target c (Some (ObjectKey.as_str key)) in
  let? credentials := S3Config.credentials_provider (config c) w in
  if Credentials.expires_by credentials now then Err expired_credentials
  else if outlives credentials (url_expiry now expires) then Err lifetime_error
  else
    let? query :=
      map_err (fun _ => presigning_failed)
        (sign_presigned (signing_credentials credentials)
           {| region := S3Config.region (config c); service := "s3" |}
           (presigning_request method target query expires) now) in
    Ok (PresignedUrl.new (serialized target +:+ "?" +:+ query)).

Definition presigned_get (key : ObjectKey.t) := presign "GET" key [].
Definition presigned_put (key : ObjectKey.t) := presign "PUT" key [].
Definition presigned_head (key : ObjectKey.t) := presign "HEAD" key [].
Definition presigned_delete (key : ObjectKey.t) := presign "DELETE" key [].
Definition presigned_create_multipart_upload (key : ObjectKey.t) :=
  presign "POST" key [qp "uploads" ""].
Definition presigned_upload_part (key : ObjectKey.t) (upload_id : UploadId.t)
    (part_number : PartNumber.t) :=
  presign "PUT" key [qp "partNumber" (to_string (PartNumber.get part_number));
                     qp "uploadId" (UploadId.as_str upload_id)].
Definition presigned_abort_multipart_upload (key : ObjectKey.t) (upload_id : UploadId.t) :=
  presign "DELETE" key [qp "uploadId" (UploadId.as_str upload_id)].
End presign.

(** ** Lemmas *)

(** The only header of a presigned request is the host. *)
Lemma host_only_signed v ch : canonical_headers [hdr "host" v] = Ok ch -> signed ch = "host".
Proof.
  unfold canonical_headers. cbn [collect_headers h_value h_name hdr].
  destruct (normalize_header_value v) as [n|].
  - change (negb (valid_header_name "host")) with false. cbn iota.
    change (btree_upsert _ _ _ []) with [("host", [n])]. cbn [collect_headers]. cbn iota.
    change (btree_get "host" [("host", [n])]) with (Some [n]). cbn iota.
    destruct (is_empty n); [done|]. by intros [= <-].
  - by destruct (negb (valid_header_name "host")).
Qed.

(** A URL that does not outlive its credentials, within the range of dates. *)
Lemma outlives_spec cr now expires : 1 <= as_secs expires <= 604800 ->
  outlives cr (url_expiry now expires) = false ->
  forall e, Credentials.expires_at cr = Some e ->
    now + expires < e /\ now + expires <= OFFSET_DATE_TIME_MAX.
Proof.
  intros Hr Ho e He. unfold outlives, url_expiry in Ho. rewrite He in Ho.
  destruct (as_secs expires <=? I64_MAX); [|done].
  destruct (Z.leb_spec (now + expires) OFFSET_DATE_TIME_MAX); [|done]. bools. lia.
Qed.

(** ** Properties *)

(** C19. A presigned URL works for its whole lifetime. It is made only for a
whole number of seconds from one to seven days, with credentials that have not
expired and do not expire before the URL does; it is the URL of the key and the
caller's parameters, followed by those of the signature for the client's region
and this lifetime, under which the host is the only signed header. *)
Theorem presigned_url_valid `{Http} `{HttpUri} `{World} `{PrimitivesLaws} (c : S3Client)
  (method : string) (key : ObjectKey.t) (query : list QueryParam) (expires : Z) (w : world)
  (now : Z) (u : PresignedUrl.t) (Hexpires : 0 <= expires)
  (Hok : presign c method key query expires w now = Ok u) :
  exists target cr secs amz date sig,
    operation_target c (Some (ObjectKey.as_str key)) = Ok target /\
    S3Config.credentials_provider (config c) w = Ok cr /\
    Credentials.expires_by cr now = false /\
    (forall e, Credentials.expires_at cr = Some e -> now + expires < e) /\
    expires = from_secs secs /\ 1 <= secs <= 604800 /\
    format_timestamp now = Ok (amz, date) /\
    slen sig = 64 /\ str_all is_lower_hex sig = true /\
    PresignedUrl.expose u = serialized target +:+ "?" +:+
      canonical_query (presign_parameters (signing_credentials cr) query
        (Credentials.access_key_id cr +:+ "/" +:+
           credential_scope date {| region := S3Config.region (config c); service := "s3" |})
        amz (to_string secs) "host") +:+ "&X-Amz-Signature=" +:+ sig.
Proof.
  unfold presign in Hok. destruct (operation_target _ _) as [target|] eqn:Et; [|done].
  destruct (S3Config.credentials_provider _ w) as [cr|] eqn:Ec; [|done].
  destruct (Credentials.expires_by cr now) eqn:Ex; [done|].
  destruct (outlives _ _) eqn:Eo; [done|].
  destruct (sign_presigned _ _ _ _) as [q|] eqn:Es; [|done]. injection Hok as <-.
  apply sign_presigned_ok in Es
    as (secs & He & Hs & _ & _ & ch & amz & date & sig & Hh & Hf & Hl & Hx & ->); [|exact Hexpires].
  cbn in He. apply host_only_signed in Hh. rewrite Hh.
  exists target, cr, secs, amz, date, sig. split_and!; try done; try lia.
  assert (Ha : as_secs expires = secs)
    by (rewrite He; unfold as_secs, from_secs, NANOS_PER_SEC; apply Z.div_mul; lia).
  intros e Hce. apply (outlives_spec _ now expires) in Hce; [tauto|lia|done].
Qed.

#[local] Existing Instance sample_uri.
#[local] Existing Instance assoc_http.
#[local] Existing Instance sample_primitives.
#[local] Existing Instance sample_laws.
#[local] Existing Instance sample_signing_world.

Lemma presigned_url_valid_witness :
  exists u, presigned_upload_part sample_client (ObjectKey.Mk "a") (UploadId.Mk "u")
              (PartNumber.Mk 7) (from_secs 60) tt 0 = Ok u /\
    exists secs, from_secs 60 = from_secs secs /\ 1 <= secs <= 604800.
Proof.
  eexists. split; [vm_compute; reflexivity|].
  edestruct (presigned_url_valid sample_client "PUT" (ObjectKey.Mk "a")
    [qp "partNumber" "7"; qp "uploadId" "u"] (from_secs 60) tt 0)
    as (target & cr & secs & amz & date & sig & _ & _ & _ & _ & He & Hs & _);
    [vm_compute; discriminate | vm_compute; reflexivity |].
  exists secs. exact (conj He Hs).
Defined.
