(* ===== verification/Verify.v ===== *)
(** The other side of a signature: what a service does to check one, written
from the documentation of Signature Version 4 and sharing no definition with
the signer but the digests. The client's requests ([Execute]) and presigned
URLs ([Presign]) are proved to pass it. The [http] crate's reading of a URI is
a parameter, its documented behaviour is [HttpUriLaws]. *)

From S2P Require Import Prelude Text Errors Canonical SigV4 Endpoint Http Retry Quota Types.
From S2P Require Import Stream Xml Records Protocol Response Credentials Config Request Execute.
From S2P Require Import Presign.
From stdpp Require Import options.
Local Open Scope Z_scope.

(** ** What a service receives *)

Record Wire : Type := {
  w_method : string;
  w_path : string;
  w_query : option string;
  w_headers : list (string * string)
}.

(** [s.split(c)]. *)
Fixpoint split_all (c : ascii) (s : string) : list string :=
  match s with
  | EmptyString => [""]
  | String d s =>
      match split_all c s with
      | [] => []
      | w :: ws => if Ascii.eqb d c then "" :: w :: ws else String d w :: ws
      end
  end.

Definition only {A} (l : list A) : option A := match l with [x] => Some x | _ => None end.

Definition header_values (name : string) (hs : list (string * string)) : list string :=
  snd <$> filter (fun h => h.1 = name) hs.

(** ** The canonical request, read off the wire *)

Definition uri_encode_byte (keep_slash : bool) (c : ascii) : string :=
  if is_ascii_alphanumeric c || one_of "-._~" c || (keep_slash && Ascii.eqb c "/")
  then String c "" else percent c.
Definition uri_encode (keep_slash : bool) : string -> string :=
  str_flat_map (uri_encode_byte keep_slash).

Definition wire_path (path : string) : option string :=
  decoded ← pct_decode path; Some (if is_empty decoded then "/" else uri_encode true decoded).

Definition wire_parameter (s : string) : option QueryParam :=
  let (name, value) := default (s, "") (split_once "=" s) in
  name ← pct_decode name; value ← pct_decode value; Some (qp name value).

Definition wire_parameters (query : option string) : option (list QueryParam) :=
  match query with
  | None => Some []
  | Some q => if is_empty q then Some [] else mapM wire_parameter (split_all "&" q)
  end.

Definition query_line (parameters : list QueryParam) : string :=
  join "&" ((fun p => p.1 +:+ "=" +:+ p.2) <$>
    merge_sort pair_le
      ((fun p => (uri_encode false (qp_name p), uri_encode false (qp_value p))) <$> parameters)).

(** Trimmed, with runs of blanks collapsed. *)
Definition trim_all (value : string) : string := join " " (blank_words value "").

Definition header_line (hs : list (string * string)) (name : string) : string :=
  name +:+ ":" +:+ join "," (trim_all <$> header_values name hs) +:+ LF.

Definition wire_canonical_request (w : Wire) (parameters : list QueryParam)
    (names : list string) (payload_hash : string) : option string :=
  path ← wire_path (w_path w);
  Some (w_method w +:+ LF +:+ path +:+ LF +:+ query_line parameters +:+ LF +:+
        str_concat (header_line (w_headers w) <$> names) +:+ LF +:+
        join ";" names +:+ LF +:+ payload_hash).

(** ** The signature *)

Definition hex_digit (d : Z) : ascii := chr (if d <? 10 then 48 + d else 87 + d).
Definition hex (s : string) : string :=
  str_flat_map (fun c => String (hex_digit (byte c / 16)) (String (hex_digit (byte c mod 16)) "")) s.

Record Scoped : Type := { key_id : string; scope_date : string; scope_region : string }.

Section verifier.
Context `{Primitives}.

Definition expected_signature (secret : string) (s : Scoped) (amz request : string)
  : option string :=
  k ← hmac ("AWS4" +:+ secret) (scope_date s); k ← hmac k (scope_region s); k ← hmac k "s3";
  k ← hmac k "aws4_request";
  tag ← hmac k ("AWS4-HMAC-SHA256" +:+ LF +:+ amz +:+ LF +:+
          join "/" [scope_date s; scope_region s; "s3"; "aws4_request"] +:+ LF +:+
          hex (sha256 request));
  Some (hex tag).

Definition parse_scope (s : string) : option Scoped :=
  match split_all "/" s with
  | [k; d; r; "s3"; "aws4_request"] =>
      Some {| key_id := k; scope_date := d; scope_region := r |}
  | _ => None
  end.

Definition parse_authorization (s : string) : option (Scoped * list string * string) :=
  rest ← strip_prefix "AWS4-HMAC-SHA256 Credential=" s;
  '(credential, rest) ← split_once "," rest;
  rest ← strip_prefix " SignedHeaders=" rest;
  '(names, rest) ← split_once "," rest;
  signature ← strip_prefix " Signature=" rest;
  scoped ← parse_scope credential;
  Some (scoped, split_all ";" names, signature).

(** What the service knows of an access key. *)
Record Grant : Type := { g_secret : string; g_token : option string }.

(** Headers a request may not carry unsigned. *)
Definition must_be_signed (name : string) : bool :=
  String.eqb name "host" || starts_with "x-amz-" name.

Definition all_signed (hs : list (string * string)) (names : list string) : bool :=
  bool_decide ("host" ∈ names) &&
  forallb (fun h => negb (must_be_signed h.1) || bool_decide (h.1 ∈ names)) hs.

Definition check_signature (w : Wire) (g : Grant) (region : string) (s : Scoped) (amz : string)
    (parameters : list QueryParam) (names : list string) (payload_hash signature : string) : bool :=
  bool_decide (scope_region s = region) && starts_with (scope_date s) amz &&
  all_signed (w_headers w) names &&
  bool_decide ((request ← wire_canonical_request w parameters names payload_hash;
                expected_signature (g_secret g) s amz request) = Some signature).

(** A request signed in its headers. *)
Definition verify_request (grant : string -> option Grant) (region : string) (w : Wire) : bool :=
  default false (
    authorization ← only (header_values "authorization" (w_headers w));
    '(s, names, signature) ← parse_authorization authorization;
    g ← grant (key_id s);
    amz ← only (header_values "x-amz-date" (w_headers w));
    payload_hash ← only (header_values "x-amz-content-sha256" (w_headers w));
    parameters ← wire_parameters (w_query w);
    Some (bool_decide (header_values "x-amz-security-token" (w_headers w) = option_list (g_token g))
          && check_signature w g region s amz parameters names payload_hash signature)).

Definition parameter (name : string) (ps : list QueryParam) : list string :=
  qp_value <$> filter (fun p => qp_name p = name) ps.

(** A presigned request, received at the second [at_]; [seconds_of] reads a date. *)
Definition verify_presigned (seconds_of : string -> option Z) (grant : string -> option Grant)
    (region : string) (at_ : Z) (w : Wire) : bool :=
  default false (
    parameters ← wire_parameters (w_query w);
    signature ← only (parameter "X-Amz-Signature" parameters);
    credential ← only (parameter "X-Amz-Credential" parameters);
    s ← parse_scope credential;
    g ← grant (key_id s);
    amz ← only (parameter "X-Amz-Date" parameters);
    signed_at ← seconds_of amz;
    expires ← only (parameter "X-Amz-Expires" parameters);
    expires ← parse_uint U64_MAX expires;
    names ← only (parameter "X-Amz-SignedHeaders" parameters);
    Some (bool_decide (parameter "X-Amz-Algorithm" parameters = ["AWS4-HMAC-SHA256"])
          && bool_decide (parameter "X-Amz-Security-Token" parameters = option_list (g_token g))
          && (signed_at <=? at_) && (at_ <=? signed_at + expires) && (expires <=? 604800)
          && check_signature w g region s amz
               (filter (fun p => qp_name p <> "X-Amz-Signature") parameters)
               (split_all ";" names) "UNSIGNED-PAYLOAD" signature)).
End verifier.

(** ** What the verifier computes is what the signer computes *)

Lemma uri_encode_spec keep s : uri_encode keep s = aws_uri_encode s (negb keep).
Proof.
  apply str_flat_map_ext. intros c. unfold uri_encode_byte, aws_uri_encode_byte.
  rewrite (andb_comm keep), negb_involutive. done.
Qed.

Lemma hex_spec s : hex s = hex_encode s.
Proof. apply str_flat_map_ext. intros c. unfold hex_encode_byte. all_bytes c. Qed.

Lemma trim_all_spec v : trim_all v = normalize_loop v "" false.
Proof. symmetry. apply normalize_loop_spec. Qed.

Lemma render_query_join l : render_query l = join "&" ((fun p => p.1 +:+ "=" +:+ p.2) <$> l).
Proof.
  induction l as [|[n v] [|[n' v'] l] IH]; [done..|].
  change (render_query ((n, v) :: (n', v') :: l))
    with (n +:+ "=" +:+ v +:+ "&" +:+ render_query ((n', v') :: l)). rewrite IH.
  symmetry. apply (app_assoc_str n (String "=" v)).
Qed.

Lemma query_line_spec ps : query_line ps = canonical_query ps.
Proof.
  unfold query_line, canonical_query. rewrite render_query_join.
  f_equal; f_equal; f_equal. apply list_fmap_ext. intros _ p _.
  unfold encode_param. by rewrite !uri_encode_spec.
Qed.

Lemma split_all_plain c w : contains_char c w = false -> split_all c w = [w].
Proof.
  unfold contains_char. induction w as [|d w IH]; [done|]. cbn. intros Hw. bools.
  rewrite IH by done. by rewrite (proj2 (Ascii.eqb_neq d c)) by congruence.
Qed.

Lemma split_all_nonempty c s : split_all c s <> [].
Proof. induction s as [|d s IH]; [done|]. cbn. destruct (split_all c s); [done|]. by destruct (_ =? _)%char. Qed.

Lemma split_all_cons c w s : contains_char c w = false ->
  split_all c (w +:+ String c s) = w :: split_all c s.
Proof.
  pose proof (split_all_nonempty c s) as N. unfold contains_char.
  induction w as [|d w IH]; cbn; intros Hw.
  - destruct (split_all c s); [done|]. by rewrite Ascii.eqb_refl.
  - bools. rewrite IH by done. by rewrite (proj2 (Ascii.eqb_neq d c)) by congruence.
Qed.

Lemma split_all_join c l : l <> [] -> Forall (fun w => contains_char c w = false) l ->
  split_all c (join (String c "") l) = l.
Proof.
  induction l as [|w [|w' l] IH]; [done| |]; intros _ F; apply Forall_cons in F as [Hw F].
  - by apply split_all_plain.
  - change (join _ (w :: w' :: l)) with (w +:+ String c (join (String c "") (w' :: l))).
    by rewrite split_all_cons, IH.
Qed.

(** ** Reading back what the signer writes *)

Lemma wire_parameter_encoded p :
  wire_parameter ((encode_param p).1 +:+ "=" +:+ (encode_param p).2) = Some p.
Proof.
  destruct (encode_param_clean p) as [[_ Hn] _]. unfold wire_parameter. 
  change ("=" +:+ ?s) with (String "=" s). rewrite split_once_app by done. cbn.
  rewrite !aws_uri_decode. by destruct p.
Qed.

Lemma wire_parameters_render qs :
  wire_parameters (Some (render_query (encode_param <$> qs))) = Some qs.
Proof.
  destruct qs as [|q qs]; [done|]. cbn [wire_parameters].
  assert (is_empty (render_query (encode_param <$> q :: qs)) = false) as ->.
  { cbn [fmap list_fmap]. destruct (encode_param q) as [n v]. rewrite render_query_cons.
    by destruct n. }
  rewrite render_query_join, <- list_fmap_compose.
  rewrite split_all_join.
  - apply mapM_Some, Forall2_fmap_l, Forall2_same_length_lookup. split; [done|].
    intros i x y Hx Hy. rewrite Hx in Hy. injection Hy as ->. apply wire_parameter_encoded.
  - done.
  - apply Forall_fmap, Forall_true. intros p. destruct (encode_param_clean p) as [[Hn _] [Hv _]].
    unfold contains_char in *. cbn. rewrite !str_any_app. cbn in *. by rewrite Hn, Hv.
Qed.

Lemma canonical_query_encodes ps : exists qs,
  qs ≡ₚ ps /\ canonical_query ps = render_query (encode_param <$> qs).
Proof.
  unfold canonical_query.
  pose proof (merge_sort_Permutation pair_le (encode_param <$> ps)) as P.
  apply Permutation_map_inv in P as (qs & E & P). exists qs. by rewrite E.
Qed.

(** A service reads back the parameters of a canonical query. *)
Lemma wire_parameters_canonical ps : exists qs,
  qs ≡ₚ ps /\ wire_parameters (Some (canonical_query ps)) = Some qs /\
  query_line qs = canonical_query ps.
Proof.
  destruct (canonical_query_encodes ps) as (qs & P & E). exists qs. split; [done|].
  split; [by rewrite E, wire_parameters_render|].
  rewrite query_line_spec. by apply canonical_query_perm.
Qed.

Lemma wire_path_encoded p : is_empty p = false ->
  wire_path (aws_uri_encode p false) = Some (aws_uri_encode p false).
Proof.
  intros Hp. unfold wire_path. rewrite aws_uri_decode. cbn. rewrite Hp. by rewrite uri_encode_spec.
Qed.

Lemma class_excludes (p : ascii -> bool) c s :
  str_all p s = true -> p c = false -> contains_char c s = false.
Proof.
  intros Hs Hc. eapply str_any_none; [|exact Hs]. intros d Hd. destruct (Ascii.eqb_spec c d); congruence.
Qed.

Lemma parse_scope_text k d r :
  str_all is_key_byte k = true -> str_all is_ascii_alphanumeric d = true ->
  str_all is_key_byte r = true ->
  parse_scope (k +:+ "/" +:+ credential_scope d {| region := r; service := "s3" |})
  = Some {| key_id := k; scope_date := d; scope_region := r |}.
Proof.
  intros Hk Hd Hr. unfold parse_scope.
  replace (k +:+ _) with (join (String "/" "") [k; d; r; "s3"; "aws4_request"]) by done.
  rewrite split_all_join; [done..|].
  rewrite !Forall_cons, Forall_nil. split_and!; try done; by eapply class_excludes.
Qed.

(** The names of canonical headers: none holds a separator. *)
Lemma canonical_headers_names hs ch : canonical_headers hs = Ok ch ->
  exists m, groups hs m /\ canonical ch = render_canonical m /\ signed ch = join ";" (m.*1) /\
    m.*1 <> [] /\ "host" ∈ m.*1 /\
    Forall (fun k => contains_char ";" k = false /\ contains_char "," k = false) (m.*1).
Proof.
  intros Hc. apply canonical_headers_inv in Hc as (m & v & F & G & Hv & _ & ->).
  exists m. destruct G as (S & L & K).
  assert (I : "host" ∈ m.*1).
  { apply K. unfold values_of in Hv. destruct (filter _ hs) as [|h l] eqn:Ef; [done|].
    assert (I : h ∈ filter (fun h => to_ascii_lowercase (h_name h) = "host") hs) by (rewrite Ef; left).
    apply list_elem_of_filter in I as [<- I].
    by apply (list_elem_of_fmap_2 (fun h => to_ascii_lowercase (h_name h))). }
  split_and!; try done.
  - intros E. rewrite E in I. by apply elem_of_nil in I.
  - apply Forall_forall. intros k Hk. apply K in Hk. apply list_elem_of_fmap in Hk as (h & -> & Hh).
    rewrite Forall_forall in F. destruct (F h Hh) as [V _]. unfold valid_header_name in V. bools.
    revert H0. clear. generalize (h_name h) as n. unfold contains_char, to_ascii_lowercase.
    induction n as [|c n IH]; [done|]. cbn. intros. bools. destruct (IH H0) as [-> ->].
    rewrite !orb_false_r. revert H. clear. all_bytes c.
Qed.

Lemma signed_no_comma hs ch : canonical_headers hs = Ok ch -> contains_char "," (signed ch) = false.
Proof.
  intros (m & _ & _ & -> & _ & _ & F)%canonical_headers_names. apply str_any_false.
  apply join_all; [done|]. eapply Forall_impl; [exact F|]. intros k [_ Hk]. by apply str_any_false.
Qed.

Lemma parse_authorization_text k d r ch sig hs :
  str_all is_key_byte k = true -> str_all is_ascii_alphanumeric d = true ->
  str_all is_key_byte r = true -> canonical_headers hs = Ok ch ->
  parse_authorization (ALGORITHM +:+ " Credential=" +:+ k +:+ "/" +:+
      credential_scope d {| region := r; service := "s3" |} +:+ ", SignedHeaders=" +:+ signed ch
      +:+ ", Signature=" +:+ sig)
  = Some ({| key_id := k; scope_date := d; scope_region := r |}, split_all ";" (signed ch), sig).
Proof.
  intros Hk Hd Hr Hc. unfold parse_authorization.
  set (cr := k +:+ "/" +:+ credential_scope d {| region := r; service := "s3" |}).
  replace (ALGORITHM +:+ _) with ("AWS4-HMAC-SHA256 Credential=" +:+ (cr +:+ String ","
    (" SignedHeaders=" +:+ (signed ch +:+ String "," (" Signature=" +:+ sig))))).
  2:{ subst cr. cbn. by rewrite !app_assoc_str. }
  rewrite strip_prefix_app. cbn [mbind option_bind].
  rewrite split_once_app.
  2:{ pose proof (class_excludes _ "," k Hk eq_refl) as Ek.
      pose proof (class_excludes _ "," d Hd eq_refl) as Ed.
      pose proof (class_excludes _ "," r Hr eq_refl) as Er.
      subst cr. unfold credential_scope, contains_char in *. cbn [region service].
      by rewrite !str_any_app, Ek, Ed, Er. }
  cbn [mbind option_bind]. rewrite strip_prefix_app. cbn [mbind option_bind].
  rewrite split_once_app by by eapply signed_no_comma.
  cbn [mbind option_bind]. rewrite strip_prefix_app. cbn [mbind option_bind].
  subst cr. by rewrite parse_scope_text.
Qed.

(** ** The headers of a signed request, as they are received *)

Lemma btree_get_elem {V} k v (m : list (string * V)) :
  btree_sorted m -> (k, v) ∈ m -> btree_get k m = Some v.
Proof.
  unfold btree_sorted. induction m as [|[k' v'] m IH]; intros S I; [by apply elem_of_nil in I|].
  cbn in S. apply StronglySorted_inv in S as [S F]. cbn.
  apply elem_of_cons in I as [[= -> ->]|I]; [by rewrite String.eqb_refl|].
  destruct (String.eqb_spec k k') as [->|]; [|by apply IH].
  rewrite Forall_forall in F. destruct (F k') as [_ N]; [|done].
  by apply (list_elem_of_fmap_2 fst) in I.
Qed.

Lemma render_canonical_lines hs m L : groups L m ->
  (forall k, k ∈ m.*1 -> values_of k L = trim_all <$> header_values k hs) ->
  str_concat (header_line hs <$> m.*1) = render_canonical m.
Proof.
  intros (S & HL & _) Hv.
  assert (forall b, b ∈ m -> b.2 = trim_all <$> header_values b.1 hs) as Hb.
  { intros [k vs] Hb. cbn. rewrite <- Hv by by apply (list_elem_of_fmap_2 fst) in Hb.
    rewrite <- HL. unfold btree_values. by rewrite (btree_get_elem k vs). }
  clear -Hb. induction m as [|b m IH]; [done|]. cbn. rewrite IH by set_solver.
  unfold header_line. rewrite <- (Hb b) by left. by rewrite !app_assoc_str.
Qed.

(** What the two date layouts of the documentation have in common, and how a
service reads one. *)
Class Calendar `{Primitives} : Type := {
  seconds_of : string -> option Z;
  date_prefix : forall t a d, format_amz_date t = Some a -> format_date t = Some d ->
    starts_with d a = true;
  seconds_of_date : forall t a, format_amz_date t = Some a -> seconds_of a = Some (as_secs t)
}.

Lemma format_timestamp_prefix `{Calendar} t a d : format_timestamp t = Ok (a, d) ->
  starts_with d a = true /\ seconds_of a = Some (as_secs t).
Proof.
  unfold format_timestamp, ok_or. intros Hf. steps_in Hf.
  split; [by eapply date_prefix | by eapply seconds_of_date].
Qed.

(** The signature is the one the service expects of the same canonical request. *)
Lemma expected_signature_spec `{Primitives} cr r date amz request sig :
  calculate_signature cr {| region := r; service := "s3" |} date amz
    (credential_scope date {| region := r; service := "s3" |}) request = Ok sig ->
  expected_signature (secret_access_key cr)
    {| key_id := access_key_id cr; scope_date := date; scope_region := r |} amz request = Some sig.
Proof.
  unfold calculate_signature, derive_signing_key, SigningKey_sign, hmac_sha256, expected_signature.
  cbn [scope_date scope_region region service]. intros Hs.
  destruct (hmac ("AWS4" +:+ _) _) as [k|]; cbn in *; [|done].
  destruct (hmac k r) as [k1|]; cbn in *; [|done]. destruct (hmac k1 "s3") as [k2|]; cbn in *; [|done].
  destruct (hmac k2 "aws4_request") as [k3|]; cbn in *; [|done].
  rewrite hex_spec. unfold payload_sha256_hex, payload_sha256 in Hs.
  change (join "/" _) with (credential_scope date {| region := r; service := "s3" |}).
  destruct (hmac k3 _); cbn in *; [|done]. injection Hs as <-. by rewrite hex_spec.
Qed.

Section headers.
Set Default Proof Using "Type*".
Context `{HttpLaws} `{HttpUri} `{World} `{PrimitivesLaws}.

Definition received (h : HeaderMap) : list (string * string) :=
  (fun p => (p.1, hv_bytes p.2)) <$> hm_iter h.

Lemma header_values_received h k : header_values k (received h) = hv_bytes <$> hm_get_all h k.
Proof.
  unfold header_values, received. rewrite hm_iter_get_all.
  induction (hm_iter h) as [|[k' v] l IH]; [done|]. rewrite fmap_cons, !filter_cons. cbn [fst snd].
  case_decide; [|done]. rewrite !fmap_cons. cbn [snd]. by rewrite IH.
Qed.

Lemma unsigned_headers_lower i h : unsigned_headers i = Ok h -> lower_named (si_headers i) ->
  lower_named h.
Proof using All.
  unfold unsigned_headers. intros Hu Hl. steps_in Hu. inv_ok.
  repeat match goal with E : set_header _ _ _ _ = Ok _ |- _ =>
    apply set_header_ok in E as (? & _ & _ & ->) end.
  destruct (si_body i); repeat apply lower_named_insert; done.
Qed.

Lemma values_of_owned h l k : owned_headers h = Ok l -> lower_named h ->
  values_of k l = trim_all <$> header_values k (received h).
Proof.
  unfold owned_headers, lower_named, received, header_values. revert l.
  induction (hm_iter h) as [|[n v] hs IH]; intros l Hl F; [by injection Hl as <-|].
  cbn [try_map] in Hl. destruct (hv_to_str v) as [s|] eqn:Ev; cbn [ok_or] in Hl; [|done].
  destruct (try_map _ hs) as [l'|] eqn:Et; [|done]. injection Hl as <-.
  apply Forall_cons in F as [Fn F]. apply hv_to_str_bytes in Ev as [<- _].
  specialize (IH _ eq_refl F). unfold values_of in *. cbn [fst] in Fn.
  rewrite fmap_cons, !filter_cons. cbn [fst snd h_name hdr]. rewrite Fn.
  case_decide; [|done]. rewrite !fmap_cons. cbn [snd h_value]. by rewrite IH, trim_all_spec.
Qed.

Lemma signed_map_get signed h h' : signed_headers signed h = Ok h' ->
  header_values "authorization" (received h') = [authorization signed] /\
  header_values "x-amz-date" (received h') = [amz_date signed] /\
  header_values "x-amz-security-token" (received h')
    = match security_token signed with
      | Some t => [t]
      | None => header_values "x-amz-security-token" (received h)
      end /\
  forall k, k ∉ reserved_names -> hm_get_all h' k = hm_get_all h k.
Proof using All.
  unfold signed_headers, reserved_names. rewrite !header_values_received. intros Hs.
  destruct (set_header "authorization" _ _ _) as [ha|] eqn:Ea; [|done].
  destruct (set_header "x-amz-date" _ _ _) as [hd|] eqn:Ed; [|done].
  apply set_header_ok in Ea as (wa & _ & Ea & ->), Ed as (wd & _ & Ed & ->).
  destruct (security_token signed) as [t|].
  1: apply set_header_ok in Hs as (wt & _ & Et & ->).
  2: injection Hs as <-.
  all: split_and!; intros;
      repeat first [rewrite hm_get_all_insert | rewrite hm_get_all_insert_ne by set_solver];
      cbn; congruence.
Qed.

Lemma sign_headers_signature cr sc rq t out : sign_headers cr sc rq t = Ok out ->
  exists date ch request sig,
    validate_common cr sc (hs_method rq) = Ok tt /\
    reject_reserved_headers (hs_headers rq) = Ok tt /\
    format_timestamp t = Ok (amz_date out, date) /\
    canonical_headers (signing_headers cr (hs_headers rq) (amz_date out)) = Ok ch /\
    build_canonical_request (hs_method rq) (hs_uri_path rq) (hs_query rq) ch (hs_payload_hash rq)
      = Ok request /\
    calculate_signature cr sc date (amz_date out) (credential_scope date sc) request = Ok sig /\
    security_token out = session_token cr /\
    authorization out = ALGORITHM +:+ " Credential=" +:+ access_key_id cr +:+ "/"
      +:+ credential_scope date sc +:+ ", SignedHeaders=" +:+ signed ch +:+ ", Signature=" +:+ sig.
Proof using Type.
  unfold sign_headers. intros Hs. steps_in Hs. destruct a, a1. eauto 20.
Qed.

(** The same headers with the transport's [user-agent]. *)
Definition sent_headers (tr : Transport) (h : HeaderMap) : HeaderMap :=
  if hm_contains h "user-agent" then h else hm_insert "user-agent" (user_agent tr) h.

Lemma sent_headers_get tr h k : (k = "user-agent" -> hm_contains h k = true) ->
  header_values k (received (sent_headers tr h)) = header_values k (received h).
Proof using All.
  intros Hk. unfold sent_headers. destruct (hm_contains h "user-agent") eqn:E; [done|].
  rewrite !header_values_received, hm_get_all_insert_ne; [done|].
  intros <-. rewrite Hk in E by done. done.
Qed.
End headers.

Lemma values_of_nonempty k hs :
  k ∈ ((fun h => to_ascii_lowercase (h_name h)) <$> hs) -> values_of k hs <> [].
Proof.
  intros (h & -> & Hh)%list_elem_of_fmap. unfold values_of.
  destruct (filter _ hs) as [|x l] eqn:E; [|done].
  assert (I : h ∈ filter (fun g => to_ascii_lowercase (h_name g) = to_ascii_lowercase (h_name h)) hs)
    by by apply list_elem_of_filter.
  rewrite E in I. by apply elem_of_nil in I.
Qed.

Lemma trim_all_alphanumeric s : str_all is_ascii_alphanumeric s = true -> trim_all s = s.
Proof. intros Hs. rewrite trim_all_spec. by apply normalize_alphanumeric. Qed.

Lemma values_of_other k n v : to_ascii_lowercase n = n -> n <> k ->
  values_of k [hdr n v] = [].
Proof. intros E N. unfold values_of. rewrite filter_cons, decide_False; [done|]. cbn [h_name hdr]. by rewrite E. Qed.

Section accepted.
Set Default Proof Using "All".
Context `{HttpLaws} `{HttpUri} `{World} `{PrimitivesLaws}.
Variables (i : SignedRequestInput) (h h' : HeaderMap) (owned : list Header) (tr : Transport).
Variables (cr : SigningCredentials) (sc : SigningScope) (t : Z) (out : HeaderSigningOutput).
Hypothesis Hunsigned : unsigned_headers i = Ok h.
Hypothesis Hlower : lower_named (si_headers i).
Hypothesis Howned : owned_headers h = Ok owned.
Hypothesis Hsign : sign_headers cr sc (signing_request i owned) t = Ok out.
Hypothesis Hsigned : signed_headers out h = Ok h'.

#[local] Notation L := (signing_headers cr owned (amz_date out)).
#[local] Notation names l := ((fun x => to_ascii_lowercase (h_name x)) <$> l).

Lemma names_cases k : k ∈ names L ->
  k ∈ names owned \/ k = "x-amz-date" \/
  (k = "x-amz-security-token" /\ session_token cr <> None).
Proof.
  unfold signing_headers. rewrite !fmap_app, !elem_of_app.
  intros [?|[I|I]]; [by left|right; left|right; right].
  - by apply list_elem_of_singleton in I.
  - destruct (session_token cr); [|by apply elem_of_nil in I].
    by apply list_elem_of_singleton in I.
Qed.

Lemma signed_values k : k ∈ names L ->
  values_of k L = trim_all <$> header_values k (received h').
Proof.
  intros Hk. pose proof (sign_headers_signature _ _ _ _ _ Hsign)
    as (date & ch & rq & sig & _ & Hr & Hf & _ & _ & _ & Ht & _).
  cbn [signing_request hs_headers] in Hr. apply format_timestamp_ok in Hf as [Hamz _].
  destruct (signed_map_get _ _ _ Hsigned) as (Ga & Gd & Gt & Go).
  destruct (signing_headers_values cr owned (amz_date out) Hr Hamz) as (Va & Vd & Vt).
  pose proof (values_of_nonempty _ _ Hk) as N.
  destruct (decide (k ∈ reserved_names)) as [R|R].
  - unfold reserved_names in R. rewrite !elem_of_cons, elem_of_nil in R.
    destruct R as [->|[->|[->|[]]]].
    + by rewrite Va in N.
    + rewrite Vd, Gd. cbn. by rewrite trim_all_alphanumeric.
    + rewrite Vt in *. rewrite Gt, Ht. destruct (session_token cr) as [s|]; [|done]. cbn.
      by rewrite trim_all_spec.
  - rewrite header_values_received, Go, <- header_values_received by done.
    rewrite <- (values_of_owned _ _ _ Howned) by by eapply unsigned_headers_lower.
    unfold reserved_names in R. rewrite !elem_of_cons in R. unfold signing_headers.
    rewrite !values_of_app, (values_of_other k "x-amz-date") by first [reflexivity | intros <-; tauto].
    destruct (session_token cr); [rewrite (values_of_other k "x-amz-security-token") by first [reflexivity | intros <-; tauto]|];
      by rewrite app_nil_r.
Qed.

Lemma caller_has_no n : n ∈ reserved_names -> header_values n (received h) = [].
Proof.
  intros Hn. pose proof (sign_headers_signature _ _ _ _ _ Hsign)
    as (date & ch & rq & sig & _ & Hr & _). cbn in Hr.
  pose proof (values_of_owned _ _ n Howned) as V. rewrite values_of_none in V.
  - specialize (V (unsigned_headers_lower _ _ Hunsigned Hlower)). symmetry in V.
    by apply fmap_nil_inv in V.
  - by eapply reject_reserved_headers_ok.
  - unfold reserved_names in Hn. rewrite !elem_of_cons, elem_of_nil in Hn.
    destruct Hn as [->|[->|[->|[]]]]; done.
Qed.

(** The lines of the received headers are the lines that were signed. *)
Lemma sent_values k : k ∈ names L ->
  values_of k L = trim_all <$> header_values k (received (sent_headers tr h')).
Proof.
  intros Hk. rewrite sent_headers_get; [by apply signed_values|]. intros ->.
  apply names_cases in Hk as [Hk|[Hk|[Hk _]]]; [|done|done].
  destruct (signed_map_get _ _ _ Hsigned) as (_ & _ & _ & Go).
  apply values_of_nonempty in Hk.
  assert (R : "user-agent" ∉ reserved_names) by (unfold reserved_names; set_solver).
  rewrite (values_of_owned _ _ _ Howned), header_values_received, <- (Go _ R) in Hk
    by by eapply unsigned_headers_lower.
  unfold hm_contains, hm_get. by destruct (hm_get_all h' "user-agent").
Qed.

(** Every received header that must be signed is. *)
Lemma sent_all_signed k v : (k, v) ∈ hm_iter (sent_headers tr h') -> must_be_signed k = true ->
  k ∈ names L.
Proof.
  intros Hi Hm.
  assert (Hi' : (k, v) ∈ hm_iter h').
  { unfold sent_headers in Hi. destruct (hm_contains h' "user-agent"); [done|].
    by apply hm_iter_insert in Hi as [[-> _]|[_ Hi]]. }
  unfold signing_headers. rewrite !fmap_app, !elem_of_app.
  destruct (signed_headers_elem _ _ _ _ _ Hsigned Hi') as [[-> _]|[[-> _]|[[-> Et]|I]]].
  - done.
  - right. left. by apply list_elem_of_singleton.
  - right. right. pose proof (sign_headers_signature _ _ _ _ _ Hsign)
      as (date & ch & rq & sig & _ & _ & _ & _ & _ & _ & Ht & _).
    rewrite Ht in Et. rewrite <- Et. by apply list_elem_of_singleton.
  - left. pose proof (owned_headers_elem _ _ _ _ Howned I) as O.
    pose proof (unsigned_headers_lower _ _ Hunsigned Hlower) as F.
    unfold lower_named in F. rewrite Forall_forall in F. specialize (F _ I). cbn in F.
    rewrite <- F. by apply (list_elem_of_fmap_2 (fun x => to_ascii_lowercase (h_name x))) in O.
Qed.

Variables (grant : string -> option Grant) (w : Wire).
Context `{!Calendar}.
Hypothesis Hgrant : grant (access_key_id cr)
  = Some {| g_secret := secret_access_key cr; g_token := session_token cr |}.
Hypothesis Hscope : service sc = "s3".
Hypothesis Hmethod : w_method w = si_method i.
Hypothesis Hpath : exists u, canonical_uri_from_encoded (signed_path (si_target i)) = Ok u /\
  wire_path (w_path w) = Some u.
Hypothesis Hquery : exists ps, wire_parameters (w_query w) = Some ps /\
  query_line ps = canonical_query (si_query i).
Hypothesis Hheaders : w_headers w = received (sent_headers tr h').

Lemma sent_all_signed_names m : groups L m -> "host" ∈ m.*1 -> all_signed (w_headers w) (m.*1) = true.
Proof.
  intros (_ & _ & K) Hh. unfold all_signed. rewrite bool_decide_eq_true_2 by done. cbn.
  apply forallb_forall. intros [k b] Hb. rewrite Hheaders in Hb. apply list_elem_of_In in Hb.
  unfold received in Hb. apply list_elem_of_fmap in Hb as ([k' v] & [= -> ->] & Hi). cbn in *.
  destruct (must_be_signed k') eqn:Em; [|done]. cbn.
  rewrite bool_decide_eq_true_2; [done|]. apply K. by eapply sent_all_signed.
Qed.

Lemma sent_single k : k <> "user-agent" ->
  header_values k (w_headers w) = header_values k (received h').
Proof. intros N. rewrite Hheaders. by apply sent_headers_get. Qed.

Lemma request_accepted : verify_request grant (region sc) w = true.
Proof.
  assert (Esc : sc = {| region := region sc; service := "s3" |})
    by (destruct sc; cbn in *; congruence).
  pose proof (sign_headers_signature _ _ _ _ _ Hsign)
    as (date & ch & rq & sig & Hv & _ & Hf & Hc & Hb & Hs & Ht & Ha).
  destruct (signed_map_get _ _ _ Hsigned) as (Ga & Gd & Gt & Go).
  destruct (unsigned_headers_ok _ _ Hunsigned) as (_ & (wp & Gp & Ep) & _).
  apply validate_common_ok in Hv as (Hk & Hr & _). rewrite Esc in Ha, Hs. cbn [region] in Ha, Hs.
  destruct (format_timestamp_ok _ _ _ Hf) as [_ Hd].
  destruct (format_timestamp_prefix _ _ _ Hf) as [Hpre _].
  destruct Hpath as (u & Hu & Hw), Hquery as (ps & Hps & Hq).
  destruct (canonical_headers_names _ _ Hc) as (m & G & Em & En & Ne & Hh & Fs).
  unfold verify_request. rewrite !sent_single by done. rewrite Ga. cbn [only mbind option_bind].
  rewrite Ha. erewrite parse_authorization_text by done. cbn [mbind option_bind key_id].
  rewrite Hgrant, Gd. cbn [mbind option_bind only].
  rewrite (header_values_received h' "x-amz-content-sha256"), (Go "x-amz-content-sha256"), Gp by (unfold reserved_names; set_solver).
  cbn [mbind option_bind only fmap list_fmap]. rewrite Ep, Hps. cbn [mbind option_bind default from_option].
  rewrite En, split_all_join by (done || by eapply Forall_impl; [exact Fs|]; intros k' [? _]).
  apply andb_true_iff. split.
  { apply bool_decide_eq_true. rewrite Gt, Ht. cbn [g_token].
    destruct (session_token cr) as [tok|]; [done|]. apply caller_has_no.
    unfold reserved_names. set_solver. }
  unfold check_signature. cbn [scope_region scope_date].
  rewrite bool_decide_eq_true_2, Hpre, (sent_all_signed_names m) by done. cbn [andb].
  apply bool_decide_eq_true. unfold wire_canonical_request. rewrite Hw, Hq, Hmethod, Hheaders.
  cbn [mbind option_bind].
  rewrite (render_canonical_lines _ m L G) by (intros k' Hk'; apply sent_values; by apply G).
  apply build_canonical_request_parts in Hb as (u' & Hu' & _ & _ & ->). cbn in Hu'.
  rewrite Hu in Hu'. injection Hu' as <-. rewrite <- Em, <- En.
  by eapply expected_signature_spec.
Qed.
End accepted.

(** ** The target of a request, as the service reads it *)

Definition plain (s : string) : Prop := str_any (one_of "/?#") s = false.

(** How the [http] crate takes a URI apart: the authority ends at the first
delimiter, the path at the first question mark. *)
Class HttpUriLaws `{HttpUri} : Prop := {
  parse_authority_plain : forall s a, parse_authority s = Some a ->
    plain (auth_str a) /\ plain (auth_host a);
  parse_uri_authority_plain : forall s u a, parse_uri s = Some u -> uri_authority u = Some a ->
    plain (auth_str a);
  parse_uri_parts : forall s a p u, s ∈ ["https"; "http"] -> plain a ->
    starts_with "/" p = true -> contains_char "#" p = false ->
    parse_uri (s +:+ "://" +:+ a +:+ p) = Some u ->
    auth_str <$> uri_authority u = Some a /\ uri_path u = target_path p /\
    uri_query u = snd <$> split_once "?" p
}.

(** A path written by percent-encoding, slashes kept. *)
Definition encoded_path (p : string) : Prop := exists d, p = aws_uri_encode d false.

Lemma encoded_no_question d b : contains_char "?" (aws_uri_encode d b) = false.
Proof. eapply class_excludes; [apply aws_uri_encode_bytes|]. by destruct b; vm_compute. Qed.
Lemma encoded_no_hash d b : contains_char "#" (aws_uri_encode d b) = false.
Proof. eapply class_excludes; [apply aws_uri_encode_bytes|]. by destruct b; vm_compute. Qed.

Lemma encode_rooted d : starts_with "/" (aws_uri_encode d false) = true -> starts_with "/" d = true.
Proof.
  destruct d as [|c d]; [done|]. unfold aws_uri_encode. cbn [str_flat_map].
  destruct (encode_byte_cases false c) as [[-> _]| ->]; by intros [r [=]]%starts_with_slash; subst.
Qed.

Lemma encode_component b : contains_char "/" b = false -> aws_uri_encode b true = aws_uri_encode b false.
Proof.
  unfold contains_char, aws_uri_encode. induction b as [|c b IH]; [done|]. cbn. intros Hb. bools.
  rewrite IH by done. f_equal. unfold aws_uri_encode_byte. cbn.
  destruct (Ascii.eqb_spec c "/") as [->|]; [done|]. done.
Qed.

Lemma snoc_inj r s a b : r +:+ String a "" = s +:+ String b "" -> r = s /\ a = b.
Proof.
  intros E. apply (f_equal str_rev) in E. rewrite !str_rev_append in E. injection E as -> E.
  apply (f_equal str_rev) in E. by rewrite !str_rev_involutive in E.
Qed.

Lemma percent_snoc c : exists p l, percent c = p +:+ String l "" /\ Ascii.eqb l "/" = false.
Proof.
  exists (String "%" (String (hex_at HEX_UPPER (hi4 c)) "")), (hex_at HEX_UPPER (lo4 c)).
  split; [done|all_bytes c].
Qed.

Lemma pop_char_encoded d : ends_with "/" (aws_uri_encode d false) = true ->
  encoded_path (pop_char (aws_uri_encode d false)).
Proof.
  intros [r Hr]%ends_with_Some.
  destruct (str_rev d) as [|c v] eqn:Ev.
  - apply (f_equal str_rev) in Ev. rewrite str_rev_involutive in Ev. subst d. by exists "".
  - apply (f_equal str_rev) in Ev. rewrite str_rev_involutive, str_rev_cons in Ev. subst d.
    rewrite Hr, pop_char_snoc, aws_uri_encode_app in *.
    assert (E : aws_uri_encode (String c "") false = aws_uri_encode_byte false c)
      by apply app_nil_r_str.
    rewrite E in Hr. destruct (encode_byte_cases false c) as [[Ec _]|Ec]; rewrite Ec in Hr.
    + apply snoc_inj in Hr as [<- _]. by exists (str_rev v).
    + destruct (percent_snoc c) as (p & l & Ep & Hl). rewrite Ep, <- app_assoc_str in Hr.
      apply snoc_inj in Hr as [_ ->]. done.
Qed.

Lemma object_path_encoded e b k st :
  is_empty b = false -> contains_char "/" b = false -> encoded_path (base_path e) ->
  ends_with "/" (base_path e) = true -> encoded_path (object_path e b k st).
Proof.
  intros N S [d Hd] He. destruct k as [k|], st.
  - rewrite object_path_key_path, encode_component, Hd by done.
    exists (d +:+ b +:+ "/" +:+ k). by rewrite !aws_uri_encode_app.
  - rewrite object_path_key_virtual, Hd. exists (d +:+ k). by rewrite aws_uri_encode_app.
  - unfold object_path. cbn. rewrite encode_path_component_spec, encode_component, Hd by done.
    exists (d +:+ b). by rewrite aws_uri_encode_app.
  - unfold object_path. rewrite bool_decide_eq_true_2 by done. cbn [andb].
    destruct (1 <? slen (base_path e)); [|by exists d]. rewrite Hd in *. by apply pop_char_encoded.
Qed.

Section targets.
Set Default Proof Using "All".
Context `{HttpUriLaws}.

(** A URL that is read back as it was put together. *)
Record readable (u : EndpointUrl) (path : string) (query : option string) : Prop := {
  r_serialized : serialized u = scheme u +:+ "://" +:+ authority u +:+ path_and_query u;
  r_scheme : scheme u ∈ ["https"; "http"];
  r_authority : plain (authority u);
  r_path : encoded_path path;
  r_rooted : starts_with "/" path = true;
  r_target : path_and_query u = path +:+ from_option (fun q => "?" +:+ q) "" query;
  r_query : forall q, query = Some q -> contains_char "#" q = false
}.

Lemma readable_target_path u p q : readable u p q -> target_path (path_and_query u) = p.
Proof.
  intros [_ _ _ [d ->] _ -> _]. unfold target_path. destruct q as [q|]; cbn.
  - by rewrite split_once_app by apply encoded_no_question.
  - by rewrite app_nil_r_str, split_once_None by apply encoded_no_question.
Qed.

Lemma readable_uri u p q uri : readable u p q -> request_uri u = Some uri ->
  auth_str <$> uri_authority uri = Some (authority u) /\ uri_path uri = p /\ uri_query uri = q.
Proof.
  intros R Hu. pose proof (readable_target_path _ _ _ R) as Ht. destruct R as [Es Hs Ha [d Ed] Hr Ep Hq].
  unfold request_uri in Hu. rewrite Es in Hu.
  apply parse_uri_parts in Hu as (A & P & Q); try done.
  - rewrite Ht in P. split_and!; [done..|]. rewrite Q, Ep, Ed. destruct q as [q|]; cbn.
    + by rewrite split_once_app by apply encoded_no_question.
    + by rewrite app_nil_r_str, split_once_None by apply encoded_no_question.
  - destruct (starts_with_slash _ Hr) as [x Ex]. rewrite Ep, Ex, app_assoc_str. apply starts_with_app.
  - rewrite Ep. unfold contains_char in *. rewrite str_any_app, Ed.
    rewrite (encoded_no_hash d false : str_any _ _ = false).
    destruct q as [q|]; [|done]. cbn. by apply Hq.
Qed.

Lemma readable_signed_path u p q : readable u p q ->
  signed_path u = p /\ canonical_uri_from_encoded p = Ok p /\ wire_path p = Some p.
Proof.
  intros R. pose proof (readable_target_path _ _ _ R) as Ht.
  split; [exact Ht|]. destruct R as [_ _ _ [d ->] Hr _ _]. split.
  - destruct (starts_with_slash _ Hr) as [x Ex]. rewrite Ex.
    apply canonical_path_rooted. rewrite <- Ex. apply canonical_path_encoded.
  - apply wire_path_encoded. apply encode_rooted in Hr. by destruct d.
Qed.

Lemma Endpoint_new_plain input e : Endpoint_new input = Ok e ->
  plain (authority (url e)) /\ serialized (url e)
    = scheme (url e) +:+ "://" +:+ authority (url e) +:+ path_and_query (url e).
Proof.
  unfold Endpoint_new, ok_or. intros He.
  destruct (contains_char "#" input); [done|]. destruct (parse_uri input) as [u|] eqn:Eu; [|done].
  destruct (uri_scheme u) as [sc|]; [|done].
  destruct (uri_authority u) as [a|] eqn:Ea; [|by destruct sc].
  pose proof (parse_uri_authority_plain _ _ _ Eu Ea) as P.
  destruct sc; [..|done]; repeat (case_match; [done|]);
    (destruct (EndpointUrl_from_parts _ _ _) as [ur|] eqn:F; [|done]); injection He as <-;
    by apply from_parts_ok in F as [-> _].
Qed.

Lemma object_authority_plain e b st a : plain (authority (url e)) ->
  object_authority e b st = Ok a -> plain a.
Proof.
  unfold object_authority, ok_or. intros Pe Ho. destruct st; [by injection Ho as <-|].
  destruct (validate_virtual_host_bucket b) as [v|] eqn:V; [|done].
  destruct (parse_authority _) as [p|] eqn:Ep; [|done]. destruct (IpParser.is_ip _); [done|].
  apply parse_authority_plain in Ep as [_ Hh]. unfold plain in *.
  assert (Hb : str_any (one_of "/?#") b = false).
  { unfold validate_virtual_host_bucket in V. destruct (_ || IpParser.is_ip b) eqn:W; [done|].
    bools. match goal with B : str_all _ b = true |- _ => eapply str_any_none; [|exact B] end.
    intros c. all_bytes c. }
  assert (forall x y : string, @Ok S3Error.t _ x = Ok y -> x = y) as J by congruence.
  destruct (auth_port p) as [port|]; apply J in Ho as <-; rewrite !str_any_app, Hb, Hh; [|done].
  eapply (str_any_none is_ascii_digit); [|apply to_string_digits]. intros c. all_bytes c.
Qed.

Lemma object_url_readable input e b k st u :
  Endpoint_new input = Ok e -> encoded_path (base_path e) -> object_url e b k st = Ok u ->
  readable u (path_and_query u) None.
Proof.
  intros He Hb Hu. destruct (Endpoint_new_plain _ _ He) as [Pa _].
  apply Endpoint_new_ok in He as (_ & Hs & Hx & Hsc & _).
  destruct (object_url_ok _ _ _ _ _ Hu) as (N & S & A & Esc & P & _).
  destruct (starts_with_slash _ Hs) as [t Et].
  destruct (object_path_canonical e b k st t N) as [_ [r Er]]; [|done..|].
  { destruct Hb as [d ->]. apply canonical_path_encoded. }
  split.
  - unfold object_url in Hu. rewrite A in Hu. destruct (validate_bucket_for_path b); [|done].
    by apply from_parts_ok in Hu as [-> _].
  - rewrite Esc. set_solver.
  - by eapply object_authority_plain.
  - rewrite P. by apply object_path_encoded.
  - rewrite P, Er. apply starts_with_app.
  - cbn. by rewrite app_nil_r_str.
  - done.
Qed.

Lemma canonical_query_no_hash ps : contains_char "#" (canonical_query ps) = false.
Proof.
  destruct (canonical_query_encodes ps) as (qs & _ & ->). rewrite render_query_join.
  apply str_any_false, join_all; [done|]. rewrite <- list_fmap_compose.
  apply Forall_fmap, Forall_true. intros p. cbn. rewrite str_all_app. apply andb_true_iff.
  split; [|cbn]; apply str_any_false, encoded_no_hash.
Qed.

Lemma with_query_readable u p qs v : readable u p None ->
  with_query u (canonical_query qs) = Ok v ->
  readable v p (if is_empty (canonical_query qs) then None else Some (canonical_query qs)).
Proof.
  intros R Hv. pose proof (readable_target_path _ _ _ R) as Ht.
  destruct (with_query_ok _ _ _ Hv) as (Es & Ea & _ & Ep & _). rewrite Ht in Ep.
  destruct R as [_ Hs Ha Hp Hr _ _]. split; try congruence.
  - unfold with_query in Hv. destruct (_ || _); [done|]. by apply from_parts_ok in Hv as [-> _].
  - rewrite Ep. by destruct (is_empty _).
  - intros q. destruct (is_empty _); [done|]. intros [= <-]. apply canonical_query_no_hash.
Qed.

Lemma with_authority_readable u a p q v : readable u p q -> with_authority u a = Ok v ->
  readable v p q.
Proof.
  unfold with_authority. intros [_ Hs _ Hp Hr Ht Hq]. destruct (parse_authority a) as [x|] eqn:Ex; [|done].
  apply parse_authority_plain in Ex as [Px _]. destruct (_ || _); [done|].
  intros Hv. apply from_parts_ok in Hv as [-> _]. by split.
Qed.

(** What the service reads of the target of a request. *)
Lemma readable_parameters u p qs uri :
  readable u p (if is_empty (canonical_query qs) then None else Some (canonical_query qs)) ->
  request_uri u = Some uri ->
  (exists x, canonical_uri_from_encoded (signed_path u) = Ok x /\ wire_path (uri_path uri) = Some x) /\
  (exists ps, wire_parameters (uri_query uri) = Some ps /\ query_line ps = canonical_query qs).
Proof.
  intros R Hu. destruct (readable_uri _ _ _ _ R Hu) as (_ & -> & ->).
  destruct (readable_signed_path _ _ _ R) as (-> & Hc & Hw).
  split; [by exists p|]. destruct (is_empty (canonical_query qs)) eqn:E.
  - exists []. split; [done|]. destruct (canonical_query qs) as [|c s] eqn:Eq; [done|done].
  - destruct (wire_parameters_canonical qs) as (ps & _ & Hps & Hq). by exists ps.
Qed.
End targets.

(** ** Requests as they are received *)

Section requests.
Set Default Proof Using "All".
Context `{HttpLaws} `{HttpUriLaws} `{World} `{PrimitivesLaws} `{!Calendar} `{Documents} `{HttpText}.

(** The request on the wire; the URI is the panic of [request_uri] otherwise. *)
Definition wire_of (rq : Request) : option Wire :=
  uri ← rq_uri rq;
  Some {| w_method := rq_method rq; w_path := uri_path uri; w_query := uri_query uri;
          w_headers := received (rq_headers rq) |}.

(** The service knows the credentials the provider hands out. *)
Definition knows (grant : string -> option Grant) (provider : CredentialsProvider) : Prop :=
  forall w cr, provider w = Ok cr ->
    grant (Credentials.access_key_id cr)
    = Some {| g_secret := Credentials.secret_access_key cr; g_token := Credentials.session_token cr |}.

Lemma signed_request_accepted (tr : Transport) (provider : CredentialsProvider)
    (at_ : SigningMoment) (i : SignedRequestInput) (rq : Request) (left : option PreparedBody)
    (grant : string -> option Grant) (p : string) :
  signed_request provider at_ i = (Ok rq, left) -> permitted_scheme tr rq = true ->
  readable (si_target i) p
    (if is_empty (canonical_query (si_query i)) then None else Some (canonical_query (si_query i))) ->
  lower_named (si_headers i) -> knows grant provider ->
  exists w, wire_of (with_user_agent tr rq) = Some w /\
    verify_request grant (si_signing_region i) w = true.
Proof.
  intros Hs Hp R Hl Hk.
  apply signed_request_ok in Hs as (cr & h & owned & out & b & Hh & Hc & _ & Ho & Hs & Hr & _ & E).
  assert (exists uri, rq_uri rq = Some uri) as [uri Hu].
  { unfold permitted_scheme, scheme_str in Hp. destruct (rq_uri rq); [eauto|]. cbn in Hp.
    rewrite !bool_decide_eq_false_2, andb_false_r in Hp by done. done. }
  eexists. unfold wire_of. cbn [with_user_agent rq_uri]. rewrite Hu. split; [done|].
  rewrite E in Hu. cbn [rq_uri] in Hu.
  destruct (readable_parameters _ _ _ _ R Hu) as [Hpath Hquery].
  eapply (request_accepted i h (rq_headers rq) owned tr (signing_credentials cr)
    {| region := si_signing_region i; service := "s3" |}); try done.
  - by apply (Hk _ _ Hc).
  - by rewrite E.
Qed.

(** A target of an operation, before and after a redirect. *)
Lemma operation_readable (c : S3Client) (input : string) (key : option string)
    (target home : EndpointUrl) (query : list QueryParam) :
  Endpoint_new input = Ok (S3Config.endpoint (config c)) ->
  encoded_path (base_path (S3Config.endpoint (config c))) ->
  operation_target c key = Ok target -> with_query target (canonical_query query) = Ok home ->
  let q := if is_empty (canonical_query query) then None else Some (canonical_query query) in
  readable home (path_and_query target) q /\
  forall t region, redirect_of c home t region -> readable t (path_and_query target) q.
Proof.
  intros He Hb Ht Hh q. pose proof (object_url_readable _ _ _ _ _ _ He Hb Ht) as R.
  pose proof (with_query_readable _ _ _ _ R Hh) as R'. split; [exact R'|].
  intros t region (a & _ & Hw). by eapply with_authority_readable.
Qed.
End requests.

(** ** Presigned URLs as they are received *)

(** What a client that is given the URL sends: its own headers besides the host. *)
Definition presigned_wire (method : string) (uri : Uri) (extra : list (string * string)) : Wire :=
  {| w_method := method; w_path := uri_path uri; w_query := uri_query uri;
     w_headers := ("host", from_option auth_str "" (uri_authority uri)) :: extra |}.

Lemma split_all_snoc c s t : contains_char c t = false ->
  split_all c (s +:+ String c t) = split_all c s ++ [t].
Proof.
  intros Ht. induction s as [|d s IH].
  - cbn. rewrite split_all_plain by done. by rewrite Ascii.eqb_refl.
  - cbn. rewrite IH. pose proof (split_all_nonempty c s).
    destruct (split_all c s); [done|]. cbn. by destruct (d =? c)%char.
Qed.

(** The parameters of a presigned query: those that were signed, and the signature. *)
Lemma wire_parameters_presigned ps sig : ps <> [] -> str_all is_lower_hex sig = true ->
  exists qs, qs ≡ₚ ps /\
    wire_parameters (Some (canonical_query ps +:+ "&X-Amz-Signature=" +:+ sig))
      = Some (qs ++ [qp "X-Amz-Signature" sig]) /\
    query_line qs = canonical_query ps.
Proof.
  intros Ne Hx. destruct (wire_parameters_canonical ps) as (qs & P & Hq & Hl).
  exists qs. split_and!; [done| |done]. unfold wire_parameters in *.
  destruct (is_empty (canonical_query ps)) eqn:E.
  { injection Hq as <-. apply Permutation_nil_l in P. done. }
  assert (is_empty (canonical_query ps +:+ "&X-Amz-Signature=" +:+ sig) = false) as ->
    by (by destruct (canonical_query ps)).
  change ("&X-Amz-Signature=" +:+ sig) with (String "&" ("X-Amz-Signature=" +:+ sig)).
  assert (Hn : forall d, is_lower_hex d = false -> contains_char d sig = false)
    by (intros d; by apply class_excludes).
  rewrite split_all_snoc.
  2:{ unfold contains_char. rewrite str_any_app. by rewrite (Hn "&"%char eq_refl : str_any _ _ = false). }
  apply mapM_Some, Forall2_app; [by apply mapM_Some|]. constructor; [|done].
  unfold wire_parameter. change ("X-Amz-Signature=" +:+ sig) with ("X-Amz-Signature" +:+ String "=" sig).
  rewrite split_once_app by done. cbn.
  rewrite (pct_decode_plain sig) by (apply Hn; done). done.
Qed.

Lemma parameter_app n ps qs : parameter n (ps ++ qs) = parameter n ps ++ parameter n qs.
Proof. unfold parameter. by rewrite filter_app, fmap_app. Qed.

Lemma parameter_none n ps :
  Forall (fun p => to_ascii_lowercase (qp_name p) <> to_ascii_lowercase n) ps -> parameter n ps = [].
Proof.
  intros F. unfold parameter. rewrite filter_none; [done|].
  eapply Forall_impl; [exact F|]. intros p Hp E. cbn in Hp, E. by rewrite E in Hp.
Qed.

Lemma parameter_perm n ps qs l : ps ≡ₚ qs -> parameter n qs = l -> (List.length l <= 1)%nat ->
  parameter n ps = l.
Proof.
  unfold parameter. intros P E L.
  assert (P' : qp_value <$> filter (fun p => qp_name p = n) ps ≡ₚ l) by by rewrite P, E.
  destruct l as [|x [|y l]]; [by apply Permutation_nil_r|by apply Permutation_singleton_r|].
  cbn in L. lia.
Qed.

Lemma parameter_absent n ps : parameter n ps = [] -> filter (fun p => qp_name p <> n) ps = ps.
Proof.
  unfold parameter. induction ps as [|p ps IH]; [done|]. intros E.
  destruct (decide (qp_name p = n)) as [D|D].
  - by rewrite filter_cons_True in E.
  - rewrite filter_cons_False in E by done. rewrite filter_cons_True by done. by rewrite IH.
Qed.

Definition presign_names : list string :=
  ["X-Amz-Algorithm"; "X-Amz-Credential"; "X-Amz-Date"; "X-Amz-Expires"; "X-Amz-SignedHeaders";
   "X-Amz-Security-Token"].

Ltac parameters :=
  unfold parameter, presign_parameters; try destruct (session_token _); cbn [app];
  repeat first [rewrite filter_cons_True by reflexivity
               |rewrite filter_cons_False by (cbn [qp_name qp]; discriminate)];
  rewrite ?filter_nil; reflexivity.

Ltac found := unfold presign_names; first [set_solver | cbn; lia | parameters].

(** What a service finds under the names a presigned query generates. *)
Section generated.
Variables (cr : SigningCredentials) (query : list QueryParam) (cred amz exp : string).
Variables (sig : string) (qs : list QueryParam).
Hypothesis Hq : Forall (fun p => to_ascii_lowercase (qp_name p) ∉
       ["x-amz-signature"; "x-amz-algorithm"; "x-amz-credential"; "x-amz-date";
        "x-amz-expires"; "x-amz-security-token"; "x-amz-signedheaders"]) query.

Lemma caller_parameter n : n ∈ "X-Amz-Signature" :: presign_names -> parameter n query = [].
Proof using Hq.
  intros I. apply parameter_none. eapply Forall_impl; [exact Hq|].
  intros p Hp E. cbn beta in Hp. rewrite E in Hp. apply Hp. unfold presign_names in I.
  rewrite !elem_of_cons, elem_of_nil in I.
  destruct I as [->|[->|[->|[->|[->|[->|[->|[]]]]]]]]; vm_compute (to_ascii_lowercase _); set_solver.
Qed.

Hypothesis P : qs ≡ₚ presign_parameters cr query cred amz exp "host".

Lemma generated_parameter n l : n ∈ presign_names -> (List.length l <= 1)%nat ->
  parameter n (presign_parameters cr [] cred amz exp "host") = l ->
  parameter n (qs ++ [qp "X-Amz-Signature" sig]) = l.
Proof using Hq P.
  intros I L E. rewrite parameter_app, (parameter_perm n qs _ l P); [| |done].
  - unfold presign_names in I.
    assert (parameter n [qp "X-Amz-Signature" sig] = []) as ->; [|apply app_nil_r].
    rewrite !elem_of_cons, elem_of_nil in I. destruct I as [->|[->|[->|[->|[->|[->|[]]]]]]]; parameters.
  - unfold presign_parameters in *. rewrite parameter_app, caller_parameter; [done|by right].
Qed.

Lemma signature_unshared : parameter "X-Amz-Signature" qs = [].
Proof using Hq P.
  apply (parameter_perm _ _ _ _ P); [|cbn; lia]. unfold presign_parameters.
  rewrite parameter_app, caller_parameter by by left. by destruct (session_token cr); parameters.
Qed.
End generated.

(** A presigned URL is read back as the URL of the key and the signed query. *)
Lemma presigned_readable `{HttpUriLaws} `{PrimitivesLaws} u p cr sc rq t q uri :
  readable u p None -> 0 <= ps_expires rq -> sign_presigned cr sc rq t = Ok q ->
  parse_uri (serialized u +:+ "?" +:+ q) = Some uri ->
  auth_str <$> uri_authority uri = Some (authority u) /\ uri_path uri = p /\ uri_query uri = Some q.
Proof.
  intros R He Es Hu.
  apply (readable_uri {| serialized := serialized u +:+ "?" +:+ q; scheme := scheme u;
    authority := authority u; path_and_query := p +:+ "?" +:+ q |}); [|done].
  destruct R as [Er Hs Ha Hp Hr Ht _]. cbn in Ht. rewrite app_nil_r_str in Ht.
  split; try done.
  - cbn. by rewrite Er, Ht, !app_assoc_str.
  - apply sign_presigned_ok in Es as (? & _ & _ & _ & _ & ? & ? & ? & sig & _ & _ & _ & Hx & ->);
      [|done]. intros y Hy. apply (inj Some) in Hy as <-. unfold contains_char. rewrite !str_any_app.
    rewrite (canonical_query_no_hash _ : str_any _ _ = false).
    by rewrite (class_excludes _ "#" sig Hx eq_refl : str_any _ _ = false).
Qed.

Section presigned.
Set Default Proof Using "All".
Context `{PrimitivesLaws} `{!Calendar}.
Variables (cr : SigningCredentials) (r : string) (rq : PresigningRequest) (t : Z) (out : string).
#[local] Notation sc := {| region := r; service := "s3" |}.
Hypothesis Hsign : sign_presigned cr sc rq t = Ok out.
Hypothesis Hhash : ps_payload_hash rq = None.
Variable host : string.
Hypothesis Hhost : ps_headers rq = [hdr "host" host].
Hypothesis Hexpires : 0 <= ps_expires rq.

Lemma presigned_signature : exists date amz ch request sig,
  str_all is_key_byte (access_key_id cr) = true /\ str_all is_key_byte r = true /\
  1 <= as_secs (ps_expires rq) <= 604800 /\
  Forall (fun p => to_ascii_lowercase (qp_name p) ∉
       ["x-amz-signature"; "x-amz-algorithm"; "x-amz-credential"; "x-amz-date";
        "x-amz-expires"; "x-amz-security-token"; "x-amz-signedheaders"]) (ps_query rq) /\
  format_timestamp t = Ok (amz, date) /\ canonical_headers [hdr "host" host] = Ok ch /\
  let ps := presign_parameters cr (ps_query rq) (access_key_id cr +:+ "/" +:+ credential_scope date sc)
              amz (to_string (as_secs (ps_expires rq))) (signed ch) in
  build_canonical_request (ps_method rq) (ps_uri_path rq) ps ch UNSIGNED_PAYLOAD = Ok request /\
  calculate_signature cr sc date amz (credential_scope date sc) request = Ok sig /\
  out = canonical_query ps +:+ "&X-Amz-Signature=" +:+ sig.
Proof.
  pose proof Hsign as Hs. unfold sign_presigned in Hs. rewrite Hhash, Hhost in Hs.
  destruct (validate_common cr sc (ps_method rq)) as [[]|] eqn:Hv; [|done].
  destruct (negb _); [done|]. destruct (_ || _) eqn:He in Hs; [done|].
  destruct (reject_reserved_query _) eqn:Hr; [|done].
  destruct (canonical_headers _) as [ch|] eqn:Hc; [|done].
  destruct (format_timestamp t) as [[amz date]|] eqn:Hf; [|done]. cbn [default from_option] in Hs.
  destruct (build_canonical_request _ _ _ _ _) as [request|] eqn:Hb; [|done].
  destruct (calculate_signature _ _ _ _ _ _) as [sig|] eqn:Hg; [|done]. injection Hs as <-.
  apply validate_common_ok in Hv as (Hk & Hre & _).
  exists date, amz, ch, request, sig. split_and!; try done; bools.
  - by apply presign_expiry_range.
  - by apply presign_expiry_range.
  - by eapply reject_reserved_query_ok.
Qed.
Variables (grant : string -> option Grant) (w : Wire) (at_ : Z).
Hypothesis Hgrant : grant (access_key_id cr)
  = Some {| g_secret := secret_access_key cr; g_token := session_token cr |}.
Hypothesis Hmethod : w_method w = ps_method rq.
Hypothesis Hpath : exists u, SigningPath_canonical (ps_uri_path rq) = Ok u /\
  wire_path (w_path w) = Some u.
Hypothesis Hquery : w_query w = Some out.
Hypothesis Hheaders : header_values "host" (w_headers w) = [host] /\
  Forall (fun h => must_be_signed h.1 = true -> h.1 = "host") (w_headers w).
Hypothesis Hat : as_secs t <= at_ <= as_secs t + as_secs (ps_expires rq).


Lemma host_line ch : canonical_headers [hdr "host" host] = Ok ch ->
  str_concat (header_line (w_headers w) <$> ["host"]) = canonical ch.
Proof.
  intros Hc. pose proof (host_only_signed _ _ Hc) as Hs.
  destruct (canonical_headers_names _ _ Hc) as (m & G & -> & Em & Ne & _ & Fs).
  assert (Hm : m.*1 = ["host"]).
  { rewrite <- (split_all_join ";" (m.*1)), <- Em, Hs; [done|done|].
    eapply Forall_impl; [exact Fs|]. by intros k [? _]. }
  rewrite <- Hm. apply (render_canonical_lines _ _ _ G). rewrite Hm.
  intros k ->%list_elem_of_singleton. rewrite (proj1 Hheaders). cbn. by rewrite trim_all_spec.
Qed.

(** The signature of the parameters that were signed is accepted. *)
Lemma presigned_check date amz ch request sig qs (ps := presign_parameters cr (ps_query rq)
    (access_key_id cr +:+ "/" +:+ credential_scope date sc) amz
    (to_string (as_secs (ps_expires rq))) "host") :
  format_timestamp t = Ok (amz, date) -> canonical_headers [hdr "host" host] = Ok ch ->
  build_canonical_request (ps_method rq) (ps_uri_path rq) ps ch UNSIGNED_PAYLOAD = Ok request ->
  calculate_signature cr sc date amz (credential_scope date sc) request = Ok sig ->
  parameter "X-Amz-Signature" qs = [] -> query_line qs = canonical_query ps ->
  check_signature w {| g_secret := secret_access_key cr; g_token := session_token cr |} r
    {| key_id := access_key_id cr; scope_date := date; scope_region := r |} amz
    (filter (fun p => qp_name p <> "X-Amz-Signature") (qs ++ [qp "X-Amz-Signature" sig])) ["host"]
    "UNSIGNED-PAYLOAD" sig = true.
Proof.
  intros Hf Hc Hb Hs N Hl. unfold check_signature. cbn [scope_region scope_date g_secret].
  destruct (format_timestamp_prefix _ _ _ Hf) as [Hpre _].
  rewrite bool_decide_eq_true_2, Hpre by done. cbn [andb]. apply andb_true_iff. split.
  { unfold all_signed. rewrite bool_decide_eq_true_2 by by left. cbn [andb].
    apply forallb_forall. intros x Hx'%list_elem_of_In. destruct Hheaders as [_ F].
    rewrite Forall_forall in F. specialize (F x Hx'). destruct (must_be_signed x.1); [|done].
    rewrite F by done. apply bool_decide_eq_true. by left. }
  apply bool_decide_eq_true. unfold wire_canonical_request. destruct Hpath as (u & Hu & Hw).
  rewrite Hw, Hmethod. cbn [mbind option_bind].
  rewrite (host_line ch Hc), filter_app, (parameter_absent _ _ N), filter_cons_False, filter_nil
    by (cbn; tauto). rewrite app_nil_r, Hl.
  apply build_canonical_request_parts in Hb as (u' & Hu' & _ & _ & ->).
  rewrite Hu in Hu'. injection Hu' as <-.
  pose proof (host_only_signed _ _ Hc) as En. rewrite En in Hs. by eapply expected_signature_spec.
Qed.

Lemma presigned_accepted : verify_presigned seconds_of grant r at_ w = true.
Proof.
  destruct presigned_signature
    as (date & amz & ch & request & sig & Hk & Hr & Hx & Hq & Hf & Hc & Hb & Hs & Ho).
  cbv zeta in *. rewrite (host_only_signed _ _ Hc) in *.
  destruct (format_timestamp_ok _ _ _ Hf) as [_ Hd].
  destruct (format_timestamp_prefix _ _ _ Hf) as [_ Hsec].
  destruct (calculate_signature_hex _ _ _ _ _ _ _ Hs) as [_ Hhex].
  set (cred := access_key_id cr +:+ "/" +:+ credential_scope date sc) in *.
  set (exp := to_string (as_secs (ps_expires rq))) in *. set (query := ps_query rq) in *.
  set (ps := presign_parameters cr query cred amz exp "host") in *.
  destruct (wire_parameters_presigned ps sig) as (qs & P & Hps & Hl); [by destruct query|done|].
  pose proof (generated_parameter cr query cred amz exp sig qs Hq P) as G.
  pose proof (signature_unshared cr query cred amz exp qs Hq P) as N.
  unfold verify_presigned. rewrite Hquery, Ho, Hps. cbn [mbind option_bind].
  rewrite (parameter_app "X-Amz-Signature"), N.
  change (parameter _ [_]) with [sig]. cbn [app only mbind option_bind].
  rewrite (G "X-Amz-Credential" [cred]) by found. cbn [only mbind option_bind]. subst cred.
  rewrite parse_scope_text by done. cbn [mbind option_bind key_id]. rewrite Hgrant.
  rewrite (G "X-Amz-Date" [amz]) by found. cbn [only mbind option_bind]. rewrite Hsec.
  rewrite (G "X-Amz-Expires" [exp]) by found. cbn [only mbind option_bind]. subst exp.
  rewrite parse_uint_to_string by (unfold U64_MAX; lia).
  rewrite (G "X-Amz-SignedHeaders" ["host"]) by found.
  cbn [only mbind option_bind default from_option].
  rewrite (G "X-Amz-Algorithm" [ALGORITHM]) by found.
  rewrite (G "X-Amz-Security-Token" (option_list (session_token cr))).
  2, 3: destruct (session_token cr); found.
  2: destruct (session_token cr) eqn:Et; unfold presign_parameters; rewrite Et; found.
  cbn [mbind option_bind default from_option g_token id].
  rewrite !bool_decide_eq_true_2 by done. cbn [andb].
  rewrite !andb_true_iff, !Z.leb_le. split_and!; [lia..|].
  change (split_all _ _) with ["host"]. by eapply presigned_check.
Qed.
End presigned.

(** ** Lemmas: one exchange *)

(** A request with its target and region passes the service's check. *)
Definition accepted_request `{Http} `{HttpUri} `{World} `{Primitives} (grant : string -> option Grant)
    (x : EndpointUrl * string * Request) : Prop :=
  exists w, wire_of x.2 = Some w /\ verify_request grant x.1.2 w = true.

Lemma inner_accepted `{HttpLaws} `{HttpUriLaws} `{World} `{PrimitivesLaws} `{!Calendar}
  `{Documents} `{HttpText} (c : S3Client) (input method : string) (key : option string)
  (target : EndpointUrl) (query : list QueryParam) (headers : HeaderMap)
  (body : option PreparedBody) (deadline : OperationDeadline) (mode : SuccessMode) (started : Z)
  (envs : list Attempt) (quota : RetryQuota) (st : Execution) (r : outcome SuccessfulResponse)
  (grant : string -> option Grant)
  (Hendpoint : Endpoint_new input = Ok (S3Config.endpoint (config c)))
  (Hbase : encoded_path (base_path (S3Config.endpoint (config c))))
  (Htarget : operation_target c key = Ok target) (Hnames : lower_named headers)
  (Hknows : knows grant (S3Config.credentials_provider (config c)))
  (Hpolicy : 1 <= max_attempts (policy c) <= U32_MAX)
  (Hrun : send_signed_inner c method target query headers body deadline mode started envs quota
          = Some (st, r)) :
  Forall (accepted_request grant) (sent st).
Proof.
  unfold send_signed_inner in Hrun. destruct (with_query target _) as [home|e] eqn:Eh.
  2:{ by injection Hrun as <- _. }
  destruct (operation_readable _ _ _ _ _ _ Hendpoint Hbase Htarget Eh) as [R Rr].
  set (op := operation _ _ _ _ _ _ _) in *.
  pose proof (execution_live c op home (S3Config.region (config c)) body quota Hpolicy) as Hl.
  apply (attempts_ok c op home (S3Config.region (config c)) Hpolicy) in Hrun as [[_ _ _ Ht Hq] _]; [|exact Hl].
  unfold accepted_request. eapply Forall_impl; [exact Hq|]. intros [[t g] rq] [(moment & b & request & left & Hs & -> & Hp) Hx].
  cbn [fst snd] in *. apply (signed_request_accepted (transport c) _ _ _ _ _ grant (path_and_query target) Hs Hp);
    [|done|done].
  cbn [si_target si_query]. destruct Hx as [[= -> ->]|[D [= -> ->]]]; [exact R|].
  rewrite D in Ht. by eapply Rr.
Qed.

(** ** Properties *)

(** The service accepts what the client sends. Every request of an
operation, on every attempt and after a redirect to another region, passes the
check the service makes with its own copy of the secret: it reads the path, the
query and the headers off the wire, finds every header that must be signed among
the signed ones and arrives at the same signature. *)
Theorem requests_accepted `{HttpLaws} `{HttpUriLaws} `{World} `{PrimitivesLaws} `{!Calendar}
  `{Documents} `{HttpText} (c : S3Client) (input method : string) (key : option string)
  (target : EndpointUrl) (query : list QueryParam) (headers : HeaderMap)
  (body : option PreparedBody) (deadline : OperationDeadline) (mode : SuccessMode) (started : Z)
  (envs : list Attempt) (quota : RetryQuota) (st : Execution) (r : outcome SuccessfulResponse)
  (grant : string -> option Grant)
  (Hendpoint : Endpoint_new input = Ok (S3Config.endpoint (config c)))
  (Hbase : encoded_path (base_path (S3Config.endpoint (config c))))
  (Htarget : operation_target c key = Ok target) (Hnames : lower_named headers)
  (Hknows : knows grant (S3Config.credentials_provider (config c)))
  (Hpolicy : 1 <= max_attempts (policy c) <= U32_MAX)
  (Hrun : send_signed_inner c method target query headers body deadline mode started envs quota
          = Some (st, r)) :
  Forall (fun x => exists w, wire_of x.2 = Some w /\ verify_request grant x.1.2 w = true) (sent st).
Proof. by eapply inner_accepted. Qed.

(** C18. A presigned URL is accepted for as long as it says. Whoever sends the
URL's request with the method it was made for, with any further headers outside
the signature's own name space, passes the service's check at every second from
the one of the signature to the one of its expiry. *)
Theorem presigned_url_accepted `{Http} `{HttpUriLaws} `{World} `{PrimitivesLaws} `{!Calendar}
  (c : S3Client) (input method : string) (key : ObjectKey.t) (query : list QueryParam)
  (expires : Z) (w : world) (now : Z) (u : PresignedUrl.t) (uri : Uri)
  (extra : list (string * string)) (grant : string -> option Grant) (at_ : Z)
  (Hendpoint : Endpoint_new input = Ok (S3Config.endpoint (config c)))
  (Hbase : encoded_path (base_path (S3Config.endpoint (config c))))
  (Hexpires : 0 <= expires)
  (Hok : presign c method key query expires w now = Ok u)
  (Huri : parse_uri (PresignedUrl.expose u) = Some uri)
  (Hextra : Forall (fun h => must_be_signed h.1 = false) extra)
  (Hknows : knows grant (S3Config.credentials_provider (config c)))
  (Hat : as_secs now <= at_ <= as_secs now + as_secs expires) :
  verify_presigned seconds_of grant (S3Config.region (config c)) at_
    (presigned_wire method uri extra) = true.
Proof.
  unfold presign in Hok. destruct (operation_target _ _) as [target|] eqn:Et; [|done].
  destruct (S3Config.credentials_provider _ w) as [cr|] eqn:Ec; [|done].
  destruct (Credentials.expires_by cr now); [done|]. destruct (outlives _ _); [done|].
  destruct (sign_presigned _ _ _ _) as [q|] eqn:Es; [|done]. injection Hok as <-. cbn in Huri.
  pose proof (object_url_readable _ _ _ _ _ _ Hendpoint Hbase Et) as R.
  destruct (presigned_readable _ _ _ _ (presigning_request method target query expires) _ _ _ R
    Hexpires Es Huri) as (Ha & Hp & Hq).
  destruct (readable_signed_path _ _ _ R) as (_ & Hc & Hw).
  eapply (presigned_accepted (signing_credentials cr) _ _ _ _ Es eq_refl (authority target));
    try done.
  - by apply (Hknows _ _ Ec).
  - cbn [w_path presigned_wire presigning_request ps_uri_path SigningPath_canonical]. rewrite Hp. eauto.
  - split; [|by constructor; [|eapply Forall_impl; [exact Hextra|]; cbn; congruence]].
    cbn [presigned_wire w_headers]. unfold header_values. rewrite filter_cons_True by done.
    rewrite filter_none; [destruct (uri_authority uri) as [a|]; [|done]; injection Ha as Ha; cbn; by rewrite Ha|].
    eapply Forall_impl; [exact Hextra|]. intros x Hx E. cbn in Hx. by rewrite E in Hx.
Qed.

(** ** Concrete instances *)

(** A URI parser that keeps to the documentation. *)
Definition plainb (s : string) : bool := negb (str_any (one_of "/?#") s).
Definition wire_parse_uri (s : string) : option Uri :=
  let parse sc rest :=
    let (a, p) := match split_once "/" rest with Some (a, p) => (a, "/" +:+ p) | None => (rest, "") end in
    if plainb a
    then Some {| uri_scheme := Some sc;
                 uri_authority := Some {| auth_str := a; auth_host := a; auth_port := None |};
                 uri_path := target_path p; uri_query := snd <$> split_once "?" p |}
    else None in
  match strip_prefix "https://" s, strip_prefix "http://" s with
  | Some rest, _ => parse HTTPS rest
  | None, Some rest => parse HTTP rest
  | None, None => None
  end.
#[local] Instance wire_uri : HttpUri := {
  parse_uri := wire_parse_uri;
  parse_authority s :=
    if plainb s then Some {| auth_str := s; auth_host := s; auth_port := None |} else None
}.

Lemma plainb_spec s : plainb s = true <-> plain s.
Proof. unfold plainb, plain. by rewrite negb_true_iff. Qed.

#[local] Instance wire_uri_laws : HttpUriLaws.
Proof.
  assert (P : forall a, plain a -> contains_char "/" a = false).
  { intros a Ha. eapply (str_any_none (fun c => negb (one_of "/?#" c))); [intros c; all_bytes c|].
    by apply str_any_false. }
  split; cbn [parse_uri parse_authority wire_uri].
  - intros s a. destruct (plainb s) eqn:E; [|done]. intros [= <-]. cbn. by rewrite <- plainb_spec.
  - intros s u a Hu Ha. unfold wire_parse_uri in Hu.
    destruct (strip_prefix "https://" s) as [r|]; [|destruct (strip_prefix "http://" s) as [r|]; [|done]];
      (destruct (split_once "/" r) as [[x y]|]; cbn in Hu;
       match type of Hu with (if plainb ?z then _ else _) = _ => destruct (plainb z) eqn:E; [|done] end;
       injection Hu as <-; injection Ha as <-; by apply plainb_spec).
  - intros s a p u Hs Ha Hp _ Hu. destruct (starts_with_slash _ Hp) as [t ->].
    assert (E : wire_parse_uri (s +:+ "://" +:+ a +:+ "/" +:+ t) =
      if plainb a then Some {| uri_scheme := Some (if String.eqb s "https" then HTTPS else HTTP);
          uri_authority := Some {| auth_str := a; auth_host := a; auth_port := None |};
          uri_path := target_path ("/" +:+ t); uri_query := snd <$> split_once "?" ("/" +:+ t) |}
      else None).
    { unfold wire_parse_uri. rewrite !elem_of_cons, elem_of_nil in Hs. destruct Hs as [->|[->|[]]].
      - change ("https" +:+ "://" +:+ ?x) with ("https://" +:+ x). rewrite strip_prefix_app.
        change ("/" +:+ t) with (String "/" t). by rewrite split_once_app by by apply P.
      - change ("http" +:+ "://" +:+ ?x) with ("http://" +:+ x).
        change (strip_prefix "https://" ("http://" +:+ ?x)) with (@None string).
        rewrite strip_prefix_app. change ("/" +:+ t) with (String "/" t).
        by rewrite split_once_app by by apply P. }
    rewrite E in Hu. apply plainb_spec in Ha. rewrite Ha in Hu. by injection Hu as <-.
Qed.

(** Dates by day number and second of the day. *)
Definition day_of (t : Z) : Z := as_secs t / 86400.
#[local] Instance day_primitives : Primitives := {
  sha256 := sample_digest;
  hmac k m := Some (sample_digest (str_rev k +:+ m));
  format_amz_date t :=
    if (0 <=? t) && (as_secs t <=? U64_MAX)
    then Some (to_string (day_of t) +:+ "T" +:+ to_string (as_secs t mod 86400)) else None;
  format_date t := if (0 <=? t) && (as_secs t <=? U64_MAX) then Some (to_string (day_of t)) else None
}.

Lemma to_string_alphanumeric n : str_all is_ascii_alphanumeric (to_string n) = true.
Proof. eapply str_all_impl; [|apply to_string_digits]. intros c. all_bytes c. Qed.

#[local] Instance day_laws : PrimitivesLaws.
Proof.
  split; cbn [sha256 hmac format_amz_date format_date day_primitives]; intros;
    try apply sample_digest_length.
  - injection H as <-. apply sample_digest_length.
  - destruct (_ && _); [|done]. apply (inj Some) in H as <-.
    by rewrite !str_all_app, !to_string_alphanumeric.
  - destruct (_ && _); [|done]. apply (inj Some) in H as <-. apply to_string_alphanumeric.
Qed.

Definition day_seconds (s : string) : option Z :=
  '(d, s) ← split_once "T" s; d ← parse_uint U64_MAX d; s ← parse_uint U64_MAX s;
  Some (d * 86400 + s).

#[local] Instance day_calendar : Calendar.
Proof.
  split with (seconds_of := day_seconds); cbn [format_amz_date format_date day_primitives]; intros t.
  - intros a d. destruct (_ && _); [|done]. intros Ha Hd. apply (inj Some) in Ha as <-, Hd as <-.
    apply starts_with_app.
  - intros a. destruct (_ && _) eqn:E; [|done]. intros Ha. apply (inj Some) in Ha as <-. bools.
    assert (0 <= as_secs t) by (unfold as_secs, NANOS_PER_SEC in *; apply Z.div_pos; lia).
    pose proof (Z.mod_pos_bound (as_secs t) 86400 eq_refl).
    pose proof (Z.div_mod (as_secs t) 86400). 
    assert (0 <= day_of t <= U64_MAX).
    { unfold day_of. split; [by apply Z.div_pos|]. apply Z.div_le_upper_bound; unfold U64_MAX in *; lia. }
    unfold day_seconds. change ("T" +:+ ?x) with (String "T" x).
    rewrite split_once_app by (eapply class_excludes; [apply to_string_digits|done]).
    cbn [mbind option_bind]. rewrite !parse_uint_to_string by (unfold U64_MAX in *; lia).
    cbn. f_equal. unfold day_of. lia.
Defined.

#[local] Existing Instance assoc_http.
#[local] Existing Instance assoc_http_laws.
#[local] Existing Instance sample_signing_world.
#[local] Existing Instance sample_documents.
#[local] Existing Instance sample_text.

Definition wire_client : S3Client :=
  {| config := S3Config.Mk
       {| url := sample_url "s3.us-east-1.amazonaws.com" "/"; base_path := "/" |}
       "us-east-1" "photos" Path (from_secs 10) (from_secs 30) (from_secs 300) (from_secs 30)
       1048576 65536 RetryPolicy_standard "s3-wire/0.3.1" sample_provider false;
     transport := {| connector := sample_connector; user_agent := "s3-wire/0.3.1" : HeaderValue; allow_http := false |} |}.
Definition wire_attempt (status : Z) (headers : list (string * string)) : Attempt :=
  {| at_start := 0; signing := sample_moment; signing_elapsed := false; at_ready := 0;
     http_client := fun _ _ => Answered (sample_response status headers); wall_clock := 0;
     at_redirect := 0; at_failure := 0; at_retry := 0; fastrand := fun _ => 0;
     others := fun q => q |}.
Definition wire_grant (key : string) : option Grant :=
  if String.eqb key "AKID" then Some {| g_secret := "secret"; g_token := Some "tok" |} else None.

Lemma wire_knows : knows wire_grant (S3Config.credentials_provider (config wire_client)).
Proof. intros w cr Hc. injection Hc as <-. reflexivity. Qed.
Lemma wire_endpoint :
  Endpoint_new "https://s3.us-east-1.amazonaws.com" = Ok (S3Config.endpoint (config wire_client)).
Proof. reflexivity. Qed.
Lemma wire_base : encoded_path (base_path (S3Config.endpoint (config wire_client))).
Proof. exists "/". reflexivity. Qed.

Definition wire_target : EndpointUrl := sample_url "s3.us-east-1.amazonaws.com" "/photos/a%20b".
Definition wire_query : list QueryParam := [qp "versionId" "a+b"; qp "partNumber" "2"].
Definition wire_headers : HeaderMap := [("x-amz-meta-a", "  1   2 ")] : list (string * string).
#[local] Notation wire_run :=
  (send_signed_inner wire_client "GET" wire_target wire_query wire_headers None sample_deadline
     Streaming 0 [wire_attempt 301 [("x-amz-bucket-region", "eu-west-1")]; wire_attempt 503 [];
                  wire_attempt 200 []] RetryQuota_new).

Lemma requests_accepted_witness :
  match wire_run with
  | Some (st, _) =>
      (fun x => x.1.2) <$> sent st = ["us-east-1"; "eu-west-1"; "eu-west-1"] /\
      Forall (fun x => exists w, wire_of x.2 = Some w /\ verify_request wire_grant x.1.2 w = true)
        (sent st)
  | None => False
  end.
Proof.
  assert (Hs : match wire_run with
               | Some (st, _) => bool_decide ((fun x => x.1.2) <$> sent st
                   = ["us-east-1"; "eu-west-1"; "eu-west-1"])
               | None => false end = true) by (vm_compute; reflexivity).
  destruct wire_run as [[st r]|] eqn:E; [|discriminate Hs].
  split; [exact (bool_decide_eq_true_1 _ Hs)|].
  apply (requests_accepted wire_client "https://s3.us-east-1.amazonaws.com" "GET" (Some "a b")
    wire_target wire_query wire_headers None sample_deadline Streaming 0 _ RetryQuota_new st r
    wire_grant wire_endpoint wire_base eq_refl ltac:(vm_compute; repeat constructor) wire_knows
    ltac:(vm_compute; split; discriminate) E).
Defined.

Definition wire_presigned : PresignedUrl.t :=
  Eval vm_compute in
    match presigned_get wire_client (ObjectKey.Mk "a b") (from_secs 60) tt (from_secs 1000) with
    | Ok u => u
    | Err _ => PresignedUrl.new ""
    end.

Lemma presigned_url_accepted_witness :
  match wire_parse_uri (PresignedUrl.expose wire_presigned) with
  | Some uri =>
      verify_presigned seconds_of wire_grant "us-east-1" 1060
        (presigned_wire "GET" uri [("range", "bytes=0-9")]) = true /\
      verify_presigned seconds_of wire_grant "us-east-1" 1061 (presigned_wire "GET" uri []) = false
  | None => False
  end.
Proof.
  destruct (wire_parse_uri _) as [uri|] eqn:E; [|vm_compute in E; discriminate E].
  split.
  - apply (presigned_url_accepted wire_client "https://s3.us-east-1.amazonaws.com" "GET"
      (ObjectKey.Mk "a b") [] (from_secs 60) tt (from_secs 1000) wire_presigned uri
      [("range", "bytes=0-9")] wire_grant 1060 wire_endpoint wire_base);
      [vm_compute; discriminate | vm_compute; reflexivity | exact E | repeat constructor
      | exact wire_knows | vm_compute; split; discriminate].
  - assert (F : match wire_parse_uri (PresignedUrl.expose wire_presigned) with
      | Some uri =>
          verify_presigned seconds_of wire_grant "us-east-1" 1061 (presigned_wire "GET" uri [])  = false
      | None => False end) by (vm_compute; reflexivity).
    rewrite E in F. exact F.
Defined.
