(* ===== verification/Fetch.v ===== *)
(** A download from end to end: from the answer of the HTTP client to the bytes
that the caller's writer was given. It puts together the attempt loop
([Execute]), the object operation ([Objects]) and the response stream
([Download]); no code of its own is modelled here. *)

From S2P Require Import Prelude Text Errors Canonical SigV4 Endpoint Http Retry Quota Types.
From S2P Require Import Stream Download Xml Records Protocol Response Credentials Config Request.
From S2P Require Import Execute Crc Headers Calls Objects.
From stdpp Require Import options.
Local Open Scope Z_scope.

(** ** The body of a response *)

(** The bytes of the data frames up to the end of the body, or to an error. *)
Fixpoint body_bytes (waits : list frame_wait) : string :=
  match waits with
  | [] => ""
  | w :: waits =>
      match frame w with
      | FrameData bytes => bytes +:+ body_bytes waits
      | FrameTrailers => body_bytes waits
      | _ => ""
      end
  end.

(** Whether the connection broke before the end of the body. *)
Fixpoint body_broken (waits : list frame_wait) : bool :=
  match waits with
  | [] => false
  | w :: waits =>
      match frame w with
      | FrameData _ | FrameTrailers => body_broken waits
      | FrameError _ => true
      | _ => false
      end
  end.

Definition broken (i : download_item) : bool := match i with Broken _ => true | _ => false end.

Lemma download_bytes_app s t : download_bytes (s ++ t) = download_bytes s +:+ download_bytes t.
Proof. induction s as [|[b|e|] s IH]; cbn; rewrite ?IH, ?app_assoc_str; done. Qed.

Lemma waiting_bytes n s : download_bytes (repeat Waiting n ++ s) = download_bytes s.
Proof. by induction n. Qed.

Lemma waiting_broken n s : existsb broken (repeat Waiting n ++ s) = existsb broken s.
Proof. by induction n. Qed.

Lemma data_stream_bytes pauses i waits :
  download_bytes (data_stream pauses i waits) = body_bytes waits.
Proof.
  revert i. induction waits as [|w waits IH]; intros i; [done|]. cbn. rewrite waiting_bytes.
  destruct (frame w); cbn; by rewrite ?IH.
Qed.

Lemma data_stream_broken pauses i waits :
  existsb broken (data_stream pauses i waits) = body_broken waits.
Proof.
  revert i. induction waits as [|w waits IH]; intros i; [done|]. cbn. rewrite waiting_broken.
  destruct (frame w); cbn; by rewrite ?IH.
Qed.

Section streams.
Set Default Proof Using "Type*".
Context `{Primitives}.

(** A poll takes at most one item, and reports the end only where there is none. *)
Lemma poll_next_inner now later r p r' : ended r = false -> poll_next now later r = Some (p, r') ->
  match p with
  | Ready None => inner r = []
  | Ready (Some (Ok _)) | Pending =>
      ended r' = false /\ exists i, inner r = i :: inner r' /\ broken i = false
  | Ready (Some (Err _)) => True
  end.
Proof.
  intros He. unfold poll_next, end_with. rewrite He.
  destruct (match deadline r with Some d => _ | None => _ end); [intros [= <- <-]; exact I|].
  destruct (idle r <=? now); [intros [= <- <-]; exact I|].
  destruct (inner r) as [|[c|e|] items].
  - destruct (match expected_length r with Some e => _ | None => _ end); [intros [= <- <-]; exact I|].
    destruct (expected_digest r); [|intros [= <- <-]; reflexivity].
    destruct (sha256_state r); cbn; [|done]. destruct (String.eqb _ _); by intros [= <- <-].
  - destruct (is_empty c); [intros [= <- <-]; eauto|].
    destruct (try_from _ _); [|intros [= <- <-]; exact I]. destruct (checked_add _ _ _); [|intros [= <- <-]; exact I].
    destruct (match expected_length _ with Some e => _ | None => _ end); [intros [= <- <-]; exact I|].
    intros [= <- <-]. eauto.
  - by intros [= <- <-].
  - intros [= <- <-]. eauto.
Qed.

(** A copy that succeeds met no broken item. *)
Lemma write_loop_unbroken clock wa fl r written out out' n : ended r = false ->
  write_loop clock wa fl r written out = Some (out', Ok n) -> existsb broken (inner r) = false.
Proof.
  revert r written out. induction clock as [|[now later] clock IH]; intros r written out He Hw; [done|].
  cbn [write_loop] in Hw. destruct (poll_next now later r) as [[p r']|] eqn:E; [|done]. cbn in Hw.
  pose proof (poll_next_inner _ _ _ _ _ He E) as Hp. destruct p as [[[c|e]|]|].
  - destruct Hp as (He' & i & -> & Hi). cbn. rewrite Hi. cbn.
    destruct (wa c); cbn in Hw; [|done]. destruct (try_from _ _); [|done].
    destruct (checked_add _ _ _); [|done]. by eapply IH.
  - done.
  - by rewrite Hp.
  - destruct Hp as (He' & i & -> & Hi). cbn. rewrite Hi. by eapply IH.
Qed.
End streams.

(** ** The response of an exchange *)

Section exchange.
Set Default Proof Using "Type*".
Context `{Http} `{HttpUri} `{World} `{Primitives} `{Documents} `{HttpText}.
Variables (c : S3Client) (op : Operation).
Hypothesis Hpolicy : 1 <= max_attempts (policy c) <= U32_MAX.

(** A response is the HTTP client's answer to the last request handed to it. *)
Definition answered_last (envs : list Attempt) (st : Execution) (r : Response) : Prop :=
  exists env rq timeout, env ∈ envs /\ http_client env rq timeout = Answered r /\
    is_success (status r) = true /\ last (sent st) = Some (target st, signing_region st, rq).

Lemma succeed_answered env st request left handed result timeout r :
  send (transport c) (fun rq => http_client env rq timeout) request = (handed, result) ->
  judge c op env (judging c op env left handed st) result = Some (Succeeded (StreamingResponse r)) ->
  exists rq, http_client env rq timeout = Answered r /\ is_success (status r) = true /\
    handed = Some rq.
Proof.
  intros Hsend Hj. unfold judge in Hj. destruct result as [rs|]; [|done].
  destruct (is_success (status rs)) eqn:Hs.
  - apply (judge_success_answered c op Hpolicy) in Hj. subst rs.
    unfold send in Hsend. destruct (permitted_scheme _ _); [|done].
    injection Hsend as <- Hc. destruct (http_client env _ _) as [| |a] eqn:A; [done..|]. injection Hc as ->. eauto.
  - assert (F : forall x, judge_error c op env rs <> Some (Succeeded x)).
    { intros x Hx. by destruct (judge_error_failed c op Hpolicy _ _ _ Hx) as (? & ? & ?). }
    repeat case_match; simplify_eq; exfalso; by eapply F.
Qed.

Lemma attempts_answered envs st st' r : attempts c op envs st = Some (st', Ok (StreamingResponse r)) ->
  answered_last envs st' r.
Proof.
  revert st. induction envs as [|env envs IH]; intros st Ha; [done|]. cbn [attempts] in Ha.
  destruct (attempt c op env st) as [s|] eqn:E; [|done]. cbn in Ha.
  destruct s as [st1|st1 r1].
  - apply IH in Ha as (e & rq & t & He & Hr). exists e, rq, t. split; [by right|done].
  - injection Ha as -> ->. destruct (attempt_cases c op Hpolicy _ _ _ E)
      as [(? & ? & ? & _)|(request & left & handed & result & timeout & v & _ & Hsend & Hj & Hv)];
      [done|].
    destruct v as [r1|region a|e ra].
    + injection Hv as -> <-. destruct (succeed_answered _ _ _ _ _ _ _ _ Hsend Hj) as (rq & Ha & Hs & ->).
      exists env, rq, timeout. split_and!; [by left|done|done|]. cbn. apply last_snoc.
    + unfold follow_redirect in Hv. by destruct (with_authority _ _).
    + destruct (schedule_retry_cases c op Hpolicy env (judging c op env left handed st) e ra)
        as [(? & ? & Hs & _)|(? & ? & Hs & _)]; rewrite Hs in Hv; done.
Qed.
End exchange.

Section fetch.
Set Default Proof Using "Type*".
Context `{Http} `{HttpUri} `{World} `{Primitives} `{Documents} `{HttpText} `{Base64}.

(** An output whose body is that of the response, checked against what it tells. *)
Definition output_of (idle_for at_ streaming : Z) (pauses : nat -> nat) (r : Response)
    (out : GetObjectOutput) : Prop :=
  exists n digest,
    parse_object_metadata (rsp_headers r) = Ok (go_metadata out) /\
    parse_content_range (rsp_headers r) = Ok (go_content_range out) /\
    ObjectMetadata.content_length (go_metadata out) = n /\ 0 <= n /\
    verified_download_sha256 (rsp_headers r) = Ok digest /\
    go_body out = with_deadline streaming (data_stream pauses 0 (frames r)) (Some n)
                    (match go_content_range out with None => digest | Some _ => None end) idle_for at_.

Lemma get_output_of c r deadline streaming pauses out :
  get_output c r deadline streaming pauses = Ok out ->
  output_of (S3Config.idle_body_timeout (config c)) (at_ deadline) streaming pauses r out.
Proof.
  unfold get_output. intros Ho.
  destruct (parse_object_metadata _) as [m|] eqn:Em; [|done].
  destruct (parse_content_range _) as [cr|] eqn:Er; [|done].
  destruct (verified_download_sha256 _) as [d|] eqn:Ed; [|done].
  destruct (transpose _) as [l|] eqn:El; [|done]. injection Ho as <-.
  assert (Hl : l = Some (ObjectMetadata.content_length m) /\ 0 <= ObjectMetadata.content_length m).
  { pose proof Em as Em'. unfold parse_object_metadata in Em'. rewrite El in Em'.
    destruct l as [n|]; cbn [ok_or] in Em'; [|done].
    assert (Hn : ObjectMetadata.content_length m = n).
    { repeat match type of Em' with (match ?q with Ok _ => _ | Err _ => _ end) = Ok _ =>
        destruct q; [|discriminate Em'] end. by injection Em' as <-. }
    rewrite Hn. split; [done|]. destruct (hm_get _ "content-length") as [v|]; cbn in El; [|done].
    unfold parse_u64_value in El. destruct (hv_to_str v) as [t|]; cbn in El; [|done].
    destruct (parse_uint U64_MAX t) as [k|] eqn:Ek; cbn in El; [|done]. injection El as <-.
    by eapply parse_uint_nonneg. }
  destruct Hl as [-> Hn]. exists (ObjectMetadata.content_length m), d. done.
Qed.

Lemma get_object_answered c request x streaming pauses s s' out :
  1 <= max_attempts (policy c) <= U32_MAX ->
  get_object c request x streaming pauses s = Some (s', Ok out) ->
  exists st r, answered_last (ex_attempts (exchange x)) st r /\ wire s' = wire s ++ sent st /\
    output_of (S3Config.idle_body_timeout (config c))
      (at_ (client_deadline c (call_now x))) streaming pauses r out.
Proof.
  intros Hp. unfold get_object, service_bind, fallible. cbn. intros E.
  destruct (get_headers _) as [h|]; [|done]. destruct (operation_target _ _) as [t|]; [|done]. cbn in E.
  destruct (call_signed _ _ _ _ _ _ _ _ s) as [[s1 [r|]]|] eqn:Ec; [|done..]. cbn in E.
  injection E as <- E. apply get_output_of in E. unfold call_signed, send_signed, send_signed_inner in Ec.
  destruct (with_query _ _) as [home|e]; [|done].
  destruct (attempts _ _ _ _) as [[st [[r'|r']|e]]|] eqn:Ea; [|done..]. cbn in Ec.
  injection Ec as <- ->. exists st, r. split; [|done]. by eapply (attempts_answered c).
Qed.
End fetch.

(** ** Properties *)

(** C6. A download delivers the body of the response to its request, whole.
Whatever a caller's writer is given is a beginning of the bytes that the HTTP
client received in answer to the last request of the exchange, no longer than
its content length; if the copy succeeds it is all of them, the connection did
not break before the end of the body, the count returned is their number and
the content length, and, unless a range was answered, their digest is the one
S3 gave for the whole object. *)
Theorem downloads_deliver `{Http} `{HttpUri} `{World} `{Primitives} `{Documents} `{HttpText}
  `{Base64} (c : S3Client) (request : GetObjectRequest.t) (x : Call) (streaming : Z)
  (pauses : nat -> nat) (s s' : Session) (out : GetObjectOutput) (clock : list (Z * Z))
  (write_all : string -> result string unit) (flush : result string unit)
  (bytes : string) (res : outcome Z)
  (Hpolicy : 1 <= max_attempts (policy c) <= U32_MAX)
  (Hget : get_object c request x streaming pauses s = Some (s', Ok out))
  (Hcopy : write_to clock write_all flush (go_body out) = Some (bytes, res)) :
  exists st r, answered_last (ex_attempts (exchange x)) st r /\ wire s' = wire s ++ sent st /\
    parse_object_metadata (rsp_headers r) = Ok (go_metadata out) /\
    slen bytes <= ObjectMetadata.content_length (go_metadata out) /\
    (exists rest, body_bytes (frames r) = bytes +:+ rest) /\
    forall n, res = Ok n ->
      bytes = body_bytes (frames r) /\ body_broken (frames r) = false /\ n = slen bytes /\
      n = ObjectMetadata.content_length (go_metadata out) /\
      forall d, parse_content_range (rsp_headers r) = Ok None ->
        verified_download_sha256 (rsp_headers r) = Ok (Some d) -> sha256 bytes = d.
Proof.
  apply (get_object_answered _ _ _ _ _ _ _ _ Hpolicy) in Hget as (st & r & Ha & Hw & n & d & Em & Er & En & Hn & Ed & Eb).
  exists st, r. rewrite Eb in Hcopy. unfold write_to in Hcopy.
  assert (U : forall k, res = Ok k -> body_broken (frames r) = false).
  { intros k ->. rewrite <- (data_stream_broken pauses 0).
    apply write_loop_unbroken in Hcopy; done. }
  change 0 with (slen "") in Hcopy.
  eapply (write_loop_spec (download_bytes (data_stream pauses 0 (frames r))) (Some n)
    (match go_content_range out with None => d | Some _ => None end)) in Hcopy as (L & P & R);
    [|done|by split].
  rewrite data_stream_bytes in P, R. rewrite En. split_and!; try done. intros k Hk.
  specialize (U k Hk).
  destruct (R k Hk) as (-> & -> & Hl & Hd). split_and!; try done.
  intros d' Hr' Hd'. rewrite Er in Hr'. injection Hr' as Hr'. rewrite Hr' in Hd.
  rewrite Ed in Hd'. injection Hd' as ->. exact Hd.
Qed.

#[local] Existing Instance sample_uri.
#[local] Existing Instance assoc_http.
#[local] Existing Instance sample_primitives.
#[local] Existing Instance sample_signing_world.
#[local] Existing Instance service_documents.
#[local] Existing Instance sample_text.
#[local] Instance fetch_base64 : Base64 :=
  {| base64_encode := base64_reference; base64_decode _ := None |}.

#[local] Notation fetch_call := (answered_call 200 [("content-length", "5")] "hello").
#[local] Notation fetch_run :=
  (get_object sample_client (GetObjectRequest.new (ObjectKey.Mk "a")) fetch_call 0 (fun _ => 1%nat)
     sample_session).
#[local] Notation fetch_copy out :=
  (write_to [(0, 0); (0, 0); (0, 0); (0, 0)] (fun _ => Ok tt) (Ok tt) (go_body out)).

Lemma downloads_deliver_witness :
  match fetch_run with
  | Some (s', Ok out) =>
      fetch_copy out = Some ("hello", Ok 5) /\
      exists st r, answered_last (ex_attempts (exchange fetch_call)) st r /\
        body_bytes (frames r) = "hello" /\ body_broken (frames r) = false
  | _ => False
  end.
Proof.
  assert (Hl : match fetch_run with
    | Some (_, Ok out) =>
        match fetch_copy out with Some (b, Ok n) => String.eqb b "hello" && (n =? 5) | _ => false end
    | _ => false end = true) by (vm_compute; reflexivity).
  destruct fetch_run as [[s' [out|]]|] eqn:E; [|discriminate Hl|discriminate Hl].
  destruct (fetch_copy out) as [[b [n|]]|] eqn:Ew; [|discriminate Hl|discriminate Hl].
  apply andb_true_iff in Hl as [->%String.eqb_eq ->%Z.eqb_eq]. split; [reflexivity|].
  destruct (downloads_deliver sample_client (GetObjectRequest.new (ObjectKey.Mk "a")) fetch_call 0
    (fun _ => 1%nat) sample_session s' out _ (fun _ => Ok tt) (Ok tt) "hello" (Ok 5) sample_policy E Ew)
    as (st & r & Ha & _ & _ & _ & _ & Hr).
  destruct (Hr 5 eq_refl) as (Hb & Hu & _). exists st, r. exact (conj Ha (conj (eq_sym Hb) Hu)).
Defined.
