(* ===== verification/ToPath.v ===== *)
(** Downloads into a file ([src/client/download.rs]): the body goes to a
temporary file beside the destination, which replaces the destination only once
it is verified. The file system is a map from paths to contents; a run gives the
states it goes through, so that what another process can see, and what is left
when the future is dropped, are among them. *)

From S2P Require Import Prelude Text Errors Canonical SigV4 Endpoint Http Retry Quota Types.
From S2P Require Import Stream Download Xml Records Protocol Response Credentials Config Request.
From S2P Require Import Execute Crc Headers Calls Objects.
From stdpp Require Import gmap.
From stdpp Require Import options.
Local Open Scope Z_scope.

(** ** [Path::parent], on a path's bytes *)

Fixpoint split_on (c : ascii) (s : string) : list string :=
  match s with
  | EmptyString => [""]
  | String b s =>
      match split_on c s with
      | piece :: pieces => if Ascii.eqb b c then "" :: piece :: pieces else String b piece :: pieces
      | [] => []
      end
  end.

(** Pieces from the last on; empty ones and dots are no components, unless first. *)
Fixpoint drop_trailing (reversed : list string) : list string :=
  match reversed with
  | piece :: (_ :: _) as rest =>
      if is_empty piece || String.eqb piece "." then drop_trailing rest else reversed
  | _ => reversed
  end.

Definition path_parent (path : string) : option string :=
  match drop_trailing (rev (split_on "/" path)) with
  | [] | [""] => None
  | [_] => Some ""
  | _ :: rest =>
      match drop_trailing rest with
      | [""] => Some "/"
      | front => Some (Prelude.join "/" (rev front))
      end
  end.

(** The directory of the temporary file. *)
Definition download_directory (destination : string) : string :=
  match path_parent destination with
  | Some parent => if is_empty parent then "." else parent
  | None => "."
  end.

(** ** The file system *)

Notation files := (gmap string string).

(** What the file system answers: [tempfile::NamedTempFile::new_in] and whether
the task that calls it is cancelled, [try_clone], the writes and the flush, the
contents of the temporary file seen between the writes and what it has when one
failed, [sync_all], the renaming, and whether a dropped file can be removed. *)
Record FileIo : Type := {
  io_cancelled : bool;
  io_create : string -> result string string;
  io_clone : result string unit;
  io_write_all : string -> result string unit;
  io_flush : result string unit;
  io_between : list string;
  io_torn : string;
  io_sync : result string unit;
  io_persist : result string unit;
  io_remove : bool
}.

Record DownloadToPathOutput : Type := {
  dl_metadata : ObjectMetadata.t;
  dl_bytes_written : Z;
  dl_path : string
}.

(** Dropping a [NamedTempFile]. *)
Definition drop_temporary (io : FileIo) (temporary : string) (fs : files) : files :=
  if io_remove io then delete temporary fs else fs.

(** [persist_download]: a rename, or the error with the file dropped. *)
Definition persist_download (io : FileIo) (temporary destination : string) (fs : files)
  : files * outcome unit :=
  match io_persist io with
  | Err e => (drop_temporary io temporary fs, Err (S3Error.transport e))
  | Ok _ =>
      (match fs !! temporary with
       | Some content => <[destination := content]> (delete temporary fs)
       | None => fs
       end, Ok tt)
  end.

Section download.
Context `{Http} `{HttpUri} `{World} `{Primitives} `{Documents} `{HttpText} `{Base64}.

(** Everything after the temporary file is there: the later states and the outcome. *)
Definition fill_and_persist (c : S3Client) (request : GetObjectRequest.t) (destination : string)
    (x : Call) (streaming : Z) (pauses : nat -> nat) (clock : list (Z * Z)) (io : FileIo)
    (temporary : string) (fs : files) (s : Session)
  : option (list files * Session * outcome DownloadToPathOutput) :=
  let failed (fs' : files) (s : Session) (e : S3Error.t) :=
    Some ([drop_temporary io temporary fs'], s, Err e) in
  match map_err S3Error.transport (io_clone io) with
  | Err e => failed fs s e
  | Ok _ =>
      '(s, output) ← get_object c request x streaming pauses s;
      match output with
      | Err e => failed fs s e
      | Ok output =>
          '(out, written) ← write_to clock (io_write_all io) (io_flush io) (go_body output);
          let seen := (fun content => <[temporary := content]> fs) <$> io_between io in
          match written with
          | Err e =>
              let fs := <[temporary := io_torn io]> fs in
              Some (seen ++ [fs; drop_temporary io temporary fs], s, Err e)
          | Ok bytes_written =>
              let fs := <[temporary := out]> fs in
              match map_err S3Error.transport (io_sync io) with
              | Err e => Some (seen ++ [fs; drop_temporary io temporary fs], s, Err e)
              | Ok _ =>
                  let (after, persisted) := persist_download io temporary destination fs in
                  Some (seen ++ [fs; after], s,
                    let? _ := persisted in
                    Ok {| dl_metadata := go_metadata output; dl_bytes_written := bytes_written;
                          dl_path := destination |})
              end
          end
      end
  end.

(** [download_to_path]: the states of the file system from the first on, and the
outcome; [None] is a download that is not over. *)
Definition download_to_path (c : S3Client) (request : GetObjectRequest.t) (destination : string)
    (x : Call) (streaming : Z) (pauses : nat -> nat) (clock : list (Z * Z)) (io : FileIo)
    (fs : files) (s : Session) : option (list files * Session * outcome DownloadToPathOutput) :=
  if io_cancelled io
  then Some ([fs], s,
         Err (S3Error.cancellation "temporary download file creation was cancelled"))
  else
    match map_err S3Error.transport (io_create io (download_directory destination)) with
    | Err e => Some ([fs], s, Err e)
    | Ok temporary =>
        let created := <[temporary := ""]> fs in
        '(states, s, r) ← fill_and_persist c request destination x streaming pauses clock io
                            temporary created s;
        Some (fs :: created :: states, s, r)
    end.
End download.

Example path_parents :
  path_parent <$> ["/a/b"; "a"; "a//b/./"; "/"; ""; "./a"; "//a"; "a/.."; "."]
  = [Some "/a"; Some ""; Some "a"; None; None; Some "."; Some "/"; Some "a"; Some ""].
Proof. reflexivity. Qed.

(** ** Lemmas *)

Section lemmas.
Set Default Proof Using "Type*".
Context `{Http} `{HttpUri} `{World} `{Primitives} `{Documents} `{HttpText} `{Base64}.

(** The body of a download that has begun is a fresh stream with the length that
the metadata tells. *)
Lemma get_output_body c r deadline streaming pauses out :
  get_output c r deadline streaming pauses = Ok out ->
  exists items digest idle at_,
    go_body out = with_deadline streaming items (Some (ObjectMetadata.content_length (go_metadata out)))
                    digest idle at_ /\ 0 <= ObjectMetadata.content_length (go_metadata out).
Proof.
  unfold get_output. intros Ho.
  destruct (parse_object_metadata _) as [m|] eqn:Em; [|done].
  destruct (parse_content_range _) as [cr|]; [|done].
  destruct (verified_download_sha256 _) as [d|]; [|done].
  destruct (transpose _) as [l|] eqn:El; [|done]. injection Ho as <-. cbn [go_body go_metadata].
  unfold parse_object_metadata in Em. rewrite El in Em. destruct l as [n|]; cbn [ok_or] in Em; [|done].
  assert (Hn : ObjectMetadata.content_length m = n).
  { repeat match type of Em with (match ?q with Ok _ => _ | Err _ => _ end) = Ok _ =>
      destruct q; [|discriminate Em] end. by injection Em as <-. }
  rewrite Hn. do 4 eexists. split; [reflexivity|].
  destruct (hm_get _ "content-length") as [v|]; cbn in El; [|done].
  unfold parse_u64_value in El. destruct (hv_to_str v) as [t|]; cbn in El; [|done].
  destruct (parse_uint U64_MAX t) as [k|] eqn:Ek; cbn in El; [|done]. injection El as <-.
  by eapply parse_uint_nonneg.
Qed.

Lemma get_object_body c request x streaming pauses s s' out :
  get_object c request x streaming pauses s = Some (s', Ok out) ->
  exists items digest idle at_,
    go_body out = with_deadline streaming items (Some (ObjectMetadata.content_length (go_metadata out)))
                    digest idle at_ /\ 0 <= ObjectMetadata.content_length (go_metadata out).
Proof.
  unfold get_object, service_bind, fallible. cbn. intros E.
  destruct (get_headers _); [|done]. destruct (operation_target _ _); [|done]. cbn in E.
  destruct (call_signed _ _ _ _ _ _ _ _ s) as [[s1 [r|]]|]; [|done..]. cbn in E.
  injection E as _ E. by eapply get_output_body.
Qed.

(** What a completed copy of such a body is. *)
Lemma write_to_whole start items n digest idle at_ clock write_all flush out w : 0 <= n ->
  write_to clock write_all flush (with_deadline start items (Some n) digest idle at_)
    = Some (out, Ok w) ->
  w = slen out /\ out = download_bytes items /\ slen out = n /\
  match digest with Some d => sha256 out = d | None => True end.
Proof.
  intros Hn Hw. unfold write_to in Hw. change 0 with (slen "") in Hw.
  eapply (write_loop_spec (download_bytes items) (Some n) digest) in Hw as (_ & _ & Hw);
    [by apply Hw|done|by split].
Qed.

(** A state in which only the temporary file may differ. *)
Definition only_temporary (temporary : string) (fs f : files) : Prop :=
  forall p, p <> temporary -> f !! p = fs !! p.

Lemma only_temporary_insert t fs v : only_temporary t fs (<[t := v]> fs).
Proof. intros p Hp. by rewrite lookup_insert_ne. Qed.

Lemma only_temporary_drop io t fs f : only_temporary t fs f ->
  only_temporary t fs (drop_temporary io t f).
Proof.
  intros Hf p Hp. unfold drop_temporary. destruct (io_remove io); [|by apply Hf].
  rewrite lookup_delete_ne by done. by apply Hf.
Qed.

Lemma insert_over (t : string) v w (fs : files) :
  <[t := v]> (<[t := w]> fs) = <[t := v]> fs.
Proof. apply insert_insert_eq. Qed.

(** What is left once a temporary file that was not there before is dropped. *)
Lemma drop_inserted io t v (fs : files) : fs !! t = None -> io_remove io = true ->
  drop_temporary io t (<[t := v]> fs) = fs.
Proof.
  intros Hf Hr. unfold drop_temporary. rewrite Hr. by rewrite delete_insert_id.
Qed.

(** The states and the outcome after the temporary file was created. *)
Definition filled (c : S3Client) (request : GetObjectRequest.t) (destination t : string) (x : Call)
    (streaming : Z) (pauses : nat -> nat) (io : FileIo) (fs : files) (s : Session)
    (states : list files) (r : outcome DownloadToPathOutput) : Prop :=
  match r with
  | Err _ => exists earlier final, states = earlier ++ [final] /\
      Forall (only_temporary t fs) states /\ (io_remove io = true -> final = fs)
  | Ok o => exists earlier content output s1,
      states = earlier ++ [<[destination := content]> fs] /\ Forall (only_temporary t fs) earlier /\
      get_object c request x streaming pauses s = Some (s1, Ok output) /\
      dl_metadata o = go_metadata output /\ dl_path o = destination /\
      content = download_bytes (inner (go_body output)) /\ dl_bytes_written o = slen content /\
      slen content = ObjectMetadata.content_length (go_metadata output) /\
      match expected_digest (go_body output) with Some d => sha256 content = d | None => True end
  end.

Lemma filled_error c request destination t x streaming pauses io fs s earlier v e :
  fs !! t = None -> Forall (only_temporary t fs) earlier ->
  filled c request destination t x streaming pauses io fs s
    (earlier ++ [drop_temporary io t (<[t := v]> fs)]) (Err e).
Proof.
  intros Ht He. exists earlier, (drop_temporary io t (<[t := v]> fs)). split_and!; [done| |].
  - apply Forall_app. split; [done|]. apply Forall_singleton.
    apply only_temporary_drop, only_temporary_insert.
  - by apply drop_inserted.
Qed.

Lemma fill_and_persist_filled c request destination t x streaming pauses clock io fs s states s' r :
  fs !! t = None -> t <> destination ->
  fill_and_persist c request destination x streaming pauses clock io t (<[t := ""]> fs) s
    = Some (states, s', r) ->
  filled c request destination t x streaming pauses io fs s states r.
Proof.
  intros Ht Hne Hf. unfold fill_and_persist in Hf.
  destruct (io_clone io) as [u|e]; cbn [map_err] in Hf.
  2:{ injection Hf as <- _ <-. by apply (filled_error _ _ _ _ _ _ _ _ _ _ []). }
  destruct (get_object c request x streaming pauses s) as [[s1 [output|e]]|] eqn:Eg; cbn in Hf; [| |done].
  2:{ injection Hf as <- _ <-. by apply (filled_error _ _ _ _ _ _ _ _ _ _ []). }
  destruct (write_to _ _ _ _) as [[out written]|] eqn:Ew; cbn in Hf; [|done].
  rewrite !insert_over in Hf.
  set (seen := (fun content => <[t := content]> (<[t := ""]> fs)) <$> io_between io) in Hf.
  assert (Hseen : forall v, Forall (only_temporary t fs) (seen ++ [<[t := v]> fs])).
  { intros v. apply Forall_app. split; [|by apply Forall_singleton, only_temporary_insert].
    apply Forall_fmap, Forall_true. intros w. cbn. rewrite insert_over. apply only_temporary_insert. }
  destruct written as [w|e].
  2:{ injection Hf as <- _ <-. rewrite (cons_middle _ seen [_]), app_assoc. by apply filled_error. }
  destruct (io_sync io) as [u2|e]; cbn [map_err] in Hf.
  2:{ injection Hf as <- _ <-. rewrite (cons_middle _ seen [_]), app_assoc. by apply filled_error. }
  unfold persist_download in Hf. destruct (io_persist io) as [u3|e].
  2:{ injection Hf as <- _ <-. rewrite (cons_middle _ seen [_]), app_assoc. by apply filled_error. }
  rewrite lookup_insert_eq, delete_insert_id in Hf by done. injection Hf as <- _ <-.
  destruct (get_object_body _ _ _ _ _ _ _ _ Eg) as (items & digest & idle & at_ & Eb & Hn).
  rewrite Eb in Ew. apply write_to_whole in Ew as (-> & -> & Hl & Hd); [|exact Hn].
  exists (seen ++ [<[t := download_bytes items]> fs]), (download_bytes items), output, s1.
  rewrite Eb. split_and!; try done. by rewrite <- app_assoc.
Qed.
End lemmas.

(** ** Properties *)

(** C9. A download replaces its destination at once or not at all. When the
temporary file is a new one, every state before the last has the destination as
it was, so that a failed or dropped download leaves it; other files that exist
are never touched. On success the last state has the destination replaced by the
whole verified body, of the length S3 declared and with the digest it gave;
after an error the file system is as it was. *)
Theorem download_to_path_atomic `{Http} `{HttpUri} `{World} `{Primitives} `{Documents} `{HttpText}
  `{Base64} (c : S3Client) (request : GetObjectRequest.t) (destination : string) (x : Call)
  (streaming : Z) (pauses : nat -> nat) (clock : list (Z * Z)) (io : FileIo) (fs : files)
  (s s' : Session) (states : list files) (r : outcome DownloadToPathOutput)
  (Htemporary : forall t, io_create io (download_directory destination) = Ok t ->
     fs !! t = None /\ t <> destination)
  (Hrun : download_to_path c request destination x streaming pauses clock io fs s
          = Some (states, s', r)) :
  Forall (fun f => forall p, p <> destination -> fs !! p <> None -> f !! p = fs !! p) states /\
  match r with
  | Err _ =>
      Forall (fun f => f !! destination = fs !! destination) states /\
      (io_remove io = true -> last states = Some fs)
  | Ok o => exists earlier content output s1,
      states = earlier ++ [<[destination := content]> fs] /\
      Forall (fun f => f !! destination = fs !! destination) earlier /\
      get_object c request x streaming pauses s = Some (s1, Ok output) /\
      dl_metadata o = go_metadata output /\ dl_path o = destination /\
      content = download_bytes (inner (go_body output)) /\ dl_bytes_written o = slen content /\
      slen content = ObjectMetadata.content_length (go_metadata output) /\
      match expected_digest (go_body output) with Some d => sha256 content = d | None => True end
  end.
Proof.
  unfold download_to_path in Hrun. destruct (io_cancelled io).
  { injection Hrun as <- _ <-. by repeat constructor. }
  destruct (io_create io _) as [t|e]; cbn [map_err] in Hrun.
  2:{ injection Hrun as <- _ <-. by repeat constructor. }
  destruct (Htemporary t eq_refl) as [Ht Hne].
  destruct (fill_and_persist _ _ _ _ _ _ _ _ _ _ s) as [[[sts s1] r1]|] eqn:Ef; cbn in Hrun; [|done].
  injection Hrun as <- <- <-. apply fill_and_persist_filled in Ef; [|done..].
  assert (Hother : forall f, only_temporary t fs f ->
    (forall p, p <> destination -> fs !! p <> None -> f !! p = fs !! p) /\
    f !! destination = fs !! destination).
  { intros f Hf. split; [|by apply Hf]. intros p _ Hp. apply Hf. by intros ->. }
  assert (Hfirst : only_temporary t fs fs /\ only_temporary t fs (<[t := ""]> fs))
    by (split; [by intros p|apply only_temporary_insert]).
  destruct Hfirst as [Hsame Hcreated]. destruct r1 as [o|e]; cbn [filled] in Ef.
  - destruct Ef as (earlier & content & output & s2 & -> & He & Hrest).
    assert (Ha : Forall (only_temporary t fs) (fs :: <[t := ""]> fs :: earlier)) by by repeat constructor.
    split.
    + rewrite !app_comm_cons. apply Forall_app. split.
      * eapply Forall_impl; [exact Ha|]. apply Hother.
      * apply Forall_singleton. intros p Hp _. by rewrite lookup_insert_ne.
    + exists (fs :: <[t := ""]> fs :: earlier), content, output, s2. split; [done|].
      split; [|exact Hrest]. eapply Forall_impl; [exact Ha|]. apply Hother.
  - destruct Ef as (earlier & final & -> & He & Hfin).
    assert (Ha : Forall (only_temporary t fs) (fs :: <[t := ""]> fs :: earlier ++ [final]))
      by by repeat constructor.
    split; [eapply Forall_impl; [exact Ha|]; apply Hother|]. split.
    + eapply Forall_impl; [exact Ha|]. apply Hother.
    + intros Hr. rewrite <- (Hfin Hr). rewrite !app_comm_cons. by apply last_snoc.
Qed.

#[local] Existing Instance sample_uri.
#[local] Existing Instance assoc_http.
#[local] Existing Instance sample_primitives.
#[local] Existing Instance sample_signing_world.
#[local] Existing Instance service_documents.
#[local] Existing Instance sample_text.
#[local] Instance sample_base64 : Base64 :=
  {| base64_encode := base64_reference; base64_decode _ := None |}.

Definition sample_io : FileIo :=
  {| io_cancelled := false; io_create dir := Ok (dir +:+ "/.tmp1"); io_clone := Ok tt;
     io_write_all _ := Ok tt; io_flush := Ok tt; io_between := ["he"]; io_torn := "he";
     io_sync := Ok tt; io_persist := Ok tt; io_remove := true |}.
Definition sample_files : files := <["dir/object" := "old"]> ∅.
#[local] Notation path_run :=
  (download_to_path sample_client (GetObjectRequest.new (ObjectKey.Mk "a")) "dir/object"
     (answered_call 200 [("content-length", "5")] "hello") 0 (fun _ => 1%nat)
     [(0, 0); (0, 0); (0, 0); (0, 0)] sample_io sample_files sample_session).

Lemma download_to_path_atomic_witness :
  match path_run with
  | Some (states, _, Ok o) =>
      (fun f : files => f !! "dir/object") <$> states
        = [Some "old"; Some "old"; Some "old"; Some "old"; Some "hello"] /\
      exists earlier content, states = earlier ++ [<["dir/object" := content]> sample_files] /\
        Forall (fun f : files => f !! "dir/object" = Some "old") earlier
  | _ => False
  end.
Proof.
  assert (Hl : match path_run with
    | Some (states, _, Ok o) => bool_decide ((fun f : files => f !! "dir/object") <$> states
        = [Some "old"; Some "old"; Some "old"; Some "old"; Some "hello"])
    | _ => false end = true) by (vm_compute; reflexivity).
  destruct path_run as [[[states s'] r]|] eqn:E; [|discriminate Hl].
  pose proof (download_to_path_atomic sample_client (GetObjectRequest.new (ObjectKey.Mk "a"))
    "dir/object" (answered_call 200 [("content-length", "5")] "hello") 0 (fun _ => 1%nat)
    [(0, 0); (0, 0); (0, 0); (0, 0)] sample_io sample_files sample_session s' states r) as A.
  destruct r as [o|e]; [|discriminate Hl]. split; [apply bool_decide_eq_true in Hl; exact Hl|].
  destruct A as [_ (earlier & content & output & s1 & Es & Hf & _)]; [|exact E|].
  - intros t Et. injection Et as <-. split; [reflexivity|discriminate].
  - exists earlier, content. exact (conj Es Hf).
Defined.
