(* ===== verification/Secrecy.v ===== *)
(** What the secret access key reaches: two runs of the same call, by clients
whose providers answer credentials that differ in nothing but the secret, are
compared ([src/client/request/signing.rs], [execute.rs] and [presign.rs]). The
requests they send are the same up to the digits of the signature, and whatever
answers do not depend on those digits leaves the same outcome, the same events
and the same retry quota. The file models no code of its own. *)

From S2P Require Import Prelude Text Errors Canonical SigV4 Endpoint Http Retry Quota Types Stream.
From S2P Require Import Download Protocol Response Credentials Config Request Execute Presign.
From stdpp Require Import options.
Local Open Scope Z_scope.

(** Credentials that differ in the secret access key only. *)
Definition same_but_secret (a b : Credentials.t) : Prop :=
  Credentials.access_key_id a = Credentials.access_key_id b /\
  Credentials.session_token a = Credentials.session_token b /\
  Credentials.expires_at a = Credentials.expires_at b /\
  is_empty (Credentials.secret_access_key a) = is_empty (Credentials.secret_access_key b).

Definition outcome_rel {E A B} (R : A -> B -> Prop) (a : result E A) (b : result E B) : Prop :=
  match a, b with
  | Ok a, Ok b => R a b
  | Err e, Err e' => e = e'
  | _, _ => False
  end.

Definition providers_alike `{World} (p q : CredentialsProvider) : Prop :=
  forall w, outcome_rel same_but_secret (p w) (q w).

(** Two texts that differ in the 64 digits after a tag, if at all. *)
Definition same_but_signature (tag a b : string) : Prop :=
  exists before s t, a = before +:+ tag +:+ s /\ b = before +:+ tag +:+ t /\
    slen s = 64 /\ slen t = 64 /\ str_all is_lower_hex s = true /\ str_all is_lower_hex t = true.

(** Headers, and requests, that differ in the signature only. *)
Definition headers_alike `{Http} (a b : HeaderMap) : Prop :=
  (forall k, k <> "authorization" -> hm_get_all a k = hm_get_all b k) /\
  exists v w, hm_get_all a "authorization" = [v] /\ hm_get_all b "authorization" = [w] /\
    same_but_signature ", Signature=" (hv_bytes v) (hv_bytes w).

Definition requests_alike `{Http} `{HttpUri} (a b : Request) : Prop :=
  rq_method a = rq_method b /\ rq_uri a = rq_uri b /\ rq_body a = rq_body b /\
  headers_alike (rq_headers a) (rq_headers b).

(** The client with another provider. *)
Definition with_provider `{HttpUri} `{World} `{Http} (p : CredentialsProvider) (c : S3Client)
  : S3Client :=
  let s := config c in
  {| config := S3Config.Mk (S3Config.endpoint s) (S3Config.region s) (S3Config.bucket s)
       (S3Config.addressing_style s) (S3Config.connect_timeout s) (S3Config.attempt_timeout s)
       (S3Config.operation_timeout s) (S3Config.idle_body_timeout s)
       (S3Config.max_xml_response_size s) (S3Config.max_error_response_size s)
       (S3Config.retry_policy s) (S3Config.user_agent s) p (S3Config.observer s);
     transport := transport c |}.

(** An HTTP client whose answers do not depend on the signature's digits. *)
Definition indifferent `{HttpUri} `{World} `{Http} (env : Attempt) : Prop :=
  forall a b timeout, requests_alike a b -> http_client env a timeout = http_client env b timeout.

Definition sent_alike `{HttpUri} `{Http} (x y : EndpointUrl * string * Request) : Prop :=
  x.1 = y.1 /\ requests_alike x.2 y.2.

(** Everything of the two states but the requests sent is the same. *)
Definition resend `{HttpUri} `{Http} (l : list (EndpointUrl * string * Request)) (st : Execution)
  : Execution :=
  {| target := target st; signing_region := signing_region st;
     region_redirected := region_redirected st; attempts_completed := attempts_completed st;
     last_retry_cost := last_retry_cost st; pending_retry_permit := pending_retry_permit st;
     body := body st; quota := quota st; events := events st; sent := l |}.

Definition executions_alike `{HttpUri} `{Http} (a b : Execution) : Prop :=
  exists l, b = resend l a /\ Forall2 sent_alike (sent a) l.

(** ** Signing *)

Lemma outcome_rel_eq {E A} (a b : result E A) : outcome_rel eq a b -> a = b.
Proof. destruct a, b; cbn; intros; by subst. Qed.

Section signing.
Set Default Proof Using "Type*".
Context `{PrimitivesLaws} (Hhmac : forall k m, is_Some (hmac k m)).

Lemma calculate_signature_total cr sc d amz cs request :
  exists s, calculate_signature cr sc d amz cs request = Ok s.
Proof.
  unfold calculate_signature, derive_signing_key, SigningKey_sign, hmac_sha256.
  repeat match goal with |- context [hmac ?k ?m] =>
    destruct (Hhmac k m) as [? ->]; cbn [ok_or] end. eauto.
Qed.

(** One signature and its other half. *)
Lemma signatures_apart (before tag : string) cr cr' sc d amz cs request (s t : string) :
  calculate_signature cr sc d amz cs request = Ok s ->
  calculate_signature cr' sc d amz cs request = Ok t ->
  same_but_signature tag (before +:+ tag +:+ s) (before +:+ tag +:+ t).
Proof.
  intros Hs Ht. apply calculate_signature_hex in Hs as [? ?], Ht as [? ?].
  exists before, s, t. done.
Qed.

Definition credentials_alike (a b : SigningCredentials) : Prop :=
  access_key_id a = access_key_id b /\ session_token a = session_token b /\
  is_empty (secret_access_key a) = is_empty (secret_access_key b).

Lemma validate_common_alike a b sc m :
  credentials_alike a b -> validate_common a sc m = validate_common b sc m.
Proof. intros (E1 & E2 & E3). unfold validate_common. by rewrite E1, E2, E3. Qed.

Definition outputs_alike (a b : HeaderSigningOutput) : Prop :=
  amz_date a = amz_date b /\ security_token a = security_token b /\
  same_but_signature ", Signature=" (authorization a) (authorization b).

Lemma sign_headers_alike a b sc rq t : credentials_alike a b ->
  outcome_rel outputs_alike (sign_headers a sc rq t) (sign_headers b sc rq t).
Proof.
  intros Hab. unfold sign_headers. rewrite (validate_common_alike a b) by done.
  destruct Hab as (E1 & E2 & _). unfold signing_headers. rewrite E2.
  destruct (validate_common _ _ _); cbn; [|done].
  destruct (validate_payload_hash _); cbn; [|done].
  destruct (reject_reserved_headers _); cbn; [|done].
  destruct (format_timestamp _) as [[amz d]|]; cbn; [|done].
  destruct (canonical_headers _) as [ch|]; cbn; [|done].
  destruct (build_canonical_request _ _ _ _ _) as [request|]; cbn; [|done].
  destruct (calculate_signature_total a sc d amz (credential_scope d sc) request) as [s Hs].
  destruct (calculate_signature_total b sc d amz (credential_scope d sc) request) as [s' Hs'].
  rewrite Hs, Hs'. cbn. split_and!; [done..|]. cbn [authorization]. rewrite E1.
  pose proof (signatures_apart (ALGORITHM +:+ " Credential=" +:+ access_key_id b +:+ "/" +:+
    credential_scope d sc +:+ ", SignedHeaders=" +:+ signed ch) ", Signature=" _ _ _ _ _ _ _ _ _ Hs Hs').
  by rewrite !app_assoc_str in *.
Qed.

Lemma sign_presigned_alike a b sc rq t : credentials_alike a b ->
  outcome_rel (same_but_signature "&X-Amz-Signature=") (sign_presigned a sc rq t)
    (sign_presigned b sc rq t).
Proof.
  intros Hab. unfold sign_presigned. rewrite (validate_common_alike a b) by done.
  destruct Hab as (E1 & E2 & _). unfold presign_parameters. rewrite E1, E2.
  destruct (validate_common _ _ _); cbn [outcome_rel]; [|done].
  do 2 (case_match; [done|]).
  destruct (reject_reserved_query _); cbn [outcome_rel]; [|done].
  destruct (match ps_payload_hash rq with Some h => _ | None => _ end); cbn [outcome_rel]; [|done].
  destruct (canonical_headers _) as [ch|]; cbn [outcome_rel]; [|done].
  destruct (format_timestamp _) as [[amz d]|]; cbn [outcome_rel]; [|done].
  destruct (build_canonical_request _ _ _ _ _) as [request|]; cbn [outcome_rel]; [|done].
  destruct (calculate_signature_total a sc d amz (credential_scope d sc) request) as [s Hs].
  destruct (calculate_signature_total b sc d amz (credential_scope d sc) request) as [s' Hs'].
  rewrite Hs, Hs'. cbn [outcome_rel]. by eapply signatures_apart.
Qed.
End signing.

(** ** One request *)

Section requests.
Set Default Proof Using "Type*".
Context `{HttpLaws} `{HttpUri} `{World} `{PrimitivesLaws} (Hhmac : forall k m, is_Some (hmac k m)).

Lemma printable_header v : str_all printable v = true ->
  exists w, hv_from_str v = Some w /\ hv_bytes w = v.
Proof.
  intros Hv. destruct (hv_from_str_visible v) as [w Hw].
  - eapply str_all_impl; [|exact Hv]. intros c. all_bytes c.
  - exists w. split; [done|]. by apply hv_from_str_bytes.
Qed.

Lemma authorization_header cr sc rq t out : sign_headers cr sc rq t = Ok out ->
  exists w, hv_from_str (authorization out) = Some w /\ hv_bytes w = authorization out.
Proof.
  intros Hs. apply sign_headers_inv in Hs as (d & ch & sig & Hv & _ & Hd & _ & Hc & _ & _ & Hx & E).
  apply printable_header. rewrite E. by eapply signing_authorization_printable.
Qed.

Lemma headers_alike_insert k v a b : k <> "authorization" -> headers_alike a b ->
  headers_alike (hm_insert k v a) (hm_insert k v b).
Proof.
  intros N [E (x & y & Ex & Ey & S)]. split.
  - intros k' N'. destruct (decide (k = k')) as [->|].
    + by rewrite !hm_get_all_insert.
    + rewrite !hm_get_all_insert_ne by done. by apply E.
  - exists x, y. by rewrite !hm_get_all_insert_ne.
Qed.

Lemma set_header_alike k v m a b : k <> "authorization" -> headers_alike a b ->
  outcome_rel headers_alike (set_header k v m a) (set_header k v m b).
Proof.
  intros N Hab. unfold set_header. destruct (ok_or _ _); cbn; [|done].
  by apply headers_alike_insert.
Qed.

Lemma signed_headers_alike o o' h :
  outputs_alike o o' ->
  (exists w, hv_from_str (authorization o) = Some w /\ hv_bytes w = authorization o) ->
  (exists w, hv_from_str (authorization o') = Some w /\ hv_bytes w = authorization o') ->
  outcome_rel headers_alike (signed_headers o h) (signed_headers o' h).
Proof.
  intros (Ed & Et & S) (v & Ev & Bv) (w & Ew & Bw). unfold signed_headers, set_header at 1 4.
  rewrite Ev, Ew, Ed, Et. cbn [ok_or].
  assert (Hh : headers_alike (hm_insert "authorization" v h) (hm_insert "authorization" w h)).
  { split; [intros k N; by rewrite !hm_get_all_insert_ne|].
    exists v, w. by rewrite !hm_get_all_insert, Bv, Bw. }
  apply (set_header_alike "x-amz-date" (amz_date o') "generated signing date is invalid") in Hh; [|done].
  destruct (set_header "x-amz-date" _ _ _) as [a|], (set_header "x-amz-date" _ _ _) as [b|]; try done.
  destruct (security_token o') as [token|]; [|done].
  by apply set_header_alike.
Qed.

(** The same headers signed with either secret. *)
Lemma signed_request_alike p q at_ input : providers_alike p q ->
  outcome_rel requests_alike (signed_request p at_ input).1 (signed_request q at_ input).1 /\
  (signed_request p at_ input).2 = (signed_request q at_ input).2.
Proof.
  intros Hpq. unfold signed_request. specialize (Hpq (provider_world at_)).
  destruct (unsigned_headers input) as [h|]; [|done].
  destruct (p _) as [a|], (q _) as [b|]; try done.
  destruct Hpq as (E1 & E2 & E3 & E4).
  assert (Credentials.expires_by a (expiry_now at_) = Credentials.expires_by b (expiry_now at_)) as ->
    by (unfold Credentials.expires_by; by rewrite E3).
  destruct (Credentials.expires_by b _); [done|]. destruct (owned_headers h) as [owned|]; [|done].
  assert (Hab : credentials_alike (signing_credentials a) (signing_credentials b)) by done.
  pose proof (sign_headers_alike Hhmac _ _
    {| region := si_signing_region input; service := "s3" |} (signing_request input owned)
    (signing_now at_) Hab) as Hs.
  destruct (sign_headers (signing_credentials a) _ _ _) as [o|] eqn:Eo,
    (sign_headers (signing_credentials b) _ _ _) as [o'|] eqn:Eo'; try done;
    cbn [map_err]. apply authorization_header in Eo, Eo'.
  pose proof (signed_headers_alike o o' h Hs Eo Eo') as Hh.
  destruct (signed_headers o h) as [x|], (signed_headers o' h) as [y|]; try done.
  destruct (attempt_body (si_body input)) as [[body|] left]; done.
Qed.
End requests.

(** ** The attempts *)

Lemma resend_sent `{HttpUri} `{Http} st : resend (sent st) st = st.
Proof. by destruct st. Qed.

Section attempts.
Set Default Proof Using "Type*".
Context `{HttpLaws} `{HttpUri} `{World} `{PrimitivesLaws} `{Documents} `{HttpText}.
Context (Hhmac : forall k m, is_Some (hmac k m)).
Variable c : S3Client.
Variable op : Operation.
Variable q : CredentialsProvider.

#[local] Notation c' := (with_provider q c).

Definition step_alike (a b : step) : Prop :=
  match a, b with
  | Continue st, Continue st' => executions_alike st st'
  | Return st r, Return st' r' => executions_alike st st' /\ r = r'
  | _, _ => False
  end.

Lemma stop_with_alike st st' e reason : executions_alike st st' ->
  step_alike (stop_with c op st e reason) (stop_with c' op st' e reason).
Proof. intros (l & -> & Hl). split; [|done]. by exists l. Qed.

Lemma schedule_retry_alike env st st' e ra : executions_alike st st' ->
  step_alike (schedule_retry c op env st e ra) (schedule_retry c' op env st' e ra).
Proof.
  intros Hst. pose proof (stop_with_alike st st' e) as Hstop. specialize (fun r => Hstop r Hst).
  destruct Hst as (l & -> & Hl). unfold schedule_retry.
  change (stop_reason c' op (resend l st) e) with (stop_reason c op st e).
  change (policy c') with (policy c). change (attempts_completed (resend l st)) with (attempts_completed st).
  change (quota (resend l st)) with (quota st).
  destruct (stop_reason c op st e _); [done|]. destruct (delay_for _ _ _ _ _ _) as [delay|]; [|done].
  destruct (deadline_remaining _ _) as [remaining|]; [|done]. destruct (remaining <=? delay); [done|].
  destruct (acquire (quota st) _) as [qt [permit|]].
  - by exists l.
  - apply stop_with_alike. by exists l.
Qed.

Lemma follow_redirect_alike st st' region authority : executions_alike st st' ->
  step_alike (follow_redirect c op st region authority)
    (follow_redirect c' op st' region authority).
Proof.
  intros (l & -> & Hl). unfold follow_redirect.
  change (target (resend l st)) with (target st).
  destruct (with_authority (target st) authority); [by exists l|]. split; [|done]. by exists l.
Qed.

Lemma abandon_alike st st' : executions_alike st st' -> executions_alike (abandon st) (abandon st').
Proof.
  intros (l & -> & Hl). exists l. unfold abandon.
  change (pending_retry_permit (resend l st)) with (pending_retry_permit st).
  by destruct (pending_retry_permit st).
Qed.

(** Handing over requests that are alike. *)
Lemma send_alike env timeout a b : indifferent env -> requests_alike a b ->
  (send (transport c) (fun r => http_client env r timeout) a).2
  = (send (transport c) (fun r => http_client env r timeout) b).2 /\
  match (send (transport c) (fun r => http_client env r timeout) a).1,
        (send (transport c) (fun r => http_client env r timeout) b).1 with
  | Some a, Some b => requests_alike a b
  | None, None => True
  | _, _ => False
  end.
Proof.
  intros Henv (Em & Eu & Eb & Hh). unfold send, permitted_scheme, scheme_str. rewrite Eu.
  case_match eqn:E; [|done].
  assert (Hab : requests_alike (with_user_agent (transport c) a) (with_user_agent (transport c) b)).
  { split_and!; try done. unfold with_user_agent, hm_contains, hm_get. cbn [rq_headers].
    rewrite <- (proj1 Hh) by done. case_match; [done|]. by apply headers_alike_insert. }
  split; [|done]. cbn [snd]. rewrite (Henv _ _ timeout Hab).
  unfold with_user_agent. cbn [rq_uri]. by rewrite ?Eu.
Qed.

Lemma attempt_alike env st st' : providers_alike (S3Config.credentials_provider (config c)) q ->
  indifferent env -> executions_alike st st' ->
  match attempt c op env st, attempt c' op env st' with
  | Some a, Some b => step_alike a b
  | None, None => True
  | _, _ => False
  end.
Proof.
  intros Hq Henv (l & -> & Hl). unfold attempt.
  change (with_quota (others env (quota (resend l st))) (resend l st))
    with (resend l (with_quota (others env (quota st)) st)).
  set (st1 := with_quota _ st). assert (Hl1 : Forall2 sent_alike (sent st1) l) by done. clearbody st1.
  assert (Hab : executions_alike st1 (resend l st1)) by (by exists l).
  destruct (deadline_remaining _ (at_start env)) as [d|e]; [|split; [by apply abandon_alike|done]].
  change (signed_input op (resend l st1)) with (signed_input op st1).
  destruct (signed_request_alike Hhmac _ _ (signing env) (signed_input op st1) Hq) as [Hs Hleft].
  change (S3Config.credentials_provider (config c')) with q.
  destruct (signed_request (S3Config.credentials_provider (config c)) _ _) as [r left],
    (signed_request q _ _) as [r' left']. cbn [fst snd] in Hs, Hleft. subst left'.
  assert (Hb : executions_alike (abandon (with_body left st1)) (abandon (with_body left (resend l st1)))).
  { apply abandon_alike. by exists l. }
  assert (He : outcome_rel requests_alike (if signing_elapsed env then Err operation_timeout else r)
                 (if signing_elapsed env then Err operation_timeout else r'))
    by (by destruct (signing_elapsed env)).
  destruct (if signing_elapsed env then _ else r) as [a|e], (if signing_elapsed env then _ else r')
    as [b|e']; try done; [|cbn in He; subst; by split].
  destruct (deadline_remaining _ (at_ready env)) as [remaining|e]; [|by split].
  change (S3Config.attempt_timeout (config c')) with (S3Config.attempt_timeout (config c)).
  change (transport c') with (transport c).
  destruct (send_alike env (Z.min (S3Config.attempt_timeout (config c)) remaining) a b Henv He)
    as [Hr Hh].
  destruct (send (transport c) _ a) as [handed r1], (send (transport c) _ b) as [handed' r2].
  cbn [fst snd] in Hr, Hh. subst r2.
  assert (Hst : executions_alike (hand_over handed (begin_attempt c op (with_body left st1)))
    (hand_over handed' (begin_attempt c' op (with_body left (resend l st1))))).
  { destruct handed as [x|], handed' as [y|]; try done; [|by exists l].
    eexists; split; [reflexivity|]. apply Forall2_app; [done|].
    constructor; [by split|constructor]. }
  revert Hst. set (s1 := hand_over handed _). set (s2 := hand_over handed' _). intros Hst.
  assert (judge c' op env s2 r1 = judge c op env s1 r1) as ->
    by (by destruct Hst as (l2 & -> & _)).
  destruct (judge c op env s1 r1) as [[r2|region authority|error ra]|]; cbn; [..|done].
  - destruct Hst as (l2 & E & Hl2). rewrite E. split; [|done]. by exists l2.
  - by apply follow_redirect_alike.
  - by apply schedule_retry_alike.
Qed.

Lemma attempts_alike envs st st' : providers_alike (S3Config.credentials_provider (config c)) q ->
  Forall indifferent envs -> executions_alike st st' ->
  match attempts c op envs st, attempts c' op envs st' with
  | Some (st, r), Some (st', r') => executions_alike st st' /\ r = r'
  | None, None => True
  | _, _ => False
  end.
Proof.
  intros Hq Henvs. revert st st'. induction Henvs as [|env envs Henv _ IH]; intros st st' Hst; [done|].
  cbn [attempts]. pose proof (attempt_alike env st st' Hq Henv Hst) as Ha.
  destruct (attempt c op env st) as [[a|a r]|], (attempt c' op env st') as [[b|b r']|]; try done.
  by apply IH.
Qed.
End attempts.

(** ** Properties *)

(** C7. The secret access key leaves the client in signatures only. Two clients
whose providers differ in nothing but secrets send, for the same call and the
same circumstances, requests that are equal but for the 64 digits of the
signature, as many and in the same order; unless the answers depend on those
digits, the outcome (each error with its message, the response), what the
observer is told and the retry quota left are the same. *)
Theorem secret_reaches_signature_only `{HttpLaws} `{HttpUri} `{World} `{PrimitivesLaws}
  `{Documents} `{HttpText} (c : S3Client) (q : CredentialsProvider) (method : string)
  (target : EndpointUrl) (query : list QueryParam) (headers : HeaderMap)
  (body : option PreparedBody) (deadline : OperationDeadline) (mode : SuccessMode) (started : Z)
  (envs : list Attempt) (quota : RetryQuota)
  (Hhmac : forall k m, is_Some (hmac k m))
  (Hq : providers_alike (S3Config.credentials_provider (config c)) q)
  (Henvs : Forall indifferent envs) :
  match send_signed_inner c method target query headers body deadline mode started envs quota,
        send_signed_inner (with_provider q c) method target query headers body deadline mode
          started envs quota with
  | Some (st, r), Some (st', r') =>
      r = r' /\ events st = events st' /\ Execute.quota st = Execute.quota st' /\
      Forall2 sent_alike (sent st) (sent st')
  | None, None => True
  | _, _ => False
  end.
Proof.
  unfold send_signed_inner.
  change (S3Config.region (config (with_provider q c))) with (S3Config.region (config c)).
  destruct (with_query target (canonical_query query)) as [home|e]; [|by repeat constructor].
  set (st := execution _ _ _ _). set (op := operation _ _ _ _ _ _ _).
  assert (Hst : executions_alike st st) by (by exists []).
  pose proof (attempts_alike Hhmac c op q envs st st Hq Henvs Hst) as Ha.
  destruct (attempts c op envs st) as [[a r]|], (attempts _ op envs st) as [[b r']|]; try done.
  destruct Ha as [(l & -> & Hl) <-]. done.
Qed.

(** C20. Nor does a presigned URL hold the secret: with another secret the same
presigning fails the same way, or makes a URL that differs in the digits of its
signature only. *)
Theorem presigned_url_hides_secret `{Http} `{HttpUri} `{World} `{PrimitivesLaws} (c : S3Client)
  (q : CredentialsProvider) (method : string) (key : ObjectKey.t) (query : list QueryParam)
  (expires : Z) (w : world) (now : Z)
  (Hhmac : forall k m, is_Some (hmac k m))
  (Hq : providers_alike (S3Config.credentials_provider (config c)) q) :
  outcome_rel (fun u v => same_but_signature "&X-Amz-Signature=" (PresignedUrl.expose u)
                            (PresignedUrl.expose v))
    (presign c method key query expires w now)
    (presign (with_provider q c) method key query expires w now).
Proof.
  unfold presign. change (operation_target (with_provider q c)) with (operation_target c).
  change (S3Config.region (config (with_provider q c))) with (S3Config.region (config c)).
  change (S3Config.credentials_provider (config (with_provider q c))) with q.
  destruct (operation_target c _) as [target|]; [|done]. specialize (Hq w).
  destruct (S3Config.credentials_provider (config c) w) as [a|], (q w) as [b|]; try done.
  destruct Hq as (E1 & E2 & E3 & E4).
  unfold Credentials.expires_by, outlives. rewrite E3.
  destruct (match Credentials.expires_at b with Some e => _ | None => false end); [done|].
  destruct (match Credentials.expires_at b with Some e => _ | None => false end); [done|].
  assert (Hab : credentials_alike (signing_credentials a) (signing_credentials b)) by done.
  pose proof (sign_presigned_alike Hhmac _ _ {| region := S3Config.region (config c); service := "s3" |}
    (presigning_request method target query expires) now Hab) as Hs.
  destruct (sign_presigned (signing_credentials a) _ _ _) as [x|],
    (sign_presigned (signing_credentials b) _ _ _) as [y|]; try done.
  destruct Hs as (before & s & t & -> & -> & Hs). exists (serialized target +:+ "?" +:+ before), s, t.
  cbn [PresignedUrl.expose]. by rewrite !app_assoc_str.
Qed.

(** ** Two secrets for one key *)

#[local] Existing Instance sample_uri.
#[local] Existing Instance assoc_http.
#[local] Existing Instance assoc_http_laws.
#[local] Existing Instance sample_primitives.
#[local] Existing Instance sample_laws.
#[local] Existing Instance sample_signing_world.
#[local] Existing Instance sample_documents.
#[local] Existing Instance sample_text.

Definition other_provider : CredentialsProvider :=
  fun _ => Ok (Credentials.Mk "AKID" "another" (Some "tok") None).

Lemma sample_providers_alike :
  providers_alike (S3Config.credentials_provider (config sample_client)) other_provider.
Proof. intros w. by repeat split. Qed.

Lemma sample_hmac_total : forall k m : string, is_Some (hmac k m).
Proof. intros k m. by eexists. Qed.

Definition authorizations (st : Execution) : list (option string) :=
  (fun x => hm_get_str (rq_headers x.2) "authorization") <$> sent st.

Lemma secret_reaches_signature_only_witness :
  match send_signed_inner sample_client "GET" sample_target [] hm_empty None sample_deadline
          Streaming 0 sample_envs RetryQuota_new,
        send_signed_inner (with_provider other_provider sample_client) "GET" sample_target []
          hm_empty None sample_deadline Streaming 0 sample_envs RetryQuota_new with
  | Some (st, r), Some (st', r') =>
      r = r' /\ Forall2 sent_alike (sent st) (sent st') /\
      authorizations st <> authorizations st' /\ List.length (sent st) = 3%nat
  | _, _ => False
  end.
Proof.
  pose proof (secret_reaches_signature_only sample_client other_provider "GET" sample_target []
    hm_empty None sample_deadline Streaming 0 sample_envs RetryQuota_new sample_hmac_total
    sample_providers_alike) as Hrun.
  assert (Hb : match send_signed_inner sample_client "GET" sample_target [] hm_empty None
                 sample_deadline Streaming 0 sample_envs RetryQuota_new,
               send_signed_inner (with_provider other_provider sample_client) "GET" sample_target []
                 hm_empty None sample_deadline Streaming 0 sample_envs RetryQuota_new with
               | Some (st, _), Some (st', _) =>
                   bool_decide (authorizations st <> authorizations st')
                   && (List.length (sent st) =? 3)%nat
               | _, _ => false
               end = true) by (vm_compute; reflexivity).
  destruct (send_signed_inner sample_client _ _ _ _ _ _ _ _ _ _) as [[st r]|];
    [|discriminate Hb].
  destruct (send_signed_inner (with_provider _ _) _ _ _ _ _ _ _ _ _ _) as [[st' r']|];
    [|discriminate Hb].
  apply andb_true_iff in Hb as [Hne Hlen].
  destruct Hrun as (E & _ & _ & Hs); [repeat constructor|].
  split; [exact E|]. split; [exact Hs|].
  split; [exact (bool_decide_eq_true_1 _ Hne)|exact (proj1 (Nat.eqb_eq _ _) Hlen)].
Defined.

Lemma presigned_url_hides_secret_witness :
  match presign sample_client "GET" (ObjectKey.Mk "a") [] (from_secs 60) tt 0,
        presign (with_provider other_provider sample_client) "GET" (ObjectKey.Mk "a") []
          (from_secs 60) tt 0 with
  | Ok u, Ok v => PresignedUrl.expose u <> PresignedUrl.expose v /\
      same_but_signature "&X-Amz-Signature=" (PresignedUrl.expose u) (PresignedUrl.expose v)
  | _, _ => False
  end.
Proof.
  pose proof (presigned_url_hides_secret sample_client other_provider "GET" (ObjectKey.Mk "a") []
    (from_secs 60) tt 0 sample_hmac_total sample_providers_alike) as Hs.
  assert (Hb : match presign sample_client "GET" (ObjectKey.Mk "a") [] (from_secs 60) tt 0,
                 presign (with_provider other_provider sample_client) "GET" (ObjectKey.Mk "a") []
                   (from_secs 60) tt 0 with
               | Ok u, Ok v => bool_decide (PresignedUrl.expose u <> PresignedUrl.expose v)
               | _, _ => false
               end = true) by (vm_compute; reflexivity).
  destruct (presign sample_client _ _ _ _ _ _) as [u|]; [|discriminate Hb].
  destruct (presign (with_provider _ _) _ _ _ _ _ _) as [v|]; [|discriminate Hb].
  split; [exact (bool_decide_eq_true_1 _ Hb)|exact Hs].
Defined.
