(* ===== verification/Redaction.v ===== *)
(** Standard formatting ([impl fmt::Debug] and [fmt::Display] of the library's
types): what a log shows of a request, a client, a credential or an error. An
implementation is the tree of calls it makes on its [Formatter]; [render] writes
the compact form, as [core::fmt] does. The [derive_more] attributes of the
request types are followed field by field. *)

From S2P Require Import Prelude Text Errors Types Http Endpoint Retry Stream Download Records.
From S2P Require Import SigV4 Xml Protocol Response Credentials Config Request Execute.
From S2P Require Import Headers Calls Objects Parts Listing Operations Presign Secrecy.
From stdpp Require Import options.
Local Open Scope Z_scope.

(** ** [core::fmt] *)

(** [more] is [finish_non_exhaustive]. *)
Inductive Dbg : Type :=
| Verbatim (s : string)
| Str (s : string)
| Num (n : Z)
| Flag (b : bool)
| Duration (d : Z)
| DateTime (t : Z)
| Tuple (name : string) (fields : list Dbg)
| Struct (name : string) (fields : list (string * Dbg)) (more : bool)
| Seq (items : list Dbg).

(** [Debug] of strings, durations and dates. *)
Class Foreign : Type := {
  debug_str : string -> string;
  debug_duration : Z -> string;
  debug_date_time : Z -> string
}.

Section render.
Context `{Foreign}.

Fixpoint render (d : Dbg) : string :=
  match d with
  | Verbatim s => s
  | Str s => debug_str s
  | Num n => to_string n
  | Flag b => if b then "true" else "false"
  | Duration d => debug_duration d
  | DateTime t => debug_date_time t
  | Tuple name [] => name
  | Tuple name fields => name +:+ "(" +:+ join ", " (List.map render fields) +:+ ")"
  | Struct name fields more =>
      let fields := List.map (fun f => f.1 +:+ ": " +:+ render f.2) fields in
      match app fields (if more then [".."] else []) with
      | [] => name
      | shown => name +:+ " { " +:+ join ", " shown +:+ " }"
      end
  | Seq items => "[" +:+ join ", " (List.map render items) +:+ "]"
  end.
End render.

Class Debug (A : Type) : Type := debug : A -> Dbg.
Definition format `{Foreign} `{Debug A} (a : A) : string := render (debug a).

Definition unit_variant (name : string) : Dbg := Tuple name [].
Definition redacted : Dbg := Str "<redacted>".

#[export] Instance debug_string : Debug string := Str.
#[export] Instance debug_Z : Debug Z := Num.
#[export] Instance debug_bool : Debug bool := Flag.
#[export] Instance debug_option `{Debug A} : Debug (option A) := fun a =>
  match a with Some a => Tuple "Some" [debug a] | None => unit_variant "None" end.
#[export] Instance debug_list `{Debug A} : Debug (list A) := fun l => Seq (debug <$> l).

Definition optional (show : Z -> Dbg) (t : option Z) : Dbg :=
  match t with Some t => Tuple "Some" [show t] | None => unit_variant "None" end.

(** ** Errors *)

#[export] Instance debug_category : Debug ErrorCategory.t := fun c =>
  unit_variant (ErrorCategory.name c).
#[export] Instance debug_classification : Debug RetryClassification.t := fun r =>
  unit_variant match r with
               | RetryClassification.Never => "Never"
               | RetryClassification.Retryable => "Retryable"
               | RetryClassification.Throttled => "Throttled"
               end.
#[export] Instance debug_phase : Debug TimeoutPhase.t := fun p =>
  unit_variant match p with
               | TimeoutPhase.Connect => "Connect"
               | TimeoutPhase.Request => "Request"
               | TimeoutPhase.ResponseBody => "ResponseBody"
               | TimeoutPhase.Operation => "Operation"
               end.
#[export] Instance debug_stop_reason : Debug RetryStopReason.t := fun r =>
  unit_variant match r with
               | RetryStopReason.NonRetryable => "NonRetryable"
               | RetryStopReason.NonReplayable => "NonReplayable"
               | RetryStopReason.AttemptsExhausted => "AttemptsExhausted"
               | RetryStopReason.ElapsedLimit => "ElapsedLimit"
               | RetryStopReason.Deadline => "Deadline"
               | RetryStopReason.RetryQuota => "RetryQuota"
               end.

#[export] Instance debug_error : Debug S3Error.t := fun e =>
  Struct "S3Error"
    [("category", debug (S3Error.category e)); ("code", debug (S3Error.code e));
     ("status", debug (S3Error.status e)); ("message", debug (S3Error.message e));
     ("request_id", debug (S3Error.request_id e)); ("host_id", debug (S3Error.host_id e));
     ("retry", debug (S3Error.retry_classification e)); ("attempts", debug (S3Error.attempts e));
     ("retry_stop_reason", debug (S3Error.retry_stop_reason e));
     ("timeout_phase", debug (S3Error.timeout_phase e));
     ("server_time", optional DateTime (S3Error.server_time e));
     ("clock_skew", optional Duration (S3Error.clock_skew e));
     ("source", debug ((fun _ => "[REDACTED]") <$> S3Error.source e));
     ("cleanup_failure", debug ((fun _ => "[REDACTED]") <$> S3Error.cleanup_failure e))] false.

(** [impl Error for S3Error]: what a chain of sources shows. *)
Definition error_source (e : S3Error.t) : option string :=
  S3Error.source_display <$> S3Error.source e.

(** ** Credentials *)

#[export] Instance debug_credentials : Debug Credentials.t := fun c =>
  Struct "Credentials"
    [("access_key_id", Str "[REDACTED]"); ("secret_access_key", Str "[REDACTED]");
     ("session_token", debug ((fun _ => "[REDACTED]") <$> Credentials.session_token c));
     ("expires_at", optional DateTime (Credentials.expires_at c))] false.
#[export] Instance debug_static_provider : Debug StaticCredentialsProvider.t := fun _ =>
  Struct "StaticCredentialsProvider" [("credentials", Str "[REDACTED]")] false.
#[export] Instance debug_aws_provider : Debug AwsDefaultCredentialsProvider.t := fun _ =>
  Struct "AwsDefaultCredentialsProvider" [("inner", Str "[REDACTED]")] false.
#[export] Instance debug_cached_provider : Debug CachedCredentialsProvider.t := fun p =>
  Struct "CachedCredentialsProvider"
    [("provider", Str "[REDACTED]");
     ("refresh_before", Duration (CachedCredentialsProvider.refresh_before p));
     ("cached", Str "[REDACTED]")] false.

(** ** Endpoints, configuration and client *)

Definition debug_endpoint_url : Debug EndpointUrl := fun u =>
  let (path, query) := match split_once "?" (path_and_query u) with
                       | Some (path, _) => (path, true)
                       | None => (path_and_query u, false)
                       end in
  Struct "EndpointUrl"
    [("scheme", debug (scheme u)); ("authority", debug (authority u)); ("path", debug path);
     ("has_redacted_query", debug query)] true.
#[export] Existing Instance debug_endpoint_url.
#[export] Instance debug_endpoint : Debug Endpoint := fun e => Tuple "Endpoint" [debug (url e)].
Definition display_endpoint (e : Endpoint) : string := serialized (url e).
#[export] Instance debug_addressing_style : Debug AddressingStyle := fun s =>
  unit_variant match s with Path => "Path" | VirtualHosted => "VirtualHosted" end.
#[export] Instance debug_retry_policy : Debug RetryPolicy := fun p =>
  Struct "RetryPolicy"
    [("max_attempts", debug (max_attempts p)); ("base_delay", Duration (base_delay p));
     ("max_delay", Duration (max_delay p)); ("max_elapsed", Duration (max_elapsed p))] false.

#[export] Instance debug_config `{HttpUri} `{World} : Debug S3Config.t := fun c =>
  Struct "S3Config"
    [("endpoint", debug (S3Config.endpoint c)); ("region", debug (S3Config.region c));
     ("bucket", debug (S3Config.bucket c));
     ("addressing_style", debug (S3Config.addressing_style c));
     ("connect_timeout", Duration (S3Config.connect_timeout c));
     ("attempt_timeout", Duration (S3Config.attempt_timeout c));
     ("operation_timeout", Duration (S3Config.operation_timeout c));
     ("idle_body_timeout", Duration (S3Config.idle_body_timeout c));
     ("max_xml_response_size", debug (S3Config.max_xml_response_size c));
     ("max_error_response_size", debug (S3Config.max_error_response_size c));
     ("retry_policy", debug (S3Config.retry_policy c));
     ("user_agent", debug (S3Config.user_agent c)); ("credentials_provider", Str "[REDACTED]");
     ("observer", debug (if S3Config.observer c then Some "configured" else None))] false.
#[export] Instance debug_client `{HttpUri} `{World} `{Http} : Debug S3Client := fun c =>
  Struct "S3Client" [("config", debug (config c))] true.

(** ** Bodies and URLs *)

(** [ByteStream]. *)
#[export] Instance debug_byte_stream : Debug UploadSource := fun s =>
  let (kind, replayable) := match s with
                            | SourceBytes _ => ("bytes", true)
                            | SourceFile _ => ("file", true)
                            | SourceStream _ _ _ => ("stream", false)
                            end in
  Struct "ByteStream" [("kind", Str kind); ("replayable", Flag replayable)] true.
#[export] Instance debug_response_stream : Debug ResponseStream := fun s =>
  Struct "ResponseStream"
    [("expected_length", debug (expected_length s));
     ("verifies_sha256", debug (bool_decide (is_Some (expected_digest s))));
     ("received", debug (received s)); ("idle_timeout", Duration (idle_timeout s));
     ("has_deadline", debug (bool_decide (is_Some (deadline s)))); ("finished", debug (ended s))]
    true.
#[export] Instance debug_presigned_url : Debug PresignedUrl.t := fun _ =>
  Verbatim "PresignedUrl([REDACTED])".
Definition display_presigned_url (_ : PresignedUrl.t) : string := "[REDACTED PRESIGNED URL]".
#[export] Instance debug_upload_id : Debug UploadId.t := fun _ => Verbatim "UploadId([REDACTED])".
Definition display_upload_id (_ : UploadId.t) : string := "[REDACTED]".
#[export] Instance debug_object_key : Debug ObjectKey.t := fun k =>
  Tuple "ObjectKey" [debug (ObjectKey.as_str k)].
Definition display_object_key (k : ObjectKey.t) : string := ObjectKey.as_str k.

(** ** Requests *)

(** Metadata shows its names, headers nothing. *)
Definition metadata_names (metadata : list (string * string)) : Dbg := debug (metadata.*1).

#[export] Instance debug_range : Debug ByteRange.t := fun r =>
  match r with
  | ByteRange.Inclusive start end_ =>
      Struct "Inclusive" [("start", debug start); ("end", debug end_)] false
  | ByteRange.From start => Tuple "From" [debug start]
  | ByteRange.Suffix length => Tuple "Suffix" [debug length]
  end.
#[export] Instance debug_conditions : Debug Conditions.t := fun c =>
  Struct "Conditions"
    [("if_match", debug (Conditions.if_match c));
     ("if_none_match", debug (Conditions.if_none_match c));
     ("if_modified_since", optional DateTime (Conditions.if_modified_since c));
     ("if_unmodified_since", optional DateTime (Conditions.if_unmodified_since c))] false.
#[export] Instance debug_algorithm : Debug ChecksumAlgorithm.t := fun a =>
  unit_variant match a with
               | ChecksumAlgorithm.Crc32 => "Crc32"
               | ChecksumAlgorithm.Crc32c => "Crc32c"
               | ChecksumAlgorithm.Crc64Nvme => "Crc64Nvme"
               | ChecksumAlgorithm.Sha1 => "Sha1"
               | ChecksumAlgorithm.Sha256 => "Sha256"
               end.
#[export] Instance debug_checksum_type : Debug ChecksumType.t := fun c =>
  match c with
  | ChecksumType.Composite => unit_variant "Composite"
  | ChecksumType.FullObject => unit_variant "FullObject"
  | ChecksumType.Unknown value => Tuple "Unknown" [debug value]
  end.
#[export] Instance debug_checksum : Debug Checksum.t := fun c =>
  Struct "Checksum"
    [("crc32", debug (Checksum.crc32 c)); ("crc32c", debug (Checksum.crc32c c));
     ("crc64_nvme", debug (Checksum.crc64_nvme c)); ("sha1", debug (Checksum.sha1 c));
     ("sha256", debug (Checksum.sha256 c))] false.
#[export] Instance debug_part_number : Debug PartNumber.t := fun n =>
  Tuple "PartNumber" [debug (PartNumber.get n)].
#[export] Instance debug_page_size : Debug PageSize.t := fun n =>
  Tuple "PageSize" [debug (PageSize.get n)].
#[export] Instance debug_completed_part : Debug CompletedPart.t := fun p =>
  Struct "CompletedPart"
    [("part_number", debug (CompletedPart.part_number p)); ("e_tag", debug (CompletedPart.e_tag p));
     ("checksum", debug (CompletedPart.checksum p))] false.
#[export] Instance debug_part_range : Debug CopyPartRange.t := fun r =>
  Struct "CopyPartRange"
    [("start", debug (CopyPartRange.start r)); ("end", debug (CopyPartRange.end_ r))] false.
#[export] Instance debug_copy_source : Debug CopySource.t := fun s =>
  Struct "CopySource"
    [("bucket", debug (CopySource.bucket s)); ("key", debug (CopySource.key s));
     ("version_id", debug (CopySource.version_id s))] false.
#[export] Instance debug_delete_identifier : Debug DeleteObjectIdentifier.t := fun d =>
  Struct "DeleteObjectIdentifier"
    [("key", debug (DeleteObjectIdentifier.key d));
     ("version_id", debug (DeleteObjectIdentifier.version_id d));
     ("if_match", debug (DeleteObjectIdentifier.if_match d))] false.
#[export] Instance debug_options : Debug MultipartOptions.t := fun o =>
  Struct "MultipartOptions"
    [("part_size", debug (MultipartOptions.part_size o));
     ("concurrency", debug (MultipartOptions.concurrency o));
     ("transfer_timeout", Duration (MultipartOptions.transfer_timeout o));
     ("cleanup_timeout", Duration (MultipartOptions.cleanup_timeout o))] false.

Section requests.
Context `{Http}.

#[export] Instance debug_put_object : Debug PutObjectRequest.t := fun r =>
  Struct "PutObjectRequest"
    [("key", debug (PutObjectRequest.key r)); ("body", Str "<stream>");
     ("content_type", debug (PutObjectRequest.content_type r));
     ("user_metadata", metadata_names (PutObjectRequest.user_metadata r));
     ("conditions", debug (PutObjectRequest.conditions r));
     ("checksum_algorithm", debug (PutObjectRequest.checksum_algorithm r));
     ("headers", redacted)] false.
#[export] Instance debug_get_object : Debug GetObjectRequest.t := fun r =>
  Struct "GetObjectRequest"
    [("key", debug (GetObjectRequest.key r)); ("range", debug (GetObjectRequest.range r));
     ("conditions", debug (GetObjectRequest.conditions r));
     ("version_id", debug (GetObjectRequest.version_id r)); ("headers", redacted)] false.
#[export] Instance debug_head_object : Debug HeadObjectRequest.t := fun r =>
  Struct "HeadObjectRequest"
    [("key", debug (HeadObjectRequest.key r));
     ("conditions", debug (HeadObjectRequest.conditions r));
     ("version_id", debug (HeadObjectRequest.version_id r)); ("headers", redacted)] false.
#[export] Instance debug_delete_object : Debug DeleteObjectRequest.t := fun r =>
  Struct "DeleteObjectRequest"
    [("key", debug (DeleteObjectRequest.key r));
     ("version_id", debug (DeleteObjectRequest.version_id r));
     ("if_match", debug (DeleteObjectRequest.if_match r)); ("headers", redacted)] false.
#[export] Instance debug_delete_objects : Debug DeleteObjectsRequest.t := fun r =>
  Struct "DeleteObjectsRequest"
    [("objects", debug (DeleteObjectsRequest.objects r));
     ("quiet", debug (DeleteObjectsRequest.quiet r)); ("headers", redacted)] false.
#[export] Instance debug_copy_object : Debug CopyObjectRequest.t := fun r =>
  Struct "CopyObjectRequest"
    [("source", debug (CopyObjectRequest.source r));
     ("destination", debug (CopyObjectRequest.destination r));
     ("source_conditions", debug (CopyObjectRequest.source_conditions r));
     ("metadata", Str match CopyObjectRequest.metadata r with
                      | CopyMetadataDirective.Copy => "copy"
                      | CopyMetadataDirective.Replace _ _ => "replace"
                      end);
     ("headers", redacted)] false.
#[export] Instance debug_list_objects : Debug ListObjectsV2Request.t := fun r =>
  Struct "ListObjectsV2Request"
    [("prefix", debug (ListObjectsV2Request.prefix r));
     ("delimiter", debug (ListObjectsV2Request.delimiter r));
     ("continuation_token", debug (ListObjectsV2Request.continuation_token r));
     ("start_after", debug (ListObjectsV2Request.start_after r));
     ("max_keys", debug (ListObjectsV2Request.max_keys r));
     ("fetch_owner", debug (ListObjectsV2Request.fetch_owner r)); ("headers", redacted)] false.
#[export] Instance debug_create_upload : Debug CreateMultipartUploadRequest.t := fun r =>
  Struct "CreateMultipartUploadRequest"
    [("key", debug (CreateMultipartUploadRequest.key r));
     ("content_type", debug (CreateMultipartUploadRequest.content_type r));
     ("user_metadata", metadata_names (CreateMultipartUploadRequest.user_metadata r));
     ("checksum_algorithm", debug (CreateMultipartUploadRequest.checksum_algorithm r));
     ("checksum_type", debug (CreateMultipartUploadRequest.checksum_type r));
     ("headers", redacted)] false.
#[export] Instance debug_upload_part : Debug UploadPartRequest.t := fun r =>
  Struct "UploadPartRequest"
    [("key", debug (UploadPartRequest.key r)); ("upload_id", debug (UploadPartRequest.upload_id r));
     ("part_number", debug (UploadPartRequest.part_number r)); ("body", Str "<stream>");
     ("checksum", debug (UploadPartRequest.checksum r)); ("headers", redacted)] false.
#[export] Instance debug_upload_part_copy : Debug UploadPartCopyRequest.t := fun r =>
  Struct "UploadPartCopyRequest"
    [("destination", debug (UploadPartCopyRequest.destination r));
     ("upload_id", debug (UploadPartCopyRequest.upload_id r));
     ("part_number", debug (UploadPartCopyRequest.part_number r));
     ("source", debug (UploadPartCopyRequest.source r));
     ("source_range", debug (UploadPartCopyRequest.source_range r));
     ("source_conditions", debug (UploadPartCopyRequest.source_conditions r));
     ("headers", redacted)] false.
#[export] Instance debug_complete_upload : Debug CompleteMultipartUploadRequest.t := fun r =>
  Struct "CompleteMultipartUploadRequest"
    [("key", debug (CompleteMultipartUploadRequest.key r));
     ("upload_id", debug (CompleteMultipartUploadRequest.upload_id r));
     ("completed_parts", debug (CompleteMultipartUploadRequest.completed_parts r));
     ("headers", redacted)] false.
#[export] Instance debug_abort_upload : Debug AbortMultipartUploadRequest.t := fun r =>
  Struct "AbortMultipartUploadRequest"
    [("key", debug (AbortMultipartUploadRequest.key r));
     ("upload_id", debug (AbortMultipartUploadRequest.upload_id r)); ("headers", redacted)] false.
#[export] Instance debug_list_parts : Debug ListPartsRequest.t := fun r =>
  Struct "ListPartsRequest"
    [("key", debug (ListPartsRequest.key r)); ("upload_id", debug (ListPartsRequest.upload_id r));
     ("part_number_marker", debug (ListPartsRequest.part_number_marker r));
     ("max_parts", debug (ListPartsRequest.max_parts r)); ("headers", redacted)] false.
#[export] Instance debug_list_uploads : Debug ListMultipartUploadsRequest.t := fun r =>
  Struct "ListMultipartUploadsRequest"
    [("prefix", debug (ListMultipartUploadsRequest.prefix r));
     ("delimiter", debug (ListMultipartUploadsRequest.delimiter r));
     ("key_marker", debug (ListMultipartUploadsRequest.key_marker r));
     ("upload_id_marker", debug (ListMultipartUploadsRequest.upload_id_marker r));
     ("max_uploads", debug (ListMultipartUploadsRequest.max_uploads r)); ("headers", redacted)]
    false.

#[export] Instance debug_managed_headers : Debug ManagedMultipartHeaders.t := fun _ =>
  Struct "ManagedMultipartHeaders"
    [("create", redacted); ("upload_part", redacted); ("complete", redacted); ("abort", redacted)]
    false.
#[export] Instance debug_managed_upload : Debug ManagedMultipartUploadRequest.t := fun r =>
  Struct "ManagedMultipartUploadRequest"
    [("key", debug (ManagedMultipartUploadRequest.key r));
     ("source", Str match ManagedMultipartUploadRequest.source r with
                    | MultipartBytes _ => "bytes"
                    | MultipartFile _ => "file"
                    end);
     ("content_type", debug (ManagedMultipartUploadRequest.content_type r));
     ("user_metadata", metadata_names (ManagedMultipartUploadRequest.user_metadata r));
     ("options", debug (ManagedMultipartUploadRequest.options r));
     ("checksum_algorithm", debug (ManagedMultipartUploadRequest.checksum_algorithm r));
     ("headers", debug (ManagedMultipartUploadRequest.headers r))] false.

(** The request an operation is called with. *)
#[export] Instance debug_op : Debug op := fun o =>
  match o with
  | PutObject r => debug r | GetObject r => debug r | HeadObject r => debug r
  | DeleteObject r => debug r | DeleteObjects r => debug r | CopyObject r => debug r
  | ListObjectsV2 r => debug r | CreateMultipartUpload r => debug r | UploadPart r => debug r
  | UploadPartCopy r => debug r | CompleteMultipartUpload r => debug r
  | AbortMultipartUpload r => debug r | ListParts r => debug r | ListMultipartUploads r => debug r
  end.
End requests.

(** ** What may be secret *)

Definition scrub_metadata (metadata : list (string * string)) : list (string * string) :=
  (fun p => (p.1, "")) <$> metadata.

Definition scrub_directive (d : CopyMetadataDirective.t) : CopyMetadataDirective.t :=
  match d with
  | CopyMetadataDirective.Copy => CopyMetadataDirective.Copy
  | CopyMetadataDirective.Replace _ _ => CopyMetadataDirective.Replace None []
  end.

Definition no_upload_id : UploadId.t := UploadId.Mk "".

(** A request without its bytes, its additional headers, the values of its
metadata and its upload identifiers. *)
Definition scrub `{Http} (o : op) : op :=
  match o with
  | PutObject (PutObjectRequest.Mk key _ content_type metadata conditions algorithm _) =>
      PutObject (PutObjectRequest.Mk key (SourceBytes "") content_type (scrub_metadata metadata)
                   conditions algorithm hm_empty)
  | GetObject r => GetObject (GetObjectRequest.with_headers r hm_empty)
  | HeadObject r => HeadObject (HeadObjectRequest.with_headers r hm_empty)
  | DeleteObject r => DeleteObject (DeleteObjectRequest.with_headers r hm_empty)
  | DeleteObjects r => DeleteObjects (DeleteObjectsRequest.with_headers r hm_empty)
  | CopyObject (CopyObjectRequest.Mk source destination conditions metadata _) =>
      CopyObject (CopyObjectRequest.Mk source destination conditions (scrub_directive metadata)
                    hm_empty)
  | ListObjectsV2 r => ListObjectsV2 (ListObjectsV2Request.with_headers r hm_empty)
  | CreateMultipartUpload
      (CreateMultipartUploadRequest.Mk key content_type metadata algorithm checksum_type _) =>
      CreateMultipartUpload (CreateMultipartUploadRequest.Mk key content_type
        (scrub_metadata metadata) algorithm checksum_type hm_empty)
  | UploadPart (UploadPartRequest.Mk key _ part_number _ checksum _) =>
      UploadPart (UploadPartRequest.Mk key no_upload_id part_number (SourceBytes "") checksum
                    hm_empty)
  | UploadPartCopy (UploadPartCopyRequest.Mk destination _ part_number source range conditions _) =>
      UploadPartCopy (UploadPartCopyRequest.Mk destination no_upload_id part_number source range
                        conditions hm_empty)
  | CompleteMultipartUpload (CompleteMultipartUploadRequest.Mk key _ parts _) =>
      CompleteMultipartUpload (CompleteMultipartUploadRequest.Mk key no_upload_id parts hm_empty)
  | AbortMultipartUpload (AbortMultipartUploadRequest.Mk key _ _) =>
      AbortMultipartUpload (AbortMultipartUploadRequest.Mk key no_upload_id hm_empty)
  | ListParts (ListPartsRequest.Mk key _ marker max_parts _) =>
      ListParts (ListPartsRequest.Mk key no_upload_id marker max_parts hm_empty)
  | ListMultipartUploads
      (ListMultipartUploadsRequest.Mk prefix delimiter key_marker marker max_uploads _) =>
      ListMultipartUploads (ListMultipartUploadsRequest.Mk prefix delimiter key_marker
        ((fun _ => no_upload_id) <$> marker) max_uploads hm_empty)
  end.

Definition scrub_managed `{Http} (r : ManagedMultipartUploadRequest.t)
  : ManagedMultipartUploadRequest.t :=
  match r with
  | ManagedMultipartUploadRequest.Mk key source content_type metadata options algorithm _ =>
      ManagedMultipartUploadRequest.Mk key
        match source with MultipartBytes _ => MultipartBytes "" | MultipartFile fs => source end
        content_type (scrub_metadata metadata) options algorithm ManagedMultipartHeaders.default
  end.

(** An error with another underlying error and another failed cleanup. *)
Definition with_hidden (e : S3Error.t) (source : S3Error.RedactedSource) (cleanup : S3Error.t)
  : S3Error.t :=
  S3Error.S3ErrorDetails (S3Error.category e) (S3Error.code e) (S3Error.status e)
    (S3Error.message e) (S3Error.request_id e) (S3Error.host_id e)
    (S3Error.retry_classification e) (S3Error.timeout_phase e) (S3Error.server_time e)
    (S3Error.clock_skew e) ((fun _ => source) <$> S3Error.source e)
    ((fun _ => cleanup) <$> S3Error.cleanup_failure e) (S3Error.attempts e)
    (S3Error.retry_stop_reason e).

(** ** Properties *)

Lemma metadata_names_scrub m : metadata_names (scrub_metadata m) = metadata_names m.
Proof. unfold metadata_names, scrub_metadata. by rewrite <- list_fmap_compose. Qed.

Lemma debug_scrub `{Http} (o : op) : debug (scrub o) = debug o.
Proof.
  destruct o as [[]|?|?|?|?|[]|?|[]|[]|[]|[]|[]|[]|[]]; cbn; try done.
  - cbv [debug debug_op debug_put_object PutObjectRequest.user_metadata].
    by rewrite metadata_names_scrub.
  - cbv [debug debug_op debug_copy_object]. by destruct metadata.
  - cbv [debug debug_op debug_create_upload CreateMultipartUploadRequest.user_metadata].
    by rewrite metadata_names_scrub.
  - by destruct upload_id_marker.
Qed.

(** C37. Logs hide what is secret. The standard formatting of a request shows
nothing of its bytes, its additional headers, the values of its metadata or its
upload identifier; a client shows nothing of its credentials, credentials only
whether they have a token and until when they hold, a URL only whether it has a
query, a presigned URL and an upload identifier nothing; an error shows nothing
of the error underneath but, to who asks for its source, the name of a type, and
nothing of a failed cleanup but that there was one. *)
Theorem formatting_hides_secrets `{Foreign} `{Http} `{HttpUri} `{World} :
  (forall o : op, format (scrub o) = format o) /\
  (forall r : ManagedMultipartUploadRequest.t, format (scrub_managed r) = format r) /\
  (forall (c : S3Client) (q : CredentialsProvider), format (with_provider q c) = format c) /\
  (forall a b : Credentials.t,
     is_Some (Credentials.session_token a) <-> is_Some (Credentials.session_token b) ->
     Credentials.expires_at a = Credentials.expires_at b -> format a = format b) /\
  (forall u v scheme authority path q r, contains_char "?" path = false ->
     format {| serialized := u; scheme := scheme; authority := authority;
               path_and_query := path +:+ String "?" q |}
     = format {| serialized := v; scheme := scheme; authority := authority;
                 path_and_query := path +:+ String "?" r |}) /\
  (forall u v : PresignedUrl.t, format u = format v /\
     display_presigned_url u = display_presigned_url v) /\
  (forall i j : UploadId.t, format i = format j /\ display_upload_id i = display_upload_id j) /\
  (forall e source cleanup,
     format (with_hidden e source cleanup) = format e /\
     S3Error.display (with_hidden e source cleanup) = S3Error.display e /\
     error_source (with_hidden e source cleanup)
     = (fun _ => S3Error.source_display source) <$> S3Error.source e).
Proof.
  unfold format. split_and!.
  - intros o. by rewrite debug_scrub.
  - intros [key source content_type metadata options algorithm hs]. f_equal.
    cbv [debug debug_managed_upload scrub_managed ManagedMultipartUploadRequest.user_metadata].
    rewrite metadata_names_scrub. by destruct source.
  - done.
  - intros a b Ht He. cbv [debug debug_credentials]. rewrite He.
    destruct (Credentials.session_token a), (Credentials.session_token b); try done.
    + destruct (proj1 Ht); [by eexists|done].
    + destruct (proj2 Ht); [by eexists|done].
  - intros u v sch auth path q r Hp. cbv [debug debug_endpoint_url path_and_query scheme authority].
    by rewrite !split_once_app.
  - done.
  - done.
  - intros [cat code st msg rid hid retry phase time skew src failed n stop] hidden cleanup.
    by destruct src, failed.
Qed.

(** ** Formatted values *)

#[local] Existing Instance assoc_http.
#[local] Instance plain : Foreign := {
  debug_str s := String (chr 34) s +:+ String (chr 34) "";
  debug_duration d := to_string (as_secs d) +:+ "s";
  debug_date_time := to_string
}.

Example shown_request :
  str_map (fun c => if byte c =? 34 then "'"%char else c)
    (format (PutObjectRequest.Mk (ObjectKey.Mk "a") (SourceBytes "bytes") None
       [("owner", "me")] Conditions.default (Some ChecksumAlgorithm.Sha256) hm_empty))
  = "PutObjectRequest { key: ObjectKey('a'), body: '<stream>', content_type: None, user_metadata: ['owner'], conditions: Conditions { if_match: None, if_none_match: None, if_modified_since: None, if_unmodified_since: None }, checksum_algorithm: Some(Sha256), headers: '<redacted>' }".
Proof. vm_compute. reflexivity. Qed.

Example shown_url :
  str_map (fun c => if byte c =? 34 then "'"%char else c)
    (format {| serialized := "https://h/a?X-Amz-Signature=0"; scheme := "https"; authority := "h";
               path_and_query := "/a?X-Amz-Signature=0" |})
  = "EndpointUrl { scheme: 'https', authority: 'h', path: '/a', has_redacted_query: true, .. }".
Proof. vm_compute. reflexivity. Qed.
