(* ===== verification/Fuzz.v ===== *)
(** The fuzzers' entry points ([src/fuzzing.rs]) and targets
([fuzz/fuzz_targets/*.rs]): what they assert of some inputs is proved of all. *)

From S2P Require Import Prelude Text Errors Canonical SigV4 Endpoint Http Types Stream Xml.
From S2P Require Import Records Protocol Config.
From stdpp Require Import options.
Local Open Scope Z_scope.

Inductive HarnessError : Type := harness_error.

(** [.map_err(|_| HarnessError)]. *)
Definition harness {E A} (r : result E A) : result HarnessError A :=
  map_err (fun _ => harness_error) r.

Definition canonical_uri_path (path : string) : string := canonical_uri path.

Definition canonical_query_pairs (parameters : list (string * string)) : string :=
  canonical_query ((fun p => qp p.1 p.2) <$> parameters).

Definition canonical_header_pairs (headers : list (string * string))
  : result HarnessError (string * string) :=
  harness (result_map (fun h => (canonical h, signed h))
             (canonical_headers ((fun p => hdr p.1 p.2) <$> headers))).

Definition is_some {A} (o : option A) : bool := match o with Some _ => true | None => false end.

Section parsers.
Context `{Documents}.

Definition parse_error_xml (body : string) (maximum : Z) : result HarnessError (list bool) :=
  harness (result_map (fun e => [is_some (ParsedS3Error.code e); is_some (ParsedS3Error.message e);
                                 is_some (ParsedS3Error.request_id e);
                                 is_some (ParsedS3Error.host_id e);
                                 is_some (ParsedS3Error.resource e);
                                 is_some (ParsedS3Error.region e)])
             (parse_s3_error de_error body maximum)).

Definition parse_listing_xml (body : string) (maximum : Z)
  : result HarnessError (Z * Z * bool * option string) :=
  harness (result_map (fun o => (Z.of_nat (List.length (ListObjectsV2Output.objects o)),
                                 Z.of_nat (List.length (ListObjectsV2Output.common_prefixes o)),
                                 ListObjectsV2Output.is_truncated o,
                                 ListObjectsV2Output.next_continuation_token o))
             (parse_list_objects_v2 body maximum)).

(** [usize::from(bool)]. *)
Definition accepted {E A} (r : result E A) : Z := if is_ok r then 1 else 0.

Definition parse_multipart_xml (body : string) (maximum : Z) : Z :=
  let created := accepted (parse_create_multipart_upload body maximum) in
  let completed := accepted (parse_complete_multipart_upload body maximum) in
  let copied := accepted (parse_copy_object body maximum) in
  let listed := accepted (parse_list_multipart_uploads body maximum) in
  created + completed + copied + listed.
End parsers.

Section others.
Context `{Primitives}.

Definition EMPTY_SHA256 : string :=
  "e3b0c44298fc1c149afbf4c8996fb92427ae41e4649b934ca495991b7852b855".
(** 2024-01-01T00:00:00Z, in nanoseconds from the epoch. *)
Definition benchmark_timestamp : Z := 1704067200 * NANOS_PER_SEC.

Definition signing_output_size (path : string) : result HarnessError Z :=
  harness (result_map (fun o => slen (authorization o))
    (sign_headers
       {| access_key_id := "TESTACCESS"; secret_access_key := "fixed-benchmark-key";
          session_token := None |}
       {| region := "us-east-1"; service := "s3" |}
       {| hs_method := "GET"; hs_uri_path := Raw path; hs_query := [];
          hs_headers := [hdr "host" "bucket.example.test"]; hs_payload_hash := EMPTY_SHA256 |}
       benchmark_timestamp)).

(** [consume_byte_stream]: [polls] bounds the polls of [collect]. *)
Definition consume_byte_stream (polls : nat) (bytes : string) : option (result HarnessError Z) :=
  match harness (prepare (SourceBytes bytes)) with
  | Err e => Some (Err e)
  | Ok prepared =>
      match harness (request_body prepared).1 with
      | Err e => Some (Err e)
      | Ok body =>
          match send_body polls body with
          | (out, Some r, _) => Some (result_map (fun _ => slen out) (harness r))
          | (_, None, _) => None
          end
      end
  end.

Definition endpoint_object_path_size `{HttpUri} (endpoint : Endpoint) (bucket key : string)
    (style : AddressingStyle) : result HarnessError Z :=
  let? key := harness (ObjectKey.new key) in
  harness (result_map (fun u => slen (path_and_query u))
             (object_url endpoint bucket (Some (ObjectKey.as_str key)) style)).
End others.

(** ** The targets with assertions *)

(** [assert!(!canonical.contains(' '))]. *)
Definition fuzz_canonical_query (input : list (string * string)) : bool :=
  negb (contains_char " " (canonical_query_pairs input)).

(** [assert!(canonical.starts_with('/'))]. *)
Definition fuzz_canonical_uri (input : string) : bool := starts_with "/" (canonical_uri_path input).

(** ** Lemmas *)

Lemma encoded_no_space s : contains_char " " (aws_uri_encode s true) = false.
Proof.
  unfold contains_char. eapply str_any_none; [|apply aws_uri_encode_bytes].
  intros c. all_bytes c.
Qed.

Lemma render_no_space l :
  Forall (fun p => contains_char " " p.1 = false /\ contains_char " " p.2 = false) l ->
  contains_char " " (render_query l) = false.
Proof.
  induction 1 as [|[n v] l [Hn Hv] Hl IH]; [done|]. cbn [fst snd] in Hn, Hv.
  destruct l as [|q l]; cbn [render_query]; rewrite !contains_char_app, Hn, Hv; [done|].
  cbn [render_query] in IH. by rewrite IH.
Qed.

Lemma canonical_query_no_space ps : contains_char " " (canonical_query ps) = false.
Proof.
  apply render_no_space. rewrite (merge_sort_Permutation pair_le). apply Forall_fmap, Forall_true.
  intros p. split; apply encoded_no_space.
Qed.

Lemma canonical_uri_rooted path : starts_with "/" (canonical_uri path) = true.
Proof.
  unfold canonical_uri. destruct (is_empty path); [done|]. cbv zeta.
  destruct (starts_with "/" (aws_uri_encode path false)) eqn:E; [done|]. apply starts_with_app.
Qed.

(** An in-memory body is delivered in at most three polls. *)
Lemma memory_delivered `{Primitives} bytes polls : slen bytes <= U64_MAX ->
  exists b t, prepare (SourceBytes bytes) = Ok b /\ request_body b = (Ok t, b) /\
    (send_body (3 + polls) t).1 = (bytes, Some (Ok tt)).
Proof.
  intros L. set (b := {| source := PreparedBytes bytes; body_length := slen bytes;
                         body_sha256 := cooperative_sha256 bytes |}).
  assert (P : prepare (SourceBytes bytes) = Ok b)
    by (cbn; unfold try_from; by rewrite (proj2 (Z.leb_le _ _) L)).
  destruct (prepared_deliverable _ _ P eq_refl) as (t & bs & Hb & _ & _ & D & E).
  assert (T : t = TransportBody_new [Chunk bytes] (slen bytes) (cooperative_sha256 bytes))
    by (cbn in Hb; by injection Hb as <-).
  exists b, t. split_and!; [done..|]. rewrite send_body_delivers; [|done|rewrite T; cbn; lia].
  rewrite T. cbn. by rewrite app_nil_r_str.
Qed.

(** ** Properties *)

(** The fuzzers' assertions hold for every input: no canonical query has a
space and every canonical URI of a raw path is rooted; besides, the multipart
harness counts at most its four parsers, and the upload harness delivers, within
three polls, exactly the bytes it was given, for any length that fits [u64]. *)
Theorem fuzz_assertions_hold `{Primitives} `{Documents} (pairs : list (string * string))
  (path body bytes : string) (maximum : Z) (polls : nat) :
  fuzz_canonical_query pairs = true /\ fuzz_canonical_uri path = true /\
  0 <= parse_multipart_xml body maximum <= 4 /\
  consume_byte_stream (3 + polls) bytes
    = Some (if slen bytes <=? U64_MAX then Ok (slen bytes) else Err harness_error).
Proof.
  split; [unfold fuzz_canonical_query, canonical_query_pairs; by rewrite canonical_query_no_space|].
  split; [apply canonical_uri_rooted|]. split.
  { unfold parse_multipart_xml, accepted.
    destruct (is_ok (parse_create_multipart_upload _ _)), (is_ok (parse_complete_multipart_upload _ _)),
      (is_ok (parse_copy_object _ _)), (is_ok (parse_list_multipart_uploads _ _)); lia. }
  unfold consume_byte_stream. destruct (Z.leb_spec (slen bytes) U64_MAX) as [L|L].
  - destruct (memory_delivered bytes polls L) as (b & t & -> & Hb & Hs). cbn [harness map_err].
    rewrite Hb. cbn [fst harness map_err]. destruct (send_body _ t) as [[out v] b'].
    cbn in Hs. injection Hs as -> ->. done.
  - cbn. unfold try_from. by rewrite (proj2 (Z.leb_gt _ _) L).
Qed.
