(* ===== verification/Testing.v ===== *)
(** How the unit tests of the crate are run on the model: a test function is a
bool, each of its assertions a conjunct, and [unwrap] fails the test where the
code panics. With [standard_uri], a parser of the absolute, authority and origin
forms of RFC 3986, every parameter of the tested code has an instance here or in
[Standards]. *)

From S2P Require Import Prelude Text Canonical Endpoint Http Stream Credentials Redaction Verify Standards.
From stdpp Require Import options.
Local Open Scope Z_scope.

(** ** Assertions *)

(** [result.unwrap()] and [result.unwrap_err()], and what is asserted of the value. *)
Definition unwrap {E A} (r : result E A) (check : A -> bool) : bool :=
  match r with Ok a => check a | Err _ => false end.
Definition unwrap_err {E A} (r : result E A) (check : E -> bool) : bool :=
  match r with Ok _ => false | Err e => check e end.
Definition is_err {E A} (r : result E A) : bool := negb (is_ok r).
(** [option.unwrap()], or [expect]. *)
Definition expect {A} (o : option A) (check : A -> bool) : bool :=
  match o with Some a => check a | None => false end.
Definition is_none {A} (o : option A) : bool :=
  match o with Some _ => false | None => true end.

Declare Scope test_scope.
Delimit Scope test_scope with test.
(** [assert_eq!]. *)
Notation "a == b" := (bool_decide (a = b)) (at level 70) : test_scope.
Notation "a != b" := (negb (bool_decide (a = b))) (at level 70) : test_scope.

(** The tests of a module all pass. *)
Definition all_pass (tests : list bool) : Prop := Forall (fun t => t = true) tests.

Lemma all_pass_intro tests : forallb id tests = true -> all_pass tests.
Proof.
  intros F. apply Forall_forall. intros t Ht. rewrite forallb_forall in F.
  apply F. by apply list_elem_of_In.
Qed.
Ltac run_tests := apply all_pass_intro; vm_compute; reflexivity.

(** Strings of tests: [vec![c; n]] and the count of [s.matches(needle)], of a text
that does not overlap itself. *)
Definition repeated (c : ascii) (n : Z) : string := Z.iter n (String c) "".
Fixpoint occurrences (needle s : string) : Z :=
  match s with
  | EmptyString => 0
  | String _ t => (if starts_with needle s then 1 else 0) + occurrences needle t
  end.

(** [s.split(needle).nth(1)], of a text that occurs once. *)
Fixpoint after (needle s : string) : option string :=
  match strip_prefix needle s with
  | Some rest => Some rest
  | None => match s with String _ t => after needle t | EmptyString => None end
  end.

(** A file of a directory of the tests. *)
Definition file (content : string) : SnapshotIo := {|
  io_open := Ok tt; io_is_file := Ok true; io_temp := Ok tt; io_reads := [Ok content; Ok ""];
  io_write _ := Ok tt; io_flush := Ok tt; io_read_only := Ok tt;
  io_length copied := Ok (slen copied)
|}.

(** ** URIs *)

(** The longest prefix without a byte of [set], and the rest. *)
Fixpoint break_at (set s : string) : string * string :=
  match s with
  | EmptyString => ("", "")
  | String c t =>
      if one_of set c then ("", s) else let (a, b) := break_at set t in (String c a, b)
  end.

(** [userinfo@host:port]; an IPv6 host keeps its brackets. *)
Definition standard_authority (s : string) : option Authority :=
  if is_empty s || str_any (one_of "/?#") s then None
  else
    let host_port := match split_once "@" s with Some (_, h) => h | None => s end in
    let (host, port) :=
      if starts_with "[" host_port
      then let (h, r) := break_at "]" host_port in (h +:+ "]", r)
      else break_at ":" host_port in
    Some {| auth_str := s; auth_host := host;
            auth_port := digits ← split_once ":" port; parse_uint U16_MAX digits.2 |}.

Definition standard_scheme (s : string) : Scheme :=
  if eq_ignore_ascii_case s "https" then HTTPS
  else if eq_ignore_ascii_case s "http" then HTTP else OtherScheme s.

(** The path is [/] where there is none; a fragment is dropped. *)
Definition standard_target (scheme : option Scheme) (authority : option Authority) (target : string)
  : Uri :=
  let (target, _) := break_at "#" target in
  let path := target_path target in
  {| uri_scheme := scheme; uri_authority := authority;
     uri_path := if is_empty path then "/" else path;
     uri_query := snd <$> split_once "?" target |}.

Definition standard_parse_uri (s : string) : option Uri :=
  if starts_with "/" s then Some (standard_target None None s)
  else
    match split_once ":" s with
    | Some (scheme, rest) =>
        match strip_prefix "//" rest with
        | Some rest =>
            let (a, target) := break_at "/?#" rest in
            a ← standard_authority a;
            Some (standard_target (Some (standard_scheme scheme)) (Some a) target)
        | None => a ← standard_authority s; Some (standard_target None (Some a) "")
        end
    | None => a ← standard_authority s; Some (standard_target None (Some a) "")
    end.

#[export] Instance standard_uri : HttpUri := {
  parse_uri := standard_parse_uri;
  parse_authority := standard_authority
}.

Lemma break_at_plain set a : str_any (one_of set) a = false -> break_at set a = (a, "").
Proof. induction a as [|c a IH]; [done|]. cbn. intros Ha. bools. rewrite H. by rewrite IH. Qed.

Lemma break_at_app set a c s : str_any (one_of set) a = false -> one_of set c = true ->
  break_at set (a +:+ String c s) = (a, String c s).
Proof.
  intros Ha Hc. induction a as [|d a IH]; cbn in *; [by rewrite Hc|]. bools. rewrite H. by rewrite IH.
Qed.

Lemma break_at_excludes set s a b : break_at set s = (a, b) -> str_any (one_of set) a = false.
Proof.
  revert a b. induction s as [|c s IH]; intros a b; cbn; [by intros [= <- <-]|].
  destruct (one_of set c) eqn:E; [by intros [= <- <-]|].
  destruct (break_at set s) as [a' b'] eqn:F. intros [= <- <-]. cbn. rewrite E. by eapply IH.
Qed.

Lemma break_at_prefix set p s a b : str_any p s = false -> break_at set s = (a, b) ->
  str_any p a = false /\ str_any p b = false.
Proof.
  revert a b. induction s as [|c s IH]; intros a b Hs; cbn; [by intros [= <- <-]|].
  cbn in Hs. bools. destruct (one_of set c); [intros [= <- <-]; cbn; by rewrite H|].
  destruct (break_at set s) as [a' b'] eqn:F. intros [= <- <-].
  destruct (IH _ _ H0 eq_refl) as [Ha Hb]. cbn. by rewrite H.
Qed.

Lemma split_once_plain p c s a b : str_any p s = false -> split_once c s = Some (a, b) ->
  str_any p b = false.
Proof.
  intros Hs (-> & _)%split_once_Some. rewrite str_any_app in Hs. cbn in Hs. by bools.
Qed.

Lemma standard_authority_plain s a : standard_authority s = Some a ->
  auth_str a = s /\ plain (auth_str a) /\ plain (auth_host a).
Proof.
  unfold standard_authority, plain. destruct (is_empty s || _) eqn:E; [done|]. bools.
  set (h := match split_once "@" s with Some (_, h) => h | None => s end).
  assert (Hh : str_any (one_of "/?#") h = false).
  { subst h. destruct (split_once "@" s) as [[x y]|] eqn:F; [|done]. by eapply split_once_plain. }
  clearbody h. destruct (starts_with "[" h);
    match goal with |- context [break_at ?set h] => destruct (break_at set h) as [x y] eqn:F end;
    destruct (break_at_prefix _ _ _ _ _ Hh F) as [Hx Hy];
    intros [= <-]; cbn; rewrite ?str_any_app, ?Hx; auto.
Qed.

Lemma standard_parse_uri_target s u : standard_parse_uri s = Some u ->
  exists sc o t, u = standard_target sc o t /\
    match o with Some a => exists x, standard_authority x = Some a | None => True end.
Proof.
  unfold standard_parse_uri. destruct (starts_with "/" s); [intros [= <-]; by eexists _, _, _|].
  assert (F : forall x sc t, (a ← standard_authority x; Some (standard_target sc (Some a) t)) = Some u ->
    exists sc o t, u = standard_target sc o t /\
      match o with Some a => exists x, standard_authority x = Some a | None => True end).
  { intros x sc t. destruct (standard_authority x) as [a|] eqn:E; cbn [mbind option_bind]; [|done].
    intros Hu. apply (inj Some) in Hu as <-. by eexists _, (Some a), _; eauto. }
  destruct (split_once ":" s) as [[scheme rest]|]; [|apply F].
  destruct (strip_prefix "//" rest) as [r|]; [|apply F].
  destruct (break_at "/?#" r) as [a t]. apply F.
Qed.

Lemma standard_parse_uri_parts s a t : s ∈ ["https"; "http"] -> plain a ->
  standard_parse_uri (s +:+ "://" +:+ a +:+ String "/" t) =
  (x ← standard_authority a;
   Some (standard_target (Some (standard_scheme s)) (Some x) (String "/" t))).
Proof.
  intros Hs Ha. rewrite !elem_of_cons, elem_of_nil in Hs.
  assert (F : break_at "/?#" (a +:+ String "/" t) = (a, String "/" t)) by by apply break_at_app.
  destruct Hs as [->|[->|[]]]; unfold standard_parse_uri;
    [change ("https" +:+ "://" +:+ ?x) with ("https" +:+ String ":" ("//" +:+ x))
    |change ("http" +:+ "://" +:+ ?x) with ("http" +:+ String ":" ("//" +:+ x))];
    rewrite split_once_app, strip_prefix_app by done; by rewrite F.
Qed.

(** The documented behaviour holds of the parser. *)
#[export] Instance standard_uri_laws : HttpUriLaws.
Proof.
  split; cbn [parse_uri parse_authority standard_uri].
  - intros s a Ha. by apply standard_authority_plain in Ha as (_ & ? & ?).
  - intros s u a Hu Ha. apply standard_parse_uri_target in Hu as (sc & o & t & -> & Ho).
    unfold standard_target in Ha. destruct (break_at "#" t) as [x y]. cbn in Ha. subst o.
    destruct Ho as [z Hz]. by apply standard_authority_plain in Hz as (_ & ? & _).
  - intros s a p u Hs Ha Hp Hh Hu. destruct (starts_with_slash _ Hp) as [t ->].
    change ("/" +:+ t) with (String "/" t) in Hu. rewrite standard_parse_uri_parts in Hu by done. destruct (standard_authority a) as [x|] eqn:Ex; cbn in Hu; [|done].
    apply standard_authority_plain in Ex as (Ex & _ & _). unfold standard_target in Hu.
    rewrite break_at_plain in Hu.
    2:{ etransitivity; [|exact Hh]. apply str_any_ext. intros c. unfold one_of.
        by rewrite orb_false_r, Ascii.eqb_sym. }
    apply (inj Some) in Hu as <-. cbn [uri_authority uri_path uri_query fmap option_fmap option_map].
    split; [by rewrite <- Ex|]. split; [|done].
    unfold target_path. change ("/" +:+ t) with (String "/" t). cbn.
    by destruct (split_once "?" t) as [[? ?]|].
Qed.

(** ** Formatting, the environment and the clock *)

(** A double quote. *)
Definition DQ : string := String (chr 34) "".
Definition quoted (s : string) : string := DQ +:+ s +:+ DQ.

(** [Debug] of a string, with the escapes of quotes, backslashes and line feeds;
times by their seconds. *)
Definition escape_debug (c : ascii) : string :=
  if Ascii.eqb c (chr 34) then "\" +:+ DQ
  else if Ascii.eqb c "\" then "\\" else if Ascii.eqb c (chr 10) then "\n" else String c "".
#[export] Instance test_foreign : Foreign := {
  debug_str s := quoted (str_flat_map escape_debug s);
  debug_duration d := to_string (as_secs d) +:+ "s";
  debug_date_time t := to_string (as_secs t)
}.

(** An empty environment. *)
#[export] Instance test_world : World := {| world := unit; env_var_os _ _ := None |}.

(** ** HTTP dates: the fixed-length form of RFC 9110 *)

Definition WEEKDAYS : list string := ["Sun"; "Mon"; "Tue"; "Wed"; "Thu"; "Fri"; "Sat"].
Definition MONTHS : list string :=
  ["Jan"; "Feb"; "Mar"; "Apr"; "May"; "Jun"; "Jul"; "Aug"; "Sep"; "Oct"; "Nov"; "Dec"].

(** The first day of the epoch was a Thursday. *)
Definition weekday (t : Z) : string := nth (Z.to_nat ((as_secs t / 86400 + 4) mod 7)) WEEKDAYS "".

Definition format_imf_date (t : Z) : string :=
  let d := date_of t in
  let s := as_secs t mod 86400 in
  weekday t +:+ ", " +:+ decimal 2 (Gregorian.day d) +:+ " "
  +:+ nth (Z.to_nat (Gregorian.month d - 1)) MONTHS "" +:+ " " +:+ decimal 4 (Gregorian.year d) +:+ " "
  +:+ decimal 2 (s / 3600) +:+ ":" +:+ decimal 2 (s / 60 mod 60) +:+ ":" +:+ decimal 2 (s mod 60)
  +:+ " GMT".

Fixpoint read_month (n : Z) (months : list string) (s : string) : option (Z * string) :=
  match months with
  | [] => None
  | m :: months =>
      match strip_prefix m s with
      | Some rest => Some (n, rest)
      | None => read_month (n + 1) months s
      end
  end.

(** What was written is read; anything else is refused. *)
Definition read_imf_date (s : string) : option Z :=
  rest ← strip_prefix ", " (str_drop 3 s);
  '(day, rest) ← read_decimal 2 rest; rest ← strip_prefix " " rest;
  '(month, rest) ← read_month 1 MONTHS rest; rest ← strip_prefix " " rest;
  '(year, rest) ← read_decimal 4 rest; rest ← strip_prefix " " rest;
  '(hour, rest) ← read_decimal 2 rest; rest ← strip_prefix ":" rest;
  '(minute, rest) ← read_decimal 2 rest; rest ← strip_prefix ":" rest;
  '(second, rest) ← read_decimal 2 rest;
  let t := utc year month day hour minute second in
  if String.eqb (format_imf_date t) s then Some t else None.

(** A status shows as its number. *)
#[export] Instance standard_text : HttpText := {
  parse_http_date := read_imf_date;
  fmt_http_date := format_imf_date;
  display_status := to_string
}.
