(* ===== verification/Serde.v ===== *)
(** The response and request documents on the wire: the field names and defaults
that the [serde] attributes of [src/protocol/] declare, over XML trees. The reader
and the writer stand for [quick_xml]: elements, attributes that are skipped, the
predefined and numeric entities, declarations and comments; text is not trimmed
and the elements of a sequence may be apart. They are not that crate: line ends
are not normalised and control characters not refused. They are an instance of the
parameters of [Xml] and [Protocol] with which the tests run; the theorems on the
program hold for every instance. *)

From S2P Require Import Prelude Text Errors Canonical Types Http Records Xml Protocol.
From S2P Require Import Verify Standards Testing.
From stdpp Require Import options.
Local Open Scope Z_scope.

(** ** Trees and tokens *)

Inductive XmlTree : Type :=
| Element (name : string) (children : list XmlTree)
| Chars (s : string).

Inductive Token : Type :=
| Opened (name : string) | Closed (name : string) | Single (name : string)
| Plain (s : string) | Declaration | Remark | Instruction | DocumentType
| Malformed (reason : string).

(** *** Escapes *)

Definition escape_byte (c : ascii) : string :=
  if Ascii.eqb c "<" then "&lt;" else if Ascii.eqb c ">" then "&gt;"
  else if Ascii.eqb c "&" then "&amp;" else String c "".
Definition escape (s : string) : string := str_flat_map escape_byte s.

(** A character reference, in UTF-8 up to two bytes. *)
Definition utf8_encode (code : Z) : option string :=
  if (code <=? 0) || (0x7ff <? code) then None
  else if code <? 0x80 then Some (String (chr code) "")
  else Some (String (chr (0xc0 + code / 64)) (String (chr (0x80 + code mod 64)) "")).
Fixpoint parse_hex (acc : Z) (s : string) : option Z :=
  match s with
  | EmptyString => Some acc
  | String c s => d ← hex_digit_value c; parse_hex (16 * acc + d) s
  end.

Definition entity (name : string) : option string :=
  if String.eqb name "lt" then Some "<" else if String.eqb name "gt" then Some ">"
  else if String.eqb name "amp" then Some "&" else if String.eqb name "quot" then Some DQ
  else if String.eqb name "apos" then Some "'"
  else
    match strip_prefix "#x" name with
    | Some digits => parse_hex 0 digits ≫= utf8_encode
    | None => digits ← strip_prefix "#" name; parse_uint U32_MAX digits ≫= utf8_encode
    end.

(** [pending] is the name of the entity being read. *)
Fixpoint unescape (s : string) (pending : option string) : option string :=
  match s, pending with
  | EmptyString, None => Some ""
  | EmptyString, Some _ => None
  | String c s, None =>
      if Ascii.eqb c "&" then unescape s (Some "")
      else text ← unescape s None; Some (String c text)
  | String c s, Some name =>
      if Ascii.eqb c ";"
      then value ← entity name; text ← unescape s None; Some (value +:+ text)
      else unescape s (Some (name +:+ String c ""))
  end.

(** *** Reading *)

(** The markup between angle brackets goes on after a [>] in a comment, an
instruction or a quoted value. *)
Definition in_quotes (markup : string) : bool := Z.odd (occurrences DQ markup).
Definition markup_ends (markup : string) : bool :=
  if starts_with "!--" markup then (5 <=? slen markup) && ends_with "--" markup
  else if starts_with "?" markup then ends_with "?" markup
  else negb (in_quotes markup).

Definition blanks : string := String " " (String (chr 9) (String (chr 10) (String (chr 13) ""))).
Definition local_name (name : string) : string :=
  match split_once ":" name with Some (_, local) => local | None => name end.
Definition markup_name (markup : string) : string := (break_at blanks markup).1.

Definition markup_token (markup : string) : Token :=
  if starts_with "!--" markup then Remark
  else if starts_with "?xml" markup then Declaration
  else if starts_with "?" markup then Instruction
  else if starts_with_ignore_case "!DOCTYPE" markup then DocumentType
  else if starts_with "!" markup then Malformed "unsupported markup"
  else
    match strip_prefix "/" markup, strip_suffix "/" markup with
    | Some name, _ => Closed (markup_name name)
    | None, Some markup => Single (markup_name markup)
    | None, None => Opened (markup_name markup)
    end.

Definition text_tokens (s : string) : list Token :=
  if is_empty s then []
  else [match unescape s None with Some s => Plain s | None => Malformed "invalid entity" end].

(** [markup] is the text since the last [<], [text] the text since the last [>]. *)
Fixpoint scan (s text : string) (markup : option string) : list Token :=
  match s, markup with
  | EmptyString, None => text_tokens text
  | EmptyString, Some _ => [Malformed "unclosed markup"]
  | String c s, None =>
      if Ascii.eqb c "<" then text_tokens text ++ scan s "" (Some "")
      else scan s (text +:+ String c "") None
  | String c s, Some m =>
      if Ascii.eqb c ">" && markup_ends m then markup_token m :: scan s "" None
      else scan s "" (Some (m +:+ String c ""))
  end.
Definition tokens (s : string) : list Token := scan s "" None.

(** The tree of each token list; [open] holds the open elements with what was read
before them, latest first. *)
Fixpoint build (ts : list Token) (open : list (string * list XmlTree)) (read : list XmlTree)
  : result string (list XmlTree) :=
  match ts with
  | [] => match open with [] => Ok (rev read) | _ => Err "unclosed element" end
  | Opened name :: ts => build ts ((name, read) :: open) []
  | Single name :: ts => build ts open (Element name [] :: read)
  | Plain s :: ts => build ts open (Chars s :: read)
  | Closed name :: ts =>
      match open with
      | (name', before) :: open =>
          if String.eqb name name' then build ts open (Element name (rev read) :: before)
          else Err "mismatched end tag"
      | [] => Err "unmatched end tag"
      end
  | (Declaration | Remark | Instruction | DocumentType) :: ts => build ts open read
  | Malformed reason :: _ => Err reason
  end.

(** The one element of a document. *)
Definition read_document (s : string) : result string XmlTree :=
  let? trees := build (tokens s) [] [] in
  match List.filter (fun t => match t with Element _ _ => true | Chars _ => false end) trees with
  | [root] => Ok root
  | _ => Err "a document has one root"
  end.

(** The events of the pull reader. *)
Definition token_event (t : Token) : result string XmlEvent :=
  match t with
  | Opened name => Ok (Start (local_name name))
  | Single name => Ok (Empty (local_name name))
  | Closed _ => Ok OtherEvent
  | Plain _ => Ok Text
  | Declaration => Ok Decl
  | Remark => Ok Comment
  | Instruction => Ok PI
  | DocumentType => Ok DocType
  | Malformed reason => Err reason
  end.

(** *** Writing *)

(** An element without children is closed at once. *)
Fixpoint write_tree (t : XmlTree) : string :=
  match t with
  | Chars s => escape s
  | Element name [] => "<" +:+ name +:+ "/>"
  | Element name children =>
      "<" +:+ name +:+ ">" +:+ str_concat (List.map write_tree children) +:+ "</" +:+ name +:+ ">"
  end.

(** ** Fields, as [derive(Deserialize)] reads them *)

Definition children_of (t : XmlTree) : list XmlTree :=
  match t with Element _ children => children | Chars _ => [] end.

(** The elements of a name, without its prefix. *)
Definition named (field : string) (t : XmlTree) : list XmlTree :=
  List.filter (fun c => match c with
                        | Element name _ => String.eqb (local_name name) field
                        | Chars _ => false
                        end) (children_of t).

(** The text of an element that holds nothing else. *)
Fixpoint texts (children : list XmlTree) : result string string :=
  match children with
  | [] => Ok ""
  | Chars s :: children => let? rest := texts children in Ok (s +:+ rest)
  | Element _ _ :: _ => Err "expected text"
  end.
Definition text_value (t : XmlTree) : result string string := texts (children_of t).

Definition decimal_value (max : Z) (t : XmlTree) : result string Z :=
  let? s := text_value t in ok_or (parse_uint max s) "invalid integer".
Definition bool_value (t : XmlTree) : result string bool :=
  let? s := text_value t in
  if String.eqb s "true" then Ok true
  else if String.eqb s "false" then Ok false else Err "invalid boolean".

Section fields.
Context {A : Type} (read : XmlTree -> result string A).

(** [Option<A>], [A], [#[serde(default)]] and [Vec<A>] with a default. *)
Definition optional_field (field : string) (t : XmlTree) : result string (option A) :=
  match named field t with
  | [] => Ok None
  | [c] => let? a := read c in Ok (Some a)
  | _ => Err ("duplicate field `" +:+ field +:+ "`")
  end.
Definition required_field (field : string) (t : XmlTree) : result string A :=
  let? a := optional_field field t in ok_or a ("missing field `" +:+ field +:+ "`").
Definition default_field (d : A) (field : string) (t : XmlTree) : result string A :=
  result_map (default d) (optional_field field t).
Definition sequence_field (field : string) (t : XmlTree) : result string (list A) :=
  try_map read (named field t).
End fields.

Definition optional_text := optional_field text_value.
Definition required_text := required_field text_value.

(** The five fields that several documents repeat. *)
Definition checksum_fields (t : XmlTree) : result string Checksum.t :=
  let? crc32 := optional_text "ChecksumCRC32" t in
  let? crc32c := optional_text "ChecksumCRC32C" t in
  let? crc64_nvme := optional_text "ChecksumCRC64NVME" t in
  let? sha1 := optional_text "ChecksumSHA1" t in
  let? sha256 := optional_text "ChecksumSHA256" t in
  Ok (Checksum.Mk crc32 crc32c crc64_nvme sha1 sha256).

(** ** The documents *)

(** [protocol/error.rs] *)
Definition error_document (t : XmlTree) : result string ErrorDocument.t :=
  let? code := optional_text "Code" t in
  let? message := optional_text "Message" t in
  let? request_id := optional_text "RequestId" t in
  let? host_id := optional_text "HostId" t in
  let? resource := optional_text "Resource" t in
  let? region := optional_text "Region" t in
  Ok (ErrorDocument.Mk code message request_id host_id resource region).

(** [protocol/listing.rs] *)
Definition owner_document (t : XmlTree) : result string OwnerDocument.t :=
  let? id := optional_text "ID" t in
  let? display_name := optional_text "DisplayName" t in
  Ok (OwnerDocument.Mk id display_name).

Definition object_document (t : XmlTree) : result string ObjectDocument.t :=
  let? key := required_text "Key" t in
  let? last_modified := optional_text "LastModified" t in
  let? e_tag := optional_text "ETag" t in
  let? size := required_field (decimal_value U64_MAX) "Size" t in
  let? storage_class := optional_text "StorageClass" t in
  let? owner := optional_field owner_document "Owner" t in
  let? checksum_algorithms := sequence_field text_value "ChecksumAlgorithm" t in
  let? checksum_type := optional_text "ChecksumType" t in
  Ok (ObjectDocument.Mk key last_modified e_tag size storage_class owner checksum_algorithms
        checksum_type).

Definition common_prefix_document (t : XmlTree) : result string string := required_text "Prefix" t.

Definition list_bucket_document (t : XmlTree) : result string ListBucketDocument.t :=
  let? encoding_type := optional_text "EncodingType" t in
  let? contents := sequence_field object_document "Contents" t in
  let? common_prefixes := sequence_field common_prefix_document "CommonPrefixes" t in
  let? is_truncated := default_field bool_value false "IsTruncated" t in
  let? next_continuation_token := optional_text "NextContinuationToken" t in
  let? key_count := optional_field (decimal_value U32_MAX) "KeyCount" t in
  Ok (ListBucketDocument.Mk encoding_type contents common_prefixes is_truncated
        next_continuation_token key_count).

(** [protocol/delete.rs] *)
Definition deleted_document (t : XmlTree) : result string DeletedDocument.t :=
  let? key := required_text "Key" t in
  let? version_id := optional_text "VersionId" t in
  let? delete_marker := default_field bool_value false "DeleteMarker" t in
  let? delete_marker_version_id := optional_text "DeleteMarkerVersionId" t in
  Ok (DeletedDocument.Mk key version_id delete_marker delete_marker_version_id).

Definition delete_error_document (t : XmlTree) : result string DeleteError.t :=
  let? key := required_text "Key" t in
  let? version_id := optional_text "VersionId" t in
  let? code := optional_text "Code" t in
  let? message := optional_text "Message" t in
  Ok (DeleteError.Mk key version_id code message).

Definition delete_result_document (t : XmlTree) : result string DeleteResultDocument.t :=
  let? deleted := sequence_field deleted_document "Deleted" t in
  let? errors := sequence_field delete_error_document "Error" t in
  Ok (DeleteResultDocument.Mk deleted errors).

(** [protocol/multipart/parts.rs] *)
Definition part_document (t : XmlTree) : result string PartDocument.t :=
  let? part_number := required_field (decimal_value U16_MAX) "PartNumber" t in
  let? e_tag := required_text "ETag" t in
  let? last_modified := optional_text "LastModified" t in
  let? size := required_field (decimal_value U64_MAX) "Size" t in
  let? checksum := checksum_fields t in
  Ok (PartDocument.Mk part_number e_tag last_modified size checksum).

Definition list_parts_document (t : XmlTree) : result string ListPartsDocument.t :=
  let? parts := sequence_field part_document "Part" t in
  let? is_truncated := default_field bool_value false "IsTruncated" t in
  let? next_part_number_marker := optional_field (decimal_value U16_MAX) "NextPartNumberMarker" t in
  let? checksum_algorithm := optional_text "ChecksumAlgorithm" t in
  let? checksum_type := optional_text "ChecksumType" t in
  Ok (ListPartsDocument.Mk parts is_truncated next_part_number_marker checksum_algorithm
        checksum_type).

(** [protocol/multipart/create.rs] *)
Definition create_document (t : XmlTree) : result string CreateDocument.t :=
  let? bucket := optional_text "Bucket" t in
  let? key := required_text "Key" t in
  let? upload_id := required_text "UploadId" t in
  let? checksum_algorithm := optional_text "ChecksumAlgorithm" t in
  let? checksum_type := optional_text "ChecksumType" t in
  Ok (CreateDocument.Mk bucket key upload_id checksum_algorithm checksum_type).

(** [protocol/multipart/completion.rs] *)
Definition complete_result_document (t : XmlTree) : result string CompleteResultDocument.t :=
  let? location := optional_text "Location" t in
  let? bucket := optional_text "Bucket" t in
  let? key := optional_text "Key" t in
  let? e_tag := optional_text "ETag" t in
  let? checksum := checksum_fields t in
  Ok (CompleteResultDocument.Mk location bucket key e_tag checksum).

(** [protocol/multipart/copy.rs] *)
Definition copy_result_document (t : XmlTree) : result string CopyResultDocument.t :=
  let? e_tag := optional_text "ETag" t in
  let? last_modified := optional_text "LastModified" t in
  let? checksum := checksum_fields t in
  Ok (CopyResultDocument.Mk e_tag last_modified checksum).

(** [protocol/multipart/listing.rs] *)
Definition upload_document (t : XmlTree) : result string UploadDocument.t :=
  let? key := required_text "Key" t in
  let? upload_id := required_text "UploadId" t in
  let? initiated := optional_text "Initiated" t in
  let? storage_class := optional_text "StorageClass" t in
  Ok (UploadDocument.Mk key upload_id initiated storage_class).

Definition list_uploads_document (t : XmlTree) : result string ListUploadsDocument.t :=
  let? uploads := sequence_field upload_document "Upload" t in
  let? common_prefixes := sequence_field common_prefix_document "CommonPrefixes" t in
  let? is_truncated := default_field bool_value false "IsTruncated" t in
  let? next_key_marker := optional_text "NextKeyMarker" t in
  let? next_upload_id_marker := optional_text "NextUploadIdMarker" t in
  Ok (ListUploadsDocument.Mk uploads common_prefixes is_truncated next_key_marker
        next_upload_id_marker).

(** ** The documents the client writes, by [derive(Serialize)] *)

Definition text_element (name s : string) : XmlTree :=
  Element name (if is_empty s then [] else [Chars s]).
(** [skip_serializing_if = "Option::is_none"]. *)
Definition optional_element (name : string) (s : option string) : list XmlTree :=
  match s with Some s => [text_element name s] | None => [] end.

Definition part_element (p : CompletedPartDocument.t) : XmlTree :=
  let checksum := CompletedPartDocument.checksum p in
  Element "Part"
    ([text_element "PartNumber" (to_string (CompletedPartDocument.part_number p));
      text_element "ETag" (CompletedPartDocument.e_tag p)]
     ++ optional_element "ChecksumCRC32" (Checksum.crc32 checksum)
     ++ optional_element "ChecksumCRC32C" (Checksum.crc32c checksum)
     ++ optional_element "ChecksumCRC64NVME" (Checksum.crc64_nvme checksum)
     ++ optional_element "ChecksumSHA1" (Checksum.sha1 checksum)
     ++ optional_element "ChecksumSHA256" (Checksum.sha256 checksum)).
Definition complete_document (parts : list CompletedPartDocument.t) : XmlTree :=
  Element "CompleteMultipartUpload" (part_element <$> parts).

Definition entry_element (e : DeleteEntry.t) : XmlTree :=
  Element "Object"
    ([text_element "Key" (DeleteEntry.key e)]
     ++ optional_element "VersionId" (DeleteEntry.version_id e)
     ++ optional_element "ETag" (DeleteEntry.e_tag e)).
Definition delete_document (entries : list DeleteEntry.t) (quiet : bool) : XmlTree :=
  Element "Delete"
    ((entry_element <$> entries) ++ [text_element "Quiet" (if quiet then "true" else "false")]).

(** ** Timestamps: RFC 3339 *)

Definition digits_prefix (s : string) : string * string :=
  let fix go s := match s with
                  | EmptyString => ("", "")
                  | String c t => if is_ascii_digit c then let (a, b) := go t in (String c a, b)
                                  else ("", s)
                  end in go s.
(** Nanoseconds of up to nine digits of a fraction. *)
Definition fraction (digits : string) : option Z :=
  n ← parse_uint U64_MAX (str_take 9 digits); Some (n * 10 ^ (9 - Z.min 9 (slen digits))).

Definition read_rfc3339 (s : string) : option Z :=
  '(year, s) ← read_decimal 4 s; s ← strip_prefix "-" s; '(month, s) ← read_decimal 2 s;
  s ← strip_prefix "-" s; '(day, s) ← read_decimal 2 s; s ← strip_prefix "T" s;
  '(hour, s) ← read_decimal 2 s; s ← strip_prefix ":" s; '(minute, s) ← read_decimal 2 s;
  s ← strip_prefix ":" s; '(second, s) ← read_decimal 2 s;
  '(nanos, s) ← match strip_prefix "." s with
                | Some s => let (digits, s) := digits_prefix s in n ← fraction digits; Some (n, s)
                | None => Some (0, s)
                end;
  let d := Gregorian.Mk year month day in
  let t := utc year month day hour minute second in
  (* a day, an hour, a minute and a second that there are *)
  if (format_day t =? decimal 4 year +:+ decimal 2 month +:+ decimal 2 day)%string
     && (hour <? 24) && (minute <? 60) && (second <? 60)
  then
    let local := t + nanos in
    match s with
    | "Z" => Some local
    | String sign s =>
        '(hours, s) ← read_decimal 2 s; s ← strip_prefix ":" s; '(minutes, s) ← read_decimal 2 s;
        if negb (is_empty s) || (23 <? hours) || (59 <? minutes) then None
        else if Ascii.eqb sign "+" then Some (local - from_secs (hours * 3600 + minutes * 60))
        else if Ascii.eqb sign "-" then Some (local + from_secs (hours * 3600 + minutes * 60))
        else None
    | EmptyString => None
    end
  else None.

(** ** The instance *)

Definition read_as {A} (read : XmlTree -> result string A) (s : string) : result string A :=
  let? t := read_document s in read t.

#[export] Instance standard_documents : Documents := {
  documents_xml := {|
    read_events s := (token_event <$> tokens s) ++ [Ok Eof];
    utf8_error _ := "invalid utf-8 sequence" |};
  de_error := read_as error_document;
  de_list := read_as list_bucket_document;
  de_delete := read_as delete_result_document;
  de_parts := read_as list_parts_document;
  de_create := read_as create_document;
  de_complete := read_as complete_result_document;
  de_copy := read_as copy_result_document;
  de_uploads := read_as list_uploads_document;
  se_complete parts := ([write_tree (complete_document parts)], None);
  se_delete '(entries, quiet) := ([write_tree (delete_document entries quiet)], None);
  fmt_error := "an error occurred when formatting an argument";
  parse_rfc3339 s := ok_or (read_rfc3339 s) "the timestamp is invalid"
}.
