(* ===== verification/Wire.v ===== *)
(** The two request bodies of the client, written and read back by the writer and the
reader of [Serde], which stand in for the XML crate: the batch of keys to
delete and the parts that complete an upload. The library first: a tree [Reads] when the
scanner and the builder give it back from what was written, whatever follows; text is
read back from its escapes, and an element from its children. Then the fields of an
element, and the documents. *)

From S2P Require Import Prelude Text Errors Canonical Types Http Records Xml Protocol.
From S2P Require Import Verify Standards Testing Serde.
From stdpp Require Import options.
Local Open Scope Z_scope.

(** ** What the service reads *)

Definition completed_part_document (t : XmlTree) : result string CompletedPartDocument.t :=
  let? part_number := required_field (decimal_value U16_MAX) "PartNumber" t in
  let? e_tag := required_text "ETag" t in
  let? checksum := checksum_fields t in
  Ok (CompletedPartDocument.Mk part_number e_tag checksum).
Definition completed_parts (t : XmlTree) : result string (list CompletedPartDocument.t) :=
  sequence_field completed_part_document "Part" t.

Definition delete_entry_document (t : XmlTree) : result string DeleteEntry.t :=
  let? key := required_text "Key" t in
  let? version_id := optional_text "VersionId" t in
  let? e_tag := optional_text "ETag" t in
  Ok (DeleteEntry.Mk key version_id e_tag).
Definition deletions (t : XmlTree) : result string (list DeleteEntry.t * bool) :=
  let? objects := sequence_field delete_entry_document "Object" t in
  let? quiet := required_field bool_value "Quiet" t in
  Ok (objects, quiet).

(** ** Escapes *)

Lemma escape_byte_plain c : contains_char "<" (escape_byte c) = false.
Proof. by destruct c as [[] [] [] [] [] [] [] []]. Qed.

Lemma escape_plain s : contains_char "<" (escape s) = false.
Proof.
  unfold escape. induction s as [|c s IH]; [done|]. cbn [str_flat_map].
  by rewrite contains_char_app, escape_byte_plain.
Qed.

Lemma escape_empty s : is_empty (escape s) = is_empty s.
Proof. by destruct s as [|[[] [] [] [] [] [] [] []] s]. Qed.

Lemma unescape_byte c s :
  unescape (escape_byte c +:+ s) None = String c <$> unescape s None.
Proof.
  destruct c as [[] [] [] [] [] [] [] []];
    try reflexivity; cbn; by destruct (unescape s None).
Qed.

Lemma unescape_escape s : unescape (escape s) None = Some s.
Proof.
  induction s as [|c s IH]; [done|]. unfold escape in *. cbn [str_flat_map].
  by rewrite unescape_byte, IH.
Qed.

(** ** The scanner *)

Lemma scan_chars t s acc : contains_char "<" t = false ->
  scan (t +:+ s) acc None = scan s (acc +:+ t) None.
Proof.
  revert acc. induction t as [|c t IH]; intros acc Ht; [by rewrite app_nil_r_str|].
  apply contains_char_cons in Ht as [Hc Ht]. cbn [scan append]. rewrite Hc, IH by done.
  by rewrite app_assoc_str.
Qed.

Lemma scan_escape t s : is_empty t = false ->
  scan (escape t +:+ String "<" s) "" None = Plain t :: scan s "" (Some "").
Proof.
  intros Ht. rewrite scan_chars by apply escape_plain. cbn [scan append Ascii.eqb].
  unfold text_tokens. by rewrite escape_empty, Ht, unescape_escape.
Qed.

Lemma scan_inside m s k : contains_char ">" m = false ->
  scan (m +:+ s) "" (Some k) = scan s "" (Some (k +:+ m)).
Proof.
  revert k. induction m as [|c m IH]; intros k Hm; [by rewrite app_nil_r_str|].
  apply contains_char_cons in Hm as [Hc Hm]. cbn [scan append]. rewrite Hc. cbn [andb].
  rewrite IH by done. by rewrite app_assoc_str.
Qed.

(** A markup without quotes, declarations and instructions ends at its first [>]. *)
Lemma scan_markup m s : contains_char ">" m = false -> markup_ends m = true ->
  scan (m +:+ ">" +:+ s) "" (Some "") = markup_token m :: scan s "" None.
Proof. intros Hm He. rewrite scan_inside by done. cbn [scan append]. by rewrite He. Qed.

(** *** Names *)

Definition plain_name (name : string) : Prop :=
  is_empty name = false /\ str_all is_ascii_alphanumeric name = true.

Lemma alphanumeric_absent (c : ascii) s : is_ascii_alphanumeric c = false ->
  str_all is_ascii_alphanumeric s = true -> contains_char c s = false.
Proof.
  intros Hc. unfold contains_char. rewrite str_any_false. apply str_all_impl.
  intros d Hd. destruct (Ascii.eqb_spec c d) as [<-|]; [by rewrite Hc in Hd|done].
Qed.

Lemma occurrences_absent c s : contains_char c s = false -> occurrences (String c "") s = 0.
Proof.
  induction s as [|d s IH]; [done|]. intros [Hd Hs]%contains_char_cons.
  cbn [occurrences]. rewrite IH by done. unfold starts_with. cbn [strip_prefix].
  by rewrite Ascii.eqb_sym, Hd.
Qed.

Lemma one_of_absent set s : str_all (fun c => negb (is_ascii_alphanumeric c)) set = true ->
  str_all is_ascii_alphanumeric s = true -> str_any (one_of set) s = false.
Proof.
  intros Hset. rewrite str_any_false. apply str_all_impl. intros c Hc.
  induction set as [|d set IH]; [done|]. cbn [str_all] in Hset. bools.
  change (negb (Ascii.eqb c d || one_of set c) = true).
  destruct (Ascii.eqb_spec c d) as [<-|]; [congruence|by apply IH].
Qed.

Lemma markup_name_plain name : plain_name name -> markup_name name = name.
Proof.
  intros [_ Hn]. unfold markup_name. rewrite break_at_plain; [done|].
  by apply one_of_absent; [vm_compute|].
Qed.

(** The three markups of an element of a plain name. *)
Definition tag (name : string) (markup : string) : Prop :=
  markup = name \/ markup = name +:+ "/" \/ markup = "/" +:+ name.

Lemma tag_chars name markup c : plain_name name -> tag name markup ->
  is_ascii_alphanumeric c = false -> Ascii.eqb c "/" = false -> contains_char c markup = false.
Proof.
  intros [_ Hn] Ht Hc Hs. pose proof (alphanumeric_absent c name Hc Hn) as Ha.
  destruct Ht as [-> | [-> | ->] ]; [done| |]; rewrite contains_char_app, Ha; unfold contains_char;
    cbn [str_any]; by rewrite Hs.
Qed.

Lemma tag_ends name markup : plain_name name -> tag name markup -> markup_ends markup = true.
Proof.
  intros Hn Ht.
  assert (Hb : contains_char "!" markup = false) by by apply (tag_chars name).
  assert (Hi : contains_char "?" markup = false) by by apply (tag_chars name).
  assert (Hq : contains_char (chr 34) markup = false) by by apply (tag_chars name).
  unfold markup_ends, in_quotes, DQ. rewrite (occurrences_absent _ _ Hq).
  destruct markup as [|c m]; [done|].
  apply contains_char_cons in Hb as [Hb _]. apply contains_char_cons in Hi as [Hi _]. unfold starts_with.
  cbn [strip_prefix]. by rewrite (Ascii.eqb_sym "!"), Hb, (Ascii.eqb_sym "?"), Hi.
Qed.

Lemma scan_tag name markup s : plain_name name -> tag name markup ->
  scan ("<" +:+ markup +:+ ">" +:+ s) "" None = markup_token markup :: scan s "" None.
Proof.
  intros Hn Ht. change (scan (markup +:+ ">" +:+ s) "" (Some "") = markup_token markup :: scan s "" None).
  by apply scan_markup; [apply (tag_chars name)|apply (tag_ends name)].
Qed.

Lemma markup_token_element c m : is_ascii_alphanumeric c || Ascii.eqb c "/" = true ->
  markup_token (String c m)
  = match strip_prefix "/" (String c m), strip_suffix "/" (String c m) with
    | Some name, _ => Closed (markup_name name)
    | None, Some markup => Single (markup_name markup)
    | None, None => Opened (markup_name (String c m))
    end.
Proof. by destruct c as [[] [] [] [] [] [] [] []]. Qed.

Lemma markup_tokens name : plain_name name ->
  markup_token name = Opened name /\ markup_token (name +:+ "/") = Single name
  /\ markup_token ("/" +:+ name) = Closed name.
Proof.
  intros Hn. pose proof (markup_name_plain name Hn) as Hm. destruct Hn as [He Hn].
  pose proof (alphanumeric_absent "/" name eq_refl Hn) as Ha.
  assert (Hs : strip_suffix "/" name = None).
  { destruct (strip_suffix "/" name) as [r|] eqn:E; [|done].
    apply strip_suffix_Some in E as ->. by rewrite contains_char_app, orb_true_r in Ha. }
  destruct name as [|c name]; [done|]. cbn [str_all] in Hn. bools.
  apply contains_char_cons in Ha as [Hc Ha].
  assert (Hp : forall m, strip_prefix "/" (String c m) = None).
  { intros m. cbn [strip_prefix]. by rewrite Ascii.eqb_sym, Hc. }
  split_and!.
  - rewrite markup_token_element, Hp, Hs, Hm by by rewrite H. done.
  - change (String c name +:+ "/") with (String c (name +:+ "/")).
    rewrite markup_token_element, Hp by by rewrite H.
    change (String c (name +:+ "/")) with (String c name +:+ "/"). by rewrite strip_suffix_app, Hm.
  - cbn [append]. rewrite markup_token_element by done. cbn [strip_prefix].
    change (Ascii.eqb "/" "/") with true. cbn beta iota. by rewrite Hm.
Qed.

(** ** Trees that are read back *)

(** The tokens of a tree. *)
Fixpoint tree_tokens (t : XmlTree) : list Token :=
  match t with
  | Chars s => text_tokens (escape s)
  | Element name [] => [Single name]
  | Element name children =>
      Opened name :: List.concat (List.map tree_tokens children) ++ [Closed name]
  end.

Record Reads (t : XmlTree) : Prop := {
  reads_element : exists name children, t = Element name children;
  reads_tokens s : scan (write_tree t +:+ s) "" None = tree_tokens t ++ scan s "" None;
  reads_build ts opened read :
    build (tree_tokens t ++ ts) opened read = build ts opened (t :: read)
}.

Lemma reads_empty name : plain_name name -> Reads (Element name []).
Proof.
  intros Hn. destruct (markup_tokens name Hn) as (_ & Hs & _). split; [eauto| |done].
  intros s. change (write_tree (Element name []) +:+ s) with ("<" +:+ (name +:+ "/" +:+ ">") +:+ s).
  rewrite <- (app_assoc_str name), (app_assoc_str (name +:+ "/") ">" s).
  rewrite (scan_tag name) by (auto; right; by left). by rewrite Hs.
Qed.

Lemma build_element name cs ts opened read tokens :
  (forall ts opened read, build (tokens ++ ts) opened read = build ts opened (rev cs ++ read)) ->
  build (Opened name :: (tokens ++ [Closed name]) ++ ts) opened read
  = build ts opened (Element name cs :: read).
Proof.
  intros Hc. cbn [build]. rewrite <- app_assoc, Hc. cbn [build app].
  by rewrite String.eqb_refl, app_nil_r, rev_involutive.
Qed.

(** The two ends of an element around what it holds. *)
Lemma scan_element name body tokens s : plain_name name ->
  (forall s, scan (body +:+ String "<" s) "" None = tokens ++ scan (String "<" s) "" None) ->
  scan (("<" +:+ name +:+ ">" +:+ body +:+ "</" +:+ name +:+ ">") +:+ s) "" None
  = Opened name :: (tokens ++ [Closed name]) ++ scan s "" None.
Proof.
  intros Hn Hb. destruct (markup_tokens name Hn) as (Ho & _ & Hc). rewrite !app_assoc_str.
  rewrite (scan_tag name), Ho by (auto; by left). f_equal.
  change ("</" +:+ name +:+ ">" +:+ s) with ("<" +:+ ("/" +:+ name) +:+ ">" +:+ s).
  change ("<" +:+ ("/" +:+ name) +:+ ">" +:+ s) with (String "<" (("/" +:+ name) +:+ ">" +:+ s)).
  rewrite Hb, <- app_assoc. f_equal.
  change (String "<" (("/" +:+ name) +:+ ">" +:+ s)) with ("<" +:+ ("/" +:+ name) +:+ ">" +:+ s).
  rewrite (scan_tag name), Hc by (auto; by right; right). done.
Qed.

Lemma reads_text name s : plain_name name -> Reads (text_element name s).
Proof.
  intros Hn. unfold text_element. destruct (is_empty s) eqn:E; [by apply reads_empty|].
  assert (Ht : text_tokens (escape s) = [Plain s]).
  { unfold text_tokens. by rewrite escape_empty, E, unescape_escape. }
  split; [eauto| |].
  - intros r. cbn [write_tree List.map str_concat]. rewrite app_nil_r_str.
    change (tree_tokens (Element name [Chars s]))
      with (Opened name :: (text_tokens (escape s) ++ []) ++ [Closed name]).
    rewrite Ht. apply (scan_element name (escape s) [Plain s]); [done|].
    intros r'. by rewrite scan_escape.
  - intros ts opened read. change (tree_tokens (Element name [Chars s]))
      with (Opened name :: (text_tokens (escape s) ++ []) ++ [Closed name]).
    rewrite Ht. apply (build_element name [Chars s] ts opened read [Plain s]). done.
Qed.

Lemma reads_children cs : Forall Reads cs ->
  (forall s, scan (str_concat (List.map write_tree cs) +:+ s) "" None
             = List.concat (List.map tree_tokens cs) ++ scan s "" None)
  /\ (forall ts opened read, build (List.concat (List.map tree_tokens cs) ++ ts) opened read
                             = build ts opened (rev cs ++ read)).
Proof.
  induction 1 as [|c cs Hc _ [IHs IHb]]; [done|]. cbn [List.map str_concat List.concat rev]. split.
  - intros s. by rewrite app_assoc_str, (reads_tokens _ Hc), IHs, app_assoc.
  - intros ts opened read. by rewrite <- app_assoc, (reads_build _ Hc), IHb, <- app_assoc.
Qed.

Lemma reads_node name cs : plain_name name -> Forall Reads cs -> Reads (Element name cs).
Proof.
  intros Hn Hcs. destruct cs as [|c cs]; [by apply reads_empty|].
  destruct (reads_children _ Hcs) as [Hs Hb]. split; [eauto| |].
  - intros s. apply (scan_element name (str_concat (List.map write_tree (c :: cs)))); [done|].
    intros s'. apply Hs.
  - intros ts opened read. by apply build_element.
Qed.

Lemma read_document_write t : Reads t -> read_document (write_tree t) = Ok t.
Proof.
  intros Ht. destruct (reads_element t Ht) as (name & cs & ->). unfold read_document, tokens.
  rewrite <- (app_nil_r_str (write_tree _)), (reads_tokens _ Ht). cbn [scan].
  rewrite (reads_build _ Ht). done.
Qed.

(** ** Fields that are read back *)

(** The elements of the present fields, in order. *)
Definition field_elements (fields : list (string * option string)) : list XmlTree :=
  List.concat ((fun '(name, s) => optional_element name s) <$> fields).
Definition plain_fields (fields : list (string * option string)) : bool :=
  forallb (fun name => negb (is_empty name) && str_all is_ascii_alphanumeric name) fields.*1
  && bool_decide (NoDup fields.*1).

Lemma plain_name_bool name :
  negb (is_empty name) && str_all is_ascii_alphanumeric name = true <-> plain_name name.
Proof. by rewrite andb_true_iff, negb_true_iff. Qed.

Lemma local_name_plain name : plain_name name -> local_name name = name.
Proof.
  intros [_ Hn]. unfold local_name. rewrite split_once_None; [done|].
  by apply alphanumeric_absent.
Qed.

Lemma reads_fields fields : plain_fields fields = true -> Forall Reads (field_elements fields).
Proof.
  unfold plain_fields, field_elements. intros [Hp _]%andb_true_iff.
  induction fields as [|[name [s|] ] fields IH]; [constructor| |].
  - cbn in Hp. apply andb_true_iff in Hp as [Hn Hp]. constructor; [|by apply IH].
    apply reads_text. by apply plain_name_bool.
  - cbn in Hp. apply andb_true_iff in Hp as [_ Hp]. by apply IH.
Qed.

Lemma named_app field parent xs ys :
  named field (Element parent (xs ++ ys))
  = named field (Element parent xs) ++ named field (Element parent ys).
Proof. apply List.filter_app. Qed.

Lemma named_text field parent name s : plain_name name ->
  named field (Element parent [text_element name s])
  = if String.eqb name field then [text_element name s] else [].
Proof. intros Hn. unfold named, text_element. cbn. by rewrite (local_name_plain _ Hn). Qed.

Lemma named_fields_absent field parent fields : plain_fields fields = true ->
  field ∉ fields.*1 -> named field (Element parent (field_elements fields)) = [].
Proof.
  unfold plain_fields. intros [Hp _]%andb_true_iff.
  induction fields as [|[name s] fields IH]; [done|]. intros Hf. cbn in Hp, Hf.
  apply andb_true_iff in Hp as [Hn Hp]. apply not_elem_of_cons in Hf as [Hne Hf].
  change (field_elements ((name, s) :: fields))
    with (optional_element name s ++ field_elements fields).
  rewrite named_app, IH by done. destruct s as [s|]; [|done]. cbn [optional_element].
  rewrite named_text by by apply plain_name_bool. by rewrite (proj2 (String.eqb_neq _ _)).
Qed.

Lemma named_fields field parent fields s : plain_fields fields = true ->
  (field, s) ∈ fields ->
  named field (Element parent (field_elements fields)) = optional_element field s.
Proof.
  unfold plain_fields. intros [Hp Hd]%andb_true_iff. apply bool_decide_eq_true in Hd.
  induction fields as [|[name s'] fields IH]; [by intros ?%elem_of_nil|].
  cbn in Hp, Hd. apply andb_true_iff in Hp as [Hn Hp]. apply NoDup_cons in Hd as [Hne Hd].
  change (field_elements ((name, s') :: fields))
    with (optional_element name s' ++ field_elements fields).
  assert (Hf : plain_fields fields = true).
  { unfold plain_fields. rewrite Hp. by apply bool_decide_eq_true. }
  rewrite named_app. intros [ [= -> ->] |Hin]%elem_of_cons.
  - rewrite (named_fields_absent _ _ _ Hf Hne). destruct s' as [s'|]; [|done].
    cbn [optional_element]. rewrite named_text by by apply plain_name_bool.
    by rewrite String.eqb_refl.
  - rewrite IH by done. destruct s' as [s'|]; [|done]. cbn [optional_element].
    rewrite named_text by by apply plain_name_bool. rewrite (proj2 (String.eqb_neq _ _)); [done|].
    intros <-. apply Hne. by apply (list_elem_of_fmap_2 fst) in Hin.
Qed.

Section fields.
Set Default Proof Using "Type*".
Context {A : Type} (read : XmlTree -> result string A).
Context (parent : string) (fields : list (string * option string)).
Context (Hplain : plain_fields fields = true).

Lemma optional_field_present field s a : (field, Some s) ∈ fields ->
  read (text_element field s) = Ok a ->
  optional_field read field (Element parent (field_elements fields)) = Ok (Some a).
Proof.
  intros Hin Hr. unfold optional_field. rewrite (named_fields _ _ _ _ Hplain Hin).
  cbn [optional_element]. by rewrite Hr.
Qed.

Lemma required_field_present field s a : (field, Some s) ∈ fields ->
  read (text_element field s) = Ok a ->
  required_field read field (Element parent (field_elements fields)) = Ok a.
Proof. intros Hin Hr. unfold required_field. by rewrite (optional_field_present field s a). Qed.

Lemma optional_field_absent field : (field, None) ∈ fields ->
  optional_field read field (Element parent (field_elements fields)) = Ok None.
Proof. intros Hin. unfold optional_field. by rewrite (named_fields _ _ _ _ Hplain Hin). Qed.
End fields.

Lemma text_value_element name s : text_value (text_element name s) = Ok s.
Proof.
  unfold text_value, text_element. destruct s as [|c s]; [done|]. cbn [is_empty children_of texts].
  by rewrite app_nil_r_str.
Qed.

Lemma optional_text_fields parent fields field s : plain_fields fields = true ->
  (field, s) ∈ fields -> optional_text field (Element parent (field_elements fields)) = Ok s.
Proof.
  intros Hp Hin. unfold optional_text. destruct s as [s|].
  - apply (optional_field_present _ _ _ Hp field s s Hin), text_value_element.
  - by apply optional_field_absent.
Qed.

Lemma required_text_fields parent fields field s : plain_fields fields = true ->
  (field, Some s) ∈ fields -> required_text field (Element parent (field_elements fields)) = Ok s.
Proof. intros Hp Hin. apply (required_field_present _ _ _ Hp field s s Hin), text_value_element. Qed.

Lemma decimal_value_element max name n : 0 <= n <= max -> max <= U64_MAX ->
  decimal_value max (text_element name (to_string n)) = Ok n.
Proof.
  intros Hn Hm. unfold decimal_value. rewrite text_value_element.
  by rewrite parse_uint_to_string.
Qed.

(** ** The documents that are read back *)

Definition part_fields (p : CompletedPartDocument.t) : list (string * option string) :=
  let checksum := CompletedPartDocument.checksum p in
  [("PartNumber", Some (to_string (CompletedPartDocument.part_number p)));
   ("ETag", Some (CompletedPartDocument.e_tag p));
   ("ChecksumCRC32", Checksum.crc32 checksum); ("ChecksumCRC32C", Checksum.crc32c checksum);
   ("ChecksumCRC64NVME", Checksum.crc64_nvme checksum);
   ("ChecksumSHA1", Checksum.sha1 checksum); ("ChecksumSHA256", Checksum.sha256 checksum)].
Definition entry_fields (e : DeleteEntry.t) : list (string * option string) :=
  [("Key", Some (DeleteEntry.key e)); ("VersionId", DeleteEntry.version_id e);
   ("ETag", DeleteEntry.e_tag e)].

Lemma part_element_fields p : part_element p = Element "Part" (field_elements (part_fields p)).
Proof.
  unfold part_element, field_elements, part_fields. cbn [fmap list_fmap List.concat app].
  by rewrite app_nil_r.
Qed.
Lemma part_fields_plain p : plain_fields (part_fields p) = true.
Proof. reflexivity. Qed.
Lemma entry_element_fields e : entry_element e = Element "Object" (field_elements (entry_fields e)).
Proof.
  unfold entry_element, field_elements, entry_fields. cbn [fmap list_fmap List.concat app].
  by rewrite app_nil_r.
Qed.
Lemma entry_fields_plain e : plain_fields (entry_fields e) = true.
Proof. reflexivity. Qed.

(** Each field of a document is one of its list. *)
Ltac field_in :=
  first [apply list_elem_of_here | apply list_elem_of_further; field_in].
Ltac read_fields :=
  repeat (first [erewrite optional_text_fields by (reflexivity || field_in)
                |erewrite required_text_fields by (reflexivity || field_in)]; cbn beta iota).

Lemma completed_part_document_element p : 0 <= CompletedPartDocument.part_number p <= U16_MAX ->
  completed_part_document (part_element p) = Ok p.
Proof.
  intros Hn. rewrite part_element_fields. unfold completed_part_document, checksum_fields.
  rewrite (required_field_present _ _ _ (part_fields_plain p) "PartNumber" _
             (CompletedPartDocument.part_number p) ltac:(field_in))
    by by apply decimal_value_element.
  unfold part_fields. cbn beta iota. read_fields. by destruct p as [n e [] ].
Qed.

Lemma delete_entry_document_element e : delete_entry_document (entry_element e) = Ok e.
Proof.
  rewrite entry_element_fields. unfold delete_entry_document, entry_fields. read_fields.
  by destruct e.
Qed.

(** The elements of a sequence, whatever other elements its parent has. *)
Lemma named_elements {A} field parent (f : A -> XmlTree) l : plain_name field ->
  (forall a, exists children, f a = Element field children) ->
  named field (Element parent (f <$> l)) = f <$> l.
Proof.
  intros Hn Hf. induction l as [|a l IH]; [done|].
  change (f <$> a :: l) with ([f a] ++ (f <$> l)). rewrite named_app, IH.
  destruct (Hf a) as [children ->]. unfold named. cbn.
  by rewrite (local_name_plain _ Hn), String.eqb_refl.
Qed.
Lemma named_others {A} field name parent (f : A -> XmlTree) l : plain_name name -> name <> field ->
  (forall a, exists children, f a = Element name children) ->
  named field (Element parent (f <$> l)) = [].
Proof.
  intros Hn Hne Hf. induction l as [|a l IH]; [done|].
  change (f <$> a :: l) with ([f a] ++ (f <$> l)). rewrite named_app, IH.
  destruct (Hf a) as [children ->]. unfold named. cbn.
  by rewrite (local_name_plain _ Hn), (proj2 (String.eqb_neq _ _)).
Qed.

Lemma try_map_elements {A} (read : XmlTree -> result string A) f l :
  Forall (fun a => read (f a) = Ok a) l -> try_map read (f <$> l) = Ok l.
Proof. intros H. apply try_map_ok. rewrite Forall2_fmap_l. by apply Forall_Forall2_diag. Qed.

Lemma reads_part p : Reads (part_element p).
Proof. rewrite part_element_fields. by apply reads_node, reads_fields. Qed.
Lemma reads_entry e : Reads (entry_element e).
Proof. rewrite entry_element_fields. by apply reads_node, reads_fields. Qed.

Lemma completed_parts_read parts :
  Forall (fun p => 0 <= CompletedPartDocument.part_number p <= U16_MAX) parts ->
  read_as completed_parts (write_tree (complete_document parts)) = Ok parts.
Proof.
  intros Hp. unfold read_as, complete_document. rewrite read_document_write.
  - unfold completed_parts, sequence_field.
    rewrite named_elements by (done || by eexists).
    apply try_map_elements. by apply (Forall_impl _ _ _ Hp), completed_part_document_element.
  - apply reads_node; [done|]. apply Forall_fmap, Forall_true. apply reads_part.
Qed.

Lemma deletions_read entries quiet :
  read_as deletions (write_tree (delete_document entries quiet)) = Ok (entries, quiet).
Proof.
  unfold read_as, delete_document. rewrite read_document_write.
  - unfold deletions, sequence_field, required_field, optional_field.
    rewrite !named_app, named_elements, (named_others "Quiet" "Object") by (done || by eexists).
    rewrite !named_text by done.
    change (String.eqb "Quiet" "Object") with false.
    change (String.eqb "Quiet" "Quiet") with true. cbn iota. rewrite app_nil_r.
    rewrite try_map_elements by (apply Forall_true, delete_entry_document_element).
    by destruct quiet.
  - apply reads_node; [done|]. apply Forall_app. split.
    + apply Forall_fmap, Forall_true, reads_entry.
    + repeat constructor; by apply reads_text.
Qed.

(** ** The request bodies *)

(** A serialised text is what was written, within the bound. *)
Lemma serialize_bounded_ok fmt_error text maximum body : 0 <= maximum ->
  serialize_bounded fmt_error [text] None maximum = Ok body ->
  body = text /\ slen body <= maximum.
Proof.
  unfold serialize_bounded. intros Hm. destruct (to_writer _ _ _ _) as [w [?|?] ] eqn:Hw;
    [|by destruct (exceeded w)].
  apply to_writer_ok in Hw as (Hv & Hl & _); [|done]. intros [= <-]. split; [|done].
  rewrite Hv. apply app_nil_r_str.
Qed.

Section bodies.
Context `{Http}.

(** What a request says. *)
Definition part_said (p : CompletedPart.t) : CompletedPartDocument.t :=
  CompletedPartDocument.Mk (PartNumber.get (CompletedPart.part_number p)) (CompletedPart.e_tag p)
    (CompletedPart.checksum p).
Definition object_said (o : DeleteObjectIdentifier.t) : DeleteEntry.t :=
  DeleteEntry.Mk (ObjectKey.as_str (DeleteObjectIdentifier.key o))
    (DeleteObjectIdentifier.version_id o) (DeleteObjectIdentifier.if_match o).
(** The values of [PartNumber]. *)
Definition numbered (p : CompletedPart.t) : Prop :=
  1 <= PartNumber.get (CompletedPart.part_number p) <= PartNumber.MAX.

Lemma numbered_said p : numbered p ->
  0 <= CompletedPartDocument.part_number (part_said p) <= U16_MAX.
Proof. unfold numbered, PartNumber.MAX, U16_MAX. cbn. lia. Qed.

(** With the writer and the reader of [Serde], what the client asks for is what is read in
its request body: a batch of keys to delete, with their versions and conditions, in order,
and the parts that complete an upload with their numbers, tags and checksums. So a key
cannot be read as markup. No body is longer than its bound. A service whose reader
normalises line ends, or refuses control characters, reads less than this one. *)
Theorem request_bodies_round_trip (maximum : Z) (Hmax : 0 <= maximum) :
  (forall request body, Forall numbered (CompleteMultipartUploadRequest.completed_parts request) ->
     serialize_complete_multipart_upload request maximum = Ok body ->
     read_as completed_parts body
       = Ok (part_said <$> CompleteMultipartUploadRequest.completed_parts request)
     /\ slen body <= maximum)
  /\ (forall request body, serialize_delete_objects request maximum = Ok body ->
        read_as deletions body
          = Ok (object_said <$> DeleteObjectsRequest.objects request,
                DeleteObjectsRequest.quiet request)
        /\ slen body <= maximum).
Proof.
  split.
  - intros request body Hn [-> Hl]%serialize_bounded_ok; [|done]. split; [|done].
    apply completed_parts_read. apply Forall_fmap. by apply (Forall_impl _ _ _ Hn), numbered_said.
  - intros request body [-> Hl]%serialize_bounded_ok; [|done]. split; [|done].
    apply deletions_read.
Qed.
End bodies.

#[local] Existing Instance assoc_http.

(** A key made of markup. *)
Definition sample_deletion : DeleteObjectsRequest.t :=
  DeleteObjectsRequest.Mk
    [DeleteObjectIdentifier.Mk (ObjectKey.Mk "</Key><Key>a&b") (Some "v;1") None;
     DeleteObjectIdentifier.Mk (ObjectKey.Mk "plain") None (Some (quoted "tag"))] true hm_empty.
Definition sample_completion : CompleteMultipartUploadRequest.t :=
  CompleteMultipartUploadRequest.Mk (ObjectKey.Mk "key") (UploadId.Mk "id")
    [CompletedPart.Mk (PartNumber.Mk 1) (quoted "a") Checksum.default;
     CompletedPart.Mk (PartNumber.Mk 10000) "<b>" (Checksum.Mk None (Some "AAAA==") None None None)]
    hm_empty.

Lemma request_bodies_round_trip_witness :
  (exists body, serialize_delete_objects sample_deletion 1024 = Ok body
     /\ read_as deletions body
        = Ok ([DeleteEntry.Mk "</Key><Key>a&b" (Some "v;1") None;
               DeleteEntry.Mk "plain" None (Some (quoted "tag"))], true))
  /\ (exists body, serialize_complete_multipart_upload sample_completion 1024 = Ok body
        /\ read_as completed_parts body
           = Ok (part_said <$> CompleteMultipartUploadRequest.completed_parts sample_completion)).
Proof.
  destruct (request_bodies_round_trip 1024 ltac:(lia)) as [Hc Hd]. split.
  - eexists. split; [vm_compute; reflexivity|].
    refine (proj1 (Hd sample_deletion _ _)). vm_compute. reflexivity.
  - eexists. split; [vm_compute; reflexivity|].
    refine (proj1 (Hc sample_completion _ _ _)); [|vm_compute; reflexivity].
    repeat constructor; cbn; unfold PartNumber.MAX; lia.
Defined.
