(* ===== verification/Sessions.v ===== *)
(** Sessions: the operations that a client's callers make, one after another, over
the state that they share ([src/client/mod.rs]). This composes the whole client:
what is said of one exchange, in [Execute] and [Verify], holds of every request
that any operation hands over. *)

From S2P Require Import Prelude Text Errors Canonical SigV4 Endpoint Http Retry Quota Types.
From S2P Require Import Stream Xml Records Protocol Response Credentials Config Request Execute.
From S2P Require Import Crc Headers Calls Objects Parts Listing Operations Verify Standards.
From stdpp Require Import options.
Local Open Scope Z_scope.

Section session.
Context `{Http} `{HttpUri} `{World} `{Primitives} `{Documents} `{HttpText} `{Base64} `{Md5}.
Variable c : S3Client.

(** Every operation ends before the next; what others do meanwhile is in the
circumstances of each attempt. [None] is an operation that is not over. *)
Fixpoint run_ops (ops : list (op * Call)) (s : Session) : option Session :=
  match ops with
  | [] => Some s
  | (o, x) :: ops => '(s, _) ← run_op c o x s; run_ops ops s
  end.
End session.

(** ** Lemmas *)

Section lemmas.
Set Default Proof Using "Type*".
Context `{HttpLaws} `{HttpUri} `{World} `{Primitives} `{Documents} `{HttpText} `{Base64} `{Md5}.
Variable c : S3Client.

(** What every execution of the attempt loop sends, every operation sends. *)
Lemma run_op_inner (P : EndpointUrl * string * Request -> Prop) o x :
  (forall method key target query h body deadline mode started envs quota st r,
     operation_target c key = Ok target -> (lower_named (caller_headers o) -> lower_named h) ->
     send_signed_inner c method target query h body deadline mode started envs quota = Some (st, r) ->
     Forall P (sent st)) ->
  sends_only P (run_op c o x).
Proof.
  intros Hp. set (Q := fun (_ : string) (_ : option string) (_ : list QueryParam) (caller : HeaderMap)
                     (y : EndpointUrl * string * Request) =>
                   caller = caller_headers o -> P y).
  assert (Hq : forall method key query h caller, built caller h ->
    forall target body deadline mode started envs quota st r, operation_target c key = Ok target ->
    send_signed_inner c method target query h body deadline mode started envs quota = Some (st, r) ->
    Forall (Q method key query caller) (sent st)).
  { intros method key query h caller [_ [_ Hl]] * Ht Hr. apply Forall_forall. intros y Hy ->.
    pose proof (Hp _ _ _ _ _ _ _ _ _ _ _ _ _ Ht Hl Hr) as F. rewrite Forall_forall in F. by apply F. }
  eapply sends_only_weaken; [|apply (run_op_sends c Q)]; [by intros y Hy; apply Hy| |].
  - intros * Ht Hb s s' r E. unfold call_signed, send_signed in E.
    destruct (send_signed_inner _ _ _ _ _ _ _ _ _ _ _) as [[st r']|] eqn:Ei; [|done].
    apply (Hq _ _ _ _ _ Hb _ _ _ _ _ _ _ _ _ Ht) in Ei. exists (sent st).
    destruct r' as [[]|]; cbn in E; try done; by injection E as <- _.
  - intros * Ht Hb s s' r E. unfold call_signed_xml, send_signed_collected_xml in E.
    destruct (send_signed_inner _ _ _ _ _ _ _ _ _ _ _) as [[st r']|] eqn:Ei; [|done].
    apply (Hq _ _ _ _ _ Hb _ _ _ _ _ _ _ _ _ Ht) in Ei. exists (sent st).
    destruct r' as [[]|]; cbn in E; try done; by injection E as <- _.
Qed.

(** A session sends what its operations send. *)
Lemma run_ops_sends (P : op -> EndpointUrl * string * Request -> Prop) ops s s' :
  (forall o x, (o, x) ∈ ops -> sends_only (P o) (run_op c o x)) ->
  run_ops c ops s = Some s' ->
  exists new, wire s' = wire s ++ new /\
    Forall (fun y => exists o x, (o, x) ∈ ops /\ P o y) new.
Proof.
  revert s. induction ops as [|[o x] ops IH]; intros s Hp Hr.
  { injection Hr as <-. exists []. by rewrite app_nil_r. }
  cbn in Hr. destruct (run_op c o x s) as [[s1 r]|] eqn:E; [|done]. cbn in Hr.
  destruct (Hp o x ltac:(by left) _ _ _ E) as (n1 & W1 & F1).
  destruct (IH s1) as (n2 & W2 & F2); [intros; apply Hp; by right|done|].
  exists (n1 ++ n2). rewrite W2, W1, app_assoc. split; [done|]. apply Forall_app. split.
  - eapply Forall_impl; [exact F1|]. intros y Hy. exists o, x. split; [by left|done].
  - eapply Forall_impl; [exact F2|]. intros y (o' & x' & Hi & Hy). exists o', x'. split; [by right|done].
Qed.
End lemmas.

(** ** Properties *)

(** C1. The service accepts every request of a session. Whatever operations are
made, in whatever circumstances and with whatever answers, every request handed to
the HTTP client, of every attempt of every operation, is a request of one of these
operations, for its key, with its query and its caller's headers; it passes the
check that the service makes with its own copy of the secret; and it is an HTTPS
request if the endpoint is HTTPS. *)
Theorem session_requests_accepted `{HttpLaws} `{HttpUriLaws} `{World} `{PrimitivesLaws} `{!Calendar}
  `{Documents} `{HttpText} `{Base64} `{Md5} (http2 : bool) (cfg : S3Config.t) (c : S3Client)
  (input : string) (grant : string -> option Grant) (ops : list (op * Call)) (s s' : Session)
  (Hclient : S3Client_new http2 cfg = Ok c)
  (Hendpoint : Endpoint_new input = Ok (S3Config.endpoint cfg))
  (Hbase : encoded_path (base_path (S3Config.endpoint cfg)))
  (Hknows : knows grant (S3Config.credentials_provider cfg))
  (Hpolicy : 1 <= max_attempts (S3Config.retry_policy cfg) <= U32_MAX)
  (Hnames : Forall (fun p => lower_named (caller_headers p.1)) ops)
  (Hrun : run_ops c ops s = Some s') :
  exists new, wire s' = wire s ++ new /\
    Forall (fun y => exists o x, (o, x) ∈ ops /\
      for_caller c (api_method o) (api_key o) (api_query o) (caller_headers o) y /\
      accepted_request grant y /\
      (is_https (S3Config.endpoint cfg) = true -> scheme_str y.2 = Some "https")) new.
Proof.
  assert (Hc : config c = cfg /\ allow_http (transport c) = negb (is_https (S3Config.endpoint cfg))).
  { unfold S3Client_new, Transport_new in Hclient. destruct (hv_from_str _); cbn in Hclient; [|done].
    by injection Hclient as <-. }
  destruct Hc as [<- Hhttp]. eapply run_ops_sends; [|exact Hrun]. intros o x Hin.
  rewrite Forall_forall in Hnames. pose proof (Hnames _ Hin) as Hlower.
  apply sends_only_and; [apply (run_op_for_caller c Hpolicy o x)|]. apply sends_only_and.
  - apply run_op_inner. intros * Ht Hl Hr.
    eapply inner_accepted; [exact Hendpoint|exact Hbase|exact Ht|by apply Hl|done|done|exact Hr].
  - apply run_op_inner. intros * Ht Hl Hr. apply Forall_forall. intros y Hy E.
    rewrite E in Hhttp. eapply inner_https in Hr; [|exact Hhttp|exact Hpolicy].
    rewrite Forall_forall in Hr. by apply Hr.
Qed.

(** ** A session, signed with SHA-256: a put that is retried, and a head *)

#[local] Existing Instance wire_uri.
#[local] Existing Instance wire_uri_laws.
#[local] Existing Instance assoc_http.
#[local] Existing Instance assoc_http_laws.
#[local] Existing Instance sample_signing_world.
#[local] Existing Instance sample_documents.
#[local] Existing Instance sample_text.
#[local] Instance session_md5 : Md5 := {| md5 s := str_take 16 s |}.

Definition session_config : S3Config.t := config wire_client.
Definition session_call (attempts : list Attempt) : Call :=
  {| call_now := 0; body_elapsed := false;
     exchange := {| ex_started := 0; ex_attempts := attempts |} |}.
Definition session_ops : list (op * Call) :=
  [(PutObject (PutObjectRequest.new (ObjectKey.Mk "a b") (SourceBytes "hello")),
    session_call [wire_attempt 503 []; wire_attempt 200 []]);
   (HeadObject (HeadObjectRequest.new (ObjectKey.Mk "a b")),
    session_call [wire_attempt 404 []])].
Definition session_start : Session :=
  {| shared_quota := RetryQuota_new; wire := []; observed := [] |}.
#[local] Notation session_run :=
  (match S3Client_new false session_config with
   | Ok c => run_ops c session_ops session_start
   | Err _ => None
   end).

Lemma session_requests_accepted_witness :
  match session_run with
  | Some s => (List.length (wire s) = 3)%nat /\
      Forall (fun y => accepted_request wire_grant y /\ scheme_str y.2 = Some "https") (wire s)
  | None => False
  end.
Proof.
  assert (Hl : match session_run with
               | Some s => (List.length (wire s) =? 3)%nat
               | None => false
               end = true) by (vm_compute; reflexivity).
  destruct (S3Client_new false session_config) as [c|e] eqn:Ec; [|discriminate Hl].
  destruct (run_ops c session_ops session_start) as [s|] eqn:Er; [|discriminate Hl].
  split; [apply Nat.eqb_eq; exact Hl|].
  destruct (session_requests_accepted false session_config c "https://s3.us-east-1.amazonaws.com"
    wire_grant session_ops session_start s Ec wire_endpoint wire_base wire_knows
    ltac:(vm_compute; split; discriminate) ltac:(repeat constructor) Er) as (new & W & F).
  rewrite W. eapply Forall_impl; [exact F|]. intros y (o & x & _ & _ & Ha & Hh).
  split; [exact Ha|]. apply Hh. reflexivity.
Defined.
