(* ===== verification/Programs.v ===== *)
(** Programs over the operations of something else: what a caller of the client
does, whatever the operations answer. A program is run against a handler with a
state of its own; the log of a run is what was asked and answered. *)

From S2P Require Import Prelude.
From stdpp Require Import options.

(** [call : E X] is answered by an [F X]. *)
Inductive program (E F : Type -> Type) (Error A : Type) : Type :=
| Done (r : result Error A)
| Ask {X : Type} (call : E X) (k : F X -> program E F Error A).
Arguments Done {_ _ _ _} r.
Arguments Ask {_ _ _ _ _} call k.

(** A call with its answer. *)
Inductive exchanged (E F : Type -> Type) : Type :=
| Exchanged {X : Type} (call : E X) (answer : F X).
Arguments Exchanged {_ _ _} call answer.

Section programs.
Context {E F : Type -> Type} {Error : Type}.

Fixpoint bind {A B} (p : program E F Error A) (k : A -> program E F Error B)
  : program E F Error B :=
  match p with
  | Done (Ok a) => k a
  | Done (Err e) => Done (Err e)
  | Ask call next => Ask call (fun answer => bind (next answer) k)
  end.

(** A run against a handler: what was exchanged, the handler's state, the result. *)
Fixpoint run {A S} (handler : forall X, E X -> S -> S * F X) (p : program E F Error A) (s : S)
  : list (exchanged E F) * S * result Error A :=
  match p with
  | Done r => ([], s, r)
  | Ask call k =>
      let (s, answer) := handler _ call s in
      let '(log, s, r) := run handler (k answer) s in
      (Exchanged call answer :: log, s, r)
  end.

Section runs.
Context {S : Type} (handler : forall X, E X -> S -> S * F X).

Lemma run_bind {A B} (p : program E F Error A) (k : A -> program E F Error B) s :
  run handler (bind p k) s =
    let '(log, s1, r) := run handler p s in
    match r with
    | Ok a => let '(more, s2, r2) := run handler (k a) s1 in (log ++ more, s2, r2)
    | Err e => (log, s1, Err e)
    end.
Proof.
  revert s. induction p as [[a|e]|X call next IH]; intros s; cbn [bind run]; [|done|].
  - by destruct (run handler (k a) s) as [[? ?] ?].
  - destruct (handler X call s) as [s1 answer]. rewrite IH.
    destruct (run handler (next answer) s1) as [[log s2] [a|e]]; [|done].
    by destruct (run handler (k a) s2) as [[? ?] ?].
Qed.
End runs.
End programs.

Notation "'do!' x ':=' p 'in' k" :=
  (bind p (fun x => k)) (at level 10, x pattern, p at level 100, k at level 200) : s3_scope.
