(* ===== verification/Artifacts.v ===== *)
(** The artifact store ([examples/artifact_store.rs]): a content-addressed store
for tenants, built on the client's public operations. An adapter is a program
over those operations, proved safe whatever they answer. *)

From S2P Require Import Prelude Text Errors SigV4 Endpoint Http Types Stream Download Records.
From S2P Require Import Credentials Config Execute Objects Programs.
From stdpp Require Import options.
Local Open Scope Z_scope.

Definition LISTING_PAGE_LIMIT : Z := 10000.
Definition DELETE_BATCH_LIMIT : nat := 1000.

Module ArtifactError.
Inductive t : Type :=
| S3 (e : S3Error.t)
| ObjectKey (e : ObjectKeyError.t)
| Io (e : string)
| InvalidDigest
| DigestMismatch
| Cancelled
| DeadlineExceeded
| ListingPageLimit
| MissingEnvironment (name : string).
End ArtifactError.

(** ** Content digests *)

Section digests.
Context `{Primitives}.
Definition hex_sha256 (bytes : string) : string := hex_encode (sha256 bytes).
End digests.

Module ContentDigest.
Record t : Type := Mk { as_str : string }.
#[global] Instance eq_dec : EqDecision t.
Proof. solve_decision. Defined.

Definition is_ascii_hexdigit (c : ascii) : bool :=
  ((48 <=? byte c) && (byte c <=? 57)) || ((65 <=? byte c) && (byte c <=? 70))
  || ((97 <=? byte c) && (byte c <=? 102)).

Definition new (value : string) : result ArtifactError.t t :=
  if negb (slen value =? 64) || negb (str_all is_ascii_hexdigit value)
  then Err ArtifactError.InvalidDigest
  else Ok (Mk (to_ascii_lowercase value)).

Definition of_bytes `{Primitives} (bytes : string) : t := Mk (hex_sha256 bytes).
End ContentDigest.

Record Publication : Type := { blob_created : bool; manifest_created : bool }.

(** ** Programs over the client's operations

The managed upload answers [None] when the caller's token is cancelled first,
and the future is dropped. *)
Inductive api `{Http} : Type -> Type :=
| ApiPut (r : PutObjectRequest.t) : api PutObjectOutput.t
| ApiHead (r : HeadObjectRequest.t) : api ObjectMetadata.t
| ApiGet (r : GetObjectRequest.t) : api GetObjectOutput
| ApiDelete (r : DeleteObjectRequest.t) : api DeleteObjectOutput.t
| ApiDeleteObjects (r : DeleteObjectsRequest.t) : api DeleteObjectsOutput.t
| ApiListObjectsAll (r : ListObjectsV2Request.t) (maximum_pages : Z)
    : api (list ListObjectsV2Output.t)
| ApiListUploads (r : ListMultipartUploadsRequest.t) : api ListMultipartUploadsOutput.t
| ApiAbort (r : AbortMultipartUploadRequest.t) : api RequestIds.t
| ApiUpload (r : ManagedMultipartUploadRequest.t)
    : api (option CompleteMultipartUploadOutput.t).

#[local] Notation answered := (result S3Error.t).
#[local] Notation program := (Programs.program api answered ArtifactError.t).
#[local] Notation exchanged := (Programs.exchanged api answered).

(** [call.await?]. *)
Definition ask `{Http} {X} (call : api X) : program X :=
  Ask call (fun answer => Done (map_err ArtifactError.S3 answer)).

(** ** The store *)

Record ArtifactStore : Type := { tenant_prefix : string }.

Section store.
Context `{Http} `{Primitives}.

Definition ArtifactStore_new (tenant_id : string) : ArtifactStore :=
  {| tenant_prefix := "tenants/" +:+ hex_sha256 tenant_id +:+ "/" |}.

Definition blobs (s : ArtifactStore) : string := tenant_prefix s +:+ "blobs/sha256/".

Definition blob_key (s : ArtifactStore) (digest : ContentDigest.t)
  : result ArtifactError.t ObjectKey.t :=
  map_err ArtifactError.ObjectKey (ObjectKey.new (blobs s +:+ ContentDigest.as_str digest)).

Definition manifest_key (s : ArtifactStore) (digest : ContentDigest.t)
  : result ArtifactError.t ObjectKey.t :=
  map_err ArtifactError.ObjectKey
    (ObjectKey.new (tenant_prefix s +:+ "manifests/" +:+ ContentDigest.as_str digest +:+ ".json")).

Definition verify_bytes (expected : ContentDigest.t) (bytes : string)
  : result ArtifactError.t unit :=
  if bool_decide (ContentDigest.of_bytes bytes = expected) then Ok tt
  else Err ArtifactError.DigestMismatch.

Definition immutable_request (key : ObjectKey.t) (body content_type : string)
  : PutObjectRequest.t :=
  PutObjectRequest.Mk key (SourceBytes body) (Some content_type) []
    (Conditions.Mk None (Some "*") None None) None hm_empty.

Definition put_immutable (key : ObjectKey.t) (body content_type : string) : program bool :=
  Ask (ApiPut (immutable_request key body content_type)) (fun answer =>
    Done match answer with
         | Ok _ => Ok true
         | Err error =>
             if bool_decide (S3Error.category error = ErrorCategory.Precondition) then Ok false
             else Err (ArtifactError.S3 error)
         end).

Definition publish_manifest_last (s : ArtifactStore) (blob_digest : ContentDigest.t) (blob : string)
    (manifest_digest : ContentDigest.t) (manifest : string) : program Publication :=
  do! _ := Done (verify_bytes blob_digest blob) in
  do! _ := Done (verify_bytes manifest_digest manifest) in
  do! key := Done (blob_key s blob_digest) in
  do! blob_created := put_immutable key blob "application/octet-stream" in
  do! key := Done (manifest_key s manifest_digest) in
  do! manifest_created := put_immutable key manifest "application/json" in
  Done (Ok {| blob_created := blob_created; manifest_created := manifest_created |}).

Definition exists_ (s : ArtifactStore) (digest : ContentDigest.t) : program bool :=
  do! key := Done (blob_key s digest) in
  Ask (ApiHead (HeadObjectRequest.new key)) (fun answer =>
    Done match answer with
         | Ok _ => Ok true
         | Err error =>
             if bool_decide (S3Error.category error = ErrorCategory.NotFound) then Ok false
             else Err (ArtifactError.S3 error)
         end).

(** The loop of [download_verified]: the clock at each poll and the writer's
answers; the bytes written out and the result, [None] when the polls run out. *)
Fixpoint download_loop (clock : list (Z * Z)) (write_all : string -> result string unit)
    (flush : result string unit) (digest : ContentDigest.t) (body : ResponseStream)
    (written : Z) (out : string) : option (string * result ArtifactError.t Z) :=
  match clock with
  | [] => None
  | (now, later) :: clock =>
      polled ← poll_next now later body;
      match polled with
      | (Ready None, _) =>
          Some (out,
            let? _ := map_err ArtifactError.Io flush in
            if negb (String.eqb (hex_sha256 out) (ContentDigest.as_str digest))
            then Err ArtifactError.DigestMismatch else Ok written)
      | (Ready (Some (Err e)), _) => Some (out, Err (ArtifactError.S3 e))
      | (Ready (Some (Ok chunk)), body) =>
          match map_err ArtifactError.Io (write_all chunk) with
          | Err e => Some (out, Err e)
          | Ok _ =>
              let out := out +:+ chunk in
              match try_from U64_MAX (slen chunk) with
              | None => Some (out, Err (ArtifactError.S3
                          (S3Error.integrity "download chunk length does not fit in u64")))
              | Some n =>
                  match checked_add U64_MAX written n with
                  | None => Some (out, Err (ArtifactError.S3
                              (S3Error.integrity "download length overflow")))
                  | Some written => download_loop clock write_all flush digest body written out
                  end
              end
          end
      | (Pending, body) => download_loop clock write_all flush digest body written out
      end
  end.

Definition download_verified (s : ArtifactStore) (digest : ContentDigest.t)
    (clock : list (Z * Z)) (write_all : string -> result string unit) (flush : result string unit)
  : program (option (string * result ArtifactError.t Z)) :=
  do! key := Done (blob_key s digest) in
  do! output := ask (ApiGet (GetObjectRequest.new key)) in
  Done (Ok (download_loop clock write_all flush digest (go_body output) 0 "")).

Definition delete (s : ArtifactStore) (digest : ContentDigest.t) : program unit :=
  do! key := Done (blob_key s digest) in
  do! _ := ask (ApiDelete (DeleteObjectRequest.new key)) in
  Done (Ok tt).

(** ** Garbage collection *)

Definition unreachable_object (s : ArtifactStore) (live : list ContentDigest.t)
    (object : ListedObject.t) : option DeleteObjectIdentifier.t :=
  suffix ← strip_prefix (blobs s) (ObjectKey.as_str (ListedObject.key object));
  match ContentDigest.new suffix with
  | Err _ => None
  | Ok digest =>
      if bool_decide (digest ∈ live) then None
      else Some (DeleteObjectIdentifier.new (ListedObject.key object))
  end.

Definition unreachable (s : ArtifactStore) (live : list ContentDigest.t)
    (pages : list ListObjectsV2Output.t) : list DeleteObjectIdentifier.t :=
  omap (unreachable_object s live) (pages ≫= ListObjectsV2Output.objects).

(** [slice::chunks]; as much fuel as there are elements is enough. *)
Fixpoint batches {A} (fuel : nat) (l : list A) : list (list A) :=
  match fuel, l with
  | S fuel, _ :: _ => take DELETE_BATCH_LIMIT l :: batches fuel (drop DELETE_BATCH_LIMIT l)
  | _, _ => []
  end.

Fixpoint delete_batches (batches : list (list DeleteObjectIdentifier.t)) (deleted : Z)
  : program Z :=
  match batches with
  | [] => Done (Ok deleted)
  | batch :: batches =>
      do! request :=
        Done (map_err (fun e => ArtifactError.S3 (S3Error.configuration (DeleteObjectsError.display e)))
                (DeleteObjectsRequest.new batch)) in
      do! output := ask (ApiDeleteObjects request) in
      match DeleteObjectsOutput.errors output with
      | _ :: _ => Done (Err (ArtifactError.S3 (S3Error.invalid_response
                    "S3 reported one or more per-object deletion failures")))
      | [] =>
          do! deleted :=
            Done (ok_or (checked_add USIZE_MAX deleted
                           (Z.of_nat (List.length (DeleteObjectsOutput.deleted output))))
                    (ArtifactError.S3 (S3Error.integrity "deleted object count overflow"))) in
          delete_batches batches deleted
      end
  end.

Definition listing_request (s : ArtifactStore) : ListObjectsV2Request.t :=
  ListObjectsV2Request.Mk (Some (blobs s)) None None None PageSize.default false hm_empty.

Definition collect_unreferenced (s : ArtifactStore) (live : list ContentDigest.t) : program Z :=
  do! pages := ask (ApiListObjectsAll (listing_request s) LISTING_PAGE_LIMIT) in
  let found := unreachable s live pages in
  delete_batches (batches (List.length found) found) 0.

(** ** Multipart uploads *)

(** The copy loop of [snapshot_verified]: the bytes hashed and written. *)
Fixpoint snapshot_loop (write : string -> result string unit) (reads : list (result string string))
    (copied : string) : result ArtifactError.t string :=
  match reads with
  | [] => Ok copied
  | read :: reads =>
      let? buffer := map_err ArtifactError.Io read in
      if slen buffer =? 0 then Ok copied
      else
        let? _ := map_err ArtifactError.Io (write buffer) in
        snapshot_loop write reads (copied +:+ buffer)
  end.

(** The content of the verified temporary file, of which [reopen] tells whether
it opens again for writing. *)
Definition snapshot_verified (fs : SnapshotIo) (reopen : result string unit)
    (expected : ContentDigest.t) : result ArtifactError.t string :=
  let? _ := map_err ArtifactError.Io (io_open fs) in
  let? _ := map_err ArtifactError.Io (io_temp fs) in
  let? _ := map_err ArtifactError.Io reopen in
  let? copied := snapshot_loop (io_write fs) (io_reads fs) "" in
  let? _ := map_err ArtifactError.Io (io_flush fs) in
  if negb (String.eqb (hex_sha256 copied) (ContentDigest.as_str expected))
  then Err ArtifactError.DigestMismatch else Ok copied.

(** [stored] is how the managed upload finds the temporary file. *)
Definition upload_file_until (s : ArtifactStore) (digest : ContentDigest.t) (fs : SnapshotIo)
    (reopen : result string unit) (stored : string -> SnapshotIo) (now instant_max limit : Z)
  : program unit :=
  do! present := exists_ s digest in
  if present : bool then Done (Ok tt)
  else
    do! snapshot := Done (snapshot_verified fs reopen digest) in
    do! options :=
      Done (map_err ArtifactError.S3
              (let? o := MultipartOptions.default in
               MultipartOptions.with_transfer_timeout now instant_max o limit)) in
    do! key := Done (blob_key s digest) in
    let request := ManagedMultipartUploadRequest.Mk key (MultipartFile (stored snapshot)) None []
                     options None ManagedMultipartHeaders.default in
    Ask (ApiUpload request) (fun answer =>
      Done match answer with
           | Ok None => Err ArtifactError.Cancelled
           | Ok (Some _) => Ok tt
           | Err error =>
               if bool_decide (S3Error.timeout_phase error = Some TimeoutPhase.Operation)
               then Err ArtifactError.DeadlineExceeded else Err (ArtifactError.S3 error)
           end).

Fixpoint abort_uploads (uploads : list MultipartUploadEntry.t) (aborted : Z) : program Z :=
  match uploads with
  | [] => Done (Ok aborted)
  | upload :: uploads =>
      do! _ := ask (ApiAbort (AbortMultipartUploadRequest.new (MultipartUploadEntry.key upload)
                                (MultipartUploadEntry.upload_id upload))) in
      do! aborted := Done (ok_or (checked_add USIZE_MAX aborted 1)
                             (ArtifactError.S3 (S3Error.integrity "aborted upload count overflow"))) in
      abort_uploads uploads aborted
  end.

Definition stale (initiated_before : Z) (upload : MultipartUploadEntry.t) : bool :=
  match MultipartUploadEntry.initiated upload with
  | Some time => time <=? initiated_before
  | None => false
  end.

(** The loop over at most [pages] pages. *)
Fixpoint abort_pages (pages : nat) (initiated_before : Z) (request : ListMultipartUploadsRequest.t)
    (aborted : Z) : program Z :=
  match pages with
  | O => Done (Err ArtifactError.ListingPageLimit)
  | S pages =>
      do! page := ask (ApiListUploads request) in
      do! aborted := abort_uploads (filter (fun u => stale initiated_before u = true)
                                      (ListMultipartUploadsOutput.uploads page)) aborted in
      if negb (ListMultipartUploadsOutput.is_truncated page) then Done (Ok aborted)
      else
        match ListMultipartUploadsOutput.next_key_marker page,
              ListMultipartUploadsOutput.next_upload_id_marker page with
        | Some key_marker, Some upload_id_marker =>
            abort_pages pages initiated_before
              (ListMultipartUploadsRequest.Mk (ListMultipartUploadsRequest.prefix request)
                 (ListMultipartUploadsRequest.delimiter request) (Some key_marker)
                 (Some upload_id_marker) (ListMultipartUploadsRequest.max_uploads request)
                 (ListMultipartUploadsRequest.headers request)) aborted
        | _, _ => Done (Err (ArtifactError.S3 (S3Error.invalid_response
                    "truncated multipart listing omitted a required next marker")))
        end
  end.

Definition abort_stale_multipart (s : ArtifactStore) (initiated_before maximum_pages : Z)
  : program Z :=
  if maximum_pages =? 0 then Done (Err ArtifactError.ListingPageLimit)
  else abort_pages (Z.to_nat maximum_pages) initiated_before
         (ListMultipartUploadsRequest.Mk (Some (blobs s)) None None None PageSize.default hm_empty) 0.
End store.

(** ** [client_from_environment]

[env] is [env::var]; [None] is the panic of a default that is refused. *)

Definition required_env (env : string -> option string) (name : string)
  : result ArtifactError.t string :=
  ok_or (env name) (ArtifactError.MissingEnvironment name).

Definition client_from_environment `{Http} `{HttpUri} `{World} (env : string -> option string)
    (now : string -> Z) : option (result ArtifactError.t S3Client) :=
  let s3 {A} (r : outcome A) := map_err ArtifactError.S3 r in
  let region := default "us-east-1" (env "S3_REGION") in
  match
    let? endpoint := s3 match env "S3_ENDPOINT" with
                        | Some value => Endpoint_new value
                        | None => for_aws_region region
                        end in
    let? access_key_id := required_env env "S3_ACCESS_KEY_ID" in
    let? secret_access_key := required_env env "S3_SECRET_ACCESS_KEY" in
    let? credentials :=
      s3 (Credentials.new access_key_id secret_access_key (env "S3_SESSION_TOKEN")) in
    Ok (endpoint, credentials)
  with
  | Err e => Some (Err e)
  | Ok (endpoint, credentials) =>
      let provider := StaticCredentialsProvider.provide_credentials
                        (StaticCredentialsProvider.new credentials) in
      builder ← S3ConfigBuilder.default;
      let builder := S3ConfigBuilder.set_endpoint builder endpoint in
      let builder := S3ConfigBuilder.set_region builder region in
      Some (let? bucket := required_env env "S3_BUCKET" in
            let builder := S3ConfigBuilder.set_bucket builder bucket in
            let builder := S3ConfigBuilder.set_addressing_style builder Path in
            let builder := S3ConfigBuilder.set_credentials_provider builder provider in
            let builder := if is_https endpoint then builder
                           else S3ConfigBuilder.allow_http_for_local_testing builder in
            s3 (let? config := S3ConfigBuilder.build builder now in S3Client_new false config))
  end.

(** ** Lemmas: programs *)

Section runs.
Set Default Proof Using "Type*".
Context `{Http} {S : Type} (handler : forall X, api X -> S -> S * outcome X).

Lemma run_ask {X} (call : api X) s :
  run handler (ask call) s
  = ([Exchanged call (handler X call s).2], (handler X call s).1,
     map_err ArtifactError.S3 (handler X call s).2).
Proof. unfold ask. cbn [run]. by destruct (handler X call s) as [s1 answer]. Qed.
End runs.

(** ** Lemmas: digests and batches *)

(** A digest as [ContentDigest::new] makes it. *)
Definition digest_ok (d : ContentDigest.t) : Prop :=
  ContentDigest.new (ContentDigest.as_str d) = Ok d.

Lemma batches_spec {A} fuel (l : list A) : (List.length l <= fuel)%nat ->
  List.concat (batches fuel l) = l /\
  Forall (fun b => (1 <= List.length b <= DELETE_BATCH_LIMIT)%nat) (batches fuel l).
Proof.
  revert l. induction fuel as [|fuel IH]; intros [|x l] Hl; try done; [cbn in Hl; lia|].
  destruct (IH (drop DELETE_BATCH_LIMIT (x :: l))) as [E F].
  { rewrite length_drop. cbn [List.length] in *. unfold DELETE_BATCH_LIMIT. lia. }
  change (batches (Datatypes.S fuel) (x :: l))
    with (take DELETE_BATCH_LIMIT (x :: l) :: batches fuel (drop DELETE_BATCH_LIMIT (x :: l))).
  split.
  - cbn [List.concat]. by rewrite E, take_drop.
  - constructor; [|exact F]. rewrite length_take. unfold DELETE_BATCH_LIMIT. cbn [List.length]. lia.
Qed.

(** The request of a call that deletes objects. *)
Definition delete_request `{Http} (e : exchanged) : option DeleteObjectsRequest.t :=
  match e with
  | Exchanged call _ => match call with ApiDeleteObjects r => Some r | _ => None end
  end.

Section collection.
Set Default Proof Using "Type*".
Context `{Http} `{Primitives} {S : Type} (handler : forall X, api X -> S -> S * outcome X).

Lemma delete_request_new (batch : list DeleteObjectIdentifier.t) :
  (1 <= List.length batch <= DELETE_BATCH_LIMIT)%nat ->
  DeleteObjectsRequest.new batch = Ok (DeleteObjectsRequest.Mk batch false hm_empty).
Proof.
  intros L. unfold DeleteObjectsRequest.new. destruct batch as [|x batch]; [cbn in L; lia|].
  unfold DELETE_BATCH_LIMIT, MAX_DELETE_OBJECTS in *.
  by rewrite (proj2 (Z.ltb_ge 1000 (Z.of_nat (List.length (x :: batch))))) by lia.
Qed.

(** The batches are deleted in order, up to the first that fails. *)
Lemma delete_batches_spec bs n s log s' r :
  Forall (fun b => (1 <= List.length b <= DELETE_BATCH_LIMIT)%nat) bs ->
  run handler (delete_batches bs n) s = (log, s', r) ->
  exists requests, delete_request <$> log = Some <$> requests /\
    (DeleteObjectsRequest.objects <$> requests) `prefix_of` bs /\
    (forall m, r = Ok m -> DeleteObjectsRequest.objects <$> requests = bs).
Proof.
  revert n s log. induction bs as [|b bs IH]; intros n s log Hb Hrun.
  { injection Hrun as <- <- <-. exists []. by split_and!. }
  inversion_clear Hb as [|? ? Hl Hbs]. cbn [delete_batches] in Hrun.
  rewrite (delete_request_new b Hl) in Hrun. cbn [map_err bind] in Hrun.
  rewrite run_bind, run_ask in Hrun.
  set (call := ApiDeleteObjects (DeleteObjectsRequest.Mk b false hm_empty)) in *.
  destruct (handler _ call s) as [s1 answer]. cbn [fst snd] in Hrun.
  set (one := DeleteObjectsRequest.Mk b false hm_empty) in *.
  assert (Hstop : exists requests, delete_request <$> [Exchanged call answer] = Some <$> requests /\
    (DeleteObjectsRequest.objects <$> requests) `prefix_of` (b :: bs)).
  { exists [one]. split; [done|]. apply (prefix_cons b [] bs), prefix_nil. }
  assert (Hfail : forall e, (log, s', r) = ([Exchanged call answer], s1, Err e) ->
    exists requests, delete_request <$> log = Some <$> requests /\
      (DeleteObjectsRequest.objects <$> requests) `prefix_of` (b :: bs) /\
      (forall m, r = Ok m -> DeleteObjectsRequest.objects <$> requests = b :: bs)).
  { intros e [= -> _ ->]. destruct Hstop as (rs & E1 & E2). by exists rs. }
  destruct answer as [output|e]; cbn [map_err] in Hrun; [|by apply (Hfail (ArtifactError.S3 e))].
  destruct (DeleteObjectsOutput.errors output).
  2:{ cbn [run] in Hrun. rewrite app_nil_r in Hrun. by eapply Hfail. }
  destruct (ok_or _ _) as [m|e]; cbn [bind] in Hrun.
  2:{ cbn [run] in Hrun. rewrite app_nil_r in Hrun. by eapply Hfail. }
  destruct (run handler (delete_batches bs m) s1) as [[more s2] r2] eqn:E.
  injection Hrun as <- <- <-. destruct (IH _ _ _ Hbs E) as (rs & E1 & E2 & E3).
  exists (one :: rs). split_and!.
  - cbn. by rewrite E1.
  - cbn. by apply prefix_cons.
  - intros k Hk. cbn. by rewrite (E3 k Hk).
Qed.

End collection.

(** A digest that [ContentDigest::new] makes is one it keeps. *)
Lemma ascii_lower_idempotent c : ascii_lower (ascii_lower c) = ascii_lower c.
Proof. all_bytes c. Qed.

Lemma hexdigit_lower c :
  ContentDigest.is_ascii_hexdigit (ascii_lower c) = ContentDigest.is_ascii_hexdigit c.
Proof. all_bytes c. Qed.

Lemma lowercase_idempotent s :
  to_ascii_lowercase (to_ascii_lowercase s) = to_ascii_lowercase s /\
  slen (to_ascii_lowercase s) = slen s /\
  str_all ContentDigest.is_ascii_hexdigit (to_ascii_lowercase s)
    = str_all ContentDigest.is_ascii_hexdigit s.
Proof.
  unfold to_ascii_lowercase. induction s as [|c s (IH1 & IH2 & IH3)]; [done|].
  cbn [str_map str_all]. rewrite !slen_cons, IH1, IH2, IH3, ascii_lower_idempotent, hexdigit_lower.
  done.
Qed.

Lemma digest_new_ok v d : ContentDigest.new v = Ok d -> digest_ok d.
Proof.
  unfold digest_ok, ContentDigest.new. intros Hv.
  destruct (negb (slen v =? 64) || _) eqn:E; [done|]. injection Hv as <-. cbn [ContentDigest.as_str].
  destruct (lowercase_idempotent v) as (-> & -> & ->). by rewrite E.
Qed.

(** ** Publication *)

(** An object is there: it was put, or it was there before. *)
Definition durable {A} (answer : outcome A) : Prop :=
  match answer with
  | Ok _ => True
  | Err e => S3Error.category e = ErrorCategory.Precondition
  end.

Definition created {A} (answer : outcome A) : bool := is_ok answer.

Lemma run_put_immutable `{Http} {S} (handler : forall X, api X -> S -> S * outcome X) key body
    content_type s log s' r :
  run handler (put_immutable key body content_type) s = (log, s', r) ->
  exists answer, log = [Exchanged (ApiPut (immutable_request key body content_type)) answer] /\
    match r with
    | Ok b => durable answer /\ b = created answer
    | Err e => exists e', answer = Err e' /\ e = ArtifactError.S3 e'
    end.
Proof.
  unfold put_immutable. cbn [run]. destruct (handler _ _ s) as [s1 answer]. intros [= <- _ <-].
  exists answer. split; [done|]. destruct answer as [o|e]; [done|]. by case_bool_decide; [|exists e].
Qed.

(** The manifest is put last: only after its payload is there, under keys that
are the digests of what is put, and never over another object. *)
Theorem manifest_published_last `{Http} `{Primitives} {S : Type}
  (handler : forall X, api X -> S -> S * outcome X) (st : ArtifactStore)
  (blob_digest manifest_digest : ContentDigest.t) (blob manifest : string) (s s' : S)
  (log : list exchanged) (r : result ArtifactError.t Publication)
  (Hrun : run handler (publish_manifest_last st blob_digest blob manifest_digest manifest) s
          = (log, s', r)) :
  log = [] \/
  ContentDigest.of_bytes blob = blob_digest /\ ContentDigest.of_bytes manifest = manifest_digest /\
  exists key a1, blob_key st blob_digest = Ok key /\
    let put := Exchanged (ApiPut (immutable_request key blob "application/octet-stream")) a1 in
    log = [put] \/
    durable a1 /\ exists mkey a2, manifest_key st manifest_digest = Ok mkey /\
      log = [put; Exchanged (ApiPut (immutable_request mkey manifest "application/json")) a2] /\
      forall p, r = Ok p -> durable a2 /\ blob_created p = created a1 /\ manifest_created p = created a2.
Proof.
  unfold publish_manifest_last, verify_bytes in Hrun. cbn [bind] in Hrun.
  case_bool_decide as Hb; cbn [bind] in Hrun; [|left; by injection Hrun as <-].
  case_bool_decide as Hm; cbn [bind] in Hrun; [|left; by injection Hrun as <-].
  destruct (blob_key st blob_digest) as [key|e]; cbn [bind] in Hrun; [|left; by injection Hrun as <-].
  right. split; [done|]. split; [done|]. rewrite run_bind in Hrun.
  destruct (run handler (put_immutable key _ _) s) as [[log1 s1] r1] eqn:E1.
  apply run_put_immutable in E1 as (a1 & -> & Hr1). exists key, a1. split; [done|]. cbv zeta.
  destruct r1 as [b1|e]; [|left; by injection Hrun as <-]. destruct Hr1 as [D1 ->].
  destruct (manifest_key st manifest_digest) as [mkey|e]; cbn [bind] in Hrun.
  2:{ left. by injection Hrun as <-. }
  rewrite run_bind in Hrun. destruct (run handler (put_immutable mkey _ _) s1) as [[log2 s2] r2] eqn:E2.
  apply run_put_immutable in E2 as (a2 & -> & Hr2). right. split; [done|]. exists mkey, a2.
  split; [done|]. destruct r2 as [b2|e].
  - destruct Hr2 as [D2 ->]. injection Hrun as <- _ <-. split; [done|]. by intros p [= <-].
  - injection Hrun as <- _ <-. by split.
Qed.

(** ** What is garbage *)

Definition hex_digits : string := "0123456789abcdefABCDEF".

Lemma all_hex_digits s : str_all ContentDigest.is_ascii_hexdigit s = str_all (one_of hex_digits) s.
Proof.
  induction s as [|c s IH]; [done|]. cbn [str_all]. rewrite IH. f_equal. all_bytes c.
Qed.

Section garbage.
Variables (st : ArtifactStore) (live : list ContentDigest.t).

(** A key that is the tenant's prefix for payloads and then a digest, in 64 hex
digits of any letter case, which is not live. *)
Definition garbage (key : ObjectKey.t) : Prop :=
  exists suffix, ObjectKey.as_str key = tenant_prefix st +:+ "blobs/sha256/" +:+ suffix /\
    slen suffix = 64 /\ str_all (one_of hex_digits) suffix = true /\
    Forall (fun d => ContentDigest.as_str d <> to_ascii_lowercase suffix) live.

#[global] Instance garbage_dec key : Decision (garbage key).
Proof.
  destruct (strip_prefix (tenant_prefix st +:+ "blobs/sha256/") (ObjectKey.as_str key))
    as [suffix|] eqn:E.
  - apply strip_prefix_Some in E. rewrite app_assoc_str in E.
    destruct (decide (slen suffix = 64 /\ str_all (one_of hex_digits) suffix = true /\
      Forall (fun d => ContentDigest.as_str d <> to_ascii_lowercase suffix) live)) as [D|D].
    + left. by exists suffix.
    + right. intros (s' & E' & D'). apply D. rewrite E in E'.
      do 2 apply app_inj_l in E'. by subst s'.
  - right. intros (s' & E' & _). rewrite E', <- app_assoc_str, strip_prefix_app in E. done.
Defined.

Lemma unreachable_object_garbage o :
  unreachable_object st live o
  = if decide (garbage (ListedObject.key o))
    then Some (DeleteObjectIdentifier.Mk (ListedObject.key o) None None) else None.
Proof.
  unfold unreachable_object, blobs.
  destruct (strip_prefix _ _) as [suffix|] eqn:E; cbn [mbind option_bind].
  2:{ rewrite decide_False; [done|]. intros (s' & E' & _).
      rewrite E', <- app_assoc_str, strip_prefix_app in E. done. }
  apply strip_prefix_Some in E. rewrite app_assoc_str in E.
  assert (Hg : garbage (ListedObject.key o) <->
    slen suffix = 64 /\ str_all (one_of hex_digits) suffix = true /\
    Forall (fun d => ContentDigest.as_str d <> to_ascii_lowercase suffix) live).
  { split; [|by exists suffix]. intros (s' & E' & D'). rewrite E in E'.
    do 2 apply app_inj_l in E'. by subst s'. }
  unfold ContentDigest.new. rewrite all_hex_digits. destruct (Z.eqb_spec (slen suffix) 64) as [Hl|Hl]; cbn [negb orb].
  2:{ rewrite decide_False; [done|]. rewrite Hg. by intros (? & _). }
  destruct (str_all _ suffix) eqn:Hh; cbn [negb].
  2:{ rewrite decide_False; [done|]. rewrite Hg. intros (_ & ? & _). congruence. }
  case_bool_decide as Hin.
  - rewrite decide_False; [done|]. rewrite Hg. intros (_ & _ & F).
    rewrite Forall_forall in F. by apply (F _ Hin).
  - rewrite decide_True; [done|]. rewrite Hg. split_and!; [done|done|].
    apply Forall_forall. intros [d] Hd Ed. cbn in Ed. apply Hin. by rewrite <- Ed.
Qed.

Lemma unreachable_garbage pages :
  unreachable st live pages
  = (fun key => DeleteObjectIdentifier.Mk key None None)
      <$> filter garbage (ListedObject.key <$> (pages ≫= ListObjectsV2Output.objects)).
Proof.
  unfold unreachable. induction (pages ≫= ListObjectsV2Output.objects) as [|o os IH]; [done|].
  cbn [omap list_omap]. rewrite unreachable_object_garbage, fmap_cons, filter_cons.
  case_decide; [rewrite fmap_cons; f_equal|]; exact IH.
Qed.

(** A live payload is no garbage, and neither is a manifest. *)
Lemma garbage_not_live key d : digest_ok d -> garbage key -> d ∈ live ->
  blob_key st d <> Ok key.
Proof.
  intros Hok (suffix & E & Hl & Hh & F) Hd Hk. unfold blob_key, ObjectKey.new, blobs in Hk.
  destruct (is_empty _); [done|]. destruct (_ <? _); [done|].
  injection Hk as <-. cbn [ObjectKey.as_str] in E. rewrite app_assoc_str in E.
  do 2 apply app_inj_l in E. subst suffix. unfold digest_ok, ContentDigest.new in Hok.
  rewrite all_hex_digits, Hl, Hh in Hok. cbn in Hok. rewrite Forall_forall in F. apply (F d Hd).
  injection Hok as Hok. rewrite <- Hok at 1. done.
Qed.

Lemma garbage_not_manifest key d : garbage key -> manifest_key st d <> Ok key.
Proof.
  intros (suffix & E & _) Hk. unfold manifest_key, ObjectKey.new in Hk.
  destruct (is_empty _); [done|]. destruct (_ <? _); [done|].
  injection Hk as <-. cbn [ObjectKey.as_str] in E. by apply app_inj_l in E.
Qed.
End garbage.

(** ** Properties *)

(** C39. Garbage collection deletes garbage, all of it, and nothing else. Whatever
the client's operations answer, a collection lists the tenant's payloads once and
then only deletes, a thousand at a time at most. What it deletes are, in the order
of the listing, the listed keys that are the tenant's payload prefix followed by
the 64 hex digits of a digest that is not live: all of them when it succeeds, and
the first of them when it fails. So no payload that is live is ever deleted, and
no manifest. *)
Theorem collect_unreferenced_keeps_live `{Http} `{Primitives} {S : Type}
  (handler : forall X, api X -> S -> S * outcome X) (st : ArtifactStore)
  (live : list ContentDigest.t) (s s' : S) (log : list exchanged) (r : result ArtifactError.t Z)
  (Hlive : Forall digest_ok live)
  (Hrun : run handler (collect_unreferenced st live) s = (log, s', r)) :
  exists answer rest requests,
    log = Exchanged (ApiListObjectsAll
            (ListObjectsV2Request.Mk (Some (tenant_prefix st +:+ "blobs/sha256/")) None None None
               PageSize.default false hm_empty) 10000) answer :: rest /\
    delete_request <$> rest = Some <$> requests /\
    let listed := match answer with
                  | Ok pages => ListedObject.key <$> (pages ≫= ListObjectsV2Output.objects)
                  | Err _ => [] end in
    let deleted := List.concat (DeleteObjectsRequest.objects <$> requests) in
    let found := (fun key => DeleteObjectIdentifier.Mk key None None)
                   <$> filter (garbage st live) listed in
    deleted `prefix_of` found /\
    (forall n, r = Ok n -> deleted = found) /\
    Forall (fun q => 1 <= Z.of_nat (List.length (DeleteObjectsRequest.objects q)) <= 1000)
      requests /\
    (forall i d, i ∈ deleted ->
       manifest_key st d <> Ok (DeleteObjectIdentifier.key i) /\
       (d ∈ live -> blob_key st d <> Ok (DeleteObjectIdentifier.key i))).
Proof.
  unfold collect_unreferenced in Hrun. rewrite run_bind, run_ask in Hrun.
  destruct (handler _ _ s) as [s1 [pages|e]]; cbn [fst snd map_err] in Hrun.
  2:{ injection Hrun as <- <- <-. exists (Err e), [], []. split; [done|]. split; [done|].
      cbv zeta. split; [apply prefix_nil|]. split; [done|]. split; [constructor|].
      intros i d Hi. by apply elem_of_nil in Hi. }
  rewrite unreachable_garbage in Hrun.
  set (found := _ <$> filter _ _) in Hrun.
  destruct (batches_spec (List.length found) found) as [Ec Eb]; [lia|].
  destruct (run handler (delete_batches _ 0) s1) as [[more s2] r2] eqn:E.
  injection Hrun as <- <- <-.
  destruct (delete_batches_spec _ _ _ _ _ _ _ Eb E) as (rs & E1 & [tl E2] & E3).
  exists (Ok pages), more, rs. split; [done|]. split; [done|]. cbv zeta. fold found.
  assert (Hp : List.concat (DeleteObjectsRequest.objects <$> rs) `prefix_of` found).
  { exists (List.concat tl). by rewrite <- concat_app, <- E2. }
  split_and!.
  - exact Hp.
  - intros n Hn. by rewrite (E3 n Hn).
  - rewrite E2 in Eb. apply Forall_app in Eb as [Eb _].
    rewrite Forall_fmap in Eb. eapply Forall_impl; [exact Eb|]. intros q Hq. cbn in Hq.
    unfold DELETE_BATCH_LIMIT in Hq. lia.
  - intros i d Hi. eapply elem_of_prefix in Hi; [|exact Hp]. subst found.
    apply list_elem_of_fmap in Hi as (key & -> & Hi). apply list_elem_of_filter in Hi as [Hg _].
    split; [by eapply garbage_not_manifest|]. intros Hd. cbn [DeleteObjectIdentifier.key].
    rewrite Forall_forall in Hlive. by eapply garbage_not_live; [apply Hlive|..].
Qed.

(** ** A sample collection *)

#[local] Existing Instance assoc_http.
#[local] Existing Instance sample_primitives.

Definition sample_store : ArtifactStore := {| tenant_prefix := "t/" |}.
Definition sample_digest (c : string) : ContentDigest.t :=
  ContentDigest.Mk (str_concat (replicate 64 c)).
Definition sample_object (key : string) : ListedObject.t :=
  ListedObject.Mk (ObjectKey.Mk key) None None 1 None None [] None.

(** Two payloads and a foreign object are listed; deletions succeed. *)
Definition sample_handler (X : Type) (call : api X) (deleted : Z) : Z * outcome X :=
  match call in api X return Z * outcome X with
  | ApiListObjectsAll _ _ =>
      (deleted, Ok [ListObjectsV2Output.Mk
         [sample_object ("t/blobs/sha256/" +:+ ContentDigest.as_str (sample_digest "a"));
          sample_object ("t/blobs/sha256/" +:+ ContentDigest.as_str (sample_digest "b"));
          sample_object "t/blobs/sha256/readme"] [] false None None RequestIds.default])
  | ApiDeleteObjects r =>
      (deleted + Z.of_nat (List.length (DeleteObjectsRequest.objects r)),
       Ok (DeleteObjectsOutput.Mk [] [] RequestIds.default))
  | _ => (deleted, Err (S3Error.transport "closed"))
  end.

#[local] Notation sample_collection :=
  (run sample_handler (collect_unreferenced sample_store [sample_digest "a"]) 0).

Lemma collect_unreferenced_keeps_live_witness :
  Forall digest_ok [sample_digest "a"] /\ sample_collection.1.2 = 1 /\
  exists requests, delete_request <$> tail sample_collection.1.1 = Some <$> requests /\
    Forall (fun q => 1 <= Z.of_nat (List.length (DeleteObjectsRequest.objects q)) <= 1000) requests.
Proof.
  assert (Hl : Forall digest_ok [sample_digest "a"]) by (constructor; [reflexivity|constructor]).
  split; [exact Hl|]. split; [vm_compute; reflexivity|].
  destruct sample_collection as [[log n] r] eqn:E.
  destruct (collect_unreferenced_keeps_live sample_handler sample_store [sample_digest "a"] 0 n log r
              Hl E) as (answer & rest & requests & -> & Er & _ & _ & Hf & _).
  exists requests. exact (conj Er Hf).
Defined.
