(* ===== verification/Examples.v ===== *)
(** The sample programs ([examples/], the artifact store apart): how they make
their client from the environment, and each [main] as a program over the
client's operations, the file system and standard output. *)

From S2P Require Import Prelude Text Errors SigV4 Endpoint Http Types Stream Download Records.
From S2P Require Import Credentials Config Request Execute Objects Presign Programs.
From stdpp Require Import options.
Local Open Scope Z_scope.

(** [Box<dyn Error>]: a message, or the error of what was called. *)
Module ExampleError.
Inductive t : Type :=
| Message (s : string)
| S3 (e : S3Error.t)
| Key (e : ObjectKeyError.t)
| Range (e : RangeError.t)
| Batch (e : DeleteObjectsError.t)
| NotUnicode
| Io (e : string).
End ExampleError.

Abbreviation example := (result ExampleError.t).

(** ** [common] *)

(** [env::var(name).ok()] of an environment of bytes. *)
Definition env_var (env : string -> option string) (name : string) : option string :=
  value ← env name; if utf8_valid value then Some value else None.

Definition required_env (env : string -> option string) (name : string) : example string :=
  ok_or (env_var env name)
    (ExampleError.Message ("required environment variable " +:+ name +:+ " is not set")).

Section common.
Context `{Http} `{HttpUri} `{World}.

(** [now] is the clock of each check of a timeout; [None] is the panic of a
default that is refused. *)
Definition client_from_env (env : string -> option string) (now : string -> Z)
  : option (example S3Client) :=
  let s3 {A} (r : outcome A) := map_err ExampleError.S3 r in
  let region := default "us-east-1" (env_var env "S3_REGION") in
  match s3 match env_var env "S3_ENDPOINT" with
           | Some value => Endpoint_new value
           | None => for_aws_region region
           end with
  | Err e => Some (Err e)
  | Ok endpoint =>
      builder ← S3ConfigBuilder.default;
      let builder := S3ConfigBuilder.set_endpoint builder endpoint in
      let builder := S3ConfigBuilder.set_region builder region in
      Some (let? bucket := required_env env "S3_BUCKET" in
            let builder := S3ConfigBuilder.set_bucket builder bucket in
            let builder := S3ConfigBuilder.set_addressing_style builder Path in
            let builder := if is_https endpoint then builder
                           else S3ConfigBuilder.allow_http_for_local_testing builder in
            s3 (let? config := S3ConfigBuilder.build builder now in S3Client_new false config))
  end.
End common.

(** ** Programs *)

Inductive step `{Http} : Type -> Type :=
| Put (r : PutObjectRequest.t) : step PutObjectOutput.t
| Head (r : HeadObjectRequest.t) : step ObjectMetadata.t
| Get (r : GetObjectRequest.t) : step GetObjectOutput
| Listing (r : ListObjectsV2Request.t) : step ListObjectsV2Output.t
| Delete (r : DeleteObjectRequest.t) : step DeleteObjectOutput.t
| DeleteAll (r : DeleteObjectsRequest.t) : step DeleteObjectsOutput.t
| Copy (r : CopyObjectRequest.t) : step CopyObjectOutput.t
| Upload (r : ManagedMultipartUploadRequest.t) : step CompleteMultipartUploadOutput.t
| Presign (method : string) (key : ObjectKey.t) (expires : Z) : step PresignedUrl.t
(** [write_to], to a vector (which it returns) or to a file (its length). *)
| WriteToVec (body : ResponseStream) : step string
| CreateFile (path : string) : step unit
| WriteToFile (path : string) (body : ResponseStream) : step Z
| Deliver (method url : string) : step unit
| Print (line : string) : step unit.

#[local] Notation program := (Programs.program step example ExampleError.t).
#[local] Notation exchanged := (Programs.exchanged step example).

(** [call.await?]. *)
Definition ask `{Http} {X} (call : step X) : program X := Ask call (fun answer => Done answer).

Section mains.
Context `{Http} `{Primitives}.

Definition object_key (value : string) : example ObjectKey.t :=
  map_err ExampleError.Key (ObjectKey.new value).

Definition basic : program unit :=
  do! key := Done (object_key "examples/hello.txt") in
  let put := PutObjectRequest.Mk key (SourceBytes "hello from s3-wire") (Some "text/plain") []
               (Conditions.Mk None (Some "*") None None) None hm_empty in
  do! _ := ask (Put put) in
  do! metadata := ask (Head (HeadObjectRequest.new key)) in
  do! _ := ask (Print ("stored " +:+ to_string (ObjectMetadata.content_length metadata)
                       +:+ " bytes")) in
  do! range := Done (map_err ExampleError.Range (ByteRange.inclusive 0 4)) in
  let get := GetObjectRequest.Mk key (Some range) Conditions.default None hm_empty in
  do! download := ask (Get get) in
  do! bytes := ask (WriteToVec (go_body download)) in
  do! text := Done (if utf8_valid bytes then Ok bytes else Err ExampleError.NotUnicode) in
  do! _ := ask (Print ("range: " +:+ text)) in
  do! listing := ask (Listing (ListObjectsV2Request.Mk (Some "examples/") None None None
                                 PageSize.default false hm_empty)) in
  do! _ := ask (Print ("objects under examples/: "
             +:+ to_string (Z.of_nat (List.length (ListObjectsV2Output.objects listing))))) in
  do! _ := ask (Delete (DeleteObjectRequest.new key)) in
  Done (Ok tt).

Definition copy_and_delete (env : string -> option string) : program unit :=
  do! bucket := Done (required_env env "S3_BUCKET") in
  do! source := Done (object_key "examples/copy-source.txt") in
  do! destination := Done (object_key "examples/copy-destination.txt") in
  do! _ := ask (Put (PutObjectRequest.new source (SourceBytes "copy me"))) in
  do! _ := ask (Copy (CopyObjectRequest.new (CopySource.Mk bucket source None) destination)) in
  do! batch := Done (map_err ExampleError.Batch
                 (DeleteObjectsRequest.new [DeleteObjectIdentifier.new source;
                                            DeleteObjectIdentifier.new destination])) in
  do! deleted := ask (DeleteAll batch) in
  match DeleteObjectsOutput.errors deleted with
  | [] => Done (Ok tt)
  | errors => Done (Err (ExampleError.Message (to_string (Z.of_nat (List.length errors))
                                               +:+ " objects could not be deleted")))
  end.

Definition download_file (env : string -> option string) : program unit :=
  do! key := Done (object_key (default "archive.tar" (env_var env "S3_KEY"))) in
  let destination := default "downloaded-archive.tar" (env_var env "S3_DESTINATION") in
  do! response := ask (Get (GetObjectRequest.new key)) in
  do! _ := ask (CreateFile destination) in
  do! written := ask (WriteToFile destination (go_body response)) in
  do! _ := ask (Print ("wrote " +:+ to_string written +:+ " bytes to " +:+ destination)) in
  Done (Ok tt).

(** [files] is the file behind a path; [now] and [instant_max] are the clock. The
first [None] is the panic of a default that is refused. *)
Definition multipart_upload (env : string -> option string) (files : string -> SnapshotIo)
    (now instant_max : Z) : option (program unit) :=
  let options := map_err ExampleError.S3
    (let? options := MultipartOptions.new (8 * 1024 * 1024) 4 in
     MultipartOptions.with_transfer_timeout now instant_max options (from_secs (15 * 60))) in
  match
    let? source := required_env env "S3_FILE" in
    let? key := object_key (default "examples/multipart-upload.bin" (env_var env "S3_KEY")) in
    let? options := options in
    Ok (source, key, options)
  with
  | Err e => Some (Done (Err e))
  | Ok (source, key, options) =>
      request ← ManagedMultipartUploadRequest.from_path key (files source);
      Some (
        do! _ := ask (Upload (ManagedMultipartUploadRequest.with_options
                   (ManagedMultipartUploadRequest.with_content_type request
                      "application/octet-stream") options)) in
        do! _ := ask (Delete (DeleteObjectRequest.new key)) in
        Done (Ok tt))
  end.

Definition presign : program unit :=
  do! key := Done (object_key "examples/shared.txt") in
  let expires := from_secs (5 * 60) in
  do! get := ask (Presign "GET" key expires) in
  do! put := ask (Presign "PUT" key expires) in
  do! _ := ask (Deliver "GET" (PresignedUrl.expose get)) in
  do! _ := ask (Deliver "PUT" (PresignedUrl.expose put)) in
  Done (Ok tt).

Definition stream_upload : program unit :=
  do! key := Done (object_key "examples/one-shot.txt") in
  let payload := "one-shot streaming upload" in
  let digest := sha256 payload in
  do! _ := ask (Put (PutObjectRequest.new key (SourceStream [Chunk payload] (slen payload) digest))) in
  do! _ := ask (Delete (DeleteObjectRequest.new key)) in
  Done (Ok tt).
End mains.

(** ** Lemmas *)

Section runs.
Set Default Proof Using "Type*".
Context `{Http} {S : Type} (handler : forall X, step X -> S -> S * example X).

(** Which objects may be there after an exchange: a write counts whatever is
answered, a deletion when it is answered with success. *)
Definition written (keys : list ObjectKey.t) (e : exchanged) : list ObjectKey.t :=
  match e with
  | Exchanged call answer =>
      match call in step X return example X -> list ObjectKey.t with
      | Put r => fun _ => PutObjectRequest.key r :: keys
      | Copy r => fun _ => CopyObjectRequest.destination r :: keys
      | Upload r => fun _ => ManagedMultipartUploadRequest.key r :: keys
      | Delete r => fun answer =>
          if is_ok answer then filter (.≠ DeleteObjectRequest.key r) keys else keys
      | DeleteAll r => fun answer =>
          match answer with
          | Ok out =>
              if bool_decide (DeleteObjectsOutput.errors out = [])
              then filter (.∉ DeleteObjectIdentifier.key <$> DeleteObjectsRequest.objects r) keys
              else keys
          | Err _ => keys
          end
      | _ => fun _ => keys
      end answer
  end.

Definition left_behind (log : list exchanged) : list ObjectKey.t := fold_left written log [].

Definition answered (e : exchanged) : bool :=
  match e with Exchanged _ answer => is_ok answer end.

(** A program stops at its first failure, and a success leaves no object. *)
Definition tidy (p : program unit) : Prop := forall s,
  let '(log, _, r) := run handler p s in
  forallb answered (removelast log) = true /\ (r = Ok tt -> left_behind log = []).

(** Runs the program one call at a time, over what is answered. *)
Ltac run_steps :=
  repeat (cbn [bind run ask map_err];
          match goal with
          | |- context [handler ?X ?c ?s] => destruct (handler X c s) as [? [?|?]]
          | |- context [utf8_valid ?b] => destruct (utf8_valid b)
          end);
  try (split; [reflexivity|discriminate]).

Lemma key_ok value : (is_empty value || (MAX_OBJECT_KEY_BYTES <? slen value)) = false ->
  object_key value = Ok (ObjectKey.Mk value).
Proof. unfold object_key, ObjectKey.new. by destruct (is_empty value), (_ <? _). Qed.

Lemma batch_ok objects : (Z.of_nat (List.length objects) <=? MAX_DELETE_OBJECTS) = true ->
  objects <> [] -> DeleteObjectsRequest.new objects = Ok (DeleteObjectsRequest.Mk objects false hm_empty).
Proof.
  intros L%Z.leb_le N. unfold DeleteObjectsRequest.new. destruct objects; [done|].
  by rewrite (proj2 (Z.ltb_ge _ _)).
Qed.

Lemma only_key (key : ObjectKey.t) : filter (.≠ key) [key] = [].
Proof. rewrite filter_cons_False; [done|]. intros N. by apply N. Qed.

Lemma only_these (keys l : list ObjectKey.t) : Forall (.∈ keys) l -> filter (.∉ keys) l = [].
Proof.
  induction 1 as [|k l Hk _ IH]; [done|]. rewrite filter_cons_False; [exact IH|]. by intros N.
Qed.

Lemma basic_tidy : tidy basic.
Proof.
  intros s. unfold basic. rewrite key_ok by reflexivity.
  change (ByteRange.inclusive 0 4) with (@Ok RangeError.t _ (ByteRange.Inclusive 0 4)).
  run_steps. split; [reflexivity|]. intros _. apply only_key.
Qed.

Lemma copy_and_delete_tidy env : tidy (copy_and_delete env).
Proof.
  intros s. unfold copy_and_delete. rewrite !key_ok by reflexivity.
  destruct (required_env env "S3_BUCKET"); [|done].
  cbn [bind ask]. rewrite batch_ok by done. run_steps.
  match goal with |- context [DeleteObjectsOutput.errors ?d] =>
    destruct (DeleteObjectsOutput.errors d) as [|e l] eqn:E; [|done] end. split; [reflexivity|]. intros _.
  unfold left_behind. cbn [fold_left written]. rewrite E, bool_decide_true by done.
  apply only_these. cbn. repeat constructor; set_solver.
Qed.

Lemma download_file_tidy env : tidy (download_file env).
Proof.
  intros s. unfold download_file. destruct (object_key _); [|done]. by run_steps.
Qed.

Lemma upload_then_delete r key : ManagedMultipartUploadRequest.key r = key ->
  tidy (do! _ := ask (Upload r) in do! _ := ask (Delete (DeleteObjectRequest.new key)) in
        Done (Ok tt)).
Proof. intros <- s. run_steps. split; [reflexivity|]. intros _. apply only_key. Qed.

Lemma multipart_upload_tidy env files now instant_max p :
  multipart_upload env files now instant_max = Some p -> tidy p.
Proof.
  unfold multipart_upload. intros Hp.
  destruct (required_env env "S3_FILE"); [|by injection Hp as <-].
  destruct (object_key _) as [key|]; [|by injection Hp as <-].
  destruct (map_err _ _) as [options|]; [|by injection Hp as <-].
  destruct (ManagedMultipartUploadRequest.from_path key _) as [r|] eqn:Er; [|done].
  injection Hp as <-. apply upload_then_delete.
  unfold ManagedMultipartUploadRequest.from_path, ManagedMultipartUploadRequest.from_source in Er.
  destruct MultipartOptions.default; [|done]. by injection Er as <-.
Qed.

Lemma presign_tidy : tidy presign.
Proof. intros s. unfold presign. rewrite key_ok by reflexivity. by run_steps. Qed.

Lemma stream_upload_tidy `{Primitives} : tidy stream_upload.
Proof.
  intros s. unfold stream_upload. rewrite key_ok by reflexivity. run_steps.
  split; [reflexivity|]. intros _. apply only_key.
Qed.
End runs.

(** ** Properties *)

(** The programs of the examples, in an environment. *)
Inductive main `{Http} `{Primitives} (env : string -> option string) : program unit -> Prop :=
| main_basic : main env basic
| main_copy_and_delete : main env (copy_and_delete env)
| main_download_file : main env (download_file env)
| main_multipart_upload files now instant_max p :
    multipart_upload env files now instant_max = Some p -> main env p
| main_presign : main env presign
| main_stream_upload : main env stream_upload.

(** The examples leave no object. Whatever the service answers, an example stops at
its first failure and reports it, and one that ends with success has deleted,
and had confirmed deleted, every object that it wrote. *)
Theorem examples_leave_nothing `{Http} `{Primitives} {S : Type}
  (handler : forall X, step X -> S -> S * example X) (env : string -> option string)
  (p : program unit) (s s' : S) (log : list exchanged) (r : example unit)
  (Hmain : main env p) (Hrun : run handler p s = (log, s', r)) :
  forallb answered (removelast log) = true /\ (r = Ok tt -> left_behind log = []).
Proof.
  assert (T : tidy handler p).
  { destruct Hmain as [| | |files now instant_max p Hp| |];
      [apply basic_tidy|apply copy_and_delete_tidy|apply download_file_tidy| |apply presign_tidy
      |apply stream_upload_tidy]. by eapply multipart_upload_tidy. }
  specialize (T s). by rewrite Hrun in T.
Qed.

(** The client of the examples is configured as the environment says: for its bucket,
in path style, and it hands over plain HTTP only when its own endpoint is plain
HTTP. *)
Theorem example_client_configured `{Http} `{HttpUri} `{World} (env : string -> option string)
  (now : string -> Z) (c : S3Client) (Hclient : client_from_env env now = Some (Ok c)) :
  configured (config c) /\ allow_http (transport c) = negb (is_https (S3Config.endpoint (config c))) /\
  env_var env "S3_BUCKET" = Some (S3Config.bucket (config c)) /\
  S3Config.addressing_style (config c) = Path.
Proof.
  unfold client_from_env in Hclient.
  destruct (map_err _ _) as [endpoint|]; [|done].
  destruct S3ConfigBuilder.default as [b|]; [|done]. cbn [mbind option_bind] in Hclient.
  apply (inj Some) in Hclient.
  unfold required_env in Hclient. destruct (env_var env "S3_BUCKET") as [bucket|]; [|done].
  cbn [ok_or] in Hclient. set (b' := if is_https endpoint then _ else _) in Hclient.
  assert (Hb : S3ConfigBuilder.bucket b' = Some bucket /\ S3ConfigBuilder.addressing_style b' = Path)
    by (subst b'; by destruct (is_https endpoint)). clearbody b'.
  destruct (S3ConfigBuilder.build b' now) as [config|] eqn:Eb; [|done].
  assert (Hnew : S3Client_new false config = Ok c)
    by (destruct (S3Client_new false config); [by injection Hclient as ->|done]).
  clear Hclient. unfold S3Client_new, Transport_new in Hnew.
  destruct (hv_from_str _); cbn in Hnew; [|done]. injection Hnew as <-. cbn.
  split; [by eapply configured_build|]. split; [done|]. destruct Hb as [Hb1 Hb2].
  unfold S3ConfigBuilder.build in Eb. rewrite Hb1, Hb2 in Eb. cbn [ok_or] in Eb.
  by repeat (case_match; [try done|try done]); injection Eb as <-.
Qed.

(** ** A sample service: it stores and deletes, and answers nothing else *)

#[local] Existing Instance assoc_http.
#[local] Existing Instance sample_primitives.

Definition sample_handler (X : Type) (call : step X) (calls : nat) : nat * example X :=
  (S calls,
   match call in step X return example X with
   | Put _ => Ok (PutObjectOutput.Mk None None Checksum.default RequestIds.default)
   | Delete _ => Ok (DeleteObjectOutput.Mk false None RequestIds.default)
   | _ => Err (ExampleError.Io "no answer")
   end).

Lemma examples_leave_nothing_witness :
  main (fun _ => None) stream_upload /\
  (run sample_handler stream_upload 0%nat).2 = Ok tt /\
  left_behind (run sample_handler stream_upload 0%nat).1.1 = [].
Proof.
  assert (Hm : main (fun _ => None) stream_upload) by constructor. split; [exact Hm|].
  destruct (run sample_handler stream_upload 0%nat) as [[log calls] r] eqn:E.
  assert (Hr : r = Ok tt) by (unfold stream_upload in E; rewrite key_ok in E by reflexivity;
    cbn [bind run ask sample_handler] in E; injection E as _ _ <-; reflexivity).
  split; [exact Hr|].
  exact (proj2 (examples_leave_nothing sample_handler (fun _ => None) stream_upload 0%nat calls log r Hm E)
           Hr).
Defined.

#[local] Existing Instance sample_uri.
#[local] Existing Instance sample_world.

Definition sample_env (name : string) : option string :=
  if String.eqb name "S3_BUCKET" then Some "photos"
  else if String.eqb name "S3_ENDPOINT" then Some "https://s3.amazonaws.com" else None.

Lemma example_client_configured_witness :
  exists c, client_from_env sample_env (fun _ => 0) = Some (Ok c) /\
    configured (config c) /\ allow_http (transport c) = false.
Proof.
  assert (Hh : match client_from_env sample_env (fun _ => 0) with
               | Some (Ok c) => is_https (S3Config.endpoint (config c))
               | _ => false
               end = true) by (vm_compute; reflexivity).
  destruct (client_from_env sample_env (fun _ => 0)) as [[c|e]|] eqn:E; [|discriminate..].
  destruct (example_client_configured sample_env (fun _ => 0) c E) as (Hc & Ha & _).
  exists c. split; [reflexivity|]. split; [exact Hc|]. rewrite Ha, Hh. reflexivity.
Defined.
