(* ===== verification/Measure.v ===== *)
(** The measurement tool ([tools/perf/src/main.rs]): its options, its sampler of
resident memory, the run over the client's operations, the report and its
rendering. The run is a program over what it asks of the client, the clock, the
sampler and the file system. *)

From S2P Require Import Prelude Text Errors SigV4 Endpoint Http Types Stream Records.
From S2P Require Import Response Credentials Config Execute Multipart ToPath Programs.
From Stdlib Require Import SpecFloat.
From stdpp Require Import options.
Local Open Scope Z_scope.

(** [AnyError]: a message, or the error of what was called. *)
Module PerfError.
Inductive t : Type :=
| Message (s : string)
| S3 (e : S3Error.t)
| Key (e : ObjectKeyError.t)
| NotUnicode
| Io (e : string)
| SystemTime
| Format
| Json
| TryFromInt.
End PerfError.

Abbreviation perf := (result PerfError.t).

Definition message {A} (s : string) : perf A := Err (PerfError.Message s).

(** ** Options *)

Definition DEFAULT_PAYLOAD_MIB : Z := 64.
Definition DEFAULT_LARGE_FILE_MIB : Z := 256.
Definition DEFAULT_PART_MIB : Z := 8.
Definition DEFAULT_CONCURRENCY : Z := 4.
Definition MIB : Z := 1024 * 1024.
Definition FILE_GENERATION_BUFFER_BYTES : Z := 64 * 1024.

Record Options : Type := {
  payload_bytes : Z;
  large_file_bytes : Z;
  part_bytes : Z;
  concurrency : Z;
  json_path : string;
  markdown_path : string
}.

(** [std::env::var] of an environment of bytes. *)
Definition env_var (env : string -> option string) (name : string) : option (perf string) :=
  (fun value : string => if utf8_valid value then Ok value else Err PerfError.NotUnicode)
    <$> env name.

Definition required_env (env : string -> option string) (name : string) : perf string :=
  match env_var env name with
  | Some (Ok value) => Ok value
  | _ => message ("required environment variable " +:+ name +:+ " is not set")
  end.

Definition env_uint (max : Z) (env : string -> option string) (name : string) (default : Z)
  : perf Z :=
  match env_var env name with
  | Some (Ok value) =>
      ok_or (parse_uint max value) (PerfError.Message (name +:+ " must be an unsigned integer"))
  | None => Ok default
  | Some (Err e) => Err e
  end.
Definition env_u64 := env_uint U64_MAX.
Definition env_usize := env_uint USIZE_MAX.

Definition within (low high n : Z) : bool := (low <=? n) && (n <=? high).

Definition mib_bytes (mib : Z) (overflow : string) : perf Z :=
  ok_or (checked_mul U64_MAX mib MIB) (PerfError.Message overflow).

Definition parse_options (env : string -> option string) : perf Options :=
  let? payload_mib := env_u64 env "S3_PERF_PAYLOAD_MIB" DEFAULT_PAYLOAD_MIB in
  let? large_file_mib := env_u64 env "S3_PERF_LARGE_FILE_MIB" DEFAULT_LARGE_FILE_MIB in
  let? part_mib := env_u64 env "S3_PERF_PART_MIB" DEFAULT_PART_MIB in
  let? concurrency := env_usize env "S3_PERF_MULTIPART_CONCURRENCY" DEFAULT_CONCURRENCY in
  if negb (within 1 4096 payload_mib)
  then message "S3_PERF_PAYLOAD_MIB must be between 1 and 4096"
  else if negb (within 5 8192 large_file_mib)
  then message "S3_PERF_LARGE_FILE_MIB must be between 5 and 8192"
  else if negb (within 5 5120 part_mib)
  then message "S3_PERF_PART_MIB must be between 5 and 5120"
  else if (concurrency =? 0) || (64 <? concurrency)
  then message "S3_PERF_MULTIPART_CONCURRENCY must be between 1 and 64"
  else
    let? payload_bytes := mib_bytes payload_mib "payload size overflow" in
    let? large_file_bytes := mib_bytes large_file_mib "large file size overflow" in
    let? part_bytes := mib_bytes part_mib "part size overflow" in
    if payload_bytes <? part_bytes
    then message "the payload must be at least one multipart part"
    else if large_file_bytes <? part_bytes
    then message "the large file must be at least one multipart part"
    else
      Ok {| payload_bytes := payload_bytes; large_file_bytes := large_file_bytes;
            part_bytes := part_bytes; concurrency := concurrency;
            json_path := default "measurements/results/minio-local.json" (env "S3_PERF_JSON");
            markdown_path :=
              default "measurements/results/minio-local.md" (env "S3_PERF_MARKDOWN") |}.

Definition object_key (value : string) : perf ObjectKey.t :=
  map_err PerfError.Key (ObjectKey.new value).

(** ** Memory, sampled *)

Record RssReading : Type := { before : option Z; peak : option Z }.

Definition RssReading_delta (r : RssReading) : option Z :=
  p ← peak r; b ← before r; Some (saturating_sub p b).

(** The sampler's shared state and its worker, which loads [stop], reads the
memory, raises the one peak and then the other, and sleeps. *)
Inductive Worker : Type := Checking | Reading | Raising (rss : Z) | Sleeping | Joined.
Record RssSampler : Type := {
  stop : bool;
  phase_peak : Z;
  process_peak : Z;
  worker : Worker
}.

Definition raise_phase (rss : Z) (s : RssSampler) : RssSampler :=
  {| stop := stop s; phase_peak := Z.max (phase_peak s) rss; process_peak := process_peak s;
     worker := worker s |}.
Definition raise_process (rss : Z) (s : RssSampler) : RssSampler :=
  {| stop := stop s; phase_peak := phase_peak s; process_peak := Z.max (process_peak s) rss;
     worker := worker s |}.
Definition with_worker (w : Worker) (s : RssSampler) : RssSampler :=
  {| stop := stop s; phase_peak := phase_peak s; process_peak := process_peak s; worker := w |}.

(** The two readings of [start]. *)
Definition RssSampler_start (first second : option Z) : RssSampler :=
  {| stop := false; phase_peak := default 0 first; process_peak := default 0 second;
     worker := Checking |}.

(** One atomic step of the worker; [rss] is what a reading finds. *)
Definition work (rss : option Z) (s : RssSampler) : RssSampler :=
  match worker s with
  | Checking => with_worker (if stop s then Joined else Reading) s
  | Reading =>
      match rss with
      | Some rss => with_worker (Raising rss) (raise_phase rss s)
      | None => with_worker Sleeping s
      end
  | Raising rss => with_worker Sleeping (raise_process rss s)
  | Sleeping => with_worker Checking s
  | Joined => s
  end.

(** The worker's steps between two of the main thread. *)
Definition works (steps : list (option Z)) (s : RssSampler) : RssSampler :=
  fold_left (fun s rss => work rss s) steps s.

Definition begin_phase (rss : option Z) (s : RssSampler) : option Z * RssSampler :=
  (rss, {| stop := stop s; phase_peak := default 0 rss; process_peak := process_peak s;
           worker := worker s |}).

Definition nonzero (peak : Z) : option Z := if peak =? 0 then None else Some peak.

(** [w1] and [w2] are the worker's steps between the atomic operations. *)
Definition finish_phase (before rss : option Z) (w1 w2 : list (option Z)) (s : RssSampler)
  : RssReading * RssSampler :=
  let s := match rss with
           | Some rss => raise_process rss (works w1 (raise_phase rss s))
           | None => s
           end in
  let s := works w2 s in
  ({| before := before; peak := nonzero (phase_peak s) |}, s).

Definition sampled_process_peak (rss : option Z) (w : list (option Z)) (s : RssSampler)
  : option Z * RssSampler :=
  let s := match rss with Some rss => raise_process rss s | None => s end in
  let s := works w s in
  (nonzero (process_peak s), s).

(** [drop] joins the worker. *)
Definition RssSampler_drop (s : RssSampler) : RssSampler :=
  {| stop := true; phase_peak := phase_peak s; process_peak := process_peak s;
     worker := worker s |}.

(** ** Binary64, as [f64] is: rounded to nearest, ties to even *)

Definition f64 : Type := spec_float.
Definition as_f64 (n : Z) : f64 := binary_normalize 53 1024 n 0 false.
Definition f64_add : f64 -> f64 -> f64 := SFadd 53 1024.
Definition f64_mul : f64 -> f64 -> f64 := SFmul 53 1024.
Definition f64_div : f64 -> f64 -> f64 := SFdiv 53 1024.

(** [Duration::as_secs_f64]. *)
Definition as_secs_f64 (d : Z) : f64 :=
  f64_add (as_f64 (as_secs d)) (f64_div (as_f64 (subsec_nanos d)) (as_f64 NANOS_PER_SEC)).

(** The quotient rounded to nearest, ties to even. *)
Definition round_even (n d : Z) : Z :=
  let q := n / d in
  let r := 2 * (n mod d) in
  if (r <? d) || ((r =? d) && Z.even q) then q else q + 1.

Definition pad_zeros (digits : nat) (s : string) : string :=
  str_concat (replicate (digits - String.length s) "0") +:+ s.

(** [format!("{:.digits$}", f)]: the exact value, rounded. *)
Definition fixed (digits : nat) (f : f64) : string :=
  let decimal (negative : bool) (n : Z) :=
    let scale := 10 ^ Z.of_nat digits in
    (if negative then "-" else "") +:+ to_string (n / scale) +:+ "." +:+
    pad_zeros digits (to_string (n mod scale)) in
  match f with
  | S754_zero negative => decimal negative 0
  | S754_infinity negative => if negative then "-inf" else "inf"
  | S754_nan => "NaN"
  | S754_finite negative m e =>
      let n := Z.pos m * 10 ^ Z.of_nat digits in
      decimal negative (if 0 <=? e then n * 2 ^ e else round_even n (2 ^ (- e)))
  end.

(** ** The report *)

Record Timing : Type := {
  elapsed_seconds : f64;
  bytes : option Z;
  throughput_mib_per_second : option f64;
  rss_before_bytes : option Z;
  peak_rss_bytes : option Z;
  peak_rss_delta_bytes : option Z;
  peak_rss_delta_to_object_size : option f64
}.

Definition Timing_operation (elapsed : Z) (rss : RssReading) : Timing :=
  {| elapsed_seconds := as_secs_f64 elapsed; bytes := None; throughput_mib_per_second := None;
     rss_before_bytes := before rss; peak_rss_bytes := peak rss;
     peak_rss_delta_bytes := RssReading_delta rss; peak_rss_delta_to_object_size := None |}.

Definition Timing_transfer (elapsed bytes : Z) (rss : RssReading) : Timing :=
  let seconds := as_secs_f64 elapsed in
  let delta := RssReading_delta rss in
  {| elapsed_seconds := seconds; bytes := Some bytes;
     throughput_mib_per_second := Some (f64_div (f64_div (as_f64 bytes) (as_f64 MIB)) seconds);
     rss_before_bytes := before rss; peak_rss_bytes := peak rss; peak_rss_delta_bytes := delta;
     peak_rss_delta_to_object_size := (fun delta => f64_div (as_f64 delta) (as_f64 bytes)) <$> delta |}.

Record Environment : Type := {
  git_revision : string;
  git_worktree_dirty : bool;
  rustc : string;
  cargo : string;
  target_arch : string;
  target_os : string;
  kernel : string;
  cpu_model : string;
  logical_cpus : Z;
  total_memory_bytes : option Z;
  docker_server : string;
  minio_release : string;
  minio_image : string;
  env_endpoint : string;
  build_profile : string
}.

Record Workload : Type := {
  wl_payload_bytes : Z;
  payload_pattern : string;
  multipart_part_bytes : Z;
  multipart_concurrency : Z;
  multipart_in_flight_budget_bytes : Z;
  disk_backed_peak_rss_limit_bytes : Z;
  wl_large_file_bytes : Z;
  file_generation_buffer_bytes : Z;
  measured_iterations_per_transfer : Z;
  warmup : string
}.

Record BoundCheck : Type := {
  observed_peak_rss_delta_bytes : option Z;
  limit_bytes : Z;
  passed : bool;
  rationale : string
}.

Record Measurements : Type := {
  cold_client_construction : Timing;
  disk_backed_managed_multipart_upload : Timing;
  disk_backed_rss_bound : BoundCheck;
  single_put : Timing;
  streaming_get_to_sink : Timing;
  managed_multipart_upload : Timing;
  sampled_process_peak_rss_bytes : option Z
}.

Record Report : Type := {
  schema_version : Z;
  generated_at_utc : string;
  generated_at_unix_seconds : Z;
  environment : Environment;
  workload : Workload;
  measurements : Measurements;
  caveats : list string
}.

(** ** Markdown *)

Definition format_mib (bytes : Z) : string :=
  fixed 2 (f64_div (as_f64 bytes) (as_f64 MIB)) +:+ " MiB".

(** [value.map_or_else(|| missing, show)]. *)
Definition shown {A} (missing : string) (show : A -> string) (value : option A) : string :=
  match value with Some a => show a | None => missing end.

Definition markdown_row (name : string) (timing : Timing) : string :=
  let object_size := shown "—" format_mib (bytes timing) in
  let throughput := shown "—" (fun value => fixed 2 value +:+ " MiB/s")
                      (throughput_mib_per_second timing) in
  let rss_before := shown "unavailable" format_mib (rss_before_bytes timing) in
  let peak := shown "unavailable" format_mib (peak_rss_bytes timing) in
  let delta := shown "unavailable" format_mib (peak_rss_delta_bytes timing) in
  let ratio := shown "—" (fun value => fixed 2 (f64_mul value (as_f64 100)) +:+ "%")
                 (peak_rss_delta_to_object_size timing) in
  "| " +:+ name +:+ " | " +:+ object_size +:+ " | " +:+ fixed 6 (elapsed_seconds timing)
  +:+ " s | " +:+ throughput +:+ " | " +:+ rss_before +:+ " | " +:+ peak +:+ " | " +:+ delta
  +:+ " | " +:+ ratio +:+ " |" +:+ LF.

Definition markdown_head (report : Report) : string :=
  let env := environment report in
  let load := workload report in
  "# Local MinIO measurement" +:+ LF +:+ LF
  +:+ "- Generated: `" +:+ generated_at_utc report +:+ "`" +:+ LF
  +:+ "- Revision: `" +:+ git_revision env +:+ "`"
  +:+ (if git_worktree_dirty env then " (dirty)" else "") +:+ LF
  +:+ "- MinIO: `" +:+ minio_release env +:+ "`" +:+ LF
  +:+ "- Image: `" +:+ minio_image env +:+ "`" +:+ LF
  +:+ "- Host: `" +:+ kernel env +:+ "`" +:+ LF
  +:+ "- CPU: `" +:+ cpu_model env +:+ "` (" +:+ to_string (logical_cpus env)
  +:+ " logical CPUs)" +:+ LF
  +:+ "- Rust: `" +:+ rustc env +:+ "`" +:+ LF
  +:+ "- In-memory payload: " +:+ to_string (wl_payload_bytes load / MIB) +:+ " MiB (`"
  +:+ payload_pattern load +:+ "`)" +:+ LF
  +:+ "- Disk-backed payload: " +:+ to_string (wl_large_file_bytes load / MIB)
  +:+ " MiB (generated with a " +:+ to_string (file_generation_buffer_bytes load / 1024)
  +:+ " KiB buffer)" +:+ LF
  +:+ "- Multipart: " +:+ to_string (multipart_part_bytes load / MIB) +:+ " MiB × concurrency "
  +:+ to_string (multipart_concurrency load) +:+ LF +:+ LF
  +:+ "| Measurement | Object size | Elapsed | Throughput | RSS before | Peak RSS | Peak RSS delta | Delta/object |"
  +:+ LF +:+ "|---|---:|---:|---:|---:|---:|---:|---:|" +:+ LF.

Definition render_markdown (report : Report) : string :=
  let m := measurements report in
  let bound := disk_backed_rss_bound m in
  markdown_head report
  +:+ markdown_row "Cold `S3Client` construction" (cold_client_construction m)
  +:+ markdown_row "Disk-backed managed multipart upload" (disk_backed_managed_multipart_upload m)
  +:+ markdown_row "Single PUT" (single_put m)
  +:+ markdown_row "Streaming GET to sink" (streaming_get_to_sink m)
  +:+ markdown_row "Managed multipart upload" (managed_multipart_upload m)
  +:+ LF +:+ "Disk-backed RSS bound: **" +:+ (if passed bound then "PASS" else "FAIL")
  +:+ "** — observed " +:+ shown "unavailable" format_mib (observed_peak_rss_delta_bytes bound)
  +:+ ", limit " +:+ format_mib (limit_bytes bound) +:+ " (" +:+ rationale bound +:+ ")."
  +:+ LF
  +:+ LF +:+ "## Method and caveats" +:+ LF +:+ LF
  +:+ str_concat ((fun caveat => "- " +:+ caveat +:+ LF) <$> caveats report).

Example markdown_row_shown :
  markdown_row "Single PUT"
    (Timing_transfer 1500000000 67108864 {| before := Some 10485760; peak := Some 27262976 |})
  = "| Single PUT | 64.00 MiB | 1.500000 s | 42.67 MiB/s | 10.00 MiB | 26.00 MiB | 16.00 MiB | 25.00% |"
    +:+ LF.
Proof. vm_compute. reflexivity. Qed.


Example fixed_values :
  fixed 1 (f64_div (as_f64 1) (as_f64 4)) = "0.2" /\
  fixed 1 (f64_div (as_f64 3) (as_f64 4)) = "0.8" /\
  fixed 2 (f64_div (as_f64 1) (as_f64 0)) = "inf".
Proof. split_and!; vm_compute; reflexivity. Qed.

(** ** What the host tells *)

(** [String::from_utf8_lossy] is an argument; a command answers whether it
succeeded and its standard output. *)
Record Host : Type := {
  host_env : string -> option string;
  read_to_string : string -> option string;
  command : string -> list string -> option (bool * string);
  from_utf8_lossy : string -> string;
  available_parallelism : option Z;
  arch : string;
  os : string
}.

(** [str::lines]. *)
Fixpoint ended_lines (pieces : list string) : list string :=
  match pieces with
  | [] => []
  | [last] => if is_empty last then [] else [last]
  | line :: pieces =>
      match strip_suffix (String (chr 13) "") line with
      | Some line => line
      | None => line
      end :: ended_lines pieces
  end.
Definition lines (s : string) : list string := ended_lines (split_on (chr 10) s).

Fixpoint find_map {A B} (f : A -> option B) (l : list A) : option B :=
  match l with
  | [] => None
  | a :: l => match f a with Some b => Some b | None => find_map f l end
  end.

(** [str::trim] of UTF-8 text: the white characters of [trim_is_empty]. *)
Fixpoint trim_end (s : string) : string :=
  match s with
  | EmptyString => ""
  | String c rest => if trim_is_empty s then "" else String c (trim_end rest)
  end.
Definition white_width (s : string) : option Z :=
  find_map (fun n => if trim_is_empty (str_take n s) then Some n else None) [1; 2; 3].
Fixpoint trim_start (fuel : nat) (s : string) : string :=
  match fuel, white_width s with
  | S fuel, Some width => trim_start fuel (str_drop width s)
  | _, _ => s
  end.
Definition trim (s : string) : string := trim_end (trim_start (String.length s) s).

(** The first word of a line after its field, as a number. *)
Definition field_number (field line : string) : option Z :=
  rest ← strip_prefix field line;
  word ← head (whitespace_words rest "");
  parse_uint U64_MAX word.

Definition proc_status_kib (status : option string) (field : string) : option Z :=
  status ← status; find_map (field_number field) (lines status).

Definition current_rss_bytes (status : option string) : option Z :=
  kib ← proc_status_kib status "VmRSS:"; checked_mul U64_MAX kib 1024.

Definition total_memory (h : Host) : option Z :=
  memory ← read_to_string h "/proc/meminfo";
  find_map (fun line => kib ← field_number "MemTotal:" line; checked_mul U64_MAX kib 1024)
    (lines memory).

Definition cpu_model_name (h : Host) : string :=
  default "unknown" (
    cpuinfo ← read_to_string h "/proc/cpuinfo";
    find_map (fun line => rest ← strip_prefix "model name" line;
                          (fun p => trim p.2) <$> split_once ":" rest) (lines cpuinfo)).

Definition command_output (h : Host) (name : string) (arguments : list string) : string :=
  match command h name arguments with
  | Some (true, stdout) =>
      let output := trim (from_utf8_lossy h stdout) in
      if is_empty output then "unknown" else output
  | _ => "unknown"
  end.

Definition env_or_unknown (h : Host) (name : string) : string :=
  match env_var (host_env h) name with Some (Ok value) => value | _ => "unknown" end.

Definition collect_environment (h : Host) (endpoint : string) : Environment :=
  {| git_revision := command_output h "git" ["rev-parse"; "HEAD"];
     git_worktree_dirty := negb (is_empty (command_output h "git" ["status"; "--porcelain"]));
     rustc := command_output h "rustc" ["--version"];
     cargo := command_output h "cargo" ["--version"];
     target_arch := arch h; target_os := os h; kernel := command_output h "uname" ["-srvmo"];
     cpu_model := cpu_model_name h; logical_cpus := default 1 (available_parallelism h);
     total_memory_bytes := total_memory h;
     docker_server := command_output h "docker" ["version"; "--format"; "{{.Server.Version}}"];
     minio_release := env_or_unknown h "MINIO_RELEASE";
     minio_image := env_or_unknown h "MINIO_IMAGE"; env_endpoint := endpoint;
     build_profile := env_or_unknown h "S3_PERF_BUILD_PROFILE" |}.

Example status_lines :
  current_rss_bytes (Some ("Name:" +:+ String (chr 9) ("s3" +:+ LF +:+ "VmRSS:" +:+ String (chr 9) ("  2048 kB" +:+ LF))))
  = Some 2097152 /\ trim (" a b " +:+ LF) = "a b".
Proof. split; vm_compute; reflexivity. Qed.

(** ** The run *)

(** What the run asks. A download answers the chunks its body yields; a file
source is what the file system answers while it is read. *)
Inductive effect `{Http} : Type -> Type :=
| BeginPhase : effect (option Z)
| FinishPhase (before : option Z) : effect RssReading
| ProcessPeak : effect (option Z)
| Now : effect Z
| ProcessId : effect Z
| UnixTime : effect (option Z)
| UtcNow : effect (Z * option string)
| HostInfo : effect Host
| Put (r : PutObjectRequest.t) : effect (outcome unit)
| Get (r : GetObjectRequest.t) : effect (outcome (list (outcome string)))
| Head (r : HeadObjectRequest.t) : effect (outcome ObjectMetadata.t)
| Delete (r : DeleteObjectRequest.t) : effect (outcome unit)
| Upload (r : ManagedMultipartUploadRequest.t) : effect (outcome unit)
| TempNew : effect (result string unit)
| TempWrite (length : Z) : effect (result string unit)
| TempFlush : effect (result string unit)
| TempPath : effect SnapshotIo
| CreateDirAll (path : string) : effect (result string unit)
| ToJson (report : Report) : effect (option string)
| WriteFile (path contents : string) : effect (result string unit)
| Println (line : string) : effect unit.

Section run.
Context `{Http} `{HttpUri} `{World}.

Definition answer (X : Type) : Type := X.
#[local] Notation program := (Programs.program effect answer PerfError.t).

Definition ask {X} (call : effect X) : program X := Ask call (fun x => Done (Ok x)).
Definition s3 {X} (call : effect (outcome X)) : program X :=
  Ask call (fun x => Done (map_err PerfError.S3 x)).
Definition io {X} (call : effect (result string X)) : program X :=
  Ask call (fun x => Done (map_err PerfError.Io x)).

(** One reusable buffer, written until nothing remains. *)
Fixpoint write_file (fuel : nat) (remaining : Z) : program unit :=
  if remaining =? 0 then Done (Ok tt)
  else match fuel with
       | O => Done (message "out of fuel")
       | S fuel =>
           let write_length := Z.min remaining FILE_GENERATION_BUFFER_BYTES in
           do! _ := io (TempWrite write_length) in
           write_file fuel (remaining - write_length)
       end.
Definition file_writes (bytes : Z) : nat := Z.to_nat (bytes / FILE_GENERATION_BUFFER_BYTES + 1).

Definition generate_deterministic_file (bytes : Z) : program unit :=
  do! _ := io TempNew in
  do! _ := write_file (file_writes bytes) bytes in
  io TempFlush.

(** The chunks of a download, counted; the first failure ends it. *)
Fixpoint downloaded_bytes (chunks : list (outcome string)) (downloaded : Z) : perf Z :=
  match chunks with
  | [] => Ok downloaded
  | Err e :: _ => Err (PerfError.S3 e)
  | Ok chunk :: chunks =>
      let? downloaded := ok_or (checked_add U64_MAX downloaded (slen chunk))
                           (PerfError.Message "download length overflow") in
      downloaded_bytes chunks downloaded
  end.

Definition ensure_parent (path : string) : program unit :=
  match path_parent path with
  | Some parent => if is_empty parent then Done (Ok tt) else io (CreateDirAll parent)
  | None => Done (Ok tt)
  end.

Definition write_outputs (o : Options) (report : Report) : program unit :=
  do! _ := ensure_parent (json_path o) in
  do! _ := ensure_parent (markdown_path o) in
  do! json := Ask (ToJson report) (fun json : answer (option string) =>
                Done (ok_or json PerfError.Json)) in
  do! _ := io (WriteFile (json_path o) json) in
  io (WriteFile (markdown_path o) (render_markdown report)).

(** A measured call, with the time it took and the memory it needed. *)
Definition measured {X} (p : program X) : program (X * Z * RssReading) :=
  do! before := ask BeginPhase in
  do! started := ask Now in
  do! x := p in
  do! now := ask Now in
  do! rss := ask (FinishPhase before) in
  Done (Ok (x, now - started, rss)).

Definition put_request (key : ObjectKey.t) (bytes : string) : PutObjectRequest.t :=
  PutObjectRequest.new key (SourceBytes bytes).

(** [from_path] and [from_bytes] with the run's options. *)
Definition upload_request (key : ObjectKey.t) (source : MultipartUploadSource)
    (options : MultipartOptions.t) : ManagedMultipartUploadRequest.t :=
  ManagedMultipartUploadRequest.Mk key source None [] options None ManagedMultipartHeaders.default.

(** [vec![0xa5; length]]. *)
Definition payload (length : Z) : string := Z.iter length (String (chr 165)) "".

Definition CAVEATS : list string :=
  ["This is a local single-process MinIO measurement, not a comparative benchmark.";
   "Each transfer is measured once; scheduler, filesystem, loopback, CPU scaling, and container state affect results.";
   "Transfer timing includes client hashing, signing, serialization, and response handling; server startup and the warm-up request are excluded.";
   "GET is consumed incrementally without retaining the body and verifies byte count, but does not persist or hash the downloaded bytes.";
   "RSS is sampled from Linux /proc every 1 ms and is process-wide; allocator retention and prior phases make per-phase peaks non-isolated.";
   "The disk-backed phase generates its configured source with one reusable 64 KiB buffer, then includes the client's disk snapshot and bounded multipart upload in its timing.";
   "The opt-in regression check permits four times the derived multipart in-flight byte bound for part buffers, transport copies, runtime state, and allocator behavior; it is an engineering envelope, not a precise allocation model.";
   "A peak-RSS delta at one object size demonstrates this run's bounded behavior but is not a proof of asymptotic memory usage; Linux page cache is outside process RSS.";
   "The aggregate process peak uses the same RSS sampler as phase peaks; kernel VmHWM is intentionally omitted because its accounting can lag sampled VmRSS.";
   "Cold client construction means the first S3Client::new call in this process; configuration construction is excluded.";
   "The fixed repeated-byte payload is deterministic but does not model every production workload."].

(** What is fixed before the sampler starts. *)
Record Setup : Type := {
  options : Options;
  endpoint_text : string;
  client_config : S3Config.t;
  multipart_options : MultipartOptions.t
}.

(** The head of [main]; [now] and [instant_max] are the clock's. [None] is the
panic of an invalid default endpoint. *)
Definition setup (env : string -> option string) (clock : string -> Z) (now instant_max : Z)
  : option (perf Setup) :=
  builder ← S3ConfigBuilder.default;
  Some (
    let? options := parse_options env in
    let? endpoint_text := required_env env "MINIO_S3_ENDPOINT" in
    let? bucket := required_env env "MINIO_S3_BUCKET" in
    let? access_key := required_env env "MINIO_ROOT_USER" in
    let? secret_key := required_env env "MINIO_ROOT_PASSWORD" in
    let? credentials := map_err PerfError.S3 (Credentials.new access_key secret_key None) in
    let? endpoint := map_err PerfError.S3 (Endpoint_new endpoint_text) in
    let builder := S3ConfigBuilder.set_endpoint builder endpoint in
    let builder := S3ConfigBuilder.allow_http_for_local_testing builder in
    let builder := S3ConfigBuilder.set_bucket builder bucket in
    let builder := S3ConfigBuilder.set_region builder "us-east-1" in
    let builder := S3ConfigBuilder.set_credentials_provider builder
      (StaticCredentialsProvider.provide_credentials (StaticCredentialsProvider.new credentials)) in
    let builder := S3ConfigBuilder.set_attempt_timeout builder (from_secs 600) in
    let builder := S3ConfigBuilder.set_operation_timeout builder (from_secs 600) in
    let builder := S3ConfigBuilder.set_idle_body_timeout builder (from_secs 60) in
    let? config := map_err PerfError.S3 (S3ConfigBuilder.build builder clock) in
    let? multipart_options := map_err PerfError.S3
      (let? o := MultipartOptions.new (part_bytes options) (concurrency options) in
       MultipartOptions.with_transfer_timeout now instant_max o (from_secs 600)) in
    Ok {| options := options; endpoint_text := endpoint_text; client_config := config;
          multipart_options := multipart_options |}).

(** ** The phases *)

Definition run_namespace : program string :=
  do! pid := ask ProcessId in
  do! secs := Ask UnixTime (fun t : answer (option Z) => Done (ok_or t PerfError.SystemTime)) in
  Done (Ok ("s3-wire-measurements/" +:+ to_string pid +:+ "/" +:+ to_string secs)).

Definition warm_up (namespace : string) : program unit :=
  do! key := Done (object_key (namespace +:+ "/warmup")) in
  do! _ := s3 (Put (put_request key "warmup")) in
  s3 (Delete (DeleteObjectRequest.new key)).

Definition disk_backed_phase (s : Setup) (namespace : string) : program Timing :=
  let size := large_file_bytes (options s) in
  do! _ := generate_deterministic_file size in
  do! key := Done (object_key (namespace +:+ "/disk-backed-managed-multipart")) in
  do! (_, elapsed, rss) := measured (
    do! file := ask TempPath in
    s3 (Upload (upload_request key (MultipartFile file) (multipart_options s)))) in
  do! uploaded := s3 (Head (HeadObjectRequest.new key)) in
  if negb (ObjectMetadata.content_length uploaded =? size)
  then Done (message ("disk-backed upload stored "
              +:+ to_string (ObjectMetadata.content_length uploaded) +:+ " bytes, expected "
              +:+ to_string size))
  else
    do! _ := s3 (Delete (DeleteObjectRequest.new key)) in
    Done (Ok (Timing_transfer elapsed size rss)).

Definition single_phase (s : Setup) (namespace : string) : program (Timing * Timing) :=
  let size := payload_bytes (options s) in
  do! _ := Done (ok_or (try_from USIZE_MAX size) PerfError.TryFromInt) in
  do! key := Done (object_key (namespace +:+ "/single-put")) in
  do! (_, elapsed, rss) := measured (s3 (Put (put_request key (payload size)))) in
  let single_put := Timing_transfer elapsed size rss in
  do! (downloaded, elapsed, rss) := measured (
    do! chunks := s3 (Get (GetObjectRequest.new key)) in
    Done (downloaded_bytes chunks 0)) in
  if negb (downloaded =? size)
  then Done (message ("downloaded " +:+ to_string downloaded +:+ " bytes, expected "
                      +:+ to_string size))
  else
    do! _ := s3 (Delete (DeleteObjectRequest.new key)) in
    Done (Ok (single_put, Timing_transfer elapsed downloaded rss)).

Definition multipart_phase (s : Setup) (namespace : string) : program Timing :=
  let size := payload_bytes (options s) in
  do! key := Done (object_key (namespace +:+ "/managed-multipart")) in
  do! (_, elapsed, rss) := measured (
    s3 (Upload (upload_request key (MultipartBytes (payload size)) (multipart_options s)))) in
  do! _ := s3 (Delete (DeleteObjectRequest.new key)) in
  Done (Ok (Timing_transfer elapsed size rss)).

(** ** The report of a run *)

Definition workload_of (o : Options) (budget limit : Z) : Workload :=
  {| wl_payload_bytes := payload_bytes o; payload_pattern := "every byte is 0xa5";
     multipart_part_bytes := part_bytes o; multipart_concurrency := concurrency o;
     multipart_in_flight_budget_bytes := budget; disk_backed_peak_rss_limit_bytes := limit;
     wl_large_file_bytes := large_file_bytes o;
     file_generation_buffer_bytes := FILE_GENERATION_BUFFER_BYTES;
     measured_iterations_per_transfer := 1;
     warmup := "one 6-byte PUT and DELETE before measured transfers" |}.

Definition rss_bound (disk_backed : Timing) (limit : Z) : BoundCheck :=
  {| observed_peak_rss_delta_bytes := peak_rss_delta_bytes disk_backed; limit_bytes := limit;
     passed := match peak_rss_delta_bytes disk_backed with
               | Some observed => observed <=? limit
               | None => false
               end;
     rationale := "four times the derived multipart in-flight byte bound" |}.

(** [options.part_bytes * u64::try_from(options.concurrency)?] and the limit; an
overflow of the first is a panic or wraps, by the profile. *)
Definition budget_and_limit (o : Options) : perf (Z * Z) :=
  let? concurrency := ok_or (try_from U64_MAX (concurrency o)) PerfError.TryFromInt in
  let? budget := ok_or (checked_mul U64_MAX (part_bytes o) concurrency)
                   (PerfError.Message "multiplication overflow") in
  let? limit := ok_or (checked_mul U64_MAX budget 4)
                  (PerfError.Message "disk-backed RSS limit overflow") in
  Ok (budget, limit).

Definition debug_observed (observed : option Z) : string :=
  match observed with Some n => "Some(" +:+ to_string n +:+ ")" | None => "None" end.

Definition conclude (s : Setup) (construction disk_backed single_put get multipart : Timing)
  : program unit :=
  let o := options s in
  do! (timestamp, text) := ask UtcNow in
  do! (budget, limit) := Done (budget_and_limit o) in
  let bound := rss_bound disk_backed limit in
  do! generated := Done (ok_or text PerfError.Format) in
  do! seconds := Done (if timestamp <? 0 then Err PerfError.TryFromInt else Ok timestamp) in
  do! host := ask HostInfo in
  do! process_peak := ask ProcessPeak in
  let report :=
    {| schema_version := 2; generated_at_utc := generated; generated_at_unix_seconds := seconds;
       environment := collect_environment host (endpoint_text s);
       workload := workload_of o budget limit;
       measurements :=
         {| cold_client_construction := construction;
            disk_backed_managed_multipart_upload := disk_backed; disk_backed_rss_bound := bound;
            single_put := single_put; streaming_get_to_sink := get;
            managed_multipart_upload := multipart;
            sampled_process_peak_rss_bytes := process_peak |};
       caveats := CAVEATS |} in
  do! _ := write_outputs o report in
  do! _ := ask (Println ("wrote " +:+ json_path o)) in
  do! _ := ask (Println ("wrote " +:+ markdown_path o)) in
  if passed bound then Done (Ok tt)
  else Done (message ("disk-backed upload peak RSS delta "
                +:+ debug_observed (observed_peak_rss_delta_bytes bound) +:+ " exceeded the "
                +:+ to_string limit +:+ " byte limit")).

(** The rest of [main]. *)
Definition measure (s : Setup) : program unit :=
  do! (_, elapsed, rss) := measured (Done (map_err PerfError.S3 (S3Client_new false (client_config s)))) in
  let construction := Timing_operation elapsed rss in
  do! namespace := run_namespace in
  do! _ := warm_up namespace in
  do! disk_backed := disk_backed_phase s namespace in
  do! (single_put, get) := single_phase s namespace in
  do! multipart := multipart_phase s namespace in
  conclude s construction disk_backed single_put get multipart.

Definition main (env : string -> option string) (clock : string -> Z) (now instant_max : Z)
  : option (program unit) :=
  s ← setup env clock now instant_max; Some (do! s := Done s in measure s).
End run.

(** ** Lemmas: options *)

Lemma within_spec low high n : within low high n = true <-> low <= n <= high.
Proof. unfold within. rewrite andb_true_iff, !Z.leb_le. lia. Qed.

Lemma mib_bytes_ok mib overflow n : mib_bytes mib overflow = Ok n -> n = mib * MIB.
Proof.
  unfold mib_bytes, checked_mul. destruct (_ <=? U64_MAX); cbn [ok_or]; [|done]. by injection 1.
Qed.

(** The options that are accepted, in mebibytes. *)
Definition options_ok (o : Options) : Prop :=
  exists payload large part,
    payload_bytes o = payload * MIB /\ large_file_bytes o = large * MIB /\
    part_bytes o = part * MIB /\ 5 <= part <= 5120 /\ part <= payload <= 4096 /\
    part <= large <= 8192 /\ 1 <= concurrency o <= 64.

Lemma env_uint_nonneg max env name d n : 0 <= d -> env_uint max env name d = Ok n -> 0 <= n.
Proof.
  unfold env_uint. intros Hd. destruct (env_var env name) as [[v|e]|]; [|done|by intros [= <-]].
  destruct (parse_uint max v) as [m|] eqn:E; cbn [ok_or]; [|done]. intros [= <-].
  by eapply parse_uint_nonneg.
Qed.

Lemma parse_options_ok env o : parse_options env = Ok o -> options_ok o.
Proof.
  unfold parse_options. intros Ho.
  destruct (env_u64 env "S3_PERF_PAYLOAD_MIB" _) as [payload|]; [|done].
  destruct (env_u64 env "S3_PERF_LARGE_FILE_MIB" _) as [large|]; [|done].
  destruct (env_u64 env "S3_PERF_PART_MIB" _) as [part|]; [|done].
  destruct (env_usize _ _ _) as [conc|] eqn:Ec; [|done].
  apply env_uint_nonneg in Ec; [|done].
  destruct (within 1 4096 payload) eqn:E1; [|done]. destruct (within 5 8192 large) eqn:E2; [|done].
  destruct (within 5 5120 part) eqn:E3; [|done]. cbn [negb] in Ho.
  destruct ((conc =? 0) || (64 <? conc)) eqn:E4; [done|].
  destruct (mib_bytes payload _) as [pb|] eqn:B1; [|done].
  destruct (mib_bytes large _) as [lb|] eqn:B2; [|done].
  destruct (mib_bytes part _) as [tb|] eqn:B3; [|done].
  apply mib_bytes_ok in B1, B2, B3. subst pb lb tb.
  destruct (_ <? _) eqn:L1 in Ho; [done|]. destruct (_ <? _) eqn:L2 in Ho; [done|].
  injection Ho as <-. apply within_spec in E1, E2, E3. unfold MIB in *. bools.
  exists payload, large, part. cbn. unfold MIB. split_and!; lia.
Qed.

(** So many parts at most, for the largest file in the smallest parts. *)
Lemma part_count_bounded source length part o :
  source_length source = Ok (length * MIB) -> 5 <= part -> part <= length <= 8192 ->
  part_bytes o = part * MIB ->
  exists n, part_count source (part_bytes o) = Ok n /\ 1 <= n <= 1639.
Proof.
  intros Hl Hp Hb Ho. unfold part_count. rewrite Hl, Ho. unfold MIB.
  destruct (Z.eqb_spec (length * (1024 * 1024)) 0); [lia|].
  pose proof (div_ceil_bounds (length * (1024 * 1024)) (part * (1024 * 1024)) ltac:(lia) ltac:(lia))
    as (L & U & P). set (count := div_ceil _ _) in *.
  assert (count <= 1639) by nia.
  destruct (Z.ltb_spec PartNumber.MAX count); [unfold PartNumber.MAX in *; lia|].
  unfold try_from. destruct (Z.leb_spec count U16_MAX); [|unfold U16_MAX in *; lia]. by exists count.
Qed.

(** ** Lemmas: the sampler *)

Lemma work_peak rss s : phase_peak s <= phase_peak (work rss s) /\
  (phase_peak (work rss s) = phase_peak s \/ rss = Some (phase_peak (work rss s))).
Proof.
  unfold work, raise_phase, raise_process, with_worker.
  destruct (worker s), rss as [r|]; cbn; try (split; [lia|by left]).
  destruct (Z.max_spec (phase_peak s) r) as [[? ->]|[? ->]]; [split; [lia|by right]|split; [lia|by left]].
Qed.

Lemma works_peak w s : phase_peak s <= phase_peak (works w s) /\
  (phase_peak (works w s) = phase_peak s \/ Some (phase_peak (works w s)) ∈ w).
Proof.
  unfold works. revert s. induction w as [|rss w IH]; intros s; cbn [fold_left]; [split; [lia|by left]|].
  destruct (IH (work rss s)) as [L C], (work_peak rss s) as [L' C']. split; [lia|].
  destruct C as [->|C]; [|right; by right]. destruct C' as [->|E]; [by left|].
  right. rewrite E at 2. by left.
Qed.

(** ** Lemmas: the client's calls of a run *)

Inductive client_call : Type :=
| Stored (key : ObjectKey.t) | Removed (key : ObjectKey.t) | Observed (key : ObjectKey.t).

Section calls.
Context `{Http}.
#[local] Notation program := (Programs.program effect answer PerfError.t).
#[local] Notation exchanged := (Programs.exchanged effect answer).

Definition call_of {X} (e : effect X) : option client_call :=
  match e with
  | Put r => Some (Stored (PutObjectRequest.key r))
  | Upload r => Some (Stored (ManagedMultipartUploadRequest.key r))
  | Delete r => Some (Removed (DeleteObjectRequest.key r))
  | Head r => Some (Observed (HeadObjectRequest.key r))
  | Get r => Some (Observed (GetObjectRequest.key r))
  | _ => None
  end.

Definition client_calls (log : list exchanged) : list client_call :=
  omap (fun e => match e with Exchanged call _ => call_of call end) log.

(** What a program calls, whatever the answers: a beginning of [l], and all of
[l] when it succeeds. *)
Definition in_order {A} (p : program A) (l : list client_call) : Prop :=
  forall S (handler : forall X, effect X -> S -> S * answer X) s log s' r,
    run handler p s = (log, s', r) ->
    client_calls log `prefix_of` l /\ (forall a, r = Ok a -> client_calls log = l).

Lemma in_order_done {A} (r : perf A) : in_order (Done r) [].
Proof. intros S handler s log s' r' [= <- _ _]. done. Qed.

Lemma in_order_fail {A} e l : in_order (Done (Err e) : program A) l.
Proof. intros S handler s log s' r' [= <- _ <-]. split; [apply prefix_nil|done]. Qed.

Lemma in_order_ask {X A} (call : effect X) (k : answer X -> program A) l :
  (forall x, in_order (k x) l) -> in_order (Ask call k) (option_list (call_of call) ++ l).
Proof.
  intros Hk S handler s log s' r Hrun. cbn [run] in Hrun.
  destruct (handler X call s) as [s1 x]. destruct (run handler (k x) s1) as [[log1 s2] r1] eqn:E.
  injection Hrun as <- _ <-. apply Hk in E as [P C]. unfold client_calls in *. cbn [omap list_omap].
  destruct (call_of call); cbn.
  - split; [by apply prefix_cons|]. intros a Ha. by rewrite (C a Ha).
  - done.
Qed.

Lemma in_order_bind {A B} (p : program A) (k : A -> program B) l1 l2 :
  in_order p l1 -> (forall a, in_order (k a) l2) -> in_order (bind p k) (l1 ++ l2).
Proof.
  intros Hp Hk S handler s log s' r Hrun. rewrite run_bind in Hrun.
  destruct (run handler p s) as [[log1 s1] [a|e]] eqn:E; apply Hp in E as [P C].
  - destruct (run handler (k a) s1) as [[log2 s2] r2] eqn:E2. injection Hrun as <- _ <-.
    apply Hk in E2 as [P2 C2]. unfold client_calls in *. rewrite omap_app, (C a eq_refl).
    split; [by apply prefix_app|]. intros b Hb. by rewrite (C2 b Hb).
  - injection Hrun as <- _ <-. split; [by apply prefix_app_r|done].
Qed.

(** A step that calls nothing of the client. *)
Lemma in_order_then {A B} (p : program A) (k : A -> program B) l :
  in_order p [] -> (forall a, in_order (k a) l) -> in_order (bind p k) l.
Proof. apply (in_order_bind p k [] l). Qed.

Lemma in_order_call {X A} (call : effect X) (f : answer X -> perf A) :
  in_order (Ask call (fun x => Done (f x))) (option_list (call_of call)).
Proof.
  pose proof (in_order_ask call (fun x => Done (f x)) [] (fun x => in_order_done (f x))) as Hc.
  by rewrite app_nil_r in Hc.
Qed.

Lemma in_order_s3 {X} (call : effect (outcome X)) : in_order (s3 call) (option_list (call_of call)).
Proof. apply in_order_call. Qed.

Lemma in_order_key {A} v (k : ObjectKey.t -> program A) l :
  in_order (k (ObjectKey.Mk v)) l -> in_order (bind (Done (object_key v)) k) l.
Proof.
  intros Hk. unfold object_key, ObjectKey.new. repeat case_match; cbn [map_err bind];
    [apply in_order_fail..|exact Hk].
Qed.

Lemma in_order_measured {A} (p : program A) l : in_order p l -> in_order (measured p) l.
Proof.
  intros Hp. unfold measured. apply in_order_then; [apply in_order_call|intros before].
  apply in_order_then; [apply in_order_call|intros started].
  rewrite <- (app_nil_r l). apply in_order_bind; [done|intros x].
  apply in_order_then; [apply in_order_call|intros now].
  apply in_order_then; [apply in_order_call|intros rss]. apply in_order_done.
Qed.

Lemma in_order_write_file fuel n : in_order (write_file fuel n) [].
Proof.
  revert n. induction fuel as [|fuel IH]; intros n; cbn [write_file]; case_match;
    try apply in_order_done.
  apply in_order_then; [apply in_order_call|intros []]. apply IH.
Qed.

Lemma in_order_generate n : in_order (generate_deterministic_file n) [].
Proof.
  apply in_order_then; [apply in_order_call|intros []].
  apply in_order_then; [apply in_order_write_file|intros []]. apply in_order_call.
Qed.

Lemma in_order_ensure_parent path : in_order (ensure_parent path) [].
Proof.
  unfold ensure_parent. destruct (path_parent path) as [parent|]; [|apply in_order_done].
  destruct (is_empty parent); [apply in_order_done|apply in_order_call].
Qed.

Lemma in_order_write_outputs o report : in_order (write_outputs o report) [].
Proof.
  do 2 (apply in_order_then; [apply in_order_ensure_parent|intros []]).
  apply in_order_then; [apply in_order_call|intros json].
  apply in_order_then; [apply in_order_call|intros []]. apply in_order_call.
Qed.
End calls.

Definition phase_key (namespace name : string) : ObjectKey.t := ObjectKey.Mk (namespace +:+ name).

(** The client's calls of a whole run. *)
Definition protocol (namespace : string) : list client_call :=
  let warm := phase_key namespace "/warmup" in
  let large := phase_key namespace "/disk-backed-managed-multipart" in
  let single := phase_key namespace "/single-put" in
  let multipart := phase_key namespace "/managed-multipart" in
  [Stored warm; Removed warm] ++ [Stored large; Observed large; Removed large] ++
  [Stored single; Observed single; Removed single] ++ [Stored multipart; Removed multipart].

(** The keys that may be left behind after some calls. *)
Definition left_behind (calls : list client_call) : list ObjectKey.t :=
  fold_left (fun keys call =>
    match call with
    | Stored key => key :: keys
    | Removed key => filter (fun k => k <> key) keys
    | Observed _ => keys
    end) calls [].

Section phases.
Set Default Proof Using "Type*".
Context `{Http} `{HttpUri} `{World}.

Lemma in_order_conclude s a b c d e : in_order (conclude s a b c d e) [].
Proof.
  unfold conclude. apply in_order_then; [apply in_order_call|intros [timestamp text]].
  apply in_order_then; [apply in_order_done|intros [budget limit]].
  apply in_order_then; [apply in_order_done|intros generated].
  apply in_order_then; [apply in_order_done|intros seconds].
  apply in_order_then; [apply in_order_call|intros host].
  apply in_order_then; [apply in_order_call|intros process_peak].
  apply in_order_then; [apply in_order_write_outputs|intros []].
  do 2 (apply in_order_then; [apply in_order_call|intros []]).
  case_match; [apply in_order_done|apply in_order_fail].
Qed.

Lemma in_order_warm_up namespace :
  in_order (warm_up namespace)
    [Stored (phase_key namespace "/warmup"); Removed (phase_key namespace "/warmup")].
Proof.
  apply in_order_key. eapply (in_order_bind _ _ [_] [_]); [apply in_order_s3|intros []].
  apply in_order_s3.
Qed.

Lemma in_order_disk_backed s namespace (large := phase_key namespace "/disk-backed-managed-multipart") :
  in_order (disk_backed_phase s namespace) [Stored large; Observed large; Removed large].
Proof.
  apply in_order_then; [apply in_order_generate|intros []]. apply in_order_key.
  eapply (in_order_bind _ _ [_] [_; _]).
  { apply in_order_measured. apply in_order_then; [apply in_order_call|intros file].
    apply in_order_s3. }
  intros [[[] elapsed] rss]. eapply (in_order_bind _ _ [_] [_]); [apply in_order_s3|].
  intros uploaded. case_match; [apply in_order_fail|].
  eapply (in_order_bind _ _ [_] []); [apply in_order_s3|intros []].
  apply in_order_done.
Qed.

Lemma in_order_single s namespace (single := phase_key namespace "/single-put") :
  in_order (single_phase s namespace) [Stored single; Observed single; Removed single].
Proof.
  apply in_order_then; [apply in_order_done|intros size]. apply in_order_key.
  eapply (in_order_bind _ _ [_] [_; _]).
  { apply in_order_measured, in_order_s3. }
  intros [[[] elapsed] rss]. eapply (in_order_bind _ _ [_] [_]).
  { apply in_order_measured. eapply (in_order_bind _ _ [_] []); [apply in_order_s3|].
    intros chunks. apply in_order_done. }
  intros [[downloaded elapsed'] rss']. case_match; [apply in_order_fail|].
  eapply (in_order_bind _ _ [_] []); [apply in_order_s3|intros []].
  apply in_order_done.
Qed.

Lemma in_order_multipart s namespace (key := phase_key namespace "/managed-multipart") :
  in_order (multipart_phase s namespace) [Stored key; Removed key].
Proof.
  apply in_order_key. eapply (in_order_bind _ _ [_] [_]).
  { apply in_order_measured, in_order_s3. }
  intros [[[] elapsed] rss].
  eapply (in_order_bind _ _ [_] []); [apply in_order_s3|intros []].
  apply in_order_done.
Qed.

(** From the namespace on, the calls are those of the protocol. *)
Lemma in_order_phases s construction namespace :
  in_order (do! _ := warm_up namespace in
            do! disk_backed := disk_backed_phase s namespace in
            do! (single_put, get) := single_phase s namespace in
            do! multipart := multipart_phase s namespace in
            conclude s construction disk_backed single_put get multipart) (protocol namespace).
Proof.
  apply in_order_bind; [apply in_order_warm_up|intros []].
  apply in_order_bind; [apply in_order_disk_backed|intros disk].
  apply in_order_bind; [apply in_order_single|intros [single get]].
  rewrite <- (app_nil_r [Stored _; Removed _]).
  apply in_order_bind; [apply in_order_multipart|intros multipart]. apply in_order_conclude.
Qed.

Lemma in_order_namespace : in_order run_namespace [].
Proof.
  apply in_order_then; [apply in_order_call|intros pid].
  apply in_order_then; [apply in_order_call|intros secs]. apply in_order_done.
Qed.

Lemma filter_self (k : ObjectKey.t) : filter (fun k' => k' <> k) [k] = [].
Proof. rewrite filter_cons_False; [done|tauto]. Qed.

Lemma left_behind_protocol namespace : left_behind (protocol namespace) = [].
Proof. cbv [protocol left_behind fold_left app]. by rewrite !filter_self. Qed.

Lemma left_behind_prefix namespace calls : calls `prefix_of` protocol namespace ->
  (List.length (left_behind calls) <= 1)%nat.
Proof.
  intros [rest E]. assert (calls = take (List.length calls) (protocol namespace)) as Hc
    by (by rewrite E, take_app_length).
  rewrite Hc. generalize (List.length calls). clear. intros n.
  do 10 (destruct n as [|n]; [cbv [protocol take left_behind fold_left app];
    rewrite ?filter_self; cbn [List.length]; lia|]).
  destruct n; cbv [protocol take left_behind fold_left app]; rewrite ?filter_self; cbn [List.length];
    lia.
Qed.
End phases.

(** ** Properties *)

(** Accepted options can be measured with. They make multipart options that
the client takes, a memory budget and limit that no machine integer overflows, and
uploads of the payload and of the file that need 1639 parts at most. *)
Theorem options_feasible (env : string -> option string) (o : Options)
  (Hok : parse_options env = Ok o) :
  (exists m, MultipartOptions.new (part_bytes o) (concurrency o) = Ok m) /\
  budget_and_limit o = Ok (part_bytes o * concurrency o, part_bytes o * concurrency o * 4) /\
  forall source,
    source_length source = Ok (payload_bytes o) \/ source_length source = Ok (large_file_bytes o) ->
    exists n, part_count source (part_bytes o) = Ok n /\ 1 <= n <= 1639.
Proof.
  apply parse_options_ok in Hok as (payload & large & part & E1 & E2 & E3 & B1 & B2 & B3 & B4).
  assert (0 <= part * concurrency o <= 5120 * 64) by nia. split_and!.
  - unfold MultipartOptions.new, MIN_PART_SIZE, MAX_PART_SIZE, MAX_CONCURRENCY, try_from, checked_mul.
    rewrite E3. unfold MIB, U64_MAX.
    repeat match goal with |- context [?a <=? ?b] => destruct (Z.leb_spec a b); [|lia];
      cbn [negb andb ok_or] end.
    by eexists.
  - unfold budget_and_limit, try_from, checked_mul. rewrite E3. unfold MIB, U64_MAX.
    repeat match goal with |- context [?a <=? ?b] => destruct (Z.leb_spec a b); [|lia]; cbn [ok_or] end.
    done.
  - intros source [Hl|Hl]; [rewrite E1 in Hl|rewrite E2 in Hl];
      (eapply (part_count_bounded _ _ part); [exact Hl|lia|lia|exact E3]).
Qed.

(** A measurement cleans up. Whatever the client, the host and the file
system answer, the calls of a run are a beginning of one fixed sequence under the
run's own namespace, so that one object at most is left behind when the run
fails; a run that succeeds has made all of them and leaves nothing. *)
Theorem measurement_cleans_up `{Http} `{HttpUri} `{World} {S : Type}
  (env : string -> option string) (clock : string -> Z) (now instant_max : Z) p
  (handler : forall X, effect X -> S -> S * answer X) (s s' : S) log (r : perf unit)
  (Hmain : main env clock now instant_max = Some p) (Hrun : run handler p s = (log, s', r)) :
  exists namespace,
    client_calls log `prefix_of` protocol namespace /\
    (List.length (left_behind (client_calls log)) <= 1)%nat /\
    (r = Ok tt -> client_calls log = protocol namespace /\ left_behind (client_calls log) = []).
Proof.
  assert (Hns : exists namespace, client_calls log `prefix_of` protocol namespace /\
                  (r = Ok tt -> client_calls log = protocol namespace)).
  { unfold main in Hmain.
    destruct (setup _ _ _ _) as [[setup|e]|]; cbn [mbind option_bind] in Hmain; [| |done];
      apply (inj Some) in Hmain as <-; cbn [bind] in Hrun.
    2:{ cbn [run] in Hrun. injection Hrun as <- <- <-. exists "". split; [apply prefix_nil|done]. }
    unfold measure in Hrun. rewrite run_bind in Hrun.
    destruct (run handler (measured _) s) as [[log1 s1] [[[u elapsed] rss]|e]] eqn:E1;
      apply (in_order_measured _ _ (in_order_done _)) in E1 as [P1 _]; apply prefix_nil_inv in P1;
      [|injection Hrun as <- <- <-; exists ""; rewrite P1; split; [apply prefix_nil|done]].
    rewrite run_bind in Hrun.
    destruct (run handler run_namespace s1) as [[log2 s2] [namespace|e]] eqn:E2;
      apply in_order_namespace in E2 as [P2 _]; apply prefix_nil_inv in P2.
    - exists namespace. destruct (run handler _ s2) as [[log3 s3] r3] eqn:E3 in Hrun.
      apply in_order_phases in E3 as [P3 C3]. injection Hrun as <- <- <-.
      unfold client_calls in *. rewrite !omap_app, P1, P2. split; [exact P3|]. apply C3.
    - injection Hrun as <- <- <-. exists "". unfold client_calls in *.
      rewrite omap_app, P1, P2. split; [apply prefix_nil|done]. }
  destruct Hns as (namespace & P & C). exists namespace. split; [exact P|].
  split; [by eapply left_behind_prefix|]. intros Hr. split; [by apply C|].
  rewrite (C Hr). apply left_behind_protocol.
Qed.

(** A reading is no smaller than the memory found when its phase began and when
it finished, so that its delta is their difference, and it is a value that was
found, however the worker's steps fall between those of the main thread. *)
Theorem phase_reading_covers (rss0 rss1 : option Z) (w0 w1 w2 : list (option Z)) (s : RssSampler) :
  let '(start, s1) := begin_phase rss0 s in
  let '(reading, s2) := finish_phase start rss1 w1 w2 (works w0 s1) in
  before reading = rss0 /\
  (forall b, rss0 = Some b -> 0 < b ->
     exists p, peak reading = Some p /\ b <= p /\ RssReading_delta reading = Some (p - b)) /\
  (forall f, rss1 = Some f -> 0 < f -> exists p, peak reading = Some p /\ f <= p) /\
  (forall p, peak reading = Some p -> Some p ∈ rss0 :: rss1 :: w0 ++ w1 ++ w2).
Proof.
  cbn [begin_phase]. set (s1 := {| phase_peak := default 0 rss0 |}).
  pose proof (works_peak w0 s1) as [L0 C0]. set (s2 := works w0 s1) in *.
  unfold finish_phase. set (s4 := works w2 _).
  assert (Hpeak : phase_peak s2 <= phase_peak s4 /\ (forall f, rss1 = Some f -> f <= phase_peak s4) /\
    (phase_peak s4 = phase_peak s2 \/ Some (phase_peak s4) ∈ rss1 :: w1 ++ w2)).
  { unfold s4. destruct rss1 as [f|].
    - pose proof (works_peak w1 (raise_phase f s2)) as [L1 C1].
      set (s3 := works w1 (raise_phase f s2)) in *.
      pose proof (works_peak w2 (raise_process f s3)) as [L2 C2].
      change (phase_peak (raise_process f s3)) with (phase_peak s3) in *.
      change (phase_peak (raise_phase f s2)) with (Z.max (phase_peak s2) f) in *.
      split_and!; [lia|intros ? [= <-]; lia|]. rewrite !elem_of_cons, elem_of_app.
      destruct C2 as [->|C2]; [|by auto]. destruct C1 as [->|C1]; [|by auto].
      destruct (Z.max_spec (phase_peak s2) f) as [[_ ->]|[_ ->]]; auto.
    - pose proof (works_peak w2 s2) as [L2 C2]. split_and!; [lia|done|].
      rewrite !elem_of_cons, elem_of_app. destruct C2 as [->|C2]; auto. }
  clearbody s4. destruct Hpeak as (L & F & C). change (phase_peak s1) with (default 0 rss0) in *.
  assert (Hn : forall n, 0 < n -> n <= phase_peak s4 -> nonzero (phase_peak s4) = Some (phase_peak s4)).
  { intros n ? ?. unfold nonzero. destruct (Z.eqb_spec (phase_peak s4) 0); [lia|done]. }
  cbn [before peak]. split_and!.
  - done.
  - intros b -> Hb. cbn in L0. exists (phase_peak s4). rewrite (Hn b Hb ltac:(lia)).
    split_and!; [done|lia|]. cbn. unfold saturating_sub. f_equal. lia.
  - intros f -> Hf. specialize (F f eq_refl). exists (phase_peak s4).
    by rewrite (Hn f Hf ltac:(lia)).
  - intros p. unfold nonzero. destruct (Z.eqb_spec (phase_peak s4) 0) as [|N]; [done|].
    intros [= <-]. rewrite !elem_of_cons, !elem_of_app in *.
    destruct C as [E|C]; [|by intuition]. rewrite E in *.
    destruct C0 as [E0|C0]; [|by auto]. rewrite E0 in *. left. by destruct rss0.
Qed.

(** The peak of the process may fall short of a phase's: what is found when a
phase begins is not raised to it. *)
Example process_peak_short :
  let s := RssSampler_start (Some 50) (Some 50) in
  let (b, s) := begin_phase (Some 100) s in
  let (reading, s) := finish_phase b (Some 50) [] [] s in
  peak reading = Some 100 /\ (sampled_process_peak (Some 50) [] s).1 = Some 50.
Proof. by vm_compute. Qed.

(** An output that is empty is told as [unknown], so every worktree is dirty. *)
Lemma worktree_always_dirty h endpoint : git_worktree_dirty (collect_environment h endpoint) = true.
Proof.
  unfold collect_environment, command_output. cbn [git_worktree_dirty].
  destruct (command h "git" _) as [[[] stdout]|]; [|done..].
  by destruct (is_empty (trim _)) eqn:E; [|rewrite E].
Qed.

(** ** A run *)

#[local] Existing Instance sample_uri.
#[local] Existing Instance assoc_http.
#[local] Existing Instance Request.sample_signing_world.

Lemma options_feasible_witness : exists o, parse_options (fun _ => None) = Ok o /\
  budget_and_limit o = Ok (4 * 8 * MIB, 16 * 8 * MIB).
Proof.
  eexists. split; [reflexivity|].
  exact (proj1 (proj2 (options_feasible (fun _ => None) _ eq_refl))).
Defined.

(** The smallest sizes that are accepted. *)
Definition sample_env (name : string) : option string :=
  if bool_decide (name ∈ ["S3_PERF_PAYLOAD_MIB"; "S3_PERF_LARGE_FILE_MIB"; "S3_PERF_PART_MIB"])
  then Some "5"
  else if String.eqb name "MINIO_S3_ENDPOINT" then Some "https://s3.example.com"
  else if starts_with "MINIO_" name then Some "minio"
  else None.

Definition sample_host : Host :=
  {| host_env := sample_env; read_to_string _ := None; command _ _ := None;
     from_utf8_lossy s := s; available_parallelism := None; arch := "x86_64"; os := "linux" |}.

Definition sample_file : SnapshotIo :=
  {| Stream.io_open := Ok tt; io_is_file := Ok true; io_temp := Ok tt; io_reads := [];
     Stream.io_write _ := Ok tt; Stream.io_flush := Ok tt; io_read_only := Ok tt; io_length s := Ok (slen s) |}.

(** Everything succeeds; the clock stands at one second. *)
Definition obliging (X : Type) (e : effect X) (s : unit) : unit * answer X :=
  (s, match e in effect X return X with
      | BeginPhase => Some MIB
      | FinishPhase before => {| before := before; peak := Some (2 * MIB) |}
      | ProcessPeak => Some (2 * MIB)
      | Now => NANOS_PER_SEC
      | ProcessId => 7
      | UnixTime => Some 1
      | UtcNow => (1, Some "1970-01-01T00:00:01Z")
      | HostInfo => sample_host
      | Put _ | Delete _ | Upload _ => Ok tt
      | Get _ => Ok [Ok (payload (5 * MIB))]
      | Head _ => Ok (ObjectMetadata.Mk None (5 * MIB) None None None [] Checksum.default
                        RequestIds.default)
      | TempNew | TempFlush => Ok tt
      | TempWrite _ => Ok tt
      | TempPath => sample_file
      | CreateDirAll _ | WriteFile _ _ => Ok tt
      | ToJson _ => Some "{}"
      | Println _ => tt
      end).

Lemma slen_payload n : 0 <= n -> slen (payload n) = n.
Proof.
  intros Hn. unfold payload. destruct n as [|p|p]; [done| |lia]. cbn [Z.iter].
  induction p as [|p IH] using Pos.peano_ind; [done|]. rewrite Pos.iter_succ, slen_cons, IH; lia.
Qed.

Lemma downloaded_payload n : 0 <= n <= U64_MAX -> downloaded_bytes [Ok (payload n)] 0 = Ok n.
Proof.
  intros Hn. cbn [downloaded_bytes]. unfold checked_add. rewrite slen_payload by lia.
  destruct (Z.leb_spec (0 + n) U64_MAX); [done|lia].
Qed.

Lemma run_warm_up namespace key : object_key (namespace +:+ "/warmup") = Ok key ->
  exists log, run obliging (warm_up namespace) tt = (log, tt, Ok tt).
Proof. intros E. unfold warm_up. rewrite E. by eexists. Qed.

Lemma run_write_file fuel n : 0 <= n <= Z.of_nat fuel * FILE_GENERATION_BUFFER_BYTES ->
  exists log, run obliging (write_file fuel n) tt = (log, tt, Ok tt).
Proof.
  revert n. induction fuel as [|fuel IH]; intros n Hn.
  { assert (n = 0) as -> by lia. by eexists. }
  cbn [write_file].
  destruct (Z.eqb_spec n 0); [by eexists|]. rewrite run_bind. cbn [run io obliging map_err].
  unfold FILE_GENERATION_BUFFER_BYTES in *.
  assert (Hr : 0 <= n - Z.min n (64 * 1024) <= Z.of_nat fuel * (64 * 1024)) by lia.
  destruct (IH _ Hr) as [log E]. rewrite E. by eexists.
Qed.

Lemma run_generate n : 0 <= n ->
  exists log, run obliging (generate_deterministic_file n) tt = (log, tt, Ok tt).
Proof.
  intros Hn. unfold generate_deterministic_file. rewrite run_bind. cbn [run io obliging map_err].
  rewrite run_bind. destruct (run_write_file (file_writes n) n) as [log E].
  { unfold file_writes, FILE_GENERATION_BUFFER_BYTES. pose proof (Z.div_mod n (64 * 1024)).
    pose proof (Z.mod_pos_bound n (64 * 1024)). lia. }
  rewrite E. by eexists.
Qed.

Lemma run_measured {X} (p : Programs.program effect answer PerfError.t X) log x :
  run obliging p tt = (log, tt, Ok x) ->
  exists log, run obliging (measured p) tt
    = (log, tt, Ok (x, 0, {| before := Some MIB; peak := Some (2 * MIB) |})).
Proof.
  intros E. unfold measured. cbn [bind ask run obliging]. rewrite run_bind, E. by eexists.
Qed.

Lemma run_obliged {X} (call : effect (outcome X)) x : (obliging _ call tt).2 = Ok x ->
  run obliging (s3 call) tt = ([Exchanged call (Ok x : answer (outcome X))], tt, Ok x).
Proof. intros E. unfold s3. cbn [run]. unfold obliging in *. cbn [snd] in E. by rewrite E. Qed.

Lemma run_disk_backed s namespace key :
  object_key (namespace +:+ "/disk-backed-managed-multipart") = Ok key ->
  large_file_bytes (options s) = 5 * MIB ->
  exists log t, run obliging (disk_backed_phase s namespace) tt = (log, tt, Ok t) /\
    peak_rss_delta_bytes t = Some MIB.
Proof.
  intros E Hs. unfold disk_backed_phase. rewrite run_bind.
  destruct (run_generate (large_file_bytes (options s))) as [log El]; [by rewrite Hs|].
  rewrite El, E, Hs. eexists _, _. split; [reflexivity|]. reflexivity.
Qed.

Lemma run_single s namespace key : object_key (namespace +:+ "/single-put") = Ok key ->
  payload_bytes (options s) = 5 * MIB ->
  exists log t, run obliging (single_phase s namespace) tt = (log, tt, Ok t).
Proof.
  intros E Hs. unfold single_phase. rewrite E, Hs.
  change (ok_or (try_from USIZE_MAX (5 * MIB)) PerfError.TryFromInt) with (@Ok PerfError.t Z (5 * MIB)).
  cbn [bind]. rewrite run_bind. generalize (put_request key (payload (5 * MIB))). intros put.
  destruct (run_measured _ _ tt (run_obliged (Put put) tt eq_refl)) as [l1 ->]. rewrite run_bind.
  assert (Hd : exists log, run obliging (do! chunks := s3 (Get (GetObjectRequest.new key)) in
             Done (downloaded_bytes chunks 0)) tt = (log, tt, Ok (5 * MIB))).
  { rewrite run_bind, (run_obliged (Get (GetObjectRequest.new key)) [Ok (payload (5 * MIB))] eq_refl).
    cbn [run].
    rewrite downloaded_payload by done. by eexists. }
  destruct Hd as [l2 Hd]. destruct (run_measured _ _ _ Hd) as [l3 ->]. by eexists _, _.
Qed.

Lemma run_multipart s namespace key : object_key (namespace +:+ "/managed-multipart") = Ok key ->
  exists log t, run obliging (multipart_phase s namespace) tt = (log, tt, Ok t).
Proof.
  intros E. unfold multipart_phase. rewrite E. cbn [bind]. rewrite run_bind.
  generalize (upload_request key (MultipartBytes (payload (payload_bytes (options s)))) (multipart_options s)).
  intros r. destruct (run_measured _ _ tt (run_obliged (Upload r) tt eq_refl)) as [l1 ->].
  by eexists _, _.
Qed.

Lemma run_ensure_parent path : exists log, run obliging (ensure_parent path) tt = (log, tt, Ok tt).
Proof.
  unfold ensure_parent. destruct (path_parent path) as [parent|]; [|by eexists].
  destruct (is_empty parent); by eexists.
Qed.

Lemma run_write_outputs o report :
  exists log, run obliging (write_outputs o report) tt = (log, tt, Ok tt).
Proof.
  unfold write_outputs. rewrite run_bind. destruct (run_ensure_parent (json_path o)) as [l1 ->].
  rewrite run_bind. destruct (run_ensure_parent (markdown_path o)) as [l2 ->].
  generalize (render_markdown report). intros text. by eexists.
Qed.

Lemma run_conclude s a b c d e budget limit :
  budget_and_limit (options s) = Ok (budget, limit) -> peak_rss_delta_bytes b = Some MIB ->
  MIB <= limit -> exists log, run obliging (conclude s a b c d e) tt = (log, tt, Ok tt).
Proof.
  intros Hb Hd Hl. unfold conclude. rewrite Hb. cbn [bind ask run obliging ok_or].
  change (1 <? 0) with false. cbn [bind run obliging ask].
  rewrite run_bind. set (report := {| schema_version := 2 |}). clearbody report.
  destruct (run_write_outputs (options s) report) as [log E]. rewrite E.
  cbn [bind run obliging ask]. unfold rss_bound. rewrite Hd. cbn [passed].
  destruct (Z.leb_spec MIB limit); [|lia]. by eexists.
Qed.

Definition feasible (s : Setup) : bool :=
  (large_file_bytes (options s) =? 5 * MIB) && (payload_bytes (options s) =? 5 * MIB) &&
  match budget_and_limit (options s) with Ok (_, limit) => MIB <=? limit | Err _ => false end &&
  match S3Client_new false (client_config s) with Ok _ => true | Err _ => false end.

Lemma feasible_runs s : feasible s = true ->
  exists log, run obliging (measure s) tt = (log, tt, Ok tt).
Proof.
  unfold feasible. rewrite !andb_true_iff, !Z.eqb_eq. intros [[[Hl Hp] Hb] Hc].
  destruct (budget_and_limit (options s)) as [[budget limit]|] eqn:Eb; [|done].
  destruct (S3Client_new false (client_config s)) as [c|] eqn:Ec; [|done]. apply Z.leb_le in Hb.
  unfold measure. rewrite run_bind, Ec. clear Ec Hc.
  destruct (run_measured (Done (map_err PerfError.S3 (Ok c))) _ _ eq_refl) as [l1 ->].
  rewrite run_bind. cbn [run_namespace bind ask run obliging ok_or].
  set (ns := "s3-wire-measurements/" +:+ _).
  assert (Hk : forall name, name ∈ ["/warmup"; "/disk-backed-managed-multipart"; "/single-put";
                                    "/managed-multipart"] ->
    exists k, object_key (ns +:+ name) = Ok k).
  { intros name Hn. repeat (apply elem_of_cons in Hn as [->|Hn]; [by eexists|]).
    by apply elem_of_nil in Hn. }
  clearbody ns.
  rewrite run_bind. destruct (Hk "/warmup") as [k E]; [set_solver|].
  destruct (run_warm_up ns k E) as [l2 ->]. clear k E.
  rewrite run_bind. destruct (Hk "/disk-backed-managed-multipart") as [k E]; [set_solver|].
  destruct (run_disk_backed s ns k E Hl) as (l3 & disk & -> & Hd). clear k E.
  rewrite run_bind. destruct (Hk "/single-put") as [k E]; [set_solver|].
  destruct (run_single s ns k E Hp) as (l4 & [single get] & ->). clear k E.
  rewrite run_bind. destruct (Hk "/managed-multipart") as [k E]; [set_solver|].
  destruct (run_multipart s ns k E) as (l5 & multi & ->).
  edestruct run_conclude as [l6 ->]; [exact Eb|exact Hd|exact Hb|]. by eexists.
Qed.

Lemma sample_run : exists p log,
  main sample_env (fun _ => 0) 0 (2 ^ 63) = Some p /\ run obliging p tt = (log, tt, Ok tt).
Proof.
  assert (Hs : match setup sample_env (fun _ => 0) 0 (2 ^ 63) with
               | Some (Ok s) => feasible s
               | _ => false
               end = true) by (vm_compute; reflexivity).
  unfold main. destruct (setup _ _ _ _) as [[s|e]|]; [|done..].
  destruct (feasible_runs s Hs) as [log Hlog]. eexists _, log. split; [reflexivity|exact Hlog].
Qed.

Lemma measurement_cleans_up_witness : exists p log,
  main sample_env (fun _ => 0) 0 (2 ^ 63) = Some p /\ run obliging p tt = (log, tt, Ok tt) /\
  exists namespace, client_calls log = protocol namespace /\ left_behind (client_calls log) = [].
Proof.
  destruct sample_run as (p & log & Hp & Hrun). exists p, log. split; [exact Hp|].
  split; [exact Hrun|].
  destruct (measurement_cleans_up sample_env (fun _ => 0) 0 (2 ^ 63) p obliging tt tt log (Ok tt)
              Hp Hrun) as (namespace & _ & _ & C).
  exists namespace. exact (C eq_refl).
Defined.

Example phase_reading_shown :
  let (start, s) := begin_phase (Some 10) (RssSampler_start None None) in
  let s := works [None; Some 30; None; None] s in
  let (reading, s) := finish_phase start (Some 20) [None; Some 40] [] s in
  peak reading = Some 40 /\ RssReading_delta reading = Some 30.
Proof. by vm_compute. Qed.
