(* ===== verification/ValueTests.v ===== *)
(** The unit tests of the value types: [src/retry/mod.rs], [src/operation/], and of
[src/error/], [src/credentials/] and [src/config/], run on the model. Where a test
draws at random, or is a property test, it is proved of every draw. *)

From S2P Require Import Prelude Text Errors SigV4 Endpoint Http Retry Quota Types Stream Records.
From S2P Require Import Credentials Config Crc Presign Redaction Verify Standards Testing.
From stdpp Require Import options.
Local Open Scope Z_scope.
Local Open Scope test_scope.

#[local] Existing Instance assoc_http.

(** ** [retry/mod.rs] *)

Module RetryTests.
Definition policy_rejects_invalid_bounds : bool :=
  is_err (RetryPolicy_new 0 (from_millis 1) (from_secs 1) (from_secs 2))
  && is_err (RetryPolicy_new 2 (from_secs 2) (from_secs 1) (from_secs 3)).

Definition delay_is_bounded_by_policy_and_elapsed_time (fastrand : Z -> Z) : bool :=
  unwrap (RetryPolicy_new 10 (from_secs 1) (from_secs 8) (from_secs 10)) (fun policy =>
    (delay fastrand policy 1 (from_secs 1) (Some (from_secs 9)) == Some (from_secs 9))
    && is_none (delay fastrand policy 9 (from_secs 9) (Some (from_secs 30)))
    && is_none (delay fastrand policy 10 (from_secs 9) None)).

Definition throttling_uses_the_standard_longer_backoff_base : bool :=
  unwrap (RetryPolicy_new 4 (from_millis 100) (from_secs 10) (from_secs 30)) (fun policy =>
    (delay_ceiling policy RetryClassification.Retryable 1 == from_millis 100)
    && (delay_ceiling policy RetryClassification.Throttled 1 == from_secs 1)).
End RetryTests.

Theorem retry_tests_pass fastrand : all_pass
  [RetryTests.policy_rejects_invalid_bounds;
   RetryTests.delay_is_bounded_by_policy_and_elapsed_time fastrand;
   RetryTests.throttling_uses_the_standard_longer_backoff_base].
Proof. run_tests. Qed.

(** ** [operation/checksum.rs] *)

Module ChecksumTests.
Definition standard_crc_check_values_match : bool :=
  (crc32 "123456789" == Some 0xcbf43926)
  && (crc32c "123456789" == Some 0xe3069283)
  && (crc64_nvme "123456789" == Some 0xae8b14860a799888).

Definition calculates_s3_base64_values : bool :=
  unwrap (calculate ChecksumAlgorithm.Crc64Nvme "123456789") (fun c =>
    Checksum.crc64_nvme c == Some "rosUhgp5mIg=")
  && unwrap (calculate ChecksumAlgorithm.Sha256 "abc") (fun c =>
       Checksum.sha256 c == Some "ungWv48Bz+pBQUDeXa4iI7ADYaOWF3qctBD/YfIAFa0=").

Definition cooperative_calculation_matches_synchronous_vectors : bool :=
  let bytes := repeated (chr 0x5a) (1024 * 1024 + 17) in
  forallb (fun algorithm =>
    unwrap (calculate_cooperatively algorithm bytes) (fun c =>
    unwrap (calculate algorithm bytes) (fun d => c == d)))
    [ChecksumAlgorithm.Crc32; ChecksumAlgorithm.Crc32c; ChecksumAlgorithm.Crc64Nvme;
     ChecksumAlgorithm.Sha256].
End ChecksumTests.

Lemma cooperative_calculation_matches :
  ChecksumTests.cooperative_calculation_matches_synchronous_vectors = true.
Proof.
  unfold ChecksumTests.cooperative_calculation_matches_synchronous_vectors.
  generalize (repeated (chr 0x5a) (1024 * 1024 + 17)). intros bytes.
  apply forallb_forall. intros a Ha. rewrite calculate_cooperatively_spec.
  repeat (destruct Ha as [<-|Ha]; [by apply bool_decide_eq_true_2|]). done.
Qed.

Theorem checksum_tests_pass : all_pass
  [ChecksumTests.standard_crc_check_values_match;
   ChecksumTests.calculates_s3_base64_values;
   ChecksumTests.cooperative_calculation_matches_synchronous_vectors].
Proof.
  apply all_pass_intro. cbn [forallb id]. rewrite cooperative_calculation_matches.
  vm_compute. reflexivity.
Qed.

(** ** [operation/types.rs] *)

Module TypesTests.
Definition byte_ranges_render_without_off_by_one_changes : bool :=
  unwrap (ByteRange.inclusive 2 9) (fun r => ByteRange.to_header_value r == "bytes=2-9")
  && (ByteRange.to_header_value (ByteRange.from 2) == "bytes=2-")
  && expect (ByteRange.suffix 2) (fun r => ByteRange.to_header_value r == "bytes=-2")
  && is_err (ByteRange.inclusive 9 2)
  && is_none (ByteRange.suffix 0).

Definition presigned_url_formatting_is_redacted : bool :=
  let signed := PresignedUrl.new "https://example.test/key?X-Amz-Signature=secret" in
  negb (contains_str "secret" (format signed))
  && negb (contains_str "secret" (display_presigned_url signed))
  && contains_str "secret" (PresignedUrl.expose signed).

(** The property test. *)
Definition valid_object_keys_round_trip (value : string) : bool :=
  unwrap (ObjectKey.new value) (fun key => ObjectKey.as_str key == value).
End TypesTests.

Theorem types_tests_pass : all_pass
  [TypesTests.byte_ranges_render_without_off_by_one_changes;
   TypesTests.presigned_url_formatting_is_redacted].
Proof. run_tests. Qed.

Theorem valid_object_keys_round_trip_holds value :
  is_empty value = false -> slen value <= MAX_OBJECT_KEY_BYTES ->
  TypesTests.valid_object_keys_round_trip value = true.
Proof.
  intros Hn Hl. unfold TypesTests.valid_object_keys_round_trip, ObjectKey.new. rewrite Hn.
  destruct (MAX_OBJECT_KEY_BYTES <? slen value) eqn:E; [lia|]. by apply bool_decide_eq_true_2.
Qed.

(** ** [operation/object.rs] *)

Module ObjectTests.
Definition delete_batches_are_strictly_bounded : bool :=
  unwrap_err (DeleteObjectsRequest.new []) (fun e =>
    match e with DeleteObjectsError.Empty => true | _ => false end)
  && unwrap (ObjectKey.new "key") (fun key =>
       let too_many := (fun _ => DeleteObjectIdentifier.new key) <$> seqZ 0 (MAX_DELETE_OBJECTS + 1) in
       match DeleteObjectsRequest.new too_many with
       | Err (DeleteObjectsError.TooMany _ _) => true
       | _ => false
       end).

Definition custom_header_values_are_redacted : bool :=
  unwrap (ObjectKey.new "key") (fun key =>
  expect (hv_from_str "sentinel-sse-c-key") (fun value =>
    let request := GetObjectRequest.new key in
    let request := GetObjectRequest.with_headers request
      (hm_insert "x-amz-server-side-encryption-customer-key" value (GetObjectRequest.headers request)) in
    let debug := format request in
    contains_str ("headers: " +:+ quoted "<redacted>") debug
    && negb (contains_str "sentinel-sse-c-key" debug))).

Definition page_sizes_reject_zero_and_values_over_service_limit : bool :=
  is_none (PageSize.new 0)
  && expect (PageSize.new 1) (fun n => PageSize.get n == 1)
  && expect (PageSize.new 1000) (fun n => PageSize.get n == 1000)
  && is_none (PageSize.new 1001).
End ObjectTests.

Theorem object_tests_pass : all_pass
  [ObjectTests.delete_batches_are_strictly_bounded;
   ObjectTests.custom_header_values_are_redacted;
   ObjectTests.page_sizes_reject_zero_and_values_over_service_limit].
Proof. run_tests. Qed.

(** ** [operation/multipart/tests.rs] *)

Module MultipartTests.
Definition completion_rejects_missing_duplicate_and_unordered_parts : bool :=
  unwrap (ObjectKey.new "key") (fun key =>
  unwrap (UploadId.new "upload") (fun upload_id =>
  unwrap (CompletedPart.new 2 "etag-2") (fun two =>
  unwrap (CompletedPart.new 2 "etag-2-again") (fun duplicate =>
  unwrap (CompletedPart.new 1 "etag-1") (fun one =>
    let out_of_order parts :=
      match CompleteMultipartUploadRequest.new key upload_id parts with
      | Err (MultipartError.OutOfOrder _ _) => true
      | _ => false
      end in
    match CompleteMultipartUploadRequest.new key upload_id [] with
    | Err MultipartError.NoCompletedParts => true
    | _ => false
    end
    && out_of_order [two; duplicate] && out_of_order [two; one]))))).

Definition tracked_upload_sorts_concurrent_completion_order : bool :=
  unwrap (ObjectKey.new "key") (fun key =>
  unwrap (UploadId.new "upload") (fun upload_id =>
  unwrap (CompletedPart.new 2 "etag-2") (fun two =>
  unwrap (CompletedPart.new 1 "etag-1") (fun one =>
  unwrap (CompletedPart.new 1 "duplicate") (fun duplicate =>
  unwrap (MultipartUpload.record_part (MultipartUpload.new key upload_id) two) (fun upload =>
  unwrap (MultipartUpload.record_part upload one) (fun upload =>
    (((fun p => PartNumber.get (CompletedPart.part_number p)) <$> MultipartUpload.completed_parts upload)
     == [1; 2])
    && match MultipartUpload.record_part upload duplicate with
       | Err (MultipartError.DuplicatePart _) => true
       | _ => false
       end))))))).

Definition upload_id_rejects_empty_oversized_and_control_values : bool :=
  match UploadId.new "" with Err UploadIdError.Empty => true | _ => false end
  && match UploadId.new (repeated "x" (UploadId.MAX_LENGTH + 1)) with
     | Err (UploadIdError.TooLong length maximum) =>
         (length == UploadId.MAX_LENGTH + 1) && (maximum == UploadId.MAX_LENGTH)
     | _ => false
     end
  && match UploadId.new ("unsafe" +:+ LF +:+ "value") with
     | Err (UploadIdError.AsciiControl index) => index == 6
     | _ => false
     end
  && match UploadId.new ("unsafe" +:+ String (chr 0x7f) "value") with
     | Err (UploadIdError.AsciiControl index) => index == 6
     | _ => false
     end
  && unwrap (UploadId.new "valid-opaque-üpload") (fun id => UploadId.as_str id == "valid-opaque-üpload").

Definition upload_id_and_requests_redact_formatting : bool :=
  unwrap (UploadId.new "do-not-log-this-value") (fun upload_id =>
  unwrap (ObjectKey.new "key") (fun key =>
  expect (PartNumber.new 1) (fun part_number =>
  expect (hv_from_str "sentinel-sse-c-key") (fun value =>
    (display_upload_id upload_id == "[REDACTED]")
    && (format upload_id == "UploadId([REDACTED])")
    && negb (contains_str (UploadId.as_str upload_id) (format upload_id))
    && let request := UploadPartRequest.new key upload_id part_number (SourceBytes "secret body") in
       let request := UploadPartRequest.with_headers request
         (hm_insert "x-amz-server-side-encryption-customer-key" value
            (UploadPartRequest.headers request)) in
       let debug := format request in
       contains_str "UploadId([REDACTED])" debug
       && contains_str ("body: " +:+ quoted "<stream>") debug
       && contains_str ("headers: " +:+ quoted "<redacted>") debug
       && negb (contains_str "do-not-log-this-value" debug)
       && negb (contains_str "secret body" debug)
       && negb (contains_str "sentinel-sse-c-key" debug))))).

Definition request_constructors_retain_validated_upload_ids : bool :=
  unwrap (ObjectKey.new "key") (fun key =>
  unwrap (UploadId.new "upload") (fun upload_id =>
  expect (PartNumber.new 1) (fun part_number =>
    let part := UploadPartRequest.new key upload_id part_number (SourceBytes "") in
    let abort := AbortMultipartUploadRequest.new key upload_id in
    (UploadId.as_str (UploadPartRequest.upload_id part) == "upload")
    && (UploadId.as_str (AbortMultipartUploadRequest.upload_id abort) == "upload")))).

Definition managed_request_debug_redacts_source_and_metadata_values : bool :=
  unwrap (ObjectKey.new "key") (fun key =>
  expect (hv_from_str "sentinel-header-value") (fun value =>
  expect (ManagedMultipartUploadRequest.from_path key (file "/sensitive/source/path")) (fun request =>
    let request := ManagedMultipartUploadRequest.with_metadata request "name" "sensitive-value" in
    let secret headers := hm_insert "x-secret" value headers in
    let headers := ManagedMultipartUploadRequest.headers request in
    let request := ManagedMultipartUploadRequest.with_headers request
      (ManagedMultipartHeaders.Mk (secret (ManagedMultipartHeaders.create headers))
         (secret (ManagedMultipartHeaders.upload_part headers))
         (secret (ManagedMultipartHeaders.complete headers))
         (secret (ManagedMultipartHeaders.abort headers))) in
    let rendered := format request in
    contains_str ("source: " +:+ quoted "file") rendered
    && contains_str "name" rendered
    && (occurrences (quoted "<redacted>") rendered == 4)
    && negb (contains_str "/sensitive/source/path" rendered)
    && negb (contains_str "sensitive-value" rendered)
    && negb (contains_str "sentinel-header-value" rendered)))).

(** [now] is the clock, [Duration::MAX] more than an instant holds. *)
Definition multipart_options_validate_and_derive_the_buffer_bound (now : Z) : bool :=
  let instant_max := I64_MAX * NANOS_PER_SEC + 999999999 in
  is_err (MultipartOptions.new (5 * 1024 * 1024 - 1) 1)
  && is_err (MultipartOptions.new (5 * 1024 * 1024) 0)
  && is_err (MultipartOptions.new (5 * 1024 * 1024) 65)
  && unwrap (MultipartOptions.new (8 * 1024 * 1024) 4) (fun options =>
       (MultipartOptions.maximum_buffered_bytes options == Some (32 * 1024 * 1024))
       && is_err (MultipartOptions.with_transfer_timeout now instant_max options 0)
       && is_err (MultipartOptions.with_cleanup_timeout now instant_max options 0)
       && is_err (MultipartOptions.with_transfer_timeout now instant_max options DURATION_MAX)
       && is_err (MultipartOptions.with_cleanup_timeout now instant_max options DURATION_MAX)).
End MultipartTests.

Theorem multipart_tests_pass : all_pass
  [MultipartTests.completion_rejects_missing_duplicate_and_unordered_parts;
   MultipartTests.tracked_upload_sorts_concurrent_completion_order;
   MultipartTests.upload_id_rejects_empty_oversized_and_control_values;
   MultipartTests.upload_id_and_requests_redact_formatting;
   MultipartTests.request_constructors_retain_validated_upload_ids;
   MultipartTests.managed_request_debug_redacts_source_and_metadata_values].
Proof. run_tests. Qed.

Theorem multipart_options_tests_pass now : 0 <= now ->
  MultipartTests.multipart_options_validate_and_derive_the_buffer_bound now = true.
Proof.
  intros Hn. unfold MultipartTests.multipart_options_validate_and_derive_the_buffer_bound.
  unfold MultipartOptions.with_transfer_timeout, MultipartOptions.with_cleanup_timeout,
    MultipartOptions.validate_deadline.
  assert (now + DURATION_MAX <=? I64_MAX * NANOS_PER_SEC + 999999999 = false) as ->.
  { apply Z.leb_gt. unfold DURATION_MAX, U64_MAX, I64_MAX, NANOS_PER_SEC. lia. }
  vm_compute. reflexivity.
Qed.

(** ** [error/mod.rs] *)

Module ErrorTests.
Definition service_status_is_exposed_without_an_http_type : bool :=
  let error := S3Error.with_service_details (S3Error.invalid_response "service error")
                 (Some "NoSuchKey") 404 None None in
  S3Error.status error == Some 404.

(** A source is its type; what it displays, [secret=do-not-print], is not kept. *)
Definition source_and_cleanup_details_are_redacted : bool :=
  let error := S3Error.with_cleanup_failure (S3Error.transport "s3_wire::error::tests::SensitiveSource")
                 (S3Error.invalid_response "cleanup detail must remain nested") in
  expect (error_source error) (fun source =>
    let rendered := format error +:+ " " +:+ S3Error.display error +:+ " " +:+ source in
    negb (contains_str "do-not-print" rendered)
    && negb (contains_str "cleanup detail" rendered)
    && contains_str "cleanup also failed" rendered).
End ErrorTests.

Theorem error_tests_pass : all_pass
  [ErrorTests.service_status_is_exposed_without_an_http_type;
   ErrorTests.source_and_cleanup_details_are_redacted].
Proof. run_tests. Qed.

(** ** [credentials/mod.rs] *)

Module CredentialsTests.
Definition debug_redacts_all_credential_material : bool :=
  unwrap (Credentials.new "visible-access-id" "visible-secret" (Some "visible-token"))
    (fun credentials =>
       let debug := format credentials in
       negb (contains_str "visible-access-id" debug)
       && negb (contains_str "visible-secret" debug)
       && negb (contains_str "visible-token" debug)).

(** The property test. *)
Definition arbitrary_credential_values_are_redacted (suffix : string) : bool :=
  let access := "ACCESS-" +:+ suffix in
  let secret := "SECRET-" +:+ suffix in
  let token := "TOKEN-" +:+ suffix in
  unwrap (Credentials.new access secret (Some token)) (fun credentials =>
    let debug := format credentials in
    negb (contains_str access debug)
    && negb (contains_str secret debug)
    && negb (contains_str token debug)).

(** A provider that counts its calls, shared by callers that the mutex of the cache
puts in an order; [readings] is the clock of each. *)
Definition counted_call (state : Z * CachedCredentialsProvider.t * list (outcome Credentials.t))
    (now : Z) : Z * CachedCredentialsProvider.t * list (outcome Credentials.t) :=
  let '(calls, cached, results) := state in
  let calls := match CachedCredentialsProvider.lookup cached now with
               | Some _ => calls
               | None => calls + 1
               end in
  let (cached, result) := CachedCredentialsProvider.provide_credentials cached now
    (Credentials.new "visible-access-id" "visible-secret" (Some "visible-token")) in
  (calls, cached, results ++ [result]).

Definition concurrent_cache_misses_share_one_refresh (readings : list Z) : bool :=
  let '(calls, _, results) := fold_left counted_call readings (0, CachedCredentialsProvider.new, []) in
  forallb is_ok results && (List.length results == List.length readings) && (calls == 1).
End CredentialsTests.

Theorem debug_redacts_all_credential_material_passes :
  CredentialsTests.debug_redacts_all_credential_material = true.
Proof. vm_compute. reflexivity. Qed.

Lemma contains_str_prefix p q s : contains_str p s = false -> contains_str (p +:+ q) s = false.
Proof.
  assert (P : forall s, starts_with p s = false -> starts_with (p +:+ q) s = false).
  { intros t. unfold starts_with. destruct (strip_prefix (p +:+ q) t) eqn:E; [|done].
    apply strip_prefix_Some in E as ->. by rewrite app_assoc_str, strip_prefix_app. }
  induction s as [|c s IH]; cbn [contains_str]; [by rewrite !orb_false_r; apply P|].
  intros Hs. bools. rewrite P by done. by apply IH.
Qed.

(** No suffix shows: the text is the same for all. *)
Theorem arbitrary_credential_values_are_redacted_holds suffix :
  CredentialsTests.arbitrary_credential_values_are_redacted suffix = true.
Proof.
  unfold CredentialsTests.arbitrary_credential_values_are_redacted. cbn [Credentials.new].
  set (d := format (Credentials.Mk "ACCESS-" "SECRET-" (Some "TOKEN-") None)).
  change (negb (contains_str ("ACCESS-" +:+ suffix) d) && negb (contains_str ("SECRET-" +:+ suffix) d)
          && negb (contains_str ("TOKEN-" +:+ suffix) d) = true).
  rewrite !contains_str_prefix; [done|..]; subst d; vm_compute; reflexivity.
Qed.

(** The first caller refreshes and every other one finds what it was given. *)
Theorem concurrent_cache_misses_share_one_refresh_holds readings : readings <> [] ->
  CredentialsTests.concurrent_cache_misses_share_one_refresh readings = true.
Proof.
  set (c := Credentials.Mk "visible-access-id" "visible-secret" (Some "visible-token") None).
  assert (R : forall readings results rb,
    fold_left CredentialsTests.counted_call readings
      (1, CachedCredentialsProvider.Mk rb (Some c), results)
    = (1, CachedCredentialsProvider.Mk rb (Some c), results ++ ((fun _ => Ok c) <$> readings))).
  { clear. induction readings as [|now l IH]; intros results rb; cbn [fold_left fmap list_fmap];
      [by rewrite app_nil_r|].
    change (CredentialsTests.counted_call _ now)
      with (1, CachedCredentialsProvider.Mk rb (Some c), results ++ [@Ok S3Error.t _ c]).
    by rewrite IH, <- app_assoc. }
  destruct readings as [|now l]; [done|]. intros _.
  unfold CredentialsTests.concurrent_cache_misses_share_one_refresh. cbn [fold_left].
  change (CredentialsTests.counted_call _ now)
    with (1, CachedCredentialsProvider.Mk (from_secs 60) (Some c), [@Ok S3Error.t _ c]).
  rewrite R, length_app, length_fmap. cbn [List.length].
  rewrite !bool_decide_eq_true_2, !andb_true_r by lia. rewrite forallb_app. cbn.
  apply forallb_forall. intros x Hx. apply list_elem_of_In, list_elem_of_fmap in Hx as (? & -> & _). done.
Qed.

(** ** [config/mod.rs] *)

Module ConfigTests.
(** [S3Config::builder()]. *)
Definition builder (check : S3ConfigBuilder.t -> bool) : bool := expect S3ConfigBuilder.default check.

Definition https_is_the_default_and_http_requires_opt_in : bool :=
  let now _ := 0 in
  builder (fun b =>
    unwrap (S3ConfigBuilder.build (S3ConfigBuilder.set_bucket b "bucket") now) (fun default_config =>
      is_https (S3Config.endpoint default_config))
    && unwrap (Endpoint_new "http://127.0.0.1:9000") (fun endpoint =>
         let local := S3ConfigBuilder.set_endpoint b endpoint in
         is_err (S3ConfigBuilder.build (S3ConfigBuilder.set_bucket local "bucket") now)
         && is_ok (S3ConfigBuilder.build (S3ConfigBuilder.set_bucket
                     (S3ConfigBuilder.allow_http_for_local_testing local) "bucket") now))).

Definition timeouts_must_fit_in_an_instant_deadline : bool :=
  builder (fun b =>
    is_err (S3ConfigBuilder.build (S3ConfigBuilder.set_operation_timeout
      (S3ConfigBuilder.set_bucket b "bucket") DURATION_MAX) (fun _ => 0))).
End ConfigTests.

Theorem config_tests_pass : all_pass
  [ConfigTests.https_is_the_default_and_http_requires_opt_in;
   ConfigTests.timeouts_must_fit_in_an_instant_deadline].
Proof. run_tests. Qed.
