(* ===== verification/ClientTests.v ===== *)
(** The unit tests of [src/client/]: headers, responses, retries and redirects, the
multipart queries and headers, the managed upload, presigned URLs and the client
itself, run on the model. What a test reads from the clock or the network is an
argument; a test with one is proved for all. *)

From S2P Require Import Prelude Text Errors Canonical SigV4 Endpoint Http Retry Quota Types Stream.
From S2P Require Import Xml Records Protocol Response Credentials Config Request Execute Crc Multipart.
From S2P Require Import Headers Calls Objects Parts Presign ToPath Redaction Verify Standards Testing.
From stdpp Require Import gmap.
From stdpp Require Import options.
Local Open Scope Z_scope.
Local Open Scope test_scope.

#[local] Existing Instance assoc_http.

(** [HeaderValue::from_static]. *)
Definition from_static (s : string) (check : HeaderValue -> bool) : bool := expect (hv_from_str s) check.

(** The headers of [pairs], inserted in order. *)
Definition headers_of (pairs : list (string * string)) (check : HeaderMap -> bool) : bool :=
  expect (fold_left (fun headers '(name, value) =>
            h ← headers; v ← hv_from_str value; Some (hm_insert name v h)) pairs (Some hm_empty)) check.

(** ** [client/request/headers.rs] *)

Module RequestHeadersTests.
Definition protected_names_are_case_insensitive_and_values_are_not_reported : bool :=
  expect (hn_from_bytes "X-Amz-Date") (fun name =>
  headers_of [(name, "sentinel-secret")] (fun headers =>
  unwrap_err (request_headers headers) (fun error =>
    contains_str "x-amz-date" (S3Error.message error)
    && negb (contains_str "sentinel-secret" (S3Error.message error))))).

Definition custom_duplicates_are_preserved : bool :=
  from_static "one" (fun one => from_static "two" (fun two =>
  unwrap (request_headers (hm_append "x-example" two (hm_append "x-example" one hm_empty)))
    (fun headers => List.length (hm_get_all headers "x-example") == 2%nat))).

Definition generated_headers_reject_custom_collisions : bool :=
  headers_of [("content-type", "sentinel-secret")] (fun headers =>
  unwrap_err (insert_header headers "content-type" "text/plain") (fun error =>
    contains_str "content-type" (S3Error.message error)
    && negb (contains_str "sentinel-secret" (S3Error.message error)))).

Definition unset_optional_headers_do_not_reserve_their_names : bool :=
  headers_of [("if-match", "custom")] (fun headers =>
  unwrap (insert_optional_header headers "if-match" None) (fun headers =>
    hm_get_str headers "if-match" == Some "custom")).
End RequestHeadersTests.

Theorem request_headers_tests_pass : all_pass
  [RequestHeadersTests.protected_names_are_case_insensitive_and_values_are_not_reported;
   RequestHeadersTests.custom_duplicates_are_preserved;
   RequestHeadersTests.generated_headers_reject_custom_collisions;
   RequestHeadersTests.unset_optional_headers_do_not_reserve_their_names].
Proof. run_tests. Qed.

(** ** [client/request/response.rs] *)

Module ResponseTests.
Definition service_message_filter_rejects_signing_material : bool :=
  negb (is_none (sanitize_service_message "ordinary S3 error"))
  && is_none (sanitize_service_message "X-Amz-Signature=secret")
  && is_none (sanitize_service_message "authorization leaked").

Definition status_and_code_classification_is_structured : bool :=
  (classify_service_error 400 (Some "SlowDown") == ErrorCategory.Throttling)
  && (classify_service_error 403 None == ErrorCategory.Authorization)
  && (classify_service_error 200 (Some "InternalError") == ErrorCategory.Server)
  && (classify_retry 409 (Some "ConditionalRequestConflict") ErrorCategory.Conflict
      == RetryClassification.Retryable).
End ResponseTests.

Theorem response_tests_pass : all_pass
  [ResponseTests.service_message_filter_rejects_signing_material;
   ResponseTests.status_and_code_classification_is_structured].
Proof. run_tests. Qed.

(** ** [client/request/retry.rs] *)

Module ClientRetryTests.
(** [client_for_endpoint(endpoint)]. *)
Definition client_for_endpoint (endpoint : string) (check : S3Client -> bool) : bool :=
  expect S3ConfigBuilder.default (fun builder =>
  unwrap (Endpoint_new endpoint) (fun endpoint =>
  unwrap (S3ConfigBuilder.build
            (S3ConfigBuilder.set_bucket (S3ConfigBuilder.set_endpoint builder endpoint) "bucket")
            (fun _ => 0)) (fun config =>
  unwrap (S3Client_new true config) check))).

(** [client.redirected_aws_authority(region)]. *)
Definition redirected (client : S3Client) (region : string) : option string :=
  redirected_aws_authority (url (S3Config.endpoint (config client))) region.

Definition region_redirect_authority_preserves_whitelisted_aws_endpoint_shapes : bool :=
  forallb (fun '(endpoint, region, expected) =>
    client_for_endpoint endpoint (fun client => redirected client region == Some expected))
    [("https://s3.amazonaws.com", "eu-west-1", "s3.eu-west-1.amazonaws.com");
     ("https://s3.us-east-1.amazonaws.com", "us-west-2", "s3.us-west-2.amazonaws.com");
     ("https://s3.dualstack.us-east-1.amazonaws.com", "us-west-2",
      "s3.dualstack.us-west-2.amazonaws.com");
     ("https://s3-fips.us-east-1.amazonaws.com", "us-gov-west-1",
      "s3-fips.us-gov-west-1.amazonaws.com");
     ("https://s3-fips.dualstack.us-east-1.amazonaws.com", "us-gov-west-1",
      "s3-fips.dualstack.us-gov-west-1.amazonaws.com");
     ("https://s3.cn-north-1.amazonaws.com.cn", "cn-northwest-1",
      "s3.cn-northwest-1.amazonaws.com.cn")].

Definition region_redirect_authority_rejects_non_aws_endpoints : bool :=
  client_for_endpoint "https://objects.example.com" (fun client =>
    redirected client "us-west-2" == None).

Definition retry_after_in_the_past_means_no_delay (now : Z) : bool :=
  headers_of [("retry-after", "Thu, 01 Jan 1970 00:00:00 GMT")] (fun headers =>
    parse_retry_after parse_http_date now headers == Some 0).

Definition accepts_amazon_retry_after_header (now : Z) : bool :=
  headers_of [("x-amz-retry-after", "7")] (fun headers =>
    parse_retry_after parse_http_date now headers == Some (from_secs 7)).

Definition region_redirects_require_a_valid_aws_region_header : bool :=
  headers_of [("x-amz-bucket-region", "eu-west-1")] (fun headers =>
  from_static "amazonaws.com" (fun invalid =>
    (controlled_region_redirect 301 headers == Some "eu-west-1")
    && (controlled_region_redirect 301 (hm_insert "x-amz-bucket-region" invalid headers) == None))).

Definition recognizes_regional_endpoint_shapes : bool :=
  is_regional_name "s3.us-west-2" "s3"
  && is_regional_name "s3-fips.dualstack.us-gov-west-1" "s3-fips.dualstack"
  && negb (is_regional_name "s3.attacker.example" "s3").
End ClientRetryTests.

Theorem client_retry_tests_pass : all_pass
  [ClientRetryTests.region_redirect_authority_preserves_whitelisted_aws_endpoint_shapes;
   ClientRetryTests.region_redirect_authority_rejects_non_aws_endpoints;
   ClientRetryTests.region_redirects_require_a_valid_aws_region_header;
   ClientRetryTests.recognizes_regional_endpoint_shapes].
Proof. run_tests. Qed.

(** Whenever the clock has passed the epoch. *)
Theorem retry_after_tests_pass now : 0 <= now -> all_pass
  [ClientRetryTests.retry_after_in_the_past_means_no_delay now;
   ClientRetryTests.accepts_amazon_retry_after_header now].
Proof.
  intros Hn. repeat constructor.
  change (bool_decide (Some (Z.max (0 - now) 0) = Some 0) = true).
  apply bool_decide_eq_true_2. f_equal. lia.
Qed.

(** ** [client/multipart/tests.rs] *)

Module ClientMultipartTests.
(** [encoded(query)]. *)
Definition encoded (query : list QueryParam) : string := canonical_query query.

Definition upload_queries_encode_opaque_upload_ids_exactly_once : bool :=
  unwrap (UploadId.new "id+/= value") (fun upload_id =>
    (encoded (upload_part_query 7 upload_id) == "partNumber=7&uploadId=id%2B%2F%3D%20value")
    && (encoded (upload_query upload_id) == "uploadId=id%2B%2F%3D%20value")).

Definition list_query_contains_paired_resume_markers_and_bounds : bool :=
  unwrap (UploadId.new "upload/id=") (fun marker =>
  expect (PageSize.new 17) (fun max_uploads =>
  unwrap (list_query (ListMultipartUploadsRequest.Mk (Some "a b/") (Some "/") (Some "last+key")
                        (Some marker) max_uploads hm_empty)) (fun query =>
    encoded query == "delimiter=%2F&key-marker=last%2Bkey&max-uploads=17&prefix=a%20b%2F&upload-id-marker=upload%2Fid%3D&uploads=")))
  && unwrap (UploadId.new "upload-id") (fun marker =>
       is_err (list_query (ListMultipartUploadsRequest.Mk None None None (Some marker)
                             PageSize.default hm_empty))).

Definition list_parts_query_contains_upload_and_bounded_marker : bool :=
  unwrap (ObjectKey.new "key") (fun key =>
  unwrap (UploadId.new "opaque /+") (fun upload_id =>
  expect (PageSize.new 23) (fun max_parts =>
    let request := ListPartsRequest.Mk key upload_id (PartNumber.new 7) max_parts hm_empty in
    encoded (list_parts_query request)
    == "max-parts=23&part-number-marker=7&uploadId=opaque%20%2F%2B"))).

Definition custom_header_values_are_redacted : bool :=
  unwrap (ObjectKey.new "key") (fun key =>
  from_static "sentinel-sse-c-key" (fun value =>
  expect (ManagedMultipartUploadRequest.from_bytes key "body") (fun request =>
    let request := ManagedMultipartUploadRequest.with_metadata request "metadata"
                     "sentinel-metadata-value" in
    let headers := ManagedMultipartUploadRequest.headers request in
    let request := ManagedMultipartUploadRequest.with_headers request
      (ManagedMultipartHeaders.Mk (ManagedMultipartHeaders.create headers)
         (hm_insert "x-amz-server-side-encryption-customer-key" value
            (ManagedMultipartHeaders.upload_part headers))
         (ManagedMultipartHeaders.complete headers) (ManagedMultipartHeaders.abort headers)) in
    let debug := format request in
    contains_str ("source: " +:+ quoted "bytes") debug
    && contains_str ("user_metadata: [" +:+ quoted "metadata" +:+ "]") debug
    && contains_str ("upload_part: " +:+ quoted "<redacted>") debug
    && negb (contains_str "body" debug)
    && negb (contains_str "sentinel-metadata-value" debug)
    && negb (contains_str "sentinel-sse-c-key" debug)))).

Definition request_header_state_is_validated_before_transport : bool :=
  unwrap (ObjectKey.new "key") (fun key =>
    let request := CreateMultipartUploadRequest.new key in
    is_err (create_headers (CreateMultipartUploadRequest.Mk (CreateMultipartUploadRequest.key request)
      (CreateMultipartUploadRequest.content_type request)
      (btree_insert "" "value" (CreateMultipartUploadRequest.user_metadata request))
      (CreateMultipartUploadRequest.checksum_algorithm request)
      (CreateMultipartUploadRequest.checksum_type request)
      (CreateMultipartUploadRequest.headers request))))
  && is_err (checksum_headers (Checksum.Mk None None None None (Some "not-base64")) hm_empty)
  && unwrap (checksum_headers (Checksum.Mk (Some "AAAAAA==") None None None None) hm_empty)
       (fun headers => hm_get_str headers "x-amz-checksum-crc32" == Some "AAAAAA==").
End ClientMultipartTests.

Theorem client_multipart_tests_pass : all_pass
  [ClientMultipartTests.upload_queries_encode_opaque_upload_ids_exactly_once;
   ClientMultipartTests.list_query_contains_paired_resume_markers_and_bounds;
   ClientMultipartTests.list_parts_query_contains_upload_and_bounded_marker;
   ClientMultipartTests.custom_header_values_are_redacted;
   ClientMultipartTests.request_header_state_is_validated_before_transport].
Proof. run_tests. Qed.

(** ** [client/object/headers/request.rs] and [response.rs] *)

Module ObjectHeadersTests.
Definition copy_source_encodes_path_and_version_exactly_once : bool :=
  unwrap (ObjectKey.new "folder/a b%+c") (fun key =>
    copy_source_header (CopySource.Mk "source.bucket" key (Some "v +/="))
    == "/source.bucket/folder/a%20b%25%2Bc?versionId=v%20%2B%2F%3D").

Definition dynamic_metadata_headers_reject_custom_collisions : bool :=
  headers_of [("x-amz-meta-owner", "custom")] (fun headers =>
  unwrap_err (insert_user_metadata headers [("owner", "should-not-appear")]) (fun error =>
    contains_str "x-amz-meta-owner" (S3Error.message error)
    && negb (contains_str "custom" (S3Error.message error))
    && negb (contains_str "should-not-appear" (S3Error.message error)))).

Definition conditional_dates_use_http_wire_format : bool :=
  format_http_date (utc 2024 3 12 10 15 30) == "Tue, 12 Mar 2024 10:15:30 GMT".

Definition parses_complete_metadata_headers : bool :=
  headers_of [("content-length", "7"); ("content-type", "text/plain"); ("etag", quoted "tag");
              ("last-modified", "Tue, 12 Mar 2024 10:15:30 GMT"); ("x-amz-version-id", "version");
              ("x-amz-meta-owner", "runtrue"); ("x-amz-checksum-sha256", "sum=");
              ("x-amz-request-id", "request"); ("x-amz-id-2", "host")] (fun headers =>
  unwrap (parse_object_metadata headers) (fun parsed =>
    (ObjectMetadata.content_length parsed == 7)
    && (ObjectMetadata.content_type parsed == Some "text/plain")
    && (ObjectMetadata.e_tag parsed == Some (quoted "tag"))
    && (btree_get "owner" (ObjectMetadata.user_metadata parsed) == Some "runtrue")
    && (Checksum.sha256 (ObjectMetadata.checksum parsed) == Some "sum=")
    && (RequestIds.request_id (ObjectMetadata.request_ids parsed) == Some "request")
    && (ObjectMetadata.last_modified parsed == Some (utc 2024 3 12 10 15 30)))).

Definition validates_only_full_object_sha256_checksums : bool :=
  let checksum value checksum_type (check : HeaderMap -> bool) :=
    headers_of ([("x-amz-checksum-sha256", value)]
                ++ match checksum_type with
                   | Some t => [("x-amz-checksum-type", t)]
                   | None => []
                   end) check in
  let invalid headers :=
    unwrap_err (verified_download_sha256 headers) (fun error =>
      S3Error.category error == ErrorCategory.InvalidResponse) in
  let digest := "ungWv48Bz+pBQUDeXa4iI7ADYaOWF3qctBD/YfIAFa0=" in
  checksum digest None (fun headers =>
    unwrap (verified_download_sha256 headers) (fun verified => verified == Some (sha256 "abc")))
  && checksum digest (Some "COMPOSITE") (fun headers =>
       unwrap (verified_download_sha256 headers) (fun verified => verified == None))
  && checksum "not-base64" (Some "FULL_OBJECT") invalid
  && checksum "YQ==" (Some "FULL_OBJECT") invalid.

Definition content_ranges_are_strictly_validated : bool :=
  headers_of [("content-range", "bytes 2-8/10")] (fun headers =>
    unwrap (parse_content_range headers) (fun range => range == Some (2, 8, Some 10)))
  && headers_of [("content-range", "bytes 8-2/10")] (fun headers =>
       is_err (parse_content_range headers))
  && headers_of [("content-range", "bytes 2-10/10")] (fun headers =>
       is_err (parse_content_range headers)).
End ObjectHeadersTests.

Theorem object_headers_tests_pass : all_pass
  [ObjectHeadersTests.copy_source_encodes_path_and_version_exactly_once;
   ObjectHeadersTests.dynamic_metadata_headers_reject_custom_collisions;
   ObjectHeadersTests.conditional_dates_use_http_wire_format;
   ObjectHeadersTests.parses_complete_metadata_headers;
   ObjectHeadersTests.validates_only_full_object_sha256_checksums;
   ObjectHeadersTests.content_ranges_are_strictly_validated].
Proof. run_tests. Qed.

(** ** [client/mod.rs] *)

Module ClientTests.
Definition bucket_handles_reuse_validated_service_configuration : bool :=
  expect S3ConfigBuilder.default (fun builder =>
  unwrap (S3ConfigBuilder.build (S3ConfigBuilder.set_bucket builder "first-bucket") (fun _ => 0))
    (fun config' =>
  unwrap (S3Client_new true config') (fun client =>
  unwrap (S3Client_for_bucket client "second-bucket") (fun second =>
    (S3Config.bucket (config client) == "first-bucket")
    && (S3Config.bucket (config second) == "second-bucket")
    && (serialized (url (S3Config.endpoint (config client)))
        == serialized (url (S3Config.endpoint (config second))))
    && (base_path (S3Config.endpoint (config client)) == base_path (S3Config.endpoint (config second)))
    && is_err (S3Client_for_bucket client ""))))).

(** An acquisition that is committed, and the permit then dropped. *)
Definition acquire_and_commit (quota : RetryQuota) (check : RetryQuota -> bool) : bool :=
  let (quota, permit) := acquire quota RetryClassification.Retryable in
  expect permit (fun permit =>
    let (permit, cost) := RetryPermit_commit permit in
    (cost == TRANSIENT_RETRY_COST) && check (RetryPermit_drop quota permit)).

Definition retry_quota_is_shared_bounded_and_replenished : bool :=
  Nat.iter 35 (fun check quota => acquire_and_commit quota check) (fun quota =>
    is_none (acquire quota RetryClassification.Retryable).2
    && acquire_and_commit (replenish_after_success quota (Some TRANSIENT_RETRY_COST)) (fun _ => true))
    RetryQuota_new.

Definition unused_retry_permit_returns_its_tokens : bool :=
  let (quota, permit) := acquire RetryQuota_new RetryClassification.Retryable in
  expect permit (fun permit =>
    tokens (RetryPermit_drop quota permit) == RETRY_QUOTA_CAPACITY).
End ClientTests.

Theorem client_tests_pass : all_pass
  [ClientTests.bucket_handles_reuse_validated_service_configuration;
   ClientTests.retry_quota_is_shared_bounded_and_replenished;
   ClientTests.unused_retry_permit_returns_its_tokens].
Proof. run_tests. Qed.

(** ** [client/presign.rs] *)

Module PresignTests.
(** The client of the tests, for a bucket [bucket] and these credentials. *)
Definition presigning_client (credentials : Credentials.t) (check : S3Client -> bool) : bool :=
  expect S3ConfigBuilder.default (fun builder =>
  unwrap (S3ConfigBuilder.build
            (S3ConfigBuilder.set_credentials_provider (S3ConfigBuilder.set_bucket builder "bucket")
               (StaticCredentialsProvider.provide_credentials (StaticCredentialsProvider.new credentials)))
            (fun _ => 0)) (fun config =>
  unwrap (S3Client_new true config) check)).

Definition presigned_output_requires_explicit_exposure (now : Z) : bool :=
  unwrap (Credentials.new "access" "secret" None) (fun credentials =>
  presigning_client credentials (fun client =>
    unwrap (ObjectKey.new "a/../b") (fun key =>
    unwrap (presigned_get client key (from_secs 60) tt now) (fun url =>
      negb (contains_str "X-Amz-Signature" (format url))
      && contains_str "/bucket/a/../b?" (PresignedUrl.expose url)
      && contains_str "X-Amz-Signature=" (PresignedUrl.expose url)))
    && unwrap (UploadId.new "opaque/upload+id") (fun upload_id =>
       unwrap (ObjectKey.new "multipart") (fun key =>
       expect (PartNumber.new 7) (fun part_number =>
       unwrap (presigned_upload_part client key upload_id part_number (from_secs 60) tt now)
         (fun multipart =>
          contains_str "partNumber=7" (PresignedUrl.expose multipart)
          && contains_str "uploadId=opaque%2Fupload%2Bid" (PresignedUrl.expose multipart)
          && contains_str "X-Amz-Signature=" (PresignedUrl.expose multipart))))))).

(** The clock reads [now] for the credentials and [later] when the URL is made. *)
Definition presigned_url_must_expire_before_session_credentials (now later : Z) : bool :=
  unwrap (Credentials.with_expiration "access" "secret" (Some "session")
            (Some (now + from_secs (5 * 60)))) (fun credentials =>
  presigning_client credentials (fun client =>
  unwrap (ObjectKey.new "key") (fun key =>
  unwrap_err (presigned_get client key (from_secs (5 * 60)) tt later) (fun error =>
    S3Error.category error == ErrorCategory.Authentication)))).
End PresignTests.

Theorem presign_tests_pass : all_pass
  [PresignTests.presigned_output_requires_explicit_exposure (utc 2026 1 2 3 4 5)].
Proof. run_tests. Qed.

(** The client that a test presigns with. *)
Lemma presigning_client_spec credentials : exists client,
  (forall check, PresignTests.presigning_client credentials check = check client) /\
  S3Config.credentials_provider (config client) = (fun _ => Ok credentials) /\
  is_ok (operation_target client (Some "key")) = true.
Proof.
  eexists. split; [intros check; vm_compute; reflexivity|]. split; [reflexivity|vm_compute; reflexivity].
Qed.

(** Credentials that end in [expires] are refused a URL that lasts as long. *)
Lemma presign_outlived method (c : S3Client) key query expires w now later cr :
  S3Config.credentials_provider (config c) w = Ok cr ->
  is_ok (operation_target c (Some (ObjectKey.as_str key))) = true ->
  Credentials.expires_at cr = Some (now + expires) -> now <= later -> as_secs expires <= I64_MAX ->
  unwrap_err (presign c method key query expires w later) (fun error =>
    S3Error.category error == ErrorCategory.Authentication) = true.
Proof.
  intros Hc Ht He Hn Hs. unfold presign. destruct (operation_target c _) as [target|]; [|done].
  rewrite Hc. destruct (Credentials.expires_by cr later); [done|].
  unfold outlives, url_expiry. rewrite He, (proj2 (Z.leb_le _ _) Hs).
  destruct (later + expires <=? OFFSET_DATE_TIME_MAX); [|done].
  by rewrite (proj2 (Z.leb_le _ _) (Zplus_le_compat_r _ _ expires Hn)).
Qed.

(** Whatever the clock reads, and however much later. *)
Theorem presign_expiry_tests_pass now later : now <= later ->
  PresignTests.presigned_url_must_expire_before_session_credentials now later = true.
Proof.
  intros Hn. unfold PresignTests.presigned_url_must_expire_before_session_credentials.
  set (credentials := Credentials.Mk "access" "secret" (Some "session") (Some (now + from_secs (5 * 60)))).
  change (Credentials.with_expiration _ _ _ _) with (@Ok S3Error.t _ credentials). cbn [unwrap].
  destruct (presigning_client_spec credentials) as (c & -> & Hc & Ht).
  change (ObjectKey.new "key") with (@Ok ObjectKeyError.t _ (ObjectKey.Mk "key")). cbn [unwrap].
  apply (presign_outlived _ _ _ _ _ _ now later credentials); [by rewrite Hc|done..|]. by vm_compute.
Qed.

(** ** [client/multipart_upload.rs] *)

Module MultipartUploadTests.
Definition cleanup_failure_does_not_replace_primary_error : bool :=
  let primary := S3Error.integrity "primary" in
  let cleanup := S3Error.invalid_response "cleanup" in
  let combined := attach_cleanup_failure primary (Err cleanup) in
  (S3Error.category combined == ErrorCategory.Integrity)
  && (S3Error.message combined == "primary")
  && ((S3Error.category <$> S3Error.cleanup_failure combined) == Some ErrorCategory.InvalidResponse).

Definition byte_parts_are_exact_and_bounded : bool :=
  let source := PreparedMultipartBytes "abcdefghij" in
  unwrap (part_count source 4) (fun n => n == 3)
  && unwrap (read_part source 4 1) (fun part => part == "abcd")
  && unwrap (read_part source 4 2) (fun part => part == "efgh")
  && unwrap (read_part source 4 3) (fun part => part == "ij").

(** The file is written anew after the snapshot, which does not read it again. *)
Definition file_source_is_snapshotted_before_parts_are_read : bool :=
  unwrap (PreparedMultipartSource_prepare (MultipartFile (file "original"))) (fun source =>
  unwrap (read_part source 8 1) (fun part => part == "original")).

(** One request, which is still pending when the time for quiescing is over. *)
Definition cleanup_reports_part_requests_that_cannot_quiesce : bool :=
  let primary := S3Error.cancellation "primary" in
  match quiesce_part_requests [1] [false] with
  | Some quiesce_failure =>
      negb (is_none quiesce_failure) && (S3Error.category primary == ErrorCategory.Cancellation)
  | None => false
  end.

Definition part_count_rejects_empty_and_excessive_sources : bool :=
  is_err (part_count (PreparedMultipartBytes "") 5)
  && is_err (part_count (PreparedMultipartBytes (repeated (chr 0) 10001)) 1).
End MultipartUploadTests.

Theorem multipart_upload_tests_pass : all_pass
  [MultipartUploadTests.cleanup_failure_does_not_replace_primary_error;
   MultipartUploadTests.byte_parts_are_exact_and_bounded;
   MultipartUploadTests.file_source_is_snapshotted_before_parts_are_read;
   MultipartUploadTests.cleanup_reports_part_requests_that_cannot_quiesce;
   MultipartUploadTests.part_count_rejects_empty_and_excessive_sources].
Proof. run_tests. Qed.

(** ** [client/download.rs] *)

Module DownloadTests.
(** The directory holds the destination and the temporary file written to it. *)
Definition atomic_persist_replaces_an_existing_destination (io : FileIo) : bool :=
  let directory : gmap string string := {["dir/object" := "old"; "dir/.tmp" := "new"]} in
  let (directory, persisted) := persist_download io "dir/.tmp" "dir/object" directory in
  unwrap persisted (fun _ => directory !! "dir/object" == Some "new").
End DownloadTests.

(** On a file system that renames. *)
Theorem download_tests_pass io : io_persist io = Ok tt ->
  DownloadTests.atomic_persist_replaces_an_existing_destination io = true.
Proof.
  intros Hp. unfold DownloadTests.atomic_persist_replaces_an_existing_destination, persist_download.
  rewrite Hp. cbn [unwrap]. vm_compute. reflexivity.
Qed.

(** ** [client/request/execute.rs] *)

Module ExecuteTests.
(** [client.signed_request(..)] of a GET without a body, the clock at [now]. *)
Definition signed (client : S3Client) (target : EndpointUrl) (headers : HeaderMap)
    (signing_region : string) (now : Z) : outcome Request :=
  (signed_request (S3Config.credentials_provider (config client))
     {| provider_world := tt; expiry_now := now; signing_now := now |}
     {| si_method := "GET"; si_target := target; si_query := []; si_headers := headers;
        si_body := None; si_payload_hash := payload_sha256_hex ""; si_signing_region := signing_region |}).1.

Definition resigned_as_expected (request : Request) (region authority : string) : bool :=
  ((hv_to_str <$> hm_get_all (rq_headers request) "x-example") == [Some "one"; Some "two"])
  && expect (rq_uri request) (fun uri => (auth_str <$> uri_authority uri) == Some authority)
  && expect (hm_get_str (rq_headers request) "authorization") (fun authorization =>
       contains_str "Credential=access/20" authorization
       && contains_str ("/" +:+ region +:+ "/s3/aws4_request") authorization
       && expect (after "SignedHeaders=" authorization) (fun rest =>
            let (signed_headers, _) := break_at "," rest in
            existsb (String.eqb "x-example") (split_all ";" signed_headers))).

Definition aws_region_correction_resigns_the_same_custom_headers_for_the_new_authority (now : Z) : bool :=
  unwrap (Credentials.new "access" "secret" None) (fun credentials =>
  expect S3ConfigBuilder.default (fun builder =>
  unwrap (for_aws_region "us-east-1") (fun endpoint =>
  unwrap (S3ConfigBuilder.build
            (S3ConfigBuilder.set_credentials_provider
               (S3ConfigBuilder.set_bucket
                  (S3ConfigBuilder.set_region (S3ConfigBuilder.set_endpoint builder endpoint) "us-east-1")
                  "bucket")
               (StaticCredentialsProvider.provide_credentials (StaticCredentialsProvider.new credentials)))
            (fun _ => 0)) (fun config' =>
  unwrap (S3Client_new true config') (fun client =>
  unwrap (operation_target client (Some "key")) (fun initial_target =>
  expect (ClientRetryTests.redirected client "us-west-2") (fun corrected_authority =>
  unwrap (with_authority initial_target corrected_authority) (fun corrected_target =>
  from_static "one" (fun one => from_static "two" (fun two =>
    let caller_headers := hm_append "x-example" two (hm_append "x-example" one hm_empty) in
    unwrap (signed client initial_target caller_headers "us-east-1" now) (fun initial =>
      resigned_as_expected initial "us-east-1" "s3.us-east-1.amazonaws.com")
    && unwrap (signed client corrected_target caller_headers "us-west-2" now) (fun corrected =>
         resigned_as_expected corrected "us-west-2" "s3.us-west-2.amazonaws.com")
    && (List.length (hm_get_all caller_headers "x-example") == 2%nat))))))))))).
End ExecuteTests.

Theorem execute_tests_pass : all_pass
  [ExecuteTests.aws_region_correction_resigns_the_same_custom_headers_for_the_new_authority
     (utc 2026 1 2 3 4 5)].
Proof. run_tests. Qed.
