(* ===== verification/StreamTests.v ===== *)
(** The unit tests of [src/stream/] and [src/transport/mod.rs], run on the model.
The other end of a connection is a function from the request it is handed to what
the HTTP client answers; a paused clock is a list of readings. *)

From S2P Require Import Prelude Text Errors SigV4 Endpoint Http Stream Download Credentials Request.
From S2P Require Import Verify Standards Testing.
From stdpp Require Import options.
Local Open Scope Z_scope.
Local Open Scope test_scope.

#[local] Existing Instance assoc_http.

(** ** [stream/upload.rs] *)

Module UploadTests.
(** [body.collect()], of a stream that is never pending. *)
Definition collect `{Primitives} (b : TransportBody) : outcome string :=
  match send_body (S (S (List.length (stream b)))) b with
  | (out, Some (Ok _), _) => Ok out
  | (_, Some (Err e), _) => Err e
  | (_, None, _) => Err (S3Error.integrity "the body has not ended")
  end.

(** [prepared.request_body()], collected; the prepared body goes on. *)
Definition attempt (prepared : PreparedBody) (check : outcome string -> PreparedBody -> bool) : bool :=
  let (body, prepared) := request_body prepared in
  unwrap body (fun body => check (collect body) prepared).

Definition bytes_are_replayable_and_hashed : bool :=
  unwrap (prepare (SourceBytes "hello")) (fun prepared =>
    is_replayable prepared
    && (body_length prepared == 5)
    && (sha256_hex prepared == "2cf24dba5fb0a30e26e83b2ac5b9e29e1b161e5c1fa7425e73043362938b9824")
    && attempt prepared (fun first prepared =>
       attempt prepared (fun second _ =>
         unwrap first (fun first => unwrap second (fun second =>
           (first == "hello") && (second == first)))))).

Definition one_shot_stream_rejects_second_attempt : bool :=
  unwrap (prepare (SourceStream [Chunk "x"] 1 (sha256 "x"))) (fun prepared =>
    negb (is_replayable prepared)
    && attempt prepared (fun first prepared => is_ok first && is_err (request_body prepared).1)).

(** The original is written anew; the snapshot is what is read. *)
Definition file_retries_use_the_immutable_hashed_snapshot : bool :=
  unwrap (prepare (SourceFile (file "signed bytes"))) (fun prepared =>
  attempt prepared (fun first prepared =>
  attempt prepared (fun second _ =>
    unwrap first (fun body => body == "signed bytes")
    && unwrap second (fun body => body == "signed bytes")))).

Definition one_shot_stream_enforces_declared_length_and_digest : bool :=
  unwrap (prepare (SourceStream [Chunk "ab"] 1 (sha256 "a"))) (fun prepared =>
    attempt prepared (fun body _ => is_err body))
  && unwrap (prepare (SourceStream [Chunk "x"] 1 (repeated (chr 0) 32))) (fun prepared =>
       attempt prepared (fun body _ => is_err body))
  && unwrap (prepare (SourceStream [Chunk "a"; Chunk "b"] 1 (sha256 "a"))) (fun prepared =>
       attempt prepared (fun body _ =>
         unwrap_err body (fun error => S3Error.category error == ErrorCategory.Integrity))).
End UploadTests.

Theorem upload_tests_pass : all_pass
  [UploadTests.bytes_are_replayable_and_hashed;
   UploadTests.one_shot_stream_rejects_second_attempt;
   UploadTests.file_retries_use_the_immutable_hashed_snapshot;
   UploadTests.one_shot_stream_enforces_declared_length_and_digest].
Proof. run_tests. Qed.

(** ** [stream/download.rs] *)

Module ResponseStreamTests.
(** [body.next()], polled at each of [clock]; [None] while it waits. *)
Fixpoint next (clock : list Z) (r : ResponseStream)
  : option (option (outcome string) * ResponseStream) :=
  match clock with
  | [] => None
  | now :: clock =>
      polled ← poll_next now now r;
      match polled with
      | (Ready item, r) => Some (item, r)
      | (Pending, r) => next clock r
      end
  end.

Definition response_detects_truncation : bool :=
  let body := ResponseStream_new 0 [Data "abc"] (Some 4) (from_secs 1) in
  expect (next [0] body) (fun '(first, body) =>
    expect first is_ok &&
  expect (next [0] body) (fun '(second, body) =>
    expect second is_err &&
  expect (next [0] body) (fun '(third, _) => is_none third))).

(** Polled when it is made, again as the empty chunk wakes it, and two seconds later. *)
Definition empty_download_chunks_do_not_count_as_progress : bool :=
  let body := ResponseStream_new 0 [Data ""; Waiting] None (from_secs 2) in
  expect (next [0; 0; from_secs 2] body) (fun '(item, _) =>
  expect item (fun result => unwrap_err result (fun error =>
    S3Error.timeout_phase error == Some TimeoutPhase.ResponseBody))).

Definition response_enforces_operation_deadline : bool :=
  let body := with_deadline 0 [Waiting] None None (from_secs 60) (from_secs 2) in
  expect (next [0; from_secs 2] body) (fun '(item, _) =>
  expect item (fun result => unwrap_err result (fun error =>
    S3Error.timeout_phase error == Some TimeoutPhase.Operation))).

Definition response_verifies_expected_sha256_at_end_of_stream : bool :=
  let body := with_deadline 0 [Data "abc"] (Some 3) (Some (sha256 "abc")) (from_secs 1) (from_secs 1) in
  expect (next [0] body) (fun '(item, body) =>
    expect item (fun result => unwrap result (fun chunk => chunk == "abc"))
    && expect (next [0] body) (fun '(item, _) => is_none item))
  && let body := with_deadline 0 [Data "abc"] (Some 3) (Some (sha256 "different")) (from_secs 1)
                   (from_secs 1) in
     expect (next [0] body) (fun '(item, body) =>
       expect item is_ok
       && expect (next [0] body) (fun '(item, _) =>
          expect item (fun result => unwrap_err result (fun error =>
            (S3Error.category error == ErrorCategory.Integrity)
            && (S3Error.retry_classification error == RetryClassification.Never))))).
End ResponseStreamTests.

Theorem response_stream_tests_pass : all_pass
  [ResponseStreamTests.response_detects_truncation;
   ResponseStreamTests.empty_download_chunks_do_not_count_as_progress;
   ResponseStreamTests.response_enforces_operation_deadline;
   ResponseStreamTests.response_verifies_expected_sha256_at_end_of_stream].
Proof. run_tests. Qed.

(** ** [transport/mod.rs] *)

Module TransportTests.
(** [Transport::new(1 s, "s3-wire/test", allow_http)], with or without HTTP/2. *)
Definition transport (http2 allow_http : bool) : outcome Transport :=
  Transport_new http2 (from_secs 1) "s3-wire/test" allow_http.
Definition request (method uri : string) (body : TransportBody) : Request :=
  {| rq_method := method; rq_uri := parse_uri uri; rq_headers := hm_empty; rq_body := body |}.

Definition transport_builds_with_verified_tls_defaults (http2 : bool) : bool :=
  unwrap (transport http2 false) (fun t =>
    webpki_roots (connector t) && https_only (connector t)).

Definition plain_http_requires_explicit_transport_permission (http2 : bool)
    (client : Request -> client_answer Z) : bool :=
  unwrap (transport http2 false) (fun transport =>
    let (sent, response) :=
      send transport client (request "GET" "http://127.0.0.1:9/key" TransportBody_empty) in
    is_none sent
    && unwrap_err response (fun error => S3Error.category error == ErrorCategory.Configuration)).

(** The server answers 302 with a location; what it was sent is the request head. *)
Definition sends_exact_origin_form_without_following_redirects (http2 : bool) : bool :=
  unwrap (transport http2 true) (fun transport =>
    let target := "http://127.0.0.1:9000/bucket/a/../b//.?partNumber=7&uploadId=a%2Fb" in
    let (sent, response) :=
      send transport (fun _ => Answered 302) (request "GET" target TransportBody_empty) in
    unwrap response (fun status => status == 302)
    && expect sent (fun sent => expect (rq_uri sent) (fun uri =>
         (rq_method sent == "GET")
         && (uri_path uri == "/bucket/a/../b//.") && (uri_query uri == Some "partNumber=7&uploadId=a%2Fb")
         && ((auth_str <$> uri_authority uri) == Some "127.0.0.1:9000")))).

(** hyper sends the body and wraps the error it ends in. *)
Definition hyper (request : Request) : client_answer Z :=
  match UploadTests.collect (rq_body request) with
  | Ok _ => Answered 200
  | Err e => ClientFailed {| error_chain := [CauseOther; CauseS3 e]; is_connect := false |}
  end.

Definition preserves_upload_integrity_errors_wrapped_by_hyper (http2 : bool) : bool :=
  unwrap (prepare (SourceStream [Chunk "x"] 1 (sha256 "wrong"))) (fun prepared =>
  unwrap (request_body prepared).1 (fun body =>
  unwrap (transport http2 true) (fun transport =>
  unwrap_err (send transport hyper (request "PUT" "http://127.0.0.1:9000/bucket/key" body)).2
    (fun error =>
       (S3Error.category error == ErrorCategory.Integrity)
       && (S3Error.retry_classification error == RetryClassification.Never))))).

(** What hyper reports of a response cut short. *)
Definition classifies_incomplete_response_body_as_integrity_failure : bool :=
  let error := classify_response_body_error "hyper::error::Error" in
  (S3Error.category error == ErrorCategory.Integrity)
  && (S3Error.retry_classification error == RetryClassification.Never).
End TransportTests.

Theorem transport_tests_pass http2 client : all_pass
  [TransportTests.transport_builds_with_verified_tls_defaults http2;
   TransportTests.plain_http_requires_explicit_transport_permission http2 client;
   TransportTests.sends_exact_origin_form_without_following_redirects http2;
   TransportTests.preserves_upload_integrity_errors_wrapped_by_hyper http2;
   TransportTests.classifies_incomplete_response_body_as_integrity_failure].
Proof. destruct http2; run_tests. Qed.
