(* ===== verification/ProtocolTests.v ===== *)
(** The unit tests of [src/protocol/], run on the model with the documents of
[Serde]: the bytes of each test, read and written. *)

From S2P Require Import Prelude Text Errors Canonical Types Http Records Xml Protocol.
From S2P Require Import Standards Testing Serde Wire.
From stdpp Require Import options.
Local Open Scope Z_scope.
Local Open Scope test_scope.

#[local] Existing Instance assoc_http.

(** A byte string of a test, its double quotes written as back quotes. *)
Definition quotes (s : string) : string := str_map (fun c => if Ascii.eqb c "`" then chr 34 else c) s.

(** [matches!(result, Err(ProtocolError::InvalidField { field: .., .. }))]. *)
Definition invalid_field_error {A} (r : result ProtocolError.t A) (field : string) : bool :=
  match r with
  | Err (ProtocolError.InvalidField f _) => f == field
  | _ => false
  end.
Definition oversized {A} (r : result ProtocolError.t A) : bool :=
  match r with Err (ProtocolError.Oversized _ _) => true | _ => false end.

(** ** [protocol/xml.rs] *)

Module XmlTests.
(** [struct Value { #[serde(rename = "$text")] text: String }]. *)
Definition value_document : XmlTree -> result string string := text_value.
Definition value_pieces (text : string) : list string := [write_tree (text_element "Value" text)].

Definition parsing_enforces_the_bound_before_decoding : bool :=
  oversized (parse_bounded (read_as value_document) "<Value>content</Value>" 4).

Definition dtd_and_entities_are_rejected : bool :=
  let body := "<!DOCTYPE Value [<!ENTITY x SYSTEM 'file:///etc/passwd'>]><Value>&x;</Value>" in
  match parse_bounded (read_as value_document) body (slen body) with
  | Err (ProtocolError.InvalidXml _) => true
  | _ => false
  end.

Definition serialization_never_grows_beyond_its_bound : bool :=
  oversized (serialize_bounded fmt_error (value_pieces "content") None 4)
  && unwrap (serialize_bounded fmt_error (value_pieces "content") None 64) (fun body =>
       body == "<Value>content</Value>").
End XmlTests.

Theorem xml_tests_pass : all_pass
  [XmlTests.parsing_enforces_the_bound_before_decoding;
   XmlTests.dtd_and_entities_are_rejected;
   XmlTests.serialization_never_grows_beyond_its_bound].
Proof. run_tests. Qed.

(** ** [protocol/error.rs] *)

Module ErrorDocumentTests.
Definition parses_namespaced_error_documents : bool :=
  let body := quotes "<Error xmlns=`http://s3.amazonaws.com/doc/2006-03-01/`><Code>NoSuchKey</Code><Message>missing</Message><RequestId>req</RequestId><HostId>host</HostId></Error>" in
  unwrap (parse_s3_error de_error body 4096) (fun parsed =>
    (ParsedS3Error.code parsed == Some "NoSuchKey")
    && (ParsedS3Error.request_id parsed == Some "req")
    && (ParsedS3Error.host_id parsed == Some "host")).
End ErrorDocumentTests.

Theorem error_document_tests_pass : all_pass
  [ErrorDocumentTests.parses_namespaced_error_documents].
Proof. run_tests. Qed.

(** ** [protocol/delete.rs] *)

Module DeleteTests.
Definition delete_serialization_escapes_keys_and_honors_bounds : bool :=
  unwrap (ObjectKey.new "a<&b") (fun key =>
  unwrap (DeleteObjectsRequest.new [DeleteObjectIdentifier.new key]) (fun request =>
    unwrap (serialize_delete_objects request 1024) (fun text => contains_str "a&lt;&amp;b" text)
    && oversized (serialize_delete_objects request 8))).

Definition delete_serialization_retains_per_object_etag_conditions : bool :=
  unwrap (ObjectKey.new "key") (fun key =>
    let object := DeleteObjectIdentifier.Mk key None (Some (quotes "`etag`")) in
    unwrap (DeleteObjectsRequest.new [object]) (fun request =>
    unwrap (serialize_delete_objects request 1024) (fun text =>
      contains_str (quotes "<ETag>`etag`</ETag>") text))).

Definition parses_mixed_delete_results : bool :=
  let body := "<DeleteResult><Deleted><Key>good</Key></Deleted><Error><Key>bad</Key><Code>AccessDenied</Code><Message>denied</Message></Error></DeleteResult>" in
  unwrap (parse_delete_objects body 4096) (fun result =>
    expect (head (DeleteObjectsOutput.deleted result)) (fun d =>
      ObjectKey.as_str (DeletedObject.key d) == "good")
    && expect (head (DeleteObjectsOutput.errors result)) (fun e =>
         DeleteError.code e == Some "AccessDenied")).
End DeleteTests.

Theorem delete_tests_pass : all_pass
  [DeleteTests.delete_serialization_escapes_keys_and_honors_bounds;
   DeleteTests.delete_serialization_retains_per_object_etag_conditions;
   DeleteTests.parses_mixed_delete_results].
Proof. run_tests. Qed.

(** ** [protocol/listing.rs] *)

Module ListingTests.
Definition decodes_url_encoded_keys_once_and_exposes_listing_metadata : bool :=
  let body := quotes "<ListBucketResult xmlns=`http://s3.amazonaws.com/doc/2006-03-01/`><EncodingType>url</EncodingType><IsTruncated>true</IsTruncated><Contents><Key>a/b%2520c%2B%20snowman-%E2%98%83</Key><LastModified>2024-03-12T10:15:30Z</LastModified><ETag>&quot;etag&quot;</ETag><Size>7</Size><StorageClass>STANDARD</StorageClass><Owner><ID>canonical-id</ID><DisplayName>owner</DisplayName></Owner><ChecksumAlgorithm>CRC32C</ChecksumAlgorithm><ChecksumAlgorithm>SHA256</ChecksumAlgorithm><ChecksumType>COMPOSITE</ChecksumType></Contents><Contents><Key>control-%01</Key><Size>0</Size></Contents><CommonPrefixes><Prefix>a%2F</Prefix></CommonPrefixes><KeyCount>2</KeyCount><NextContinuationToken>opaque+/=</NextContinuationToken></ListBucketResult>" in
  unwrap (parse_list_objects_v2 body 8192) (fun parsed =>
    ListObjectsV2Output.is_truncated parsed
    && expect (ListObjectsV2Output.objects parsed !! 0%nat) (fun first =>
         (ObjectKey.as_str (ListedObject.key first) == "a/b%20c+ snowman-☃")
         && (ListedObject.size first == 7)
         && expect (ListedObject.owner first) (fun owner => ObjectOwner.id owner == Some "canonical-id")
         && (ListedObject.checksum_algorithms first == ["CRC32C"; "SHA256"])
         && (ListedObject.checksum_type first == Some ChecksumType.Composite))
    && expect (ListObjectsV2Output.objects parsed !! 1%nat) (fun second =>
         ObjectKey.as_str (ListedObject.key second) == "control-" +:+ String (chr 1) "")
    && (ListObjectsV2Output.common_prefixes parsed == ["a/"])
    && (ListObjectsV2Output.next_continuation_token parsed == Some "opaque+/=")).

Definition rejects_invalid_remote_keys : bool :=
  let body := "<ListBucketResult><EncodingType>url</EncodingType><Contents><Key></Key><Size>0</Size></Contents></ListBucketResult>" in
  invalid_field_error (parse_list_objects_v2 body 4096) "Contents.Key".

Definition rejects_invalid_url_encoding_without_double_decoding : bool :=
  let malformed := "<ListBucketResult><EncodingType>url</EncodingType><Contents><Key>bad%2</Key><Size>0</Size></Contents></ListBucketResult>" in
  invalid_field_error (parse_list_objects_v2 malformed 4096) "Contents.Key"
  && unwrap (decode_url_field "literal%252F" "Contents.Key") (fun value => value == "literal%2F").

Definition preserves_new_checksum_aggregation_types : bool :=
  let body := "<ListBucketResult><EncodingType>url</EncodingType><Contents><Key>key</Key><Size>0</Size><ChecksumType>NEW_MODE</ChecksumType></Contents></ListBucketResult>" in
  unwrap (parse_list_objects_v2 body 4096) (fun parsed =>
    expect (head (ListObjectsV2Output.objects parsed)) (fun first =>
      ListedObject.checksum_type first == Some (ChecksumType.Unknown "NEW_MODE"))).

(** The property test. *)
Definition pagination_tokens_remain_opaque (token : string) : bool :=
  let body := "<ListBucketResult><EncodingType>url</EncodingType><IsTruncated>true</IsTruncated><NextContinuationToken>"
              +:+ token +:+ "</NextContinuationToken></ListBucketResult>" in
  unwrap (parse_list_objects_v2 body 4096) (fun parsed =>
    ListObjectsV2Output.is_truncated parsed
    && (ListObjectsV2Output.next_continuation_token parsed == Some token)).
End ListingTests.

(** The listing that holds a token, as a tree. *)
Definition token_fields (token : string) : list (string * option string) :=
  [("EncodingType", Some "url"); ("IsTruncated", Some "true");
   ("NextContinuationToken", Some token)].
Definition is_token_byte (c : ascii) : bool := is_ascii_alphanumeric c || one_of "+/=._~-" c.

Lemma escape_token token : str_all is_token_byte token = true -> escape token = token.
Proof.
  unfold escape. induction token as [|c token IH]; [done|]. cbn [str_all str_flat_map]. intros Ht.
  bools. rewrite IH by done. by destruct c as [[] [] [] [] [] [] [] []].
Qed.

Lemma contains_str_absent c needle s : contains_char c s = false ->
  contains_str (String "<" (String c needle)) s = false.
Proof.
  induction s as [|d s IH]; [done|]. intros [Hd Hs]%contains_char_cons. cbn [contains_str].
  rewrite (IH Hs), orb_false_r. unfold starts_with. cbn [strip_prefix].
  destruct (Ascii.eqb "<" d); [|done]. destruct s as [|e s]; [done|].
  apply contains_char_cons in Hs as [He _]. cbn [strip_prefix]. by rewrite Ascii.eqb_sym, He.
Qed.

Lemma contains_bang_lower s : contains_char "!" (to_ascii_lowercase s) = contains_char "!" s.
Proof.
  unfold contains_char, to_ascii_lowercase. induction s as [|c s IH]; [done|].
  cbn [str_map str_any]. rewrite IH. f_equal. all_bytes c.
Qed.

Lemma token_listing token :
  list_bucket_document (Element "ListBucketResult" (field_elements (token_fields token)))
  = Ok (ListBucketDocument.Mk (Some "url") [] [] true (Some token) None).
Proof.
  pose proof (named_fields_absent "Contents" "ListBucketResult" (token_fields token) eq_refl) as Hc.
  pose proof (named_fields_absent "CommonPrefixes" "ListBucketResult" (token_fields token) eq_refl) as Hp.
  pose proof (named_fields_absent "KeyCount" "ListBucketResult" (token_fields token) eq_refl) as Hk.
  unfold list_bucket_document, sequence_field, default_field.
  rewrite Hc, Hp by by apply (bool_decide_unpack _).
  rewrite (optional_field_present bool_value _ (token_fields token) eq_refl "IsTruncated" "true" true ltac:(field_in))
    by done.
  unfold optional_field at 1. rewrite Hk by by apply (bool_decide_unpack _).
  unfold token_fields. by read_fields.
Qed.

Definition token_opens : string :=
  "<ListBucketResult><EncodingType>url</EncodingType><IsTruncated>true</IsTruncated><NextContinuationToken>".
Definition token_closes : string := "</NextContinuationToken></ListBucketResult>".
Definition token_body (token : string) : string := token_opens +:+ token +:+ token_closes.

Lemma token_body_written token : is_empty token = false -> str_all is_token_byte token = true ->
  token_body token = write_tree (Element "ListBucketResult" (field_elements (token_fields token))).
Proof.
  intros He Ht. destruct token as [|c token]; [done|].
  change (write_tree (Element "ListBucketResult" (field_elements (token_fields (String c token)))))
    with (token_opens +:+ (((escape (String c token) +:+ "") +:+ "</NextContinuationToken>") +:+ "")
          +:+ "</ListBucketResult>").
  by rewrite (escape_token _ Ht), !app_nil_r_str, app_assoc_str.
Qed.

Lemma token_body_bytes token : str_all is_token_byte token = true ->
  contains_char "!" (token_body token) = false /\ str_all is_ascii (token_body token) = true.
Proof.
  intros Ht. unfold token_body. rewrite !contains_char_app, !str_all_app.
  assert (contains_char "!" token = false) as ->.
  { apply (str_any_none is_token_byte); [|done]. intros c Hc. all_bytes c. }
  rewrite (str_all_impl is_token_byte is_ascii token); [by split| |done].
  intros c Hc. all_bytes c.
Qed.

(** Pagination tokens are opaque: [proptest], for every token. *)
Theorem pagination_tokens_remain_opaque_holds token :
  str_all is_token_byte token = true -> slen token <= 200 ->
  ListingTests.pagination_tokens_remain_opaque token = true.
Proof.
  intros Ht Hl. destruct (is_empty token) eqn:He.
  { destruct token; [|done]. vm_compute. reflexivity. }
  destruct (token_body_bytes token Ht) as [Hb Ha].
  assert (Hs : 4096 <? slen (token_body token) = false).
  { apply Z.ltb_ge. unfold token_body. rewrite !slen_app.
    change (slen token_opens) with 104. change (slen token_closes) with 43. lia. }
  assert (Hd : reject_dangerous_declarations (token_body token) = Ok tt).
  { unfold reject_dangerous_declarations. rewrite !contains_ignore_case_spec.
    change (to_ascii_lowercase "<!DOCTYPE") with "<!doctype".
    change (to_ascii_lowercase "<!ENTITY") with "<!entity".
    by rewrite !contains_str_absent by by rewrite contains_bang_lower. }
  unfold ListingTests.pagination_tokens_remain_opaque.
  change (unwrap (parse_list_objects_v2 (token_body token) 4096) (fun parsed =>
    ListObjectsV2Output.is_truncated parsed
    && bool_decide (ListObjectsV2Output.next_continuation_token parsed = Some token)) = true).
  unfold parse_list_objects_v2, expect_root, parse_bounded, from_utf8.
  rewrite Hs, Hd, (utf8_valid_ascii _ Ha), (token_body_written _ He Ht).
  assert (Hr : Reads (Element "ListBucketResult" (field_elements (token_fields token))))
    by by apply reads_node, reads_fields.
  cbn [de_list standard_documents read_events documents_xml]. unfold read_as, tokens.
  rewrite read_document_write by done.
  rewrite <- (app_nil_r_str (write_tree _)), (reads_tokens _ Hr).
  rewrite token_listing. change (bool_decide (Some token = Some token) = true).
  by apply bool_decide_eq_true.
Qed.

Theorem listing_tests_pass : all_pass
  [ListingTests.decodes_url_encoded_keys_once_and_exposes_listing_metadata;
   ListingTests.rejects_invalid_remote_keys;
   ListingTests.rejects_invalid_url_encoding_without_double_decoding;
   ListingTests.preserves_new_checksum_aggregation_types].
Proof. run_tests. Qed.

(** ** [protocol/multipart/tests.rs] *)

Module MultipartProtocolTests.
Definition completion_serializes_validated_parts_in_order : bool :=
  unwrap (ObjectKey.new "key") (fun key =>
  unwrap (UploadId.new "upload") (fun upload_id =>
  unwrap (CompletedPart.new 1 (quotes "`one&more`")) (fun one =>
  unwrap (CompletedPart.new 2 (quotes "`two`")) (fun two =>
  unwrap (CompleteMultipartUploadRequest.new key upload_id [one; two]) (fun request =>
  unwrap (serialize_complete_multipart_upload request 4096) (fun xml =>
    contains_str (quotes "<PartNumber>1</PartNumber><ETag>`one&amp;more`</ETag>") xml
    && expect (after "<PartNumber>1" xml) (contains_str "<PartNumber>2"))))))).

Definition detects_embedded_completion_error : bool :=
  let body := "<Error><Code>InternalError</Code><Message>failed late</Message></Error>" in
  unwrap (parse_complete_multipart_upload body 4096) (fun response =>
    match response with
    | CompleteEmbeddedError error => ParsedS3Error.code error == Some "InternalError"
    | CompleteMultipart _ => false
    end).

Definition detects_embedded_copy_error : bool :=
  let body := "<Error><Code>SlowDown</Code><Message>retry later</Message></Error>" in
  unwrap (parse_copy_object body 4096) (fun response =>
    match response with
    | CopyEmbeddedError error => ParsedS3Error.code error == Some "SlowDown"
    | CopyComplete _ => false
    end).

Definition parses_upload_part_copy_result : bool :=
  let body := "<CopyPartResult><ETag>&quot;part-etag&quot;</ETag><LastModified>2024-03-12T10:15:30Z</LastModified><ChecksumCRC32>AAAAAA==</ChecksumCRC32></CopyPartResult>" in
  unwrap (parse_upload_part_copy body 4096) (fun response =>
    match response with
    | PartCopyComplete output =>
        (cp_e_tag output == quotes "`part-etag`")
        && (Checksum.crc32 (cp_checksum output) == Some "AAAAAA==")
    | PartCopyEmbeddedError _ => false
    end).

Definition parses_multipart_listing : bool :=
  let body := "<ListMultipartUploadsResult><IsTruncated>false</IsTruncated><Upload><Key>key</Key><UploadId>upload</UploadId><Initiated>2024-03-12T10:15:30Z</Initiated></Upload></ListMultipartUploadsResult>" in
  unwrap (parse_list_multipart_uploads body 4096) (fun result =>
    expect (head (ListMultipartUploadsOutput.uploads result)) (fun upload =>
      (ObjectKey.as_str (MultipartUploadEntry.key upload) == "key")
      && (UploadId.as_str (MultipartUploadEntry.upload_id upload) == "upload"))).

Definition parses_validated_upload_id_markers : bool :=
  let body := "<ListMultipartUploadsResult><IsTruncated>true</IsTruncated><NextUploadIdMarker>next-upload</NextUploadIdMarker></ListMultipartUploadsResult>" in
  unwrap (parse_list_multipart_uploads body 4096) (fun result =>
    (UploadId.as_str <$> ListMultipartUploadsOutput.next_upload_id_marker result)
    == Some "next-upload").

Definition treats_empty_minio_next_markers_as_absent : bool :=
  let body := "<ListMultipartUploadsResult><IsTruncated>false</IsTruncated><NextKeyMarker></NextKeyMarker><NextUploadIdMarker></NextUploadIdMarker></ListMultipartUploadsResult>" in
  unwrap (parse_list_multipart_uploads body 4096) (fun result =>
    is_none (ListMultipartUploadsOutput.next_key_marker result)
    && is_none (ListMultipartUploadsOutput.next_upload_id_marker result)).

Definition rejects_invalid_upload_ids_from_service_documents : bool :=
  let create := "<InitiateMultipartUploadResult><Key>key</Key><UploadId>bad&#10;id</UploadId></InitiateMultipartUploadResult>" in
  let listing := "<ListMultipartUploadsResult><NextUploadIdMarker>bad&#10;id</NextUploadIdMarker></ListMultipartUploadsResult>" in
  invalid_field_error (parse_create_multipart_upload create 4096) "UploadId"
  && invalid_field_error (parse_list_multipart_uploads listing 4096) "NextUploadIdMarker".

Definition parses_list_parts_with_checksums_and_type : bool :=
  let body := "<ListPartsResult><IsTruncated>true</IsTruncated><NextPartNumberMarker>2</NextPartNumberMarker><ChecksumAlgorithm>CRC64NVME</ChecksumAlgorithm><ChecksumType>FULL_OBJECT</ChecksumType><Part><PartNumber>2</PartNumber><LastModified>2024-03-12T10:15:30Z</LastModified><ETag>&quot;etag&quot;</ETag><Size>17</Size><ChecksumCRC64NVME>qosUhgp5mIg=</ChecksumCRC64NVME></Part></ListPartsResult>" in
  unwrap (parse_list_parts body 4096) (fun output =>
    ListPartsOutput.is_truncated output
    && ((PartNumber.get <$> ListPartsOutput.next_part_number_marker output) == Some 2)
    && expect (head (ListPartsOutput.parts output)) (fun part =>
         (PartNumber.get (ListedPart.part_number part) == 2)
         && (ListedPart.size part == 17)
         && (Checksum.crc64_nvme (ListedPart.checksum part) == Some "qosUhgp5mIg="))
    && (ListPartsOutput.checksum_type output == Some ChecksumType.FullObject)).

Definition rejects_unordered_list_parts : bool :=
  let body := "<ListPartsResult><Part><PartNumber>2</PartNumber><ETag>a</ETag><Size>1</Size></Part><Part><PartNumber>1</PartNumber><ETag>b</ETag><Size>1</Size></Part></ListPartsResult>" in
  invalid_field_error (parse_list_parts body 4096) "Part.PartNumber".
End MultipartProtocolTests.

Theorem multipart_protocol_tests_pass : all_pass
  [MultipartProtocolTests.completion_serializes_validated_parts_in_order;
   MultipartProtocolTests.detects_embedded_completion_error;
   MultipartProtocolTests.detects_embedded_copy_error;
   MultipartProtocolTests.parses_upload_part_copy_result;
   MultipartProtocolTests.parses_multipart_listing;
   MultipartProtocolTests.parses_validated_upload_id_markers;
   MultipartProtocolTests.treats_empty_minio_next_markers_as_absent;
   MultipartProtocolTests.rejects_invalid_upload_ids_from_service_documents;
   MultipartProtocolTests.parses_list_parts_with_checksums_and_type;
   MultipartProtocolTests.rejects_unordered_list_parts].
Proof. run_tests. Qed.
