(* ===== verification/PropertyTests.v ===== *)
(** The cross-module property tests, [tests/properties.rs], proved of every input of
their strategies. That a value does not show in a formatted text is read off the text:
it has no run of bytes of the value's alphabet as long as the value. *)

From S2P Require Import Prelude Text Errors SigV4 Endpoint Http Retry Quota Types Stream Records.
From S2P Require Import Credentials Config Redaction Verify Standards Testing.
From stdpp Require Import options.
Local Open Scope Z_scope.
Local Open Scope test_scope.

#[local] Existing Instance assoc_http.

(** ** The strategies and the tests *)

Module Properties.
(** [[A-Za-z0-9]], [[A-Za-z0-9+/=]] and [[A-Za-z0-9+/=._~-]]. *)
Definition access_byte (c : ascii) : bool := is_ascii_alphanumeric c.
Definition secret_byte (c : ascii) : bool := is_ascii_alphanumeric c || one_of "+/=" c.
Definition upload_byte (c : ascii) : bool := is_ascii_alphanumeric c || one_of "+/=._~-" c.
Definition drawn (p : ascii -> bool) (low high : Z) (s : string) : Prop :=
  str_all p s = true /\ low <= slen s <= high.

Definition object_keys_round_trip_exact_utf8 (value : string) : bool :=
  match ObjectKey.new value with
  | Ok key =>
      negb (is_empty value) && (slen value <=? MAX_OBJECT_KEY_BYTES)
      && (ObjectKey.as_str key == value)
  | Err _ => MAX_OBJECT_KEY_BYTES <? slen value
  end.

Definition page_size_acceptance_matches_s3_bounds (value : Z) : bool :=
  let page_size := PageSize.new value in
  (bool_decide (is_Some page_size) == ((1 <=? value) && (value <=? PageSize.MAX)))
  && match page_size with Some page_size => PageSize.get page_size == value | None => true end.

Definition credential_and_upload_identifiers_are_redacted (access secret token upload_value : string)
  : bool :=
  unwrap (Credentials.new access secret (Some token)) (fun credentials =>
    let rendered := format credentials in
    negb (contains_str access rendered) && negb (contains_str secret rendered)
    && negb (contains_str token rendered))
  && unwrap (UploadId.new upload_value) (fun upload_id =>
       let upload_debug := format upload_id in
       let upload_display := display_upload_id upload_id in
       negb (contains_str upload_value upload_debug)
       && negb (contains_str upload_value upload_display)).

Definition client_debug_does_not_expose_credentials (access secret : string) : bool :=
  unwrap (Credentials.new access secret None) (fun credentials =>
  expect S3ConfigBuilder.default (fun builder =>
  let builder := S3ConfigBuilder.set_bucket builder "bucket" in
  let builder := S3ConfigBuilder.set_credentials_provider builder
                   (StaticCredentialsProvider.provide_credentials
                      (StaticCredentialsProvider.new credentials)) in
  unwrap (S3ConfigBuilder.build builder (fun _ => 0)) (fun config =>
    let rendered := format config in
    negb (contains_str access rendered) && negb (contains_str secret rendered)))).

Definition error_source_text_is_never_formatted (secret : string) : bool :=
  let error := S3Error.transport "std::io::error::Error" in
  let display := S3Error.display error in
  let debug := format error in
  negb (contains_str secret display) && negb (contains_str secret debug).
End Properties.

(** ** What a text cannot hold *)

(** The longest run of bytes of [p], after a run of [run] before the text. *)
Fixpoint longest_run (p : ascii -> bool) (run : Z) (s : string) : Z :=
  match s with
  | EmptyString => run
  | String c s => if p c then longest_run p (run + 1) s else Z.max run (longest_run p 0 s)
  end.

Lemma longest_run_ge p run s : run <= longest_run p run s.
Proof.
  revert run. induction s as [|c s IH]; intros run; cbn [longest_run]; [lia|].
  destruct (p c); [specialize (IH (run + 1))|]; lia.
Qed.

Lemma longest_run_mono p run run' s : run <= run' -> longest_run p run s <= longest_run p run' s.
Proof.
  revert run run'. induction s as [|c s IH]; intros run run' Hr; cbn [longest_run]; [lia|].
  destruct (p c); [apply IH|]; lia.
Qed.

Lemma longest_run_prefix p run needle s : str_all p needle = true ->
  run + slen needle <= longest_run p run (needle +:+ s).
Proof.
  revert run. induction needle as [|c needle IH]; intros run Hn.
  - change (slen "") with 0. pose proof (longest_run_ge p run s). cbn [append]. lia.
  - cbn [str_all] in Hn. bools. cbn [append longest_run]. rewrite H, slen_cons.
    specialize (IH (run + 1) H0). lia.
Qed.

Lemma longest_run_contains p needle s : str_all p needle = true ->
  contains_str needle s = true -> slen needle <= longest_run p 0 s.
Proof.
  intros Hn. induction s as [|c s IH]; cbn [contains_str]; intros H.
  - destruct needle; [done|]. by rewrite orb_false_r in H.
  - apply orb_true_iff in H as [H|H].
    + unfold starts_with in H. destruct (strip_prefix needle _) as [r|] eqn:E; [|done].
      apply strip_prefix_Some in E as ->. by apply (longest_run_prefix p 0).
    + specialize (IH H). cbn [longest_run].
      pose proof (longest_run_mono p 0 (0 + 1) s). destruct (p c); lia.
Qed.

Lemma hidden p low high needle text : Properties.drawn p low high needle ->
  longest_run p 0 text <? low = true -> contains_str needle text = false.
Proof.
  intros [Hp Hl] Ht. destruct (contains_str needle text) eqn:E; [|done].
  apply (longest_run_contains p) in E; [|done]. bools. lia.
Qed.

Lemma drawn_nonempty p low high s : Properties.drawn p low high s -> 0 < low ->
  is_empty s = false.
Proof. intros [_ Hl] Hlow. rewrite is_empty_slen. lia. Qed.

Lemma Credentials_new_ok access secret token : is_empty access = false ->
  is_empty secret = false -> token <> Some "" ->
  Credentials.new access secret token = Ok (Credentials.Mk access secret token None).
Proof.
  intros Ha Hs Ht. unfold Credentials.new, Credentials.with_expiration. rewrite Ha, Hs.
  by rewrite bool_decide_false.
Qed.

Lemma UploadId_new_ok value : is_empty value = false -> slen value <= UploadId.MAX_LENGTH ->
  position is_ascii_control value = None -> UploadId.new value = Ok (UploadId.Mk value).
Proof.
  intros He Hl Hp. unfold UploadId.new. rewrite He, Hp. by rewrite (proj2 (Z.ltb_ge _ _)).
Qed.

Lemma position_none p q s : (forall c, p c = true -> q c = false) -> str_all p s = true ->
  position q s = None.
Proof.
  intros Hpq. induction s as [|c s IH]; [done|]. cbn [str_all position]. intros Hs. bools.
  by rewrite Hpq, IH.
Qed.

(** The formatted configuration is the same whatever provides its credentials. *)
Definition default_rendered (provider : CredentialsProvider) (check : string -> bool) : bool :=
  expect S3ConfigBuilder.default (fun builder =>
  unwrap (S3ConfigBuilder.build (S3ConfigBuilder.set_credentials_provider
    (S3ConfigBuilder.set_bucket builder "bucket") provider) (fun _ => 0))
    (fun config => check (format config))).
Definition rendered_config : string :=
  match S3ConfigBuilder.default with
  | Some builder =>
      match S3ConfigBuilder.build (S3ConfigBuilder.set_bucket builder "bucket") (fun _ => 0) with
      | Ok config => format config
      | Err _ => ""
      end
  | None => ""
  end.
Lemma config_rendered provider check : default_rendered provider check = check rendered_config.
Proof. vm_compute. reflexivity. Qed.

(** ** The tests, of every draw *)

Theorem object_keys_round_trip_exact_utf8_holds value : 1 <= slen value <= 1400 ->
  Properties.object_keys_round_trip_exact_utf8 value = true.
Proof.
  intros Hl. unfold Properties.object_keys_round_trip_exact_utf8, ObjectKey.new.
  rewrite is_empty_slen. rewrite (proj2 (Z.eqb_neq _ _)) by lia.
  destruct (MAX_OBJECT_KEY_BYTES <? slen value) eqn:E; [done|]. bools.
  rewrite (proj2 (Z.leb_le _ _)) by lia. by apply bool_decide_eq_true.
Qed.

Theorem page_size_acceptance_matches_s3_bounds_holds value : 0 <= value <= U16_MAX ->
  Properties.page_size_acceptance_matches_s3_bounds value = true.
Proof.
  intros Hv. unfold Properties.page_size_acceptance_matches_s3_bounds, PageSize.new.
  destruct (value =? 0) eqn:E0; bools; [by subst|]. rewrite (proj2 (Z.leb_le 1 value)) by lia.
  destruct (value <=? PageSize.MAX); [|done]. cbn [PageSize.get]. by rewrite !bool_decide_true.
Qed.

Theorem credential_and_upload_identifiers_are_redacted_holds access secret token upload_value :
  Properties.drawn Properties.access_byte 12 40 access ->
  Properties.drawn Properties.secret_byte 12 80 secret ->
  Properties.drawn Properties.secret_byte 12 80 token ->
  Properties.drawn Properties.upload_byte 12 100 upload_value ->
  Properties.credential_and_upload_identifiers_are_redacted access secret token upload_value = true.
Proof.
  intros Ha Hs Ht Hu. unfold Properties.credential_and_upload_identifiers_are_redacted.
  pose proof (drawn_nonempty _ _ _ _ Ht ltac:(lia)) as Het.
  rewrite Credentials_new_ok, UploadId_new_ok.
  - cbn [unwrap].
    change (format (Credentials.Mk access secret (Some token) None))
      with (format (Credentials.Mk "" "" (Some "") None)).
    change (format (UploadId.Mk upload_value)) with (format (UploadId.Mk "")).
    rewrite (hidden _ _ _ _ _ Ha), (hidden _ _ _ _ _ Hs), (hidden _ _ _ _ _ Ht),
      !(hidden _ _ _ _ _ Hu) by (vm_compute; reflexivity). done.
  - by apply (drawn_nonempty _ _ _ _ Hu).
  - destruct Hu as [_ Hl]. unfold UploadId.MAX_LENGTH. lia.
  - destruct Hu as [Hp _]. apply (position_none Properties.upload_byte); [|done].
    intros c. all_bytes c.
  - by apply (drawn_nonempty _ _ _ _ Ha).
  - by apply (drawn_nonempty _ _ _ _ Hs).
  - intros [= ->]. done.
Qed.

Theorem client_debug_does_not_expose_credentials_holds access secret :
  Properties.drawn Properties.access_byte 12 40 access ->
  Properties.drawn Properties.secret_byte 12 80 secret ->
  Properties.client_debug_does_not_expose_credentials access secret = true.
Proof.
  intros Ha Hs. unfold Properties.client_debug_does_not_expose_credentials.
  rewrite Credentials_new_ok by (done || by eapply drawn_nonempty).
  etransitivity; [exact (config_rendered _ (fun rendered =>
    negb (contains_str access rendered) && negb (contains_str secret rendered)))|].
  by rewrite (hidden _ _ _ _ _ Ha), (hidden _ _ _ _ _ Hs) by (vm_compute; reflexivity).
Qed.

Theorem error_source_text_is_never_formatted_holds secret :
  Properties.drawn Properties.secret_byte 12 80 secret ->
  Properties.error_source_text_is_never_formatted secret = true.
Proof.
  intros Hs. unfold Properties.error_source_text_is_never_formatted.
  by rewrite !(hidden _ _ _ _ _ Hs) by (vm_compute; reflexivity).
Qed.

(** The shortest keys of the strategy, eight to eleven characters, include names of
fields. *)
Example client_debug_holds_a_word :
  Properties.client_debug_does_not_expose_credentials "endpoint" "0123456789ab" = false.
Proof. vm_compute. reflexivity. Qed.
