(* ===== verification/MockTests.v ===== *)
(** The tests of the client against a server, [tests/mock_client.rs], run on the
model with the server of [tests/support/mod.rs] at the other end: whole operations,
from the builder of the configuration to the parsed answer, which the XML reader of
[Serde] reads. Requests are signed with SHA-256 where a test checks a digest. A server
is a function from the number of a request to a reply; every clock stands still unless
a test says otherwise. *)

From S2P Require Import Prelude Text Errors Canonical SigV4 Endpoint Http Retry Quota Types.
From S2P Require Import Stream Download Xml Records Protocol Response Credentials Config Request.
From S2P Require Import Execute Crc Headers Calls Objects Parts Listing ToPath Verify Standards.
From S2P Require Import Testing Serde SigningTests StreamTests.
From stdpp Require Import gmap.
From stdpp Require Import options.
Local Open Scope Z_scope.
Local Open Scope test_scope.

#[local] Existing Instance assoc_http.

(** ** MD5 (RFC 1321), for the [content-md5] of a batch delete *)

Module Md5Digest.
Definition add (x y : Z) : Z := Z.land (x + y) U32_MAX.
Definition rotl (n x : Z) : Z :=
  Z.lor (Z.land (Z.shiftl x n) U32_MAX) (Z.shiftr x (32 - n)).

(** The integer parts of [2 ^ 32 * |sin i|]. *)
Definition T : list Z :=
  [0xd76aa478; 0xe8c7b756; 0x242070db; 0xc1bdceee; 0xf57c0faf; 0x4787c62a; 0xa8304613; 0xfd469501;
   0x698098d8; 0x8b44f7af; 0xffff5bb1; 0x895cd7be; 0x6b901122; 0xfd987193; 0xa679438e; 0x49b40821;
   0xf61e2562; 0xc040b340; 0x265e5a51; 0xe9b6c7aa; 0xd62f105d; 0x02441453; 0xd8a1e681; 0xe7d3fbc8;
   0x21e1cde6; 0xc33707d6; 0xf4d50d87; 0x455a14ed; 0xa9e3e905; 0xfcefa3f8; 0x676f02d9; 0x8d2a4c8a;
   0xfffa3942; 0x8771f681; 0x6d9d6122; 0xfde5380c; 0xa4beea44; 0x4bdecfa9; 0xf6bb4b60; 0xbebfbc70;
   0x289b7ec6; 0xeaa127fa; 0xd4ef3085; 0x04881d05; 0xd9d4d039; 0xe6db99e5; 0x1fa27cf8; 0xc4ac5665;
   0xf4292244; 0x432aff97; 0xab9423a7; 0xfc93a039; 0x655b59c3; 0x8f0ccc92; 0xffeff47d; 0x85845dd1;
   0x6fa87e4f; 0xfe2ce6e0; 0xa3014314; 0x4e0811a1; 0xf7537e82; 0xbd3af235; 0x2ad7d2bb; 0xeb86d391].
Definition shifts (i : Z) : Z :=
  nth (Z.to_nat (4 * (i / 16) + i mod 4)) [7; 12; 17; 22; 5; 9; 14; 20; 4; 11; 16; 23; 6; 10; 15; 21] 0.
Definition index (i : Z) : Z :=
  if i <? 16 then i else if i <? 32 then (5 * i + 1) mod 16
  else if i <? 48 then (3 * i + 5) mod 16 else (7 * i) mod 16.
Definition mix (i b c d : Z) : Z :=
  if i <? 16 then Z.lor (Z.land b c) (Z.land (Z.lxor b U32_MAX) d)
  else if i <? 32 then Z.lor (Z.land b d) (Z.land c (Z.lxor d U32_MAX))
  else if i <? 48 then Z.lxor (Z.lxor b c) d else Z.lxor c (Z.lor b (Z.lxor d U32_MAX)).

Definition step (block : list Z) (s : Z * Z * Z * Z) (i : Z) : Z * Z * Z * Z :=
  let '(a, b, c, d) := s in
  let sum := add (add a (mix i b c d)) (add (nth (Z.to_nat (index i)) block 0) (nth (Z.to_nat i) T 0)) in
  (d, add b (rotl (shifts i) sum), b, c).
Definition compress (s : Z * Z * Z * Z) (block : list Z) : Z * Z * Z * Z :=
  let '(a, b, c, d) := s in
  let '(a', b', c', d') := fold_left (step block) (seqZ 0 64) s in
  (add a a', add b b', add c c', add d d').

Definition le_bytes (n : nat) (w : Z) : string := str_rev (to_be_bytes n w).
Definition padded (m : string) : string :=
  m +:+ String (chr 128) (str_concat (replicate (Z.to_nat ((55 - slen m) mod 64)) (String (chr 0) ""))
                          +:+ le_bytes 8 (8 * slen m)).
Fixpoint words (s : string) : list Z :=
  match s with
  | String a (String b (String c (String d s))) =>
      byte d * 2 ^ 24 + byte c * 2 ^ 16 + byte b * 2 ^ 8 + byte a :: words s
  | _ => []
  end.
Fixpoint compress_all (fuel : nat) (s : Z * Z * Z * Z) (w : list Z) : Z * Z * Z * Z :=
  match fuel, w with
  | S fuel, _ :: _ => compress_all fuel (compress s (take 16 w)) (drop 16 w)
  | _, _ => s
  end.
Definition digest (m : string) : string :=
  let w := words (padded m) in
  let '(a, b, c, d) := compress_all (List.length w) (0x67452301, 0xefcdab89, 0x98badcfe, 0x10325476) w in
  le_bytes 4 a +:+ le_bytes 4 b +:+ le_bytes 4 c +:+ le_bytes 4 d.

Example md5_digests :
  hex_encode (digest "") = "d41d8cd98f00b204e9800998ecf8427e"
  /\ hex_encode (digest "message digest") = "f96b697d7cb7938d525a2f31aaf161d0"
  /\ hex_encode (digest "12345678901234567890123456789012345678901234567890123456789012345678901234567890")
     = "57edf4a22be3c955ac49da2e2107b67a".
Proof. vm_compute. repeat split. Qed.
End Md5Digest.
#[export] Instance standard_md5 : Md5 := {| md5 := Md5Digest.digest |}.

(** ** [tests/support/mod.rs] *)

Module Support.
(** The clock. *)
Definition now : Z := utc 2026 1 2 3 4 5.

Record CapturedRequest : Type := {
  method : string;
  target : string;
  headers : HeaderMap;
  body : string
}.
Definition header_values (r : CapturedRequest) (name : string) : list string :=
  omap hv_to_str (hm_get_all (headers r) (to_ascii_lowercase name)).
Definition header (r : CapturedRequest) (name : string) : option string :=
  head (header_values r name).

Inductive Reply : Type :=
| Full (status : Z) (headers : list (string * string)) (body : string)
| Truncated (status declared_length : Z) (body : string)
| Idle (status declared_length : Z)
| Stall.
Definition empty (status : Z) : Reply := Full status [] "".
Definition xml (status : Z) (body : string) : Reply :=
  Full status [("content-type", "application/xml")] body.

(** What hyper makes of a request on the wire: origin form and the bytes of its body. *)
Definition read_request `{Primitives} (sent : EndpointUrl * string * Request) : option CapturedRequest :=
  let request := sent.2 in
  uri ← rq_uri request;
  body ← match UploadTests.collect (rq_body request) with Ok body => Some body | Err _ => None end;
  Some {| method := rq_method request; target := EndpointTests.uri_path_and_query uri;
          headers := rq_headers request; body := body |}.

Definition write_head (headers : list (string * string)) : HeaderMap :=
  fold_left (fun h '(name, value) =>
    match hv_from_str value with Some v => hm_append name v h | None => h end)
    (headers ++ [("connection", "close")]) hm_empty.

(** The waits for the frames of a body; the last one finds the end of the body, a
broken connection or nothing. *)
Definition waits (body : string) (last : frame_result) : list frame_wait :=
  (fun f => {| at_operation_check := now; at_idle_check := now; frame := f; at_reset := now |})
    <$> (if is_empty body then [last] else [FrameData body; last]).
Definition content_length (n : Z) : string * string := ("content-length", to_string n).

(** What hyper makes of a reply. *)
Definition write_reply (reply : Reply) : client_answer Response :=
  match reply with
  | Full status headers body =>
      let headers := if existsb (fun h => eq_ignore_ascii_case h.1 "content-length") headers
                     then headers else headers ++ [content_length (slen body)] in
      Answered {| status := status; rsp_headers := write_head headers;
                  size_upper := Some (slen body); collect_start := now; frames := waits body NoFrame |}
  | Truncated status declared_length body =>
      Answered {| status := status; rsp_headers := write_head [content_length declared_length];
                  size_upper := Some declared_length; collect_start := now;
                  frames := waits body (FrameError "hyper::Error") |}
  | Idle status declared_length =>
      Answered {| status := status; rsp_headers := write_head [content_length declared_length];
                  size_upper := Some declared_length; collect_start := now; frames := waits "" TimedOut |}
  | Stall => ElapsedAttempt
  end.
End Support.

(** ** The harness *)

Module Mock.
Import Support.

(** A server, and the exchange whose first request is its [first]. *)
Definition Server : Type := Z -> Reply.
Definition attempt (reply : Reply) : Attempt :=
  {| at_start := now; signing := {| provider_world := tt; expiry_now := now; signing_now := now |};
     signing_elapsed := false; at_ready := now; http_client _ _ := write_reply reply;
     wall_clock := now; at_redirect := now; at_failure := now; at_retry := now;
     fastrand _ := 0; others quota := quota |}.
Definition meets (server : Server) (first : Z) : Exchange :=
  {| ex_started := now; ex_attempts := (fun i => attempt (server (first + i))) <$> [0; 1; 2] |}.
Definition call (server : Server) (first : Z) : Call :=
  {| call_now := now; body_elapsed := false; exchange := meets server first |}.

(** The end of an operation on a fresh client: its result, what the server captured
and what the observer recorded. *)
Definition run `{Primitives} {A} (m : Service A)
    (check : outcome A -> list CapturedRequest -> list RequestEventKind.t -> bool) : bool :=
  expect (m {| shared_quota := RetryQuota_new; wire := []; observed := [] |}) (fun '(s, result) =>
    check result (omap read_request (wire s)) (RequestEvent.kind <$> observed s)).

Definition endpoint : string := "http://127.0.0.1:9000".
Definition key (value : string) (check : ObjectKey.t -> bool) : bool := unwrap (ObjectKey.new value) check.

Definition client_with_observer (xml_limit idle_timeout : Z) (observer : bool)
    (check : S3Client -> bool) : bool :=
  unwrap (Credentials.new "TESTACCESSKEY" "test-secret-key" (Some "test-session-token"))
    (fun credentials =>
  expect S3ConfigBuilder.default (fun builder =>
  unwrap (Endpoint_new endpoint) (fun endpoint =>
  unwrap (RetryPolicy_new 3 (from_millis 1) (from_millis 1) (from_secs 1)) (fun policy =>
  let builder := S3ConfigBuilder.set_endpoint builder endpoint in
  let builder := S3ConfigBuilder.allow_http_for_local_testing builder in
  let builder := S3ConfigBuilder.set_bucket builder "test-bucket" in
  let builder := S3ConfigBuilder.set_region builder "us-east-1" in
  let builder := S3ConfigBuilder.set_credentials_provider builder
    (StaticCredentialsProvider.provide_credentials (StaticCredentialsProvider.new credentials)) in
  let builder := S3ConfigBuilder.set_retry_policy builder policy in
  let builder := S3ConfigBuilder.set_connect_timeout builder (from_secs 1) in
  let builder := S3ConfigBuilder.set_attempt_timeout builder (from_secs 1) in
  let builder := S3ConfigBuilder.set_operation_timeout builder (from_secs 2) in
  let builder := S3ConfigBuilder.set_idle_body_timeout builder idle_timeout in
  let builder := S3ConfigBuilder.set_max_xml_response_size builder xml_limit in
  let builder := S3ConfigBuilder.set_max_error_response_size builder 4096 in
  let builder := if observer then S3ConfigBuilder.set_observer builder else builder in
  unwrap (S3ConfigBuilder.build builder (fun _ => now)) (fun config =>
  unwrap (S3Client_new true config) check))))).
Definition client_with (xml_limit idle_timeout : Z) (check : S3Client -> bool) : bool :=
  client_with_observer xml_limit idle_timeout false check.
Definition client (check : S3Client -> bool) : bool :=
  client_with (1024 * 1024) (from_millis 100) check.
End Mock.

(** ** [tests/mock_client.rs] *)

Module MockClientTests.
Import Support Mock.
Section tests.
Context `{!Primitives}.

Definition holds (o : option string) (part : string) : bool := expect o (contains_str part).

Definition custom_headers_are_signed_and_preserved_across_retries : bool :=
  let server attempt := if attempt =? 1 then empty 500 else empty 200 in
  client (fun client => key "custom-headers" (fun key =>
    let headers := hm_append "x-example" "two" (hm_append "x-example" "one" hm_empty) in
    let headers := hm_insert "user-agent" "custom-agent" headers in
    let request := PutObjectRequest.with_headers (PutObjectRequest.new key (SourceBytes "body")) headers in
    run (put_object client request (call server 1)) (fun result requests _ =>
      is_ok result && (List.length requests == 2%nat)
      && forallb (fun request =>
           (header_values request "x-example" == ["one"; "two"])
           && (header request "user-agent" == Some "custom-agent")
           && holds (header request "authorization") "x-example"
           && holds (header request "authorization") "user-agent") requests))).

Definition every_primitive_operation_sends_and_signs_custom_headers : bool :=
  let server attempt :=
    if attempt =? 5 then xml 200 "<DeleteResult/>"
    else if attempt =? 6
    then xml 200 "<CopyObjectResult><ETag>&quot;copy&quot;</ETag></CopyObjectResult>"
    else if attempt =? 7
    then xml 200 "<ListBucketResult><EncodingType>url</EncodingType><IsTruncated>false</IsTruncated></ListBucketResult>"
    else if attempt =? 8
    then xml 200 "<InitiateMultipartUploadResult><Key>multipart</Key><UploadId>upload</UploadId></InitiateMultipartUploadResult>"
    else if attempt =? 9 then Full 200 [("etag", quoted "part")] ""
    else if attempt =? 10
    then xml 200 "<CopyPartResult><ETag>&quot;part-copy&quot;</ETag></CopyPartResult>"
    else if attempt =? 11
    then xml 200 "<CompleteMultipartUploadResult><Key>multipart</Key></CompleteMultipartUploadResult>"
    else if attempt =? 13
    then xml 200 "<ListMultipartUploadsResult><IsTruncated>false</IsTruncated></ListMultipartUploadsResult>"
    else if attempt =? 14
    then xml 200 "<ListPartsResult><IsTruncated>false</IsTruncated></ListPartsResult>"
    else empty 200 in
  let custom operation := hm_insert "x-operation" operation hm_empty in
  client (fun client =>
  key "put" (fun put => key "get" (fun get => key "head" (fun head_key => key "delete" (fun delete =>
  key "batch" (fun batch => key "source" (fun source_key => key "copy" (fun copy =>
  key "multipart" (fun multipart =>
  unwrap (UploadId.new "upload") (fun upload_id =>
  expect (PartNumber.new 1) (fun one => expect (PartNumber.new 2) (fun two =>
  unwrap (CompletedPart.new 1 (quoted "part")) (fun part =>
  unwrap (DeleteObjectsRequest.new [DeleteObjectIdentifier.new batch]) (fun deletes =>
  unwrap (CompleteMultipartUploadRequest.new multipart upload_id [part]) (fun complete =>
    let source := CopySource.Mk "source" source_key None in
    let session : Service unit :=
      let! _ := put_object client (PutObjectRequest.with_headers
                  (PutObjectRequest.new put (SourceBytes "body")) (custom "put")) (call server 1) in
      let! _ := get_object client (GetObjectRequest.with_headers (GetObjectRequest.new get) (custom "get"))
                  (call server 2) now (fun _ => 0%nat) in
      let! _ := head_object client (HeadObjectRequest.with_headers (HeadObjectRequest.new head_key)
                  (custom "head")) (call server 3) in
      let! _ := delete_object client (DeleteObjectRequest.with_headers (DeleteObjectRequest.new delete)
                  (custom "delete")) (call server 4) in
      let! _ := delete_objects client (DeleteObjectsRequest.with_headers deletes (custom "delete-objects"))
                  (call server 5) in
      let! _ := copy_object client (CopyObjectRequest.with_headers (CopyObjectRequest.new source copy)
                  (custom "copy")) (call server 6) in
      let! _ := list_objects_v2 client (ListObjectsV2Request.with_headers ListObjectsV2Request.default
                  (custom "list-objects")) (call server 7) in
      let! _ := create_multipart_upload client (CreateMultipartUploadRequest.with_headers
                  (CreateMultipartUploadRequest.new multipart) (custom "create")) (call server 8) in
      let! _ := upload_part client (UploadPartRequest.with_headers
                  (UploadPartRequest.new multipart upload_id one (SourceBytes "part"))
                  (custom "upload-part")) (call server 9) in
      let! _ := upload_part_copy client (UploadPartCopyRequest.with_headers
                  (UploadPartCopyRequest.new multipart upload_id two source)
                  (custom "upload-part-copy")) (call server 10) in
      let! _ := complete_multipart_upload client (CompleteMultipartUploadRequest.with_headers complete
                  (custom "complete")) (call server 11) in
      let! _ := abort_multipart_upload client (AbortMultipartUploadRequest.with_headers
                  (AbortMultipartUploadRequest.new multipart upload_id) (custom "abort")) (call server 12) in
      let! _ := list_multipart_uploads client (ListMultipartUploadsRequest.with_headers
                  (ListMultipartUploadsRequest.Mk None None None None PageSize.default hm_empty)
                  (custom "list-uploads")) (call server 13) in
      let! _ := list_parts client (ListPartsRequest.with_headers
                  (ListPartsRequest.new multipart upload_id) (custom "list-parts")) (call server 14) in
      return! (Ok tt) in
    run session (fun result requests _ =>
      is_ok result && (List.length requests == 14%nat)
      && forallb (fun request =>
           negb (is_none (header request "x-operation"))
           && holds (header request "authorization") "x-operation") requests)))))))))))))))).

Definition signs_requests_with_required_sigv4_headers : bool :=
  let server _ := empty 204 in
  client (fun client => key "signed/object" (fun key =>
    run (delete_object client (DeleteObjectRequest.new key) (call server 1)) (fun result requests _ =>
      is_ok result && (List.length requests == 1%nat)
      && expect (head requests) (fun request =>
           (method request == "DELETE")
           && (target request == "/test-bucket/signed/object")
           && expect (header request "authorization")
                (starts_with "AWS4-HMAC-SHA256 Credential=TESTACCESSKEY/")
           && negb (is_none (header request "x-amz-date"))
           && negb (is_none (header request "x-amz-content-sha256"))
           && (header request "x-amz-security-token" == Some "test-session-token"))))).

Definition retries_throttling_responses_up_to_the_configured_attempt_count : bool :=
  let server attempt :=
    if attempt <? 3
    then xml 503 "<Error><Code>SlowDown</Code><Message>Reduce request rate</Message></Error>"
    else empty 204 in
  client (fun client => key "retry-me" (fun key =>
    run (delete_object client (DeleteObjectRequest.new key) (call server 1)) (fun result requests _ =>
      is_ok result && (List.length requests == 3%nat)))).

Definition observer_records_complete_retry_lifecycle : bool :=
  let server attempt :=
    if attempt =? 1 then xml 503 "<Error><Code>SlowDown</Code></Error>" else empty 204 in
  client_with_observer (1024 * 1024) (from_millis 100) true (fun client => key "observed" (fun key =>
    run (delete_object client (DeleteObjectRequest.new key) (call server 1)) (fun result _ events =>
      is_ok result
      && (events == [RequestEventKind.AttemptStarted; RequestEventKind.RetryScheduled;
                     RequestEventKind.AttemptStarted; RequestEventKind.AttemptSucceeded])))).

(** The copy that the tests of embedded errors make. *)
Definition copy_to_destination (metadata : CopyMetadataDirective.t)
    (check : CopyObjectRequest.t -> bool) : bool :=
  key "source" (fun source => key "destination" (fun destination =>
    check (CopyObjectRequest.Mk (CopySource.Mk "source-bucket" source None) destination
             Conditions.default metadata hm_empty))).

Definition retries_embedded_copy_errors_returned_with_http_200 : bool :=
  let server attempt :=
    if attempt =? 1
    then xml 200 "<Error><Code>SlowDown</Code><Message>retry later</Message></Error>"
    else xml 200 ("<CopyObjectResult><ETag>" +:+ quoted "copied" +:+ "</ETag></CopyObjectResult>") in
  client (fun client => copy_to_destination CopyMetadataDirective.Copy (fun request =>
    run (copy_object client request (call server 1)) (fun result requests _ =>
      unwrap result (fun output => CopyObjectOutput.e_tag output == Some (quoted "copied"))
      && (List.length requests == 2%nat)))).

Definition retries_interrupted_collected_copy_responses : bool :=
  let server attempt :=
    if attempt =? 1 then Truncated 200 100 "<CopyObjectResult>"
    else xml 200 "<CopyObjectResult><ETag>&quot;copied&quot;</ETag></CopyObjectResult>" in
  client (fun client => copy_to_destination CopyMetadataDirective.Copy (fun request =>
    run (copy_object client request (call server 1)) (fun result requests _ =>
      unwrap result (fun output => CopyObjectOutput.e_tag output == Some (quoted "copied"))
      && (List.length requests == 2%nat)))).

Definition does_not_retry_permanent_embedded_copy_errors : bool :=
  let server _ := xml 200 "<Error><Code>AccessDenied</Code><Message>copy denied</Message></Error>" in
  client (fun client => copy_to_destination CopyMetadataDirective.Copy (fun request =>
    run (copy_object client request (call server 1)) (fun result requests _ =>
      unwrap_err result (fun error =>
        (S3Error.category error == ErrorCategory.Authorization)
        && (S3Error.attempts error == 1)
        && (S3Error.retry_stop_reason error == Some RetryStopReason.NonRetryable))
      && (List.length requests == 1%nat)))).

Definition complete_multipart_reply (key : string) : Reply :=
  xml 200 ("<CompleteMultipartUploadResult><Bucket>test-bucket</Bucket><Key>" +:+ key
           +:+ "</Key><ETag>" +:+ quoted "complete" +:+ "</ETag></CompleteMultipartUploadResult>").

Definition retries_embedded_complete_multipart_errors_returned_with_http_200 : bool :=
  let server attempt :=
    if attempt =? 1
    then xml 200 "<Error><Code>InternalError</Code><Message>retry later</Message></Error>"
    else complete_multipart_reply "completed" in
  client (fun client => key "completed" (fun key =>
  unwrap (UploadId.new "upload-id") (fun upload_id =>
  unwrap (CompletedPart.new 1 (quoted "part-one")) (fun part =>
  unwrap (CompleteMultipartUploadRequest.new key upload_id [part]) (fun request =>
    run (complete_multipart_upload client request (call server 1)) (fun result requests _ =>
      unwrap result (fun output => CompleteMultipartUploadOutput.e_tag output == Some (quoted "complete"))
      && (List.length requests == 2%nat))))))).

Definition copy_metadata_behavior_is_explicit_on_the_wire : bool :=
  let server _ := xml 200 ("<CopyObjectResult><ETag>" +:+ quoted "copied" +:+ "</ETag></CopyObjectResult>") in
  client (fun client =>
  copy_to_destination (CopyMetadataDirective.Replace (Some "text/plain") [("purpose", "test")])
    (fun request =>
    run (copy_object client request (call server 1)) (fun result requests _ =>
      is_ok result && expect (head requests) (fun request =>
        (header request "x-amz-metadata-directive" == Some "REPLACE")
        && (header request "content-type" == Some "text/plain")
        && (header request "x-amz-meta-purpose" == Some "test"))))).

Definition does_not_retry_a_non_replayable_upload_body : bool :=
  let server _ := xml 503 "<Error><Code>SlowDown</Code></Error>" in
  let bytes := "one-shot" in
  let body := SourceStream [Chunk bytes] (slen bytes) (sha256 bytes) in
  client (fun client => key "one-shot" (fun key =>
    run (put_object client (PutObjectRequest.new key body) (call server 1)) (fun result requests _ =>
      unwrap_err result (fun error =>
        (S3Error.category error == ErrorCategory.Throttling)
        && (S3Error.attempts error == 1)
        && (S3Error.retry_stop_reason error == Some RetryStopReason.NonReplayable))
      && (List.length requests == 1%nat)
      && expect (head requests) (fun request => Support.body request == bytes)))).

Definition upload_part_copy_sends_range_and_source_on_the_wire : bool :=
  let server _ := xml 200 "<CopyPartResult><LastModified>2024-03-12T10:15:30Z</LastModified><ETag>&quot;part-copy&quot;</ETag></CopyPartResult>" in
  client (fun client => key "destination" (fun destination => key "source key" (fun source =>
  unwrap (UploadId.new "upload/opaque") (fun upload_id =>
  expect (PartNumber.new 3) (fun part_number =>
  unwrap (CopyPartRange.new 10 29) (fun range =>
    let request := UploadPartCopyRequest.Mk destination upload_id part_number
      (CopySource.Mk "source-bucket" source (Some "version+id")) (Some range) Conditions.default
      hm_empty in
    run (upload_part_copy client request (call server 1)) (fun result requests _ =>
      unwrap result (fun output => UploadPartCopyOutput.e_tag output == quoted "part-copy")
      && expect (head requests) (fun request =>
           (target request == "/test-bucket/destination?partNumber=3&uploadId=upload%2Fopaque")
           && (header request "x-amz-copy-source"
               == Some "/source-bucket/source%20key?versionId=version%2Bid")
           && (header request "x-amz-copy-source-range" == Some "bytes=10-29"))))))))).

Definition list_parts_all_advances_markers_on_the_wire : bool :=
  let server attempt :=
    if attempt =? 1
    then xml 200 "<ListPartsResult><IsTruncated>true</IsTruncated><NextPartNumberMarker>1</NextPartNumberMarker><Part><PartNumber>1</PartNumber><ETag>&quot;one&quot;</ETag><Size>5</Size></Part></ListPartsResult>"
    else xml 200 "<ListPartsResult><IsTruncated>false</IsTruncated><Part><PartNumber>2</PartNumber><ETag>&quot;two&quot;</ETag><Size>4</Size></Part></ListPartsResult>" in
  client (fun client => key "parts" (fun key =>
  unwrap (UploadId.new "upload-id") (fun upload_id =>
    run (list_parts_all client (ListPartsRequest.new key upload_id) 3 now
           (meets server <$> [1; 2; 3])) (fun result requests _ =>
      unwrap result (fun pages => List.length pages == 2%nat)
      && expect (requests !! 0%nat) (fun request => contains_str "uploadId=upload-id" (target request))
      && expect (requests !! 1%nat) (fun request =>
           contains_str "part-number-marker=1" (target request)))))).

Definition rejects_oversized_and_malformed_listing_xml : bool :=
  let oversized _ := xml 200 (repeated "x" 65) in
  let malformed _ := xml 200 "<ListBucketResult><broken>" in
  client_with 64 (from_millis 100) (fun client =>
    run (list_objects_v2 client ListObjectsV2Request.default (call oversized 1)) (fun result _ _ =>
      unwrap_err result (fun error => S3Error.category error == ErrorCategory.OversizedResponse)))
  && client (fun client =>
       run (list_objects_v2 client ListObjectsV2Request.default (call malformed 1)) (fun result _ _ =>
         unwrap_err result (fun error => S3Error.category error == ErrorCategory.InvalidResponse))).

(** [while let Some(chunk) = body.next().await]. *)
Fixpoint collect_download (fuel : nat) (body : ResponseStream) (bytes : string) : option (outcome string) :=
  match fuel with
  | O => None
  | S fuel =>
      '(item, body) ← ResponseStreamTests.next [now] body;
      match item with
      | None => Some (Ok bytes)
      | Some (Ok chunk) => collect_download fuel body (bytes +:+ chunk)
      | Some (Err error) => Some (Err error)
      end
  end.
Definition download (client : S3Client) (server : Server) (name : string)
    (check : outcome string -> bool) : bool :=
  key name (fun key =>
    run (get_object client (GetObjectRequest.new key) (call server 1) now (fun _ => 0%nat))
      (fun result _ _ => unwrap result (fun output =>
         expect (collect_download (S (S (List.length (inner (go_body output))))) (go_body output) "")
           check))).

Definition detects_truncated_downloads : bool :=
  let server _ := Truncated 200 5 "abc" in
  client (fun client => download client server "truncated" (fun result =>
    unwrap_err result (fun error => S3Error.category error == ErrorCategory.Integrity))).

(** The body is polled when it is made and when its timer fires. *)
Definition times_out_an_idle_download_body : bool :=
  let server _ := Idle 200 1 in
  client_with 1024 (from_millis 25) (fun client => key "idle" (fun key =>
    run (get_object client (GetObjectRequest.new key) (call server 1) now (fun _ => 2%nat))
      (fun result _ _ => unwrap result (fun output =>
         expect (ResponseStreamTests.next [now; now + from_millis 25] (go_body output)) (fun '(item, _) =>
         expect item (fun chunk => unwrap_err chunk (fun error =>
           (S3Error.category error == ErrorCategory.Timeout)
           && (S3Error.timeout_phase error == Some TimeoutPhase.ResponseBody)))))))).

Definition sha256_base64 (bytes : string) : string := base64_encode (sha256 bytes).
Definition full_object (checksum body : string) : Reply :=
  Full 200 [("x-amz-checksum-sha256", checksum); ("x-amz-checksum-type", "FULL_OBJECT")] body.

Definition verifies_a_full_object_sha256_checksum_at_download_eof : bool :=
  let expected := "checksum protected body" in
  let server _ := full_object (sha256_base64 expected) expected in
  client (fun client => download client server "checksummed" (fun result =>
    unwrap result (fun bytes => bytes == expected))).

Definition reports_a_full_object_sha256_mismatch_at_download_eof : bool :=
  let server _ :=
    Full 200 [("x-amz-checksum-sha256", sha256_base64 "expected body")] "corrupted body" in
  client (fun client => download client server "checksum-mismatch" (fun result =>
    unwrap_err result (fun error =>
      (S3Error.category error == ErrorCategory.Integrity)
      && (S3Error.retry_classification error == RetryClassification.Never)))).

(** A directory with the destination in it, on a file system that works; the check is
told the result and what the destination holds in the end. *)
Definition working : FileIo := {|
  io_cancelled := false; io_create directory := Ok (directory +:+ "/.tmp"); io_clone := Ok tt;
  io_write_all _ := Ok tt; io_flush := Ok tt; io_between := []; io_torn := "";
  io_sync := Ok tt; io_persist := Ok tt; io_remove := true |}.
Definition download_to_object (client : S3Client) (server : Server) (name : string)
    (check : outcome DownloadToPathOutput -> option string -> bool) : bool :=
  let destination := "/directory/object" in
  key name (fun key =>
    expect (download_to_path client (GetObjectRequest.new key) destination (call server 1) now
              (fun _ => 0%nat) (repeat (now, now) 8) working {[destination := "old"]}
              {| shared_quota := RetryQuota_new; wire := []; observed := [] |})
      (fun '(states, _, result) => check result (last states ≫= lookup destination))).

Definition atomic_download_replaces_destination_only_after_verification : bool :=
  let expected := "verified replacement" in
  let server _ := full_object (sha256_base64 expected) expected in
  client (fun client => download_to_object client server "atomic" (fun result content =>
    unwrap result (fun output => dl_bytes_written output == slen expected)
    && (content == Some expected))).

Definition failed_atomic_download_preserves_existing_destination : bool :=
  let server _ := full_object (sha256_base64 "different bytes") "corrupted" in
  client (fun client => download_to_object client server "atomic-failure" (fun result content =>
    unwrap_err result (fun error => S3Error.category error == ErrorCategory.Integrity)
    && (content == Some "old"))).

Definition rejects_repeated_pagination_tokens : bool :=
  let server _ := xml 200 "<ListBucketResult><EncodingType>url</EncodingType><IsTruncated>true</IsTruncated><NextContinuationToken>repeat</NextContinuationToken></ListBucketResult>" in
  client (fun client =>
    run (list_objects_v2_all client ListObjectsV2Request.default 5 now (meets server <$> [1; 2; 3; 4; 5]))
      (fun result requests _ =>
        unwrap_err result (fun error => S3Error.category error == ErrorCategory.InvalidResponse)
        && (List.length requests == 2%nat)
        && forallb (fun request => contains_str "encoding-type=url" (target request)) requests)).

(** Nothing is handed over for another authority than the redirecting server's. *)
Definition does_not_forward_credentials_or_custom_headers_to_a_custom_redirect_target : bool :=
  let redirect_target := "http://127.0.0.1:9001/stolen" in
  let redirector _ :=
    Full 307 [("location", redirect_target); ("x-amz-bucket-region", "us-west-2")] "" in
  client (fun client => key "redirected" (fun key =>
    let headers := hm_append "x-example" "two" (hm_append "x-example" "one" hm_empty) in
    let request := DeleteObjectRequest.with_headers (DeleteObjectRequest.new key) headers in
    expect (delete_object client request (call redirector 1)
              {| shared_quota := RetryQuota_new; wire := []; observed := [] |}) (fun '(s, result) =>
      is_err result
      && match wire s with
         | [sent] =>
             expect (rq_uri sent.2) (fun uri => (auth_str <$> uri_authority uri) == Some "127.0.0.1:9000")
             && expect (read_request sent) (fun request =>
                  (header_values request "x-example" == ["one"; "two"])
                  && holds (header request "authorization") "x-example")
         | _ => false
         end))).
End tests.
End MockClientTests.

(** The tests that check no digest of their own are run with a digest that is faster to
compute; a signature is then another string of as many digits. *)
Definition fast_digest (s : string) : string :=
  let fix go s acc := match s with
                      | EmptyString => acc
                      | String c s => go s (Z.land (acc * 31 + byte c) U64_MAX)
                      end in
  let half := to_be_bytes 8 (go s 17) +:+ to_be_bytes 8 (go s 1729) in half +:+ half.
Definition fast : Primitives := {|
  sha256 := fast_digest; hmac key message := Some (fast_digest (key +:+ message));
  format_amz_date := @format_amz_date standard_primitives;
  format_date := @format_date standard_primitives |}.

Section with_fast_digests.
#[local] Existing Instance fast.

Theorem mock_operation_tests_pass : all_pass
  [MockClientTests.every_primitive_operation_sends_and_signs_custom_headers;
   MockClientTests.copy_metadata_behavior_is_explicit_on_the_wire;
   MockClientTests.upload_part_copy_sends_range_and_source_on_the_wire;
   MockClientTests.list_parts_all_advances_markers_on_the_wire;
   MockClientTests.rejects_oversized_and_malformed_listing_xml;
   MockClientTests.rejects_repeated_pagination_tokens].
Proof. run_tests. Qed.

Theorem mock_retry_tests_pass : all_pass
  [MockClientTests.custom_headers_are_signed_and_preserved_across_retries;
   MockClientTests.retries_throttling_responses_up_to_the_configured_attempt_count;
   MockClientTests.observer_records_complete_retry_lifecycle;
   MockClientTests.retries_embedded_copy_errors_returned_with_http_200;
   MockClientTests.retries_interrupted_collected_copy_responses;
   MockClientTests.does_not_retry_permanent_embedded_copy_errors;
   MockClientTests.retries_embedded_complete_multipart_errors_returned_with_http_200;
   MockClientTests.does_not_retry_a_non_replayable_upload_body;
   MockClientTests.does_not_forward_credentials_or_custom_headers_to_a_custom_redirect_target].
Proof. run_tests. Qed.

End with_fast_digests.

Theorem mock_signed_tests_pass : all_pass
  [MockClientTests.signs_requests_with_required_sigv4_headers;
   MockClientTests.detects_truncated_downloads;
   MockClientTests.times_out_an_idle_download_body;
   MockClientTests.verifies_a_full_object_sha256_checksum_at_download_eof;
   MockClientTests.reports_a_full_object_sha256_mismatch_at_download_eof;
   MockClientTests.atomic_download_replaces_destination_only_after_verification;
   MockClientTests.failed_atomic_download_preserves_existing_destination].
Proof. run_tests. Qed.
